(* ===== verification/_CoqProject ===== *)
-Q . S2P
Prelude.v
Python.v
Loop.v
Opcodes.v
Parser.v
Alu.v
Cpu.v
Frame.v
Trace.v
Dispatch.v
Run.v
Footprint.v
Stack.v
Exceptions.v
Exec.v
Isa.v
Fragment.v
Programs.v
Path.v
Cli.v
