(* ===== verification/Prelude.v ===== *)
(** * LS-8 emulator: a verification development

    The program is an emulator of the LS-8, an 8-bit stored-program computer,
    written in Python: [src/cpu.py] holds the machine ([class CPU]: eight
    registers, 256 cells of memory, a program counter, a flags register, an
    ALU driven by a table of lambdas, a dispatcher driven by tables of bound
    methods, and the fetch-decode-execute loop [run]); [src/ls8.py] is the
    command line front end: [resolve_program] turns the first argument
    into the path of a program file, [main] reads and parses the file and
    calls [load] and [run], and the [__main__] block reports a missing
    argument and a missing file.

    ** How the Python is modelled

    - Python integers are unbounded: every register, memory cell, [pc] and
      [fl] is a [Z].  Nothing in [src/cpu.py] masks a value to 8 bits, so the
      model does not either; where the specification promises 8-bit wrap
      around, the theorems say what the code does instead.  [&], [|], [^],
      [<<], [>>] and [%] are [Z.land], [Z.lor], [Z.lxor], [Z.shiftl],
      [Z.shiftr] and [Z.modulo], which agree with Python on negative numbers
      (two's complement, floor division).
    - A Python list is a [list Z]; [l[i]] and [l[i] = v] are [getitem] and
      [setitem] of [Python.v]: an index in [-len, 0) counts from the end and
      any other index outside [0, len) raises [IndexError].  The methods
      ([reg_get], [reg_set], [ram_read], [ram_write]) are written with
      them.  [R], [mem], [write_reg] and [write_mem] of [Cpu.v] are total
      functions that agree with the subscripts on register numbers 0..7
      and addresses 0..255; they appear in statements under these
      conditions only.
    - A [dict] used as a jump table is a [gmap Z _] built by [dict] from the
      zipped key and value lists, as the source builds it.
    - Exceptions are values: a method is a function [M cpu A], that is
      [cpu -> result A * cpu].  The state is returned on the error path too,
      because a Python exception leaves the object as the statements before
      it mutated it.  [stdout] (what [print] wrote) is a field of the state.
    - [while True] is [while_true] of [Loop.v], a loop with fuel: [None] means
      that the fuel ran out while the machine was still running.  Every
      theorem that says a program halts exhibits the fuel; [while_true_mono]
      shows that more fuel never changes a result.
    - The locals [a] and [b] of [run] survive from one iteration to the next
      and are unbound until an instruction with operands has been fetched;
      [Run.v] carries them through the loop as [locals].
    - What the process sees of its surroundings is a value of type [world]
      ([Cli.v]): [sys.argv], [__file__], the working directory, and the
      file system as a finite map from normal absolute paths to
      directories and text files.  [os.path] is [posixpath], written after
      the library's source ([Path.v]).  [try]/[except] is [try_except]: a
      handler runs from the state the exception left, and an exception no
      clause matches is the result of the script.
    - The definitions that model library code ([int], [str.strip],
      [str.split], [readlines], [posixpath]) and the script as a whole
      were run against Python on several hundred inputs and on the
      scenarios of [example_world]; they agree on all of them.

    ** Files

    - [Prelude.v] (this file): exceptions [exn], [result], the state and
      exception monad [M] with the instances that give it stdpp's [x ← m; k]
      notation, [try_except], the invariant interface [Preserves], the
      exception typing [Throws] with its rules as instances, the hint
      database [ls8], the tactics [mstep]/[msimpl], and the facts on [Z]
      bit operations that the components share.
    - [Python.v]: Python indexing of a list ([py_index], [getitem],
      [setitem]), [dict(zip(keys, values))], the call of a stored lambda
      with its arity check, the operators that can raise ([<<], [>>], [%]),
      [str] of an integer.  Theorems: the subscript laws (read after
      write, frame, idempotence) and the lookup laws of a zipped table.
    - [Loop.v]: the fuelled [while True] loop, generic in the state and the
      locals, its step relation [loop_step], soundness and completeness of
      the fuelled loop against it, fuel monotonicity, the invariant rule.
    - [Opcodes.v]: the opcode constants of [src/cpu.py] lines 6-50, the
      operand count of the decoder (line 226) and the classification of
      opcodes into those with and without behaviour.
    - [Parser.v]: the expression of [main] in [src/ls8.py] (lines 19-20)
      that turns the lines of the program file into bytes: [strip],
      [split('#')[0]] and [int(n, 2)] with its sign, prefix and
      underscores, on ASCII strings; the white space of [int] is not
      that of [strip], which also removes the separators 28-31.
      Theorems: a file in the format of the specification parses to the
      bytes it was written from, blank and comment lines are skipped,
      the first malformed line raises [ValueError], and what [int(n, 2)]
      accepts beyond eight digits.
    - [Alu.v]: the lambdas [ALU_OP_FUNC] and the table [ALU_DISPATCH]
      (lines 30-34), proved equal to a case analysis [alu_switch]; what
      each ALU operation computes on all integers, which ones stay within
      a byte, which ones raise, and the agreement with the 8-bit ALU of
      the specification ([alu8]) modulo 256.
    - [Cpu.v]: the record [cpu] (the attributes of [class CPU] and what
      was printed), the constructor [CPU_init], and the methods below the
      dispatcher, one definition each: [ram_read], [ram_write], [load],
      [alu], [push_mdr], [pop_mdr], [push_from_reg], [pop_to_reg],
      [ldi_foo], [print_foo], [cmp_foo], [jmp_foo], [jeq_foo], [jne_foo].
      Theorems: the invariant [wf] (8 registers, 256 cells, flags within
      three bits) through the interface [Preserves]; the result and final
      state of every method on a well-formed state, error paths included;
      what [load] leaves in memory; the stack round trip and where it
      fails; compare-then-jump.
    - [Frame.v]: the frame conditions of the methods.  [clobbers F s s']
      says that [s'] is [s] except for the parts of the state listed in
      [F] (registers, program counter, flags, memory, output) and that
      the output has only grown; it is a preorder and so an invariant
      for [Preserves].  Theorems: one instance per method with the parts
      it assigns, error paths included.
    - [Trace.v]: the debugging aid [trace] (lines 102-120), which [run]
      never calls, with the [%02X] formatting.  Theorems: the digits
      written are the digits of the number, [trace] changes nothing but
      the output, the line it prints, and the [IndexError] it raises
      within two cells of the end of the memory.
    - [Dispatch.v]: the method [dispatch] with its two handler tables, its
      fall back to the ALU table and its calling convention on [None]
      operands.  Theorems: the tables as a case analysis, the state
      [dispatch] leaves for every opcode of its tables (it calls the
      handler and returns nothing, whatever its docstring says),
      [TypeError] on a wrong arity, silence on an opcode in no table.
    - [Run.v]: fetch and decode ([fetch_operands]), the evaluation part of
      an iteration ([evaluate]), the body [run_body], [run] with fuel, the
      step relation [step].  Theorems: one lemma per instruction giving the
      state after an iteration; what happens to opcodes without behaviour;
      [wf] over whole runs; determinism and fuel monotonicity; the
      correspondence of [run] with [step]; CALL followed by RET.
    - [Footprint.v]: the frame conditions carried through [dispatch] and
      the loop.  [footprint IR] lists what an iteration may change when
      the opcode at [pc] is [IR].  Theorems: an iteration changes nothing
      outside the footprint of its opcode, and the footprint is exact;
      a run from a memory without the bytes of PUSH and CALL writes no
      cell; a run from a memory without the bytes of the jumps and of
      PUSH terminates, because every iteration moves the program counter
      forward; the output of a run is the output before it followed by
      what its iterations printed ([printed]: the decimal value of a
      register and a line feed at a PRN that does not raise, nothing
      anywhere else).
    - [Stack.v]: the stack as a list.  [stack_of] reads the cells from the
      stack pointer up to [0xF4], top first.  Theorems: [push_mdr] and
      [pop_mdr] implement push and pop on that list, with the rule of the
      code for a pop on the empty stack; any number of pushes followed by
      as many pops returns the values in reverse and restores the stack;
      CALL pushes the return address and RET takes it off.
    - [Exceptions.v]: the exceptions each method can raise, as instances
      of [Throws], composed through the dispatcher and the loop.
      Theorems: every method but [alu] fails with [IndexError] only; [run]
      ends with [IndexError], [ZeroDivisionError], [ValueError] or
      [UnboundLocalError] and never with [TypeError] or the [Exception] of
      [alu], because the decoder reads as many operands as the handler of
      the opcode takes ([fetched], [arity_ok]); each of the four is raised
      by some program.
    - [Exec.v]: the tactic [run_step], which executes the instruction at
      [pc] in a goal about [run_from] by the lemma of its opcode and
      keeps the state an explicit record, so that programs run on
      registers and operands that are variables.
    - [Isa.v]: the 8-bit machine of the specification ([spec_step],
      [spec_run]), written from the specification and not from the source,
      and the refinement theorems: from a state of bytes an iteration of
      [run] does what the specification's step does, up to the truncation
      to 8 bits the code leaves out ([wrap_state]); along a run whose
      states need no truncation ([safe]) the two machines end in the same
      state; a fault of the specification's machine is the matching Python
      exception of the code, except for opcodes without behaviour.
    - [Fragment.v]: where the code is the machine of the specification.
      A state is [quiet] when the instruction at [pc] and the program
      counter after it lie within the memory, the opcode is none of ADD,
      SUB, MUL, INC, DEC and SHL, and a PUSH or CALL finds the stack
      pointer above 0; the condition is decidable and speaks of the
      specification's states only.  Theorems: from a quiet state of bytes
      an iteration leaves bytes everywhere; along quiet states [run] ends
      in the specification's final state; an opcode is one of the six if
      and only if some iteration from a state of bytes leaves a value
      outside 0..255 in one of R0 to R6 (for the other opcodes by the
      invariants [bytes8] and [same_general] and by the footprint).
    - [Programs.v]: [main] of [src/ls8.py] from the lines of the program
      file on (lines 19-23: parse, [CPU()], [load], [run]), the end-to-end
      scenarios of the specification run by computation, the programs on
      which code and specification part, and a program that diverges for
      every fuel.  Programs with parameters are run by [run_step] for
      every value of the parameters: a sum, a comparison with a branch
      and a subroutine call on all integers; a loop that counts [n] down,
      which halts after exactly [4 n + 4] instructions for every [n >= 1] (by
      induction on [n]) and never halts for [n <= 0], where the
      specification's machine wraps around and halts; a loop with an
      accumulator that prints [n (n + 1) / 2].  A program without PUSH
      and CALL is still in memory when [main] ends, and a program
      without jumps and PUSH makes [main] end within 257 instructions.
    - [Path.v]: [str.split] and [str.join] for a separator of one
      character, and [isabs], [join], [dirname], [normpath] and [abspath]
      of [posixpath].  Theorems: split and join are inverse; [normpath]
      of an absolute path is a normal path ([normal]: one or two slashes,
      then plain components) and leaves a normal path alone, so [abspath]
      is idempotent; [dirname] undoes the [join] of a plain name.
    - [Cli.v]: [world], [open] and [readlines] with universal newlines,
      [main] as a whole ([main_file]), [resolve_program], and the
      [__main__] block ([try_block], [except_clauses], [script]).
      Theorems: a file written from bytes in the format of the
      specification makes [main] run these bytes; where the program file
      is looked for, and that its path is normal; what the script prints
      and how it ends without an argument, with a missing file, with a
      program that runs, and with a machine that ends with [IndexError]
      (reported as a missing argument); the exceptions the process can
      end with; and the whole way from the command line to the output
      ([script_end_to_end]), which for the program [sum a b] of
      [Programs.v] gives [a + b] for all bytes [a] and [b].

    ** Fuel and bounds

    Fuel counts iterations of the loop of [run], that is instructions.  No
    bound is built in: [run fuel s = None] says that [fuel] instructions were
    executed and the machine is still running ([run_out_of_fuel]), a result
    [Some _] is the same for every larger fuel ([run_fuel_monotone]), and
    every theorem that says a program halts names the fuel it needs: a
    constant for the programs without a loop, [4 n + 4] and [4 n + 6] for
    the two loops that count [n] down, 257 for any program without jumps
    (one instruction per cell at most, and one fetch past the end).  For
    the sum, the branch and the two loops the fuel is exact: with one
    instruction fewer the run is [None].  The
    only other fuel is in [hex] of [Trace.v], which is given one more than
    the binary logarithm of the number; [hex_roundtrip] shows that this is
    enough for every natural number.  The
    register file has 8 cells and the memory 256, as the constructor makes
    them; the values of cells are not bounded, because the code does not
    bound them.  The refinement theorems of [Isa.v] assume the instruction
    and its operands lie below address 256 ([in_bounds]); a push with the
    stack pointer at 0 is covered, since Python's subscript [-1] is the cell
    255 that the specification's machine wraps to.  Whole runs are related
    in both directions ([run_refines_spec], [spec_refines_run]) along
    states that need no truncation.  The stack of [Stack.v] holds at most
    244 values, the cells below [0xF4].  The faults of the specification's machine
    are related to the exceptions of the code one step at a time
    ([code_refines_spec_fault]) and at the end of a run
    ([run_refines_spec_fault]); the state the code is left in after an
    exception is not compared with the specification, which leaves it
    open.

    ** What is not modelled

    Every function and statement of [src/] has a definition.  What the
    model leaves out lies below them.  Strings are ASCII: the decoding of
    the program file, and the white space and digits that only Unicode
    has, are outside the model of [open], [strip] and [int].  The file
    system has no permissions, no symbolic links and no concurrent
    changes: a path that [os.path.exists] found is still there when
    [open] is called, and [open] fails only on a missing path and on a
    directory.  Paths are POSIX paths; [ntpath] is not modelled.  The
    [assert] is executed, as without [python -O].  The traceback that
    Python prints for an exception no clause catches is not modelled,
    only the exception and the exit status.

    Integers are ideal.  CPython departs from that in three places, each
    of which a program of a few bytes reaches because the code truncates
    nothing: [str] of an integer of more than 4300 digits raises
    [ValueError] since Python 3.11 (fourteen squarings of 255, then PRN);
    a shift by a count beyond the machine word raises [OverflowError];
    and an integer that does not fit the memory raises [MemoryError].
    [str], [py_lshift] and the multiplication of the model never fail in
    these ways, so the theorems on the exceptions of [run] and of the
    script, and the theorems on what is printed for all integers, are
    theorems about ideal integers: they describe CPython with
    [sys.set_int_max_str_digits(0)] on the runs whose integers fit the
    machine. *)

From Stdlib Require Export ZArith Lia.
From stdpp Require Export base tactics option list strings.

#[local] Open Scope Z_scope.

(** ** Exceptions and results *)

(** The exceptions the emulator can raise.  [Exception] is the one the
    source raises itself ([raise Exception("Unsupported ALU operation")]);
    the others are raised by the Python runtime: a list index out of range,
    a call with the wrong number of arguments or [None] used as an index, a
    modulo by zero, a negative shift count, a local read before it is
    bound.  The last three belong to the front end [src/ls8.py]: a failed
    [assert], and [open] on a path that does not exist or is a directory. *)
Inductive exn : Set :=
  | IndexError
  | TypeError
  | ZeroDivisionError
  | ValueError
  | UnboundLocalError
  | Exception (msg : string)
  | AssertionError
  | FileNotFoundError
  | IsADirectoryError.

#[export] Instance exn_eq_dec : EqDecision exn.
Proof. solve_decision. Defined.

Inductive result (A : Type) : Type :=
  | Ok (x : A)
  | Raise (e : exn).
Arguments Ok {A} x.
Arguments Raise {A} e.

#[export] Instance result_eq_dec {A} `{EqDecision A} : EqDecision (result A).
Proof. solve_decision. Defined.

Definition is_Ok {A} (r : result A) : Prop :=
  match r with Ok _ => True | Raise _ => False end.

#[export] Instance is_Ok_dec {A} (r : result A) : Decision (is_Ok r).
Proof. destruct r; simpl; apply _. Defined.

Definition result_of_option {A} (e : exn) (o : option A) : result A :=
  match o with Some x => Ok x | None => Raise e end.

(** Expressions that can raise, without a state: the first exception ends
    the evaluation. *)
#[export] Instance result_ret : MRet result := λ A x, Ok x.

#[export] Instance result_bind : MBind result := λ A B k r,
  match r with
  | Ok x => k x
  | Raise e => Raise e
  end.

(** ** The state and exception monad *)

(** A computation over a state [St]: the result, and the state as the
    computation left it, also when it raised. *)
Definition M (St A : Type) : Type := St → result A * St.

#[export] Instance M_ret {St} : MRet (M St) := λ A x s, (Ok x, s).

#[export] Instance M_bind {St} : MBind (M St) := λ A B k m s,
  match m s with
  | (Ok x, s') => k x s'
  | (Raise e, s') => (Raise e, s')
  end.

Definition raise {St A} (e : exn) : M St A := λ s, (Raise e, s).
Definition gets {St A} (f : St → A) : M St A := λ s, (Ok (f s), s).
Definition modify {St} (f : St → St) : M St unit := λ s, (Ok tt, f s).
Definition lift {St A} (r : result A) : M St A := λ s, (r, s).

(** The final state and the result of a computation. *)
Definition exec {St A} (m : M St A) (s : St) : St := (m s).2.
Definition eval {St A} (m : M St A) (s : St) : result A := (m s).1.

(** [m] raises [e] from [s], in whatever state. *)
Definition raises {St A} (e : exn) (m : M St A) (s : St) : Prop :=
  ∃ s', m s = (Raise e, s').

(** [try: body except ...]: [handlers e] is the body of the first [except]
    clause that matches [e], run from the state the exception left; an
    exception no clause matches propagates, and so does one raised by a
    handler. *)
Definition try_except {St A} (body : M St A) (handlers : exn → option (M St A))
    : M St A := λ s,
  match body s with
  | (Raise e, s') =>
      match handlers e with
      | Some handler => handler s'
      | None => (Raise e, s')
      end
  | (Ok x, s') => (Ok x, s')
  end.

(** ** Invariants as an interface

    [Preserves I m]: the computation [m] keeps the state inside [I], whether
    it returns or raises.  A component publishes one instance per operation;
    a client (the dispatcher, the loop) gets the invariant of a composite by
    instance resolution, without unfolding the operations. *)
Class Preserves {St A} (I : St → Prop) (m : M St A) : Prop :=
  preserves : ∀ s, I s → I (exec m s).

(** ** Exceptions as an effect type

    [Throws E m]: from whatever state, an exception that [m] raises is one
    of [E].  It is the type of [m] as far as its failures go; like
    [Preserves] it is proved once per operation and composed through
    [bind]. *)
Class Throws {St A} (E : exn → Prop) (m : M St A) : Prop :=
  throws : ∀ s e s', m s = (Raise e, s') → E e.

(** [Allows E e]: the exception [e] is one of [E].  A class, so that the
    side conditions of the rules for [Throws] are found by instance
    resolution: from the context when [E] is a variable, by computation
    when [E] is a list. *)
Class Allows (E : exn → Prop) (e : exn) : Prop :=
  allows : E e.

#[export] Hint Extern 5 (Allows _ _) =>
  unfold Allows; compute_done : typeclass_instances.

Create HintDb ls8 discriminated.

(** ** Integers: bytes and bit operations *)

(** The values an 8-bit cell is meant to hold. *)
Definition byte (z : Z) : Prop := 0 ≤ z < 256.

#[export] Instance byte_dec z : Decision (byte z).
Proof. unfold byte. apply _. Defined.

Declare Scope ls8_scope.
Delimit Scope ls8_scope with ls8.
Notation "m ⇓ s" := (exec m s) (at level 60, no associativity) : ls8_scope.
Notation "m ⇑ s" := (eval m s) (at level 60, no associativity) : ls8_scope.
#[local] Open Scope ls8_scope.

Ltac munfold :=
  unfold exec, eval, mbind, mret, M_bind, M_ret, raise, gets, modify, lift in *.

(** [msimpl] computes a monadic term as far as its head constructors allow. *)
Ltac msimpl :=
  cbn [exec eval mbind mret M_bind M_ret raise gets modify lift fst snd] in *.

Section MonadLaws.
Context {St A B C : Type}.
Implicit Types (s : St) (m : M St A) (k : A → M St B) (h : B → M St C).

Lemma bind_ret_l (x : A) k s : (mret x ≫= k) s = k x s.
Proof. reflexivity. Qed.

Lemma bind_ret_r m s : (m ≫= mret) s = m s.
Proof. munfold. by destruct (m s) as [[]]. Qed.

Lemma bind_assoc m k h s : ((m ≫= k) ≫= h) s = (m ≫= (λ x, k x ≫= h)) s.
Proof. munfold. by destruct (m s) as [[]]. Qed.

Lemma bind_raise (e : exn) k s : (raise e ≫= k) s = (Raise e, s).
Proof. reflexivity. Qed.

(** Inversion of a bind: either the first computation raised, or it returned
    and the continuation ran from the state it left. *)
Lemma bind_inv m k s r s' :
  (m ≫= k) s = (r, s') →
  (∃ e, m s = (Raise e, s') ∧ r = Raise e) ∨
  (∃ x s1, m s = (Ok x, s1) ∧ k x s1 = (r, s')).
Proof.
  munfold. destruct (m s) as [[x|e] s1]; intros H.
  - right. eauto.
  - left. exists e. by simplify_eq.
Qed.

(** A bind that returned: both computations returned. *)
Lemma bind_Ok_inv m k s y s' :
  (m ≫= k) s = (Ok y, s') → ∃ x s1, m s = (Ok x, s1) ∧ k x s1 = (Ok y, s').
Proof. intros [(e & _ & ?)|H]%bind_inv; [done|exact H]. Qed.

Lemma bind_Ok m k s x s1 :
  m s = (Ok x, s1) → (m ≫= k) s = k x s1.
Proof. munfold. by intros ->. Qed.

Lemma bind_Raise m k s e s1 :
  m s = (Raise e, s1) → (m ≫= k) s = (Raise e, s1).
Proof. munfold. by intros ->. Qed.

Lemma raises_intro e (m : M St A) s s1 : m s = (Raise e, s1) → raises e m s.
Proof. intros. by exists s1. Qed.

Lemma raises_bind_l e m k s : raises e m s → raises e (m ≫= k) s.
Proof. intros [s1 H]. exists s1. by apply bind_Raise. Qed.

Lemma raises_bind_r e m k s x s1 :
  m s = (Ok x, s1) → raises e (k x) s1 → raises e (m ≫= k) s.
Proof. intros H [s2 Hk]. exists s2. by rewrite (bind_Ok _ _ _ _ _ H). Qed.

Lemma ret_ok (x : A) s : (mret x : M St A) s = (Ok x, s).
Proof. done. Qed.

Lemma gets_ok (f : St → A) s : gets f s = (Ok (f s), s).
Proof. done. Qed.

Lemma modify_ok (f : St → St) s : modify f s = (Ok tt, f s).
Proof. done. Qed.

Lemma lift_ok (r : result A) s : lift r s = (r, s).
Proof. done. Qed.

End MonadLaws.

#[export] Hint Resolve ret_ok gets_ok modify_ok lift_ok : ls8.

(** [mstep] runs the first computation of a bind when the hint database
    [ls8] knows that it returns; [mraise] when it knows that it raises. *)
Ltac mstep :=
  first [ erewrite bind_Ok; [|solve [eauto with ls8]] | rewrite bind_assoc ].
Ltac mraise := erewrite bind_Raise; [|solve [eauto with ls8]].

(** ** Rules for invariants *)

Section PreservesRules.
Context {St : Type} (I : St → Prop).

#[export] Instance ret_preserves {A} (x : A) : Preserves I (mret x).
Proof. by intros s. Qed.

#[export] Instance raise_preserves {A} (e : exn) : Preserves I (raise e : M St A).
Proof. by intros s. Qed.

#[export] Instance gets_preserves {A} (f : St → A) : Preserves I (gets f).
Proof. by intros s. Qed.

#[export] Instance lift_preserves {A} (r : result A) : Preserves I (lift r : M St A).
Proof. by intros s. Qed.

#[export] Instance bind_preserves {A B} (m : M St A) (k : A → M St B) :
  Preserves I m → (∀ x, Preserves I (k x)) → Preserves I (m ≫= k).
Proof.
  intros Hm Hk s Hs. specialize (Hm s Hs). unfold exec in *. munfold.
  destruct (m s) as [[x|e] s1]; simpl in *; [by apply Hk | done].
Qed.

Lemma modify_preserves (f : St → St) :
  (∀ s, I s → I (f s)) → Preserves I (modify f).
Proof. intros H s. apply H. Qed.

(** The rule of [bind] with what is known of the value passed on: inside
    the invariant every result of [m] satisfies [Q], and the continuation
    keeps the invariant for such values. *)
Lemma bind_preserves_post {A B} (Q : A → Prop) (m : M St A) (k : A → M St B) :
  (∀ s x s', I s → m s = (Ok x, s') → Q x) →
  Preserves I m → (∀ x, Q x → Preserves I (k x)) → Preserves I (m ≫= k).
Proof.
  intros HQ Hm Hk s Hs. specialize (Hm s Hs). specialize (HQ s). unfold exec in *.
  munfold. destruct (m s) as [[x|e] s1]; simpl in *; [|done]. by eapply Hk, Hm; eapply HQ.
Qed.

End PreservesRules.

(** ** Rules for exceptions *)

Section ThrowsRules.
Context {St : Type} (E : exn → Prop).

#[export] Instance ret_throws {A} (x : A) : Throws E (mret x : M St A).
Proof. by intros s e s'. Qed.

#[export] Instance gets_throws {A} (f : St → A) : Throws E (gets f).
Proof. by intros s e s'. Qed.

#[export] Instance modify_throws (f : St → St) : Throws E (modify f).
Proof. by intros s e s'. Qed.

#[export] Instance raise_throws {A} (e : exn) :
  Allows E e → Throws E (raise e : M St A).
Proof. intros He s e' s' H. munfold. by simplify_eq. Qed.

#[export] Instance lift_Ok_throws {A} (x : A) : Throws E (lift (Ok x) : M St A).
Proof. by intros s e s'. Qed.

Lemma lift_throws {A} (r : result A) :
  (∀ e, r = Raise e → E e) → Throws E (lift r : M St A).
Proof. intros Hr s e s' H. munfold. apply Hr. by simplify_eq. Qed.

(** The rule of [bind] with what is known of the value passed on: [Q]
    holds of every result of [m], and the continuation is typed under
    [Q]. *)
Lemma bind_throws_post {A B} (Q : A → Prop) (m : M St A) (k : A → M St B) :
  (∀ s x s', m s = (Ok x, s') → Q x) →
  Throws E m → (∀ x, Q x → Throws E (k x)) → Throws E (m ≫= k).
Proof.
  intros HQ Hm Hk s e s' [(e' & H & ?)|(x & s1 & Hx & H)]%bind_inv.
  - simplify_eq. by eapply Hm.
  - by eapply Hk, H; eapply HQ.
Qed.

#[export] Instance bind_throws {A B} (m : M St A) (k : A → M St B) :
  Throws E m → (∀ x, Throws E (k x)) → Throws E (m ≫= k).
Proof. intros Hm Hk. by apply (bind_throws_post (λ _, True)). Qed.

#[export] Instance if_throws {A} (P : Prop) `{Decision P} (m m' : M St A) :
  Throws E m → Throws E m' → Throws E (if decide P then m else m').
Proof. by case_decide. Qed.

(** A larger set of exceptions is a type of [m] too. *)
Lemma throws_weaken {A} (E' : exn → Prop) (m : M St A) :
  (∀ e, E' e → E e) → Throws E' m → Throws E m.
Proof. intros HE Hm s e s' H. eapply HE, Hm, H. Qed.

(** Computations that agree on every state have the same types. *)
Lemma throws_ext {A} (m m' : M St A) :
  (∀ s, m s = m' s) → Throws E m' → Throws E m.
Proof. intros Heq Hm s e s'. rewrite Heq. apply Hm. Qed.

End ThrowsRules.

(** ** [try] and [except] *)

Section TryExcept.
Context {St A : Type}.
Implicit Types (s : St) (body : M St A) (handlers : exn → option (M St A)).

Lemma try_except_Ok body handlers s x s' :
  body s = (Ok x, s') → try_except body handlers s = (Ok x, s').
Proof. unfold try_except. by intros ->. Qed.

Lemma try_except_caught body handlers s e s' handler :
  body s = (Raise e, s') → handlers e = Some handler →
  try_except body handlers s = handler s'.
Proof. unfold try_except. by intros -> ->. Qed.

Lemma try_except_uncaught body handlers s e s' :
  body s = (Raise e, s') → handlers e = None →
  try_except body handlers s = (Raise e, s').
Proof. unfold try_except. by intros -> ->. Qed.

(** What leaves a [try] statement: an exception of the body that no clause
    matches, or an exception of a handler. *)
Lemma try_except_throws (E E' : exn → Prop) body handlers :
  Throws E' body →
  (∀ e, E' e → match handlers e with Some handler => Throws E handler | None => E e end) →
  Throws E (try_except body handlers).
Proof.
  intros Hbody Hh s e s'. unfold try_except.
  destruct (body s) as [[x|e1] s1] eqn:Hb; [done|].
  specialize (Hh e1 (Hbody _ _ _ Hb)). destruct (handlers e1) as [handler|].
  - apply Hh.
  - intros ?. by simplify_eq.
Qed.

End TryExcept.

(** ** Facts on bit operations *)

Section Bits.
Implicit Types a b k l : Z.

Lemma bounded_bits a k l :
  0 ≤ k → 0 ≤ a < 2 ^ k → k ≤ l → Z.testbit a l = false.
Proof. intros Hk Ha. by apply Z.bounded_iff_bits_nonneg'; [|lia|]. Qed.

Lemma land_bounded a b k : 0 ≤ k → 0 ≤ a < 2 ^ k → 0 ≤ Z.land a b < 2 ^ k.
Proof.
  intros Hk Ha. assert (0 ≤ Z.land a b) by (apply Z.land_nonneg; lia).
  apply Z.bounded_iff_bits_nonneg'; [done..|]. intros l Hl.
  by rewrite Z.land_spec, (bounded_bits a k l).
Qed.

Lemma lor_bounded a b k :
  0 ≤ k → 0 ≤ a < 2 ^ k → 0 ≤ b < 2 ^ k → 0 ≤ Z.lor a b < 2 ^ k.
Proof.
  intros Hk Ha Hb. assert (0 ≤ Z.lor a b) by (apply Z.lor_nonneg; lia).
  apply Z.bounded_iff_bits_nonneg'; [done..|]. intros l Hl.
  by rewrite Z.lor_spec, (bounded_bits a k l), (bounded_bits b k l).
Qed.

Lemma lxor_bounded a b k :
  0 ≤ k → 0 ≤ a < 2 ^ k → 0 ≤ b < 2 ^ k → 0 ≤ Z.lxor a b < 2 ^ k.
Proof.
  intros Hk Ha Hb. assert (0 ≤ Z.lxor a b) by (apply Z.lxor_nonneg; lia).
  apply Z.bounded_iff_bits_nonneg'; [done..|]. intros l Hl.
  by rewrite Z.lxor_spec, (bounded_bits a k l), (bounded_bits b k l).
Qed.

Lemma shiftr_bounded a b k : 0 ≤ a < 2 ^ k → 0 ≤ b → 0 ≤ Z.shiftr a b < 2 ^ k.
Proof.
  intros Ha Hb. rewrite Z.shiftr_div_pow2 by done.
  assert (0 < 2 ^ b) by (by apply Z.pow_pos_nonneg).
  split; [apply Z.div_pos; lia|].
  apply Z.le_lt_trans with a; [|lia]. apply Z.div_le_upper_bound; nia.
Qed.

(** [a ^ 0b11111111] on a byte is its 8-bit complement. *)
Lemma lxor_255 a : byte a → Z.lxor a 255 = 255 - a.
Proof.
  intros Ha. change 255 with (Z.ones 8).
  rewrite <- Z.ldiff_ones_l_low.
  - rewrite Z.sub_nocarry_ldiff; [done|].
    apply Z.bits_inj'. intros l Hl. rewrite Z.ldiff_spec, Z.bits_0.
    destruct (decide (l < 8)).
    + rewrite Z.ones_spec_low by lia. apply andb_false_r.
    + rewrite (bounded_bits a 8 l); [done|lia|done|lia].
  - unfold byte in Ha. lia.
  - destruct (decide (a = 0)) as [->|]; [done|].
    unfold byte in Ha. apply Z.log2_lt_pow2; lia.
Qed.

End Bits.

#[export] Hint Resolve land_bounded lor_bounded lxor_bounded shiftr_bounded : ls8.
