(* ===== verification/Python.v ===== *)
(** * Python.v: the pieces of the Python runtime the emulator relies on

    [src/cpu.py] keeps registers and memory in Python lists and its jump
    tables in dicts.  This file gives the meaning of a list subscript
    ([self.ram[mar]], [self.ram[mar] = mdr]) with Python's negative indices
    and its [IndexError], of [dict(zip(keys, values))] with [.get(k, None)],
    of calling one of the lambdas stored in such a table, and of [print]. *)

From S2P Require Import Prelude.
From stdpp Require Export gmap pretty.

#[local] Open Scope Z_scope.
#[local] Open Scope ls8_scope.
#[local] Coercion Z.of_nat : nat >-> Z.

(** ** List subscripts *)

(** The position a subscript [i] denotes in a list of [len] elements:
    [0 <= i < len] is itself, [-len <= i < 0] counts from the end, anything
    else is out of range. *)
Definition py_index (len : nat) (i : Z) : option nat :=
  if decide (0 ≤ i < len) then Some (Z.to_nat i)
  else if decide (- len ≤ i < 0) then Some (Z.to_nat (len + i))
  else None.

(** [l[i]] *)
Definition getitem {A} (l : list A) (i : Z) : result A :=
  result_of_option IndexError (py_index (length l) i ≫= (l !!.)).

(** [l[i] = v] *)
Definition setitem {A} (l : list A) (i : Z) (v : A) : result (list A) :=
  match py_index (length l) i with
  | Some k => Ok (<[k:=v]> l)
  | None => Raise IndexError
  end.

(** ** Dictionaries *)

(** [dict(items)]: the pairs are inserted from left to right, so a later
    pair overwrites an earlier one with the same key.  [table.get(k, None)]
    is the lookup [table !! k]. *)
Definition dict {K V} `{Countable K} (items : list (K * V)) : gmap K V :=
  foldl (λ m kv, <[kv.1:=kv.2]> m) ∅ items.

(** ** Lambdas stored in a table *)

(** A lambda of one or of two integer arguments.  Its body may raise
    ([a % 0], a negative shift count). *)
Inductive lambda : Type :=
  | Lam1 (f : Z → result Z)
  | Lam2 (f : Z → Z → result Z).

(** A call of [foo], where [foo] is the result of [table.get(key, None)]:
    calling [None], or a lambda with the wrong number of arguments, raises
    [TypeError]. *)
Definition call (foo : option lambda) (args : list Z) : result Z :=
  match foo, args with
  | Some (Lam1 f), [x] => f x
  | Some (Lam2 f), [x; y] => f x y
  | _, _ => Raise TypeError
  end.

(** ** Integer operators that can raise *)

(** [a << b]: a negative shift count is a [ValueError].  Integers are
    ideal: the [OverflowError] of CPython for a count beyond the machine
    word and its [MemoryError] are not modelled. *)
Definition py_lshift (a b : Z) : result Z :=
  if decide (b < 0) then Raise ValueError else Ok (Z.shiftl a b).

(** [a >> b] *)
Definition py_rshift (a b : Z) : result Z :=
  if decide (b < 0) then Raise ValueError else Ok (Z.shiftr a b).

(** [a % b]: the remainder has the sign of [b]; [b = 0] is a
    [ZeroDivisionError]. *)
Definition py_mod (a b : Z) : result Z :=
  if decide (b = 0) then Raise ZeroDivisionError else Ok (a mod b).

(** ** Output *)

(** The line feed [print] ends a line with. *)
Definition nl : string := String (Ascii.ascii_of_nat 10) EmptyString.

(** [str(z)] for an integer: its decimal digits, after ["-"] when negative.
    Since Python 3.11 the conversion of an integer of more than 4300
    digits raises [ValueError] unless the limit is lifted
    ([sys.set_int_max_str_digits(0)]); [str] is the conversion without
    that limit. *)
Definition str (z : Z) : string := pretty z.

(** ** Facts on subscripts *)

Section Subscript.
Context {A : Type}.
Implicit Types (l : list A) (i j : Z) (v : A) (k len : nat).

Lemma py_index_Some len i k :
  py_index len i = Some k ↔
  (0 ≤ i < len ∧ k = Z.to_nat i) ∨ (- len ≤ i < 0 ∧ k = Z.to_nat (len + i)).
Proof. unfold py_index. repeat case_decide; naive_solver lia. Qed.

Lemma py_index_None len i : py_index len i = None ↔ i < - len ∨ len ≤ i.
Proof. unfold py_index. repeat case_decide; naive_solver lia. Qed.

Lemma py_index_lt len i k : py_index len i = Some k → (k < len)%nat.
Proof. rewrite py_index_Some. lia. Qed.

Lemma py_index_nonneg len i : 0 ≤ i < len → py_index len i = Some (Z.to_nat i).
Proof. intros. apply py_index_Some. auto. Qed.

Lemma py_index_neg len i :
  - len ≤ i < 0 → py_index len i = py_index len (len + i).
Proof. intros. rewrite (py_index_nonneg _ (len + i)) by lia. apply py_index_Some. auto. Qed.

(** Two subscripts denote the same cell iff they are equal modulo [len]. *)
Lemma py_index_inj len i j k :
  py_index len i = Some k → py_index len j = Some k → i = j ∨ i = j + len ∨ j = i + len.
Proof. rewrite !py_index_Some. lia. Qed.

Lemma getitem_Ok l i v :
  getitem l i = Ok v ↔ ∃ k, py_index (length l) i = Some k ∧ l !! k = Some v.
Proof.
  unfold getitem. destruct (py_index _ i) as [k|]; simpl.
  - destruct (l !! k) eqn:E; simpl; naive_solver.
  - naive_solver.
Qed.

Lemma getitem_Raise l i e :
  getitem l i = Raise e ↔ e = IndexError ∧ (i < - length l ∨ length l ≤ i).
Proof.
  rewrite <- py_index_None. unfold getitem.
  destruct (py_index _ i) as [k|] eqn:E; simpl; [|naive_solver].
  destruct (lookup_lt_is_Some_2 l k (py_index_lt _ _ _ E)) as [v ->]. naive_solver.
Qed.

Lemma getitem_in_range l i : - length l ≤ i < length l → is_Ok (getitem l i).
Proof.
  intros Hi. destruct (getitem l i) as [|e] eqn:E; [done|].
  apply getitem_Raise in E. lia.
Qed.

Lemma getitem_nonneg l i :
  0 ≤ i → getitem l i = result_of_option IndexError (l !! Z.to_nat i).
Proof.
  intros Hi. unfold getitem. destruct (decide (i < length l)).
  - by rewrite py_index_nonneg by lia.
  - rewrite (proj2 (py_index_None _ _)) by lia.
    by rewrite lookup_ge_None_2 by lia.
Qed.

Lemma setitem_Ok l i v l' :
  setitem l i v = Ok l' ↔ ∃ k, py_index (length l) i = Some k ∧ l' = <[k:=v]> l.
Proof. unfold setitem. destruct (py_index _ i); naive_solver. Qed.

Lemma setitem_Raise l i v e :
  setitem l i v = Raise e ↔ e = IndexError ∧ (i < - length l ∨ length l ≤ i).
Proof.
  rewrite <- py_index_None. unfold setitem. destruct (py_index _ i); naive_solver.
Qed.

Lemma setitem_length l i v l' : setitem l i v = Ok l' → length l' = length l.
Proof. rewrite setitem_Ok. intros (k & _ & ->). apply length_insert. Qed.

Lemma getitem_setitem_eq l i v l' : setitem l i v = Ok l' → getitem l' i = Ok v.
Proof.
  rewrite setitem_Ok. intros (k & Hk & ->). apply getitem_Ok. exists k.
  rewrite length_insert. split; [done|].
  apply list_lookup_insert_eq. eauto using py_index_lt.
Qed.

Lemma getitem_setitem_ne l i j v l' :
  setitem l i v = Ok l' →
  py_index (length l) j ≠ py_index (length l) i →
  getitem l' j = getitem l j.
Proof.
  rewrite setitem_Ok. intros (k & Hk & ->) Hne. unfold getitem.
  rewrite length_insert. destruct (py_index _ j) as [k'|]; simpl; [|done].
  rewrite list_lookup_insert_ne; [done|]. congruence.
Qed.

Lemma setitem_getitem_id l i v : getitem l i = Ok v → setitem l i v = Ok l.
Proof.
  rewrite getitem_Ok, setitem_Ok. intros (k & Hk & Hv). exists k.
  by rewrite list_insert_id.
Qed.

Lemma setitem_setitem l i v w l1 l2 :
  setitem l i v = Ok l1 → setitem l1 i w = Ok l2 → setitem l i w = Ok l2.
Proof.
  rewrite !setitem_Ok. intros (k & Hk & ->). rewrite length_insert.
  intros (k' & Hk' & ->). exists k. simplify_eq. by rewrite list_insert_insert_eq.
Qed.

(** What holds of every element holds of the element read, and of the
    list after an element with that property was stored. *)
Lemma getitem_Forall (P : A → Prop) l i v : Forall P l → getitem l i = Ok v → P v.
Proof. intros Hl (k & _ & Hk)%getitem_Ok. by eapply (Forall_lookup_1 P l). Qed.

Lemma setitem_Forall (P : A → Prop) l i v l' :
  Forall P l → P v → setitem l i v = Ok l' → Forall P l'.
Proof. intros Hl Hv (k & _ & ->)%setitem_Ok. by apply Forall_insert. Qed.

End Subscript.

(** ** Facts on dictionaries *)

Section Dict.
Context {K V : Type} `{Countable K}.
Implicit Types (items : list (K * V)) (m : gmap K V).

Lemma dict_foldl_lookup_notin items m k :
  k ∉ items.*1 → foldl (λ m kv, <[kv.1:=kv.2]> m) m items !! k = m !! k.
Proof.
  revert m. induction items as [|[k' v] items IH]; intros m Hk; [done|].
  rewrite fmap_cons, not_elem_of_cons in Hk. destruct Hk as [Hne Hk].
  simpl. rewrite IH by done. by rewrite lookup_insert_ne.
Qed.

Lemma dict_lookup_None items k : k ∉ items.*1 → dict items !! k = None.
Proof. intros. unfold dict. by rewrite dict_foldl_lookup_notin. Qed.

Lemma dict_foldl_lookup_Some items m k v :
  NoDup items.*1 → (k, v) ∈ items →
  foldl (λ m kv, <[kv.1:=kv.2]> m) m items !! k = Some v.
Proof.
  revert m. induction items as [|[k' v'] items IH]; intros m Hnd Hin.
  { by apply elem_of_nil in Hin. }
  rewrite fmap_cons, NoDup_cons in Hnd. destruct Hnd as [Hk' Hnd].
  apply elem_of_cons in Hin as [[= -> ->]|Hin]; simpl.
  - rewrite dict_foldl_lookup_notin by done. apply lookup_insert_eq.
  - by apply IH.
Qed.

(** With distinct keys, as in every table of [src/cpu.py], a key is mapped to
    the value it is zipped with. *)
Lemma dict_lookup_Some items k v :
  NoDup items.*1 → (k, v) ∈ items → dict items !! k = Some v.
Proof. apply dict_foldl_lookup_Some. Qed.

Lemma dict_lookup_is_Some items k : is_Some (dict items !! k) → k ∈ items.*1.
Proof.
  intros [v Hv]. destruct (decide (k ∈ items.*1)) as [|Hk]; [done|].
  by rewrite dict_lookup_None in Hv.
Qed.

End Dict.
