(* ===== verification/Loop.v ===== *)
(** * Loop.v: [while True] with fuel

    The loop of [run] in [src/cpu.py] is a [while True] whose body either
    executes [break], falls through to the next iteration, or raises.  The
    locals of the enclosing function live across iterations, so the body is
    a function of them: it returns [Break], or [Continue] with the locals as
    it left them.  [while_true] runs the body at most [fuel] times; the
    relation [loop_step] is one iteration that continues.  Everything here is
    generic in the state and in the locals, and is instantiated in [Run.v]. *)

From S2P Require Import Prelude.
From stdpp Require Export relations.

#[local] Open Scope ls8_scope.

Inductive control (L : Type) : Type :=
  | Break
  | Continue (l : L).
Arguments Break {L}.
Arguments Continue {L} l.

Section Loop.
Context {St L : Type} (body : L → M St (control L)).
Implicit Types (l : L) (s : St) (r : result unit) (fuel n m : nat).

(** [while True: body].  [None]: still running when the fuel ran out. *)
Fixpoint while_true fuel l s : option (result unit * St) :=
  match fuel with
  | O => None
  | S n =>
      match body l s with
      | (Ok Break, s') => Some (Ok tt, s')
      | (Ok (Continue l'), s') => while_true n l' s'
      | (Raise e, s') => Some (Raise e, s')
      end
  end.

(** One iteration that reaches the end of the body. *)
Inductive loop_step : L * St → L * St → Prop :=
  | loop_step_continue l s l' s' :
      body l s = (Ok (Continue l'), s') → loop_step (l, s) (l', s').

(** The last iteration: the body breaks or raises. *)
Inductive loop_final : L * St → result unit * St → Prop :=
  | loop_final_break l s s' :
      body l s = (Ok Break, s') → loop_final (l, s) (Ok tt, s')
  | loop_final_raise l s e s' :
      body l s = (Raise e, s') → loop_final (l, s) (Raise e, s').

Lemma loop_step_det c c1 c2 : loop_step c c1 → loop_step c c2 → c1 = c2.
Proof. destruct 1; inversion 1; congruence. Qed.

Lemma loop_final_det c o1 o2 : loop_final c o1 → loop_final c o2 → o1 = o2.
Proof. destruct 1; inversion 1; congruence. Qed.

Lemma loop_final_not_step c o c' : loop_final c o → ¬ loop_step c c'.
Proof. destruct 1; inversion 1; congruence. Qed.

Lemma while_true_S n l s :
  while_true (S n) l s =
  match body l s with
  | (Ok Break, s') => Some (Ok tt, s')
  | (Ok (Continue l'), s') => while_true n l' s'
  | (Raise e, s') => Some (Raise e, s')
  end.
Proof. reflexivity. Qed.

(** More fuel never changes an outcome. *)
Lemma while_true_mono n m l s o :
  while_true n l s = Some o → (n ≤ m)%nat → while_true m l s = Some o.
Proof.
  revert m l s. induction n as [|n IH]; intros m l s Hn Hle; [done|].
  destruct m as [|m]; [lia|]. rewrite while_true_S in *.
  destruct (body l s) as [[[|l']|e] s']; auto with lia.
Qed.

Lemma while_true_agree n m l s o1 o2 :
  while_true n l s = Some o1 → while_true m l s = Some o2 → o1 = o2.
Proof.
  intros H1 H2. destruct (Nat.le_ge_cases n m).
  - apply (while_true_mono n m) in H1; [congruence|done].
  - apply (while_true_mono m n) in H2; [congruence|done].
Qed.

(** An outcome is reached by iterations that continue, then one that ends
    the loop. *)
Lemma while_true_sound n l s o :
  while_true n l s = Some o →
  ∃ k c, (k < n)%nat ∧ nsteps loop_step k (l, s) c ∧ loop_final c o.
Proof.
  revert l s. induction n as [|n IH]; intros l s Hn; [done|].
  rewrite while_true_S in Hn. destruct (body l s) as [[[|l']|e] s'] eqn:Hb.
  - simplify_eq. exists O, (l, s). split_and!; [lia|constructor|by constructor].
  - destruct (IH _ _ Hn) as (k & c & Hk & Hsteps & Hfin).
    exists (S k), c. split_and!; [lia| |done].
    eapply nsteps_l; [|done]. by constructor.
  - simplify_eq. exists O, (l, s). split_and!; [lia|constructor|by constructor].
Qed.

Lemma while_true_complete k l s c o :
  nsteps loop_step k (l, s) c → loop_final c o → while_true (S k) l s = Some o.
Proof.
  revert l s. induction k as [|k IH]; intros l s Hsteps Hfin.
  - inversion Hsteps; subst. rewrite while_true_S.
    by inversion Hfin as [??? Hb|???? Hb]; subst; rewrite Hb.
  - inversion Hsteps as [|? ? [l1 s1] ? Hstep Hrest]; subst.
    rewrite while_true_S. inversion Hstep as [???? Hb]; subst. rewrite Hb. by apply IH.
Qed.

(** Out of fuel means exactly that the first [n] iterations all continue. *)
Lemma while_true_None n l s :
  while_true n l s = None ↔ ∃ c, nsteps loop_step n (l, s) c.
Proof.
  revert l s. induction n as [|n IH]; intros l s.
  { split; [|done]. intros _. exists (l, s). constructor. }
  rewrite while_true_S. split.
  - destruct (body l s) as [[[|l']|e] s'] eqn:Hb; [done| |done].
    intros [c Hc]%IH. exists c. eapply nsteps_l; [|done]. by constructor.
  - intros [c Hc]. inversion Hc as [|? ? [l1 s1] ? Hstep Hrest]; subst.
    inversion Hstep as [???? Hb]; subst. rewrite Hb. apply IH. eauto.
Qed.

(** A state that steps to itself never leaves the loop. *)
Lemma while_true_cycle n l s : loop_step (l, s) (l, s) → while_true n l s = None.
Proof.
  intros Hstep. apply while_true_None. exists (l, s).
  induction n; [constructor|]. by eapply nsteps_l.
Qed.

(** The invariant rule: what every iteration preserves holds when the loop
    is left, by [break] or by an exception. *)
Lemma while_true_invariant (I : St → Prop) n l s r s' :
  (∀ l, Preserves I (body l)) →
  I s → while_true n l s = Some (r, s') → I s'.
Proof.
  intros Hbody. revert l s. induction n as [|n IH]; intros l s Hs Hn; [done|].
  rewrite while_true_S in Hn. pose proof (Hbody l s Hs) as Hs'. unfold exec in Hs'.
  destruct (body l s) as [[[|l']|e] s1]; simplify_eq; eauto.
Qed.

Lemma loop_step_invariant (I : St → Prop) l s l' s' :
  (∀ l, Preserves I (body l)) → I s → rtc loop_step (l, s) (l', s') → I s'.
Proof.
  intros Hbody Hs Hrtc. remember (l, s) as c eqn:Hc. remember (l', s') as c' eqn:Hc'.
  revert l s Hs Hc. induction Hrtc as [|? [l1 s1] ? Hstep _ IH]; intros l s Hs ->.
  - by simplify_eq.
  - inversion Hstep as [???? Hb]; subst. eapply IH; [done| |done].
    pose proof (Hbody l s Hs) as Hs1. unfold exec in Hs1. by rewrite Hb in Hs1.
Qed.

(** The exception rule: the loop raises what an iteration raises. *)
Lemma while_true_throws (E : exn → Prop) n l s e s' :
  (∀ l, Throws E (body l)) → while_true n l s = Some (Raise e, s') → E e.
Proof.
  intros Hbody. revert l s. induction n as [|n IH]; intros l s Hn; [done|].
  rewrite while_true_S in Hn. destruct (body l s) as [[[|l']|e1] s1] eqn:Hb.
  - done.
  - eauto.
  - simplify_eq. by eapply Hbody.
Qed.

End Loop.

#[export] Hint Constructors loop_step loop_final : ls8.
