(* ===== verification/Opcodes.v ===== *)
(** * Opcodes.v: the instruction encoding

    The opcode constants of [src/cpu.py] (lines 6-50), written in binary as
    the source writes them, the two lists the source groups them in, and the
    decoder's rule: the two top bits of an opcode byte are the number of
    operand bytes that follow it. *)

From Stdlib Require Import Ascii.
From S2P Require Import Prelude Python.

#[local] Open Scope Z_scope.

(** A binary literal, [0b...] in the source. *)
Fixpoint bin_go (digits : string) (acc : Z) : Z :=
  match digits with
  | EmptyString => acc
  | String c rest => bin_go rest (2 * acc + (if decide (c = "1"%char) then 1 else 0))
  end.

Definition bin (digits : string) : Z := bin_go digits 0.

Definition NOP : Z := Eval cbv in bin "00000000".
Definition LDI : Z := Eval cbv in bin "10000010".
Definition HLT : Z := Eval cbv in bin "00000001".
Definition PRN : Z := Eval cbv in bin "01000111".
Definition LD : Z := Eval cbv in bin "10000011".
Definition ST : Z := Eval cbv in bin "10000100".
Definition PUSH : Z := Eval cbv in bin "01000101".
Definition POP : Z := Eval cbv in bin "01000110".
Definition PRA : Z := Eval cbv in bin "01001000".
Definition CMP : Z := Eval cbv in bin "10100111".

(** ALU operations *)
Definition ADD : Z := Eval cbv in bin "10100000".
Definition SUB : Z := Eval cbv in bin "10100001".
Definition MUL : Z := Eval cbv in bin "10100010".
Definition MOD : Z := Eval cbv in bin "10100100".
Definition INC : Z := Eval cbv in bin "01100101".
Definition DEC : Z := Eval cbv in bin "01100110".
Definition AND : Z := Eval cbv in bin "10101000".
Definition NOT : Z := Eval cbv in bin "01101001".
Definition OR : Z := Eval cbv in bin "10101010".
Definition XOR : Z := Eval cbv in bin "10101011".
Definition SHL : Z := Eval cbv in bin "10101100".
Definition SHR : Z := Eval cbv in bin "10101101".

Definition ALU_OP_LIST : list Z :=
  [ADD; SUB; MUL; INC; DEC; AND; NOT; OR; XOR; SHL; SHR; MOD].

(** Opcodes that set the program counter *)
Definition CALL : Z := Eval cbv in bin "01010000".
Definition RET : Z := Eval cbv in bin "00010001".
Definition INT : Z := Eval cbv in bin "01010010".
Definition IRET : Z := Eval cbv in bin "00010011".
Definition JMP : Z := Eval cbv in bin "01010100".
Definition JEQ : Z := Eval cbv in bin "01010101".
Definition JNE : Z := Eval cbv in bin "01010110".
Definition JGT : Z := Eval cbv in bin "01010111".
Definition JLT : Z := Eval cbv in bin "01011000".
Definition JLE : Z := Eval cbv in bin "01011001".
Definition JGE : Z := Eval cbv in bin "01011010".

Definition MUTATORS : list Z :=
  [CALL; RET; INT; IRET; JMP; JEQ; JNE; JGT; JLT; JLE; JGE].

(** The register that holds the stack pointer. *)
Definition SP : Z := 7.

(** The decoder: [(IR & 0b11000000) >> 6], the first statement of an
    iteration of [run] after the fetch. *)
Definition operand_count (IR : Z) : Z :=
  Z.shiftr (Z.land IR (bin "11000000")) 6.

(** The opcodes [run] and [dispatch] give a behaviour to. *)
Definition IMPLEMENTED : list Z :=
  [HLT; CALL; RET; LDI; PRN; PUSH; POP; CMP; JMP; JEQ; JNE] ++ ALU_OP_LIST.

(** Declared in the source, reached by no handler. *)
Definition UNIMPLEMENTED : list Z :=
  [NOP; LD; ST; PRA; INT; IRET; JGT; JLT; JLE; JGE].

Section Decoder.
Implicit Types IR : Z.

Lemma bin_go_app s1 s2 acc : bin_go (s1 +:+ s2) acc = bin_go s2 (bin_go s1 acc).
Proof. revert acc. induction s1 as [|c s1 IH]; intros acc; [done|]. apply IH. Qed.

(** The operand count is bits 6 and 7 of the opcode, for every integer. *)
Lemma operand_count_div_mod IR : operand_count IR = (IR / 64) mod 4.
Proof.
  unfold operand_count. apply Z.bits_inj'. intros n Hn.
  rewrite Z.shiftr_spec, Z.land_spec by done.
  change 4 with (2 ^ 2). change 64 with (2 ^ 6).
  rewrite <- Z.shiftr_div_pow2, <- Z.land_ones by done.
  rewrite Z.land_spec, Z.shiftr_spec by done. f_equal.
  change (bin "11000000") with (Z.shiftl (Z.ones 2) 6).
  by rewrite Z.shiftl_spec, Z.add_simpl_r by lia.
Qed.

Lemma operand_count_range IR : 0 ≤ operand_count IR ≤ 3.
Proof. rewrite operand_count_div_mod. pose proof (Z.mod_pos_bound (IR / 64) 4). lia. Qed.

Lemma operand_count_byte IR : byte IR → operand_count IR = IR / 64.
Proof.
  intros [??]. rewrite operand_count_div_mod. apply Z.mod_small.
  split; [apply Z.div_pos; lia|]. apply Z.div_lt_upper_bound; lia.
Qed.

(** The count only depends on the opcode modulo 256: a cell that holds an
    integer outside a byte decodes as its low byte does. *)
Lemma operand_count_mod_256 IR : operand_count (IR mod 256) = operand_count IR.
Proof.
  rewrite !operand_count_div_mod. change 256 with (64 * 4).
  rewrite Z.rem_mul_r by lia.
  rewrite (Z.add_comm (IR mod 64)), (Z.mul_comm 64), Z.div_add_l by lia.
  rewrite (Z.div_small (IR mod 64)) by (apply Z.mod_pos_bound; lia).
  by rewrite Z.add_0_r, Z.mod_mod by lia.
Qed.

Lemma ALU_OP_LIST_NoDup : NoDup ALU_OP_LIST.
Proof. by compute_done. Qed.

Lemma IMPLEMENTED_NoDup : NoDup (IMPLEMENTED ++ UNIMPLEMENTED).
Proof. by compute_done. Qed.

(** Every declared opcode is a byte. *)
Lemma declared_opcodes_byte : Forall byte (IMPLEMENTED ++ UNIMPLEMENTED).
Proof. by compute_done. Qed.

(** The operand count of every opcode that has a handler: the ALU
    operations of one register take one operand, the others two. *)
Lemma operand_count_table :
  operand_count <$> [HLT; RET; CALL; PRN; PUSH; POP; JMP; JEQ; JNE; LDI; CMP]
    = [0; 0; 1; 1; 1; 1; 1; 1; 1; 2; 2] ∧
  operand_count <$> ALU_OP_LIST = [2; 2; 2; 1; 1; 2; 1; 2; 2; 2; 2; 2].
Proof. done. Qed.

End Decoder.
