(* ===== verification/Parser.v ===== *)
(** * Parser.v: the program file

    [main] of [src/ls8.py] reads the program from a text file: each line is
    cut at the first [#], stripped of surrounding white space, dropped when
    nothing is left, and read as a binary number by [int(n, 2)].  This file
    models that expression as a function of the list of lines that
    [f.readlines()] returned.  Strings are sequences of ASCII characters:
    the white space and the digits that only Unicode knows are outside the
    model.

    The theorems: a file written the way the specification describes it
    (one byte per line as binary digits, then optional white space and an
    optional comment) parses to the bytes it was written from; lines that
    hold only white space or a comment are skipped; the first line that is
    no binary number ends the parse with [ValueError]; and what [int(n, 2)]
    accepts beyond eight binary digits. *)

From Stdlib Require Import Ascii.
From S2P Require Import Prelude Python Opcodes.

#[local] Open Scope Z_scope.

(** ** [str.strip()] and [str.split('#')[0]] *)

(** [c.isspace()] on an ASCII character: tab, line feed, vertical tab, form
    feed, carriage return, the four separators 28-31, and space. *)
Definition isspace (c : ascii) : bool :=
  let n := nat_of_ascii c in
  bool_decide ((9 ≤ n ≤ 13)%nat ∨ (28 ≤ n ≤ 32)%nat).

Fixpoint lstrip (s : string) : string :=
  match s with
  | String c rest => if isspace c then lstrip rest else s
  | EmptyString => EmptyString
  end.

Fixpoint rstrip (s : string) : string :=
  match s with
  | String c rest =>
      let r := rstrip rest in
      if decide (r = EmptyString)
      then (if isspace c then EmptyString else String c EmptyString)
      else String c r
  | EmptyString => EmptyString
  end.

(** [s.strip()] *)
Definition strip (s : string) : string := rstrip (lstrip s).

(** [s.split(sep)[0]]: what comes before the first [sep]. *)
Fixpoint before (sep : ascii) (s : string) : string :=
  match s with
  | String c rest => if decide (c = sep) then EmptyString else String c (before sep rest)
  | EmptyString => EmptyString
  end.

(** ** [int(n, 2)] *)

(** The value of a binary digit. *)
Definition bit (c : ascii) : option Z :=
  if decide (c = "0"%char) then Some 0
  else if decide (c = "1"%char) then Some 1
  else None.

(** The digit loop of [int]: digits and single underscores between them.
    [seen]: a digit was read; [prev_us]: the previous character was an
    underscore.  Returns the value and what follows the digits. *)
Fixpoint int2_digits (acc : Z) (seen prev_us : bool) (s : string) : option (Z * string) :=
  match s with
  | String c rest =>
      match bit c with
      | Some d => int2_digits (2 * acc + d) true false rest
      | None =>
          if decide (c = "_"%char) then
            if prev_us then None else int2_digits acc seen true rest
          else if prev_us then None
          else if seen then Some (acc, s) else None
      end
  | EmptyString => if prev_us then None else if seen then Some (acc, s) else None
  end.

(** An optional sign. *)
Definition int2_sign (s : string) : Z * string :=
  match s with
  | String c rest =>
      if decide (c = "+"%char) then (1, rest)
      else if decide (c = "-"%char) then (-1, rest)
      else (1, s)
  | EmptyString => (1, s)
  end.

(** An optional [0b] or [0B], after which one underscore is allowed. *)
Definition int2_prefix (s : string) : string :=
  match s with
  | String c0 (String c1 rest) =>
      if decide (c0 = "0"%char ∧ (c1 = "b"%char ∨ c1 = "B"%char)) then
        match rest with
        | String c2 rest' => if decide (c2 = "_"%char) then rest' else rest
        | EmptyString => rest
        end
      else s
  | _ => s
  end.

(** The white space that [int] skips around a number: tab, line feed,
    vertical tab, form feed, carriage return and space.  The separators
    28-31, which [str.strip] removes, are not among them. *)
Definition int2_space (c : ascii) : bool :=
  let n := nat_of_ascii c in
  bool_decide ((9 ≤ n ≤ 13)%nat ∨ n = 32%nat).

Fixpoint int2_skip (s : string) : string :=
  match s with
  | String c rest => if int2_space c then int2_skip rest else s
  | EmptyString => EmptyString
  end.

(** [int(s, 2)] on a string: white space, sign, prefix, digits, white
    space; anything else is a [ValueError]. *)
Definition int2 (s : string) : result Z :=
  let '(sign, s) := int2_sign (int2_skip s) in
  let s := int2_prefix s in
  match s with
  | String c _ =>
      if decide (c = "_"%char) then Raise ValueError
      else
        match int2_digits 0 false false s with
        | Some (v, rest) =>
            if decide (int2_skip rest = EmptyString) then Ok (sign * v) else Raise ValueError
        | None => Raise ValueError
        end
  | EmptyString => Raise ValueError
  end.

(** ** The expression of [main] *)

(** [code.split('#')[0].strip()] *)
Definition clean (code : string) : string := strip (before "#"%char code).

(** [list(map(f, l))] for an [f] that can raise: the first exception ends
    the evaluation. *)
Fixpoint map_result {A B} (f : A → result B) (l : list A) : result (list B) :=
  match l with
  | [] => Ok []
  | x :: l =>
      match f x with
      | Ok y => match map_result f l with Ok ys => Ok (y :: ys) | Raise e => Raise e end
      | Raise e => Raise e
      end
  end.

(** The program of [main]: the lines cleaned, the empty ones dropped, the
    others read as binary numbers. *)
Definition parse_program (lines : list string) : result (list Z) :=
  map_result int2
    (filter (λ s, (0 < String.length s)%nat) (clean <$> lines)).

(** ** The file format of the specification *)

(** [n] binary digits of [z], most significant first. *)
Fixpoint to_bits (n : nat) (z : Z) : string :=
  match n with
  | O => EmptyString
  | S n => to_bits n (z / 2) +:+ (if Z.odd z then "1" else "0")
  end.

(** A byte as the specification writes it: eight binary digits. *)
Definition bin8 (z : Z) : string := to_bits 8 z.

(** Every character of [s] satisfies [P]. *)
Fixpoint all_chars (P : ascii → bool) (s : string) : bool :=
  match s with
  | String c rest => P c && all_chars P rest
  | EmptyString => true
  end.

(** Strings of binary digits, and strings of white space. *)
Definition bits (s : string) : Prop := all_chars (λ c, bool_decide (is_Some (bit c))) s.
Definition spaces (s : string) : Prop := all_chars isspace s.

(** What may follow the digits on a line: nothing, or a comment. *)
Definition comment (s : string) : Prop :=
  s = EmptyString ∨ ∃ c, s = String "#"%char c.

(** A line that encodes the byte [z]. *)
Definition line_of (z : Z) (line : string) : Prop :=
  ∃ w rest, spaces w ∧ comment rest ∧ line = bin8 z +:+ w +:+ rest.

(** ** Stripping *)

Section Strip.
Implicit Types (s w rest : string) (c sep : ascii) (P : ascii → bool).

Lemma all_chars_app P s1 s2 :
  all_chars P (s1 +:+ s2) ↔ all_chars P s1 ∧ all_chars P s2.
Proof.
  induction s1 as [|c s1 IH]; simpl; [naive_solver|].
  rewrite !andb_True, IH. naive_solver.
Qed.

Lemma bit_not_space c : is_Some (bit c) → isspace c = false.
Proof.
  unfold bit. repeat case_decide; subst; try done.
Qed.

Lemma bits_cons c s : bits (String c s) ↔ is_Some (bit c) ∧ bits s.
Proof. unfold bits. simpl. by rewrite andb_True, bool_decide_spec. Qed.

Lemma lstrip_bits s rest : bits s → s ≠ EmptyString → lstrip (s +:+ rest) = s +:+ rest.
Proof.
  destruct s as [|c s]; [done|]. intros [Hc _]%bits_cons _. simpl.
  by rewrite bit_not_space.
Qed.

Lemma bit_not_int2_space c : is_Some (bit c) → int2_space c = false.
Proof.
  unfold bit. repeat case_decide; subst; try done.
Qed.

Lemma int2_skip_bits s : bits s → int2_skip s = s.
Proof.
  destruct s as [|c s]; [done|]. intros [Hc _]%bits_cons. simpl.
  by rewrite bit_not_int2_space.
Qed.

Lemma rstrip_spaces w : spaces w → rstrip w = EmptyString.
Proof.
  unfold spaces. induction w as [|c w IH]; [done|]. simpl.
  intros [Hc Hw]%andb_True. rewrite IH by done. simpl. by destruct (isspace c).
Qed.

Lemma rstrip_bits_spaces s w : bits s → spaces w → rstrip (s +:+ w) = s.
Proof.
  intros Hs Hw. induction s as [|c s IH]; simpl; [by apply rstrip_spaces|].
  apply bits_cons in Hs as [Hc Hs]. rewrite IH by done.
  case_decide as E; [|done]. by rewrite E, bit_not_space.
Qed.

Lemma strip_bits_spaces s w : bits s → spaces w → strip (s +:+ w) = s.
Proof.
  intros Hs Hw. unfold strip. destruct (decide (s = EmptyString)) as [->|Hne].
  - simpl. clear Hs. induction w as [|c w IH]; [done|]. simpl.
    apply andb_True in Hw as [Hc Hw]. destruct (isspace c); [by apply IH|done].
  - rewrite lstrip_bits by done. by apply rstrip_bits_spaces.
Qed.

Lemma before_app sep s rest :
  all_chars (λ c, bool_decide (c ≠ sep)) s →
  before sep (s +:+ rest) = s +:+ before sep rest.
Proof.
  induction s as [|c s IH]; [done|]. simpl.
  intros [Hc Hs]%andb_True. apply bool_decide_spec in Hc.
  by rewrite decide_False, IH by done.
Qed.

Lemma all_chars_impl (P Q : ascii → bool) s :
  (∀ c, P c → Q c) → all_chars P s → all_chars Q s.
Proof.
  intros HPQ. induction s as [|c s IH]; [done|]. simpl.
  rewrite !andb_True. naive_solver.
Qed.

Lemma append_nil_r s : s +:+ EmptyString = s.
Proof.
  induction s as [|c s IH]; [done|].
  change (String c (s +:+ EmptyString) = String c s). by rewrite IH.
Qed.

Lemma append_assoc s1 s2 s3 : (s1 +:+ s2) +:+ s3 = s1 +:+ s2 +:+ s3.
Proof.
  induction s1 as [|c s1 IH]; [done|].
  change (String c ((s1 +:+ s2) +:+ s3) = String c (s1 +:+ s2 +:+ s3)). by rewrite IH.
Qed.

Lemma before_comment rest : comment rest → before "#"%char rest = EmptyString.
Proof. by intros [->|[c ->]]. Qed.

(** A line of digits, white space and an optional comment cleans to its
    digits. *)
Lemma space_not_hash c : isspace c → c ≠ "#"%char.
Proof. intros Hc ->. by vm_compute in Hc. Qed.

Lemma bit_not_hash c : bool_decide (is_Some (bit c)) → c ≠ "#"%char.
Proof. intros Hc ->. by vm_compute in Hc. Qed.

Lemma clean_digits s w rest :
  bits s → spaces w → comment rest → clean (s +:+ w +:+ rest) = s.
Proof.
  intros Hs Hw Hrest. unfold clean.
  assert (∀ P s', (∀ c, P c → c ≠ "#"%char) → all_chars P s' →
            all_chars (λ c, bool_decide (c ≠ "#"%char)) s') as Hno.
  { intros P s' HP. apply all_chars_impl. intros c Hc. by apply bool_decide_spec, HP. }
  rewrite !before_app, before_comment, append_nil_r; [by apply strip_bits_spaces|done|..].
  - apply (Hno _ _ space_not_hash Hw).
  - apply (Hno _ _ bit_not_hash Hs).
Qed.

End Strip.

(** ** Binary numbers *)

Section Int.
Implicit Types (s : string) (c : ascii) (acc z : Z) (n : nat).

Lemma bit_bin_go c d s acc : bit c = Some d → bin_go (String c s) acc = bin_go s (2 * acc + d).
Proof. unfold bit. simpl. repeat case_decide; naive_solver. Qed.

Lemma int2_digits_bits s acc (seen : bool) :
  bits s → seen ∨ s ≠ EmptyString →
  int2_digits acc seen false s = Some (bin_go s acc, EmptyString).
Proof.
  revert acc seen. induction s as [|c s IH]; intros acc seen Hs Hseen.
  - simpl. destruct seen; naive_solver.
  - apply bits_cons in Hs as [[d Hd] Hs].
    rewrite (bit_bin_go c d) by done. simpl. rewrite Hd. apply IH; auto.
Qed.

(** On a string of binary digits [int(s, 2)] is the value of the binary
    literal. *)
Lemma int2_bits s : bits s → s ≠ EmptyString → int2 s = Ok (bin s).
Proof.
  intros Hs Hne. unfold int2. rewrite int2_skip_bits by done.
  destruct s as [|c s]; [done|]. pose proof Hs as [[d Hd] Hs']%bits_cons.
  assert (int2_sign (String c s) = (1, String c s)) as ->.
  { unfold int2_sign. unfold bit in Hd. repeat case_decide; naive_solver. }
  assert (int2_prefix (String c s) = String c s) as ->.
  { destruct s as [|c1 s]; [done|]. apply bits_cons in Hs' as [[d1 Hd1] _].
    unfold int2_prefix. rewrite decide_False; [done|].
    unfold bit in Hd1. intros [_ [->| ->]]; by repeat case_decide. }
  rewrite decide_False by (unfold bit in Hd; intros ->; by repeat case_decide).
  rewrite int2_digits_bits by auto. simpl. by rewrite Z.mul_1_l.
Qed.

Lemma to_bits_bits n z : bits (to_bits n z).
Proof.
  revert z. induction n as [|n IH]; intros z; [done|]. simpl.
  apply all_chars_app. split; [apply IH|]. by destruct (Z.odd z).
Qed.

Lemma to_bits_nonempty n z : to_bits (S n) z ≠ EmptyString.
Proof. simpl. destruct (to_bits n (z / 2)), (Z.odd z); done. Qed.

Lemma bin_go_to_bits n z acc :
  bin_go (to_bits n z) acc = acc * 2 ^ Z.of_nat n + z mod 2 ^ Z.of_nat n.
Proof.
  revert z acc. induction n as [|n IH]; intros z acc.
  { simpl. rewrite Z.mod_1_r. lia. }
  cbn [to_bits]. rewrite bin_go_app, IH, Nat2Z.inj_succ, Z.pow_succ_r by lia.
  rewrite (Z.rem_mul_r z 2) by lia. rewrite Zmod_odd.
  destruct (Z.odd z); simpl; lia.
Qed.

End Int.

(** ** Parsing *)

Section Parse.
Implicit Types (s line : string) (lines before_it after_it : list string) (p : list Z) (z : Z).

Lemma length_pos s : (0 < String.length s)%nat ↔ s ≠ EmptyString.
Proof. destruct s; simpl; [naive_solver lia|]. split; [done|lia]. Qed.

Lemma parse_program_cons line lines :
  parse_program (line :: lines) =
  if decide (clean line = EmptyString) then parse_program lines
  else match int2 (clean line) with
       | Ok z => match parse_program lines with Ok p => Ok (z :: p) | Raise e => Raise e end
       | Raise e => Raise e
       end.
Proof.
  unfold parse_program. rewrite fmap_cons, filter_cons.
  case_decide as E1; case_decide as E2; try done; [by apply length_pos in E1|].
  by destruct E1; apply length_pos.
Qed.

Lemma int2_Raise s e : int2 s = Raise e → e = ValueError.
Proof.
  unfold int2. destruct (int2_sign _) as [sign s']. destruct (int2_prefix s'); [congruence|].
  repeat (case_decide || case_match); congruence.
Qed.

(** The parse raises nothing but [ValueError]. *)
Lemma parse_program_Raise lines e : parse_program lines = Raise e → e = ValueError.
Proof.
  induction lines as [|line lines IH]; [done|]. rewrite parse_program_cons.
  case_decide; [done|]. destruct (int2 (clean line)) eqn:E.
  - destruct (parse_program lines); [done|]. intros [= <-]. by apply IH.
  - intros [= <-]. by eapply int2_Raise.
Qed.

(** Eight binary digits read back as the byte they were written from. *)
Lemma int2_bin8 z : byte z → int2 (bin8 z) = Ok z.
Proof.
  intros Hz. unfold bin8. rewrite int2_bits by auto using to_bits_bits, to_bits_nonempty.
  unfold bin. rewrite bin_go_to_bits. f_equal. simpl. by apply Z.mod_small.
Qed.

Lemma clean_line_of z line : line_of z line → clean line = bin8 z.
Proof. intros (w & rest & Hw & Hrest & ->). apply clean_digits; [apply to_bits_bits|done..]. Qed.

(** A file written in the format of the specification, one byte per line
    with optional white space and comment after the digits, parses to the
    bytes it was written from. *)
Theorem parse_program_roundtrip p lines :
  Forall byte p → Forall2 line_of p lines → parse_program lines = Ok p.
Proof.
  intros Hp Hl. induction Hl as [|z line p lines Hz _ IH]; [done|].
  apply Forall_cons in Hp as [Hb Hp].
  rewrite parse_program_cons, (clean_line_of z) by done.
  rewrite decide_False by apply to_bits_nonempty.
  by rewrite int2_bin8, IH.
Qed.

Lemma parse_program_roundtrip_witness :
  parse_program ["10000010 # LDI R0,8" +:+ nl; "00000000" +:+ nl; "00001000"] = Ok [130; 0; 8].
Proof.
  apply parse_program_roundtrip; [by compute_done|].
  repeat constructor.
  - exists " ", ("# LDI R0,8" +:+ nl). split_and!; [done|right; by eexists|done].
  - exists nl, EmptyString. split_and!; [done|by left|done].
  - exists EmptyString, EmptyString. split_and!; [done|by left|done].
Defined.

(** Lines that hold only white space or a comment do not count. *)
Theorem parse_program_skips before_it line after_it :
  clean line = EmptyString → parse_program (before_it ++ line :: after_it) = parse_program (before_it ++ after_it).
Proof.
  intros E. induction before_it as [|x before_it IH]; simpl.
  - by rewrite parse_program_cons, decide_True.
  - by rewrite !(parse_program_cons x), IH.
Qed.

Lemma parse_program_skips_witness :
  parse_program (["00000001" +:+ nl] ++ ("  # halt" +:+ nl) :: ["00000001"]) =
  parse_program (["00000001" +:+ nl] ++ ["00000001"]).
Proof. by apply parse_program_skips. Defined.

(** C35. The first line that is no binary number ends the parse with
    [ValueError], whatever follows it. *)
Theorem parse_program_ValueError before_it p line after_it :
  parse_program before_it = Ok p → clean line ≠ EmptyString → ¬ is_Ok (int2 (clean line)) →
  parse_program (before_it ++ line :: after_it) = Raise ValueError.
Proof.
  intros Hbefore_it Hne Hbad. revert p Hbefore_it. induction before_it as [|x before_it IH]; intros p Hbefore_it; simpl.
  - rewrite parse_program_cons, decide_False by done.
    destruct (int2 (clean line)) as [z|e] eqn:E; [by destruct Hbad|].
    by rewrite (int2_Raise _ _ E).
  - rewrite parse_program_cons in Hbefore_it |- *. case_decide; [by eapply IH|].
    destruct (int2 (clean x)); [|done].
    destruct (parse_program before_it) as [p1|]; [|done]. by rewrite (IH p1).
Qed.

Lemma parse_program_ValueError_witness :
  parse_program (["00000001" +:+ nl] ++ ("00000002" +:+ nl) :: ["00000001"]) = Raise ValueError.
Proof. apply (parse_program_ValueError _ [1]); by compute_done. Defined.

(** What [int(n, 2)] accepts beyond eight binary digits: any number of
    digits, a sign, a [0b] prefix, single underscores; and what it
    refuses. *)
Theorem int2_accepts :
  int2 "111111111" = Ok 511 ∧ int2 "1" = Ok 1 ∧ int2 "-1" = Ok (-1) ∧
  int2 "+0B11" = Ok 3 ∧ int2 "0b_1_0" = Ok 2 ∧
  int2 "12" = Raise ValueError ∧ int2 "1__0" = Raise ValueError ∧
  int2 "1_" = Raise ValueError ∧ int2 "_1" = Raise ValueError ∧
  int2 "0b" = Raise ValueError ∧ int2 "1 0" = Raise ValueError.
Proof. by vm_compute. Qed.

(** The separators 28-31 are white space for [strip] and not for [int]:
    in front of a number they are removed from a line of the program file,
    while [int] alone refuses them. *)
Lemma int2_separator :
  int2 (String (ascii_of_nat 28) "1") = Raise ValueError ∧
  clean (String (ascii_of_nat 28) "1") = "1" ∧
  parse_program [String (ascii_of_nat 28) "1"] = Ok [1] ∧
  int2 (String " " "1" +:+ nl) = Ok 1.
Proof. by vm_compute. Qed.

End Parse.
