(* ===== verification/Alu.v ===== *)
(** * Alu.v: the arithmetic-logic unit

    [src/cpu.py] keeps the ALU as a table: [ALU_OP_LIST] (the opcodes),
    [ALU_OP_FUNC] (one lambda per opcode, in the same order) and
    [ALU_DISPATCH = dict(zip(ALU_OP_LIST, ALU_OP_FUNC))].  This file models
    the table as the source builds it, proves it equal to a plain case
    analysis on the opcode ([alu_switch]), and from there what each operation
    computes: on all integers, because the source never truncates, and on
    bytes, where the specification's 8-bit ALU ([alu8]) is the reference. *)

From S2P Require Import Prelude Python Opcodes.

#[local] Open Scope Z_scope.

(** The lambdas of [ALU_OP_FUNC], in the order of the source, each with the
    argument order of the source. *)
Definition ALU_OP_FUNC : list lambda :=
  [ Lam2 (λ a b, Ok (b + a));
    Lam2 (λ a b, Ok (a - b));
    Lam2 (λ a b, Ok (b * a));
    Lam1 (λ a, Ok (a + 1));
    Lam1 (λ a, Ok (a - 1));
    Lam2 (λ a b, Ok (Z.land b a));
    Lam1 (λ a, Ok (Z.lxor a (bin "11111111")));
    Lam2 (λ a b, Ok (Z.lor a b));
    Lam2 (λ a b, Ok (Z.lxor b a));
    Lam2 (λ a b, py_lshift a b);
    Lam2 (λ a b, py_rshift a b);
    Lam2 (λ a b, py_mod a b) ].

Definition ALU_DISPATCH : gmap Z lambda := dict (zip ALU_OP_LIST ALU_OP_FUNC).

(** The same table as a case analysis on the opcode. *)
Definition alu_switch (op : Z) : option lambda :=
  if decide (op = ADD) then Some (Lam2 (λ a b, Ok (b + a)))
  else if decide (op = SUB) then Some (Lam2 (λ a b, Ok (a - b)))
  else if decide (op = MUL) then Some (Lam2 (λ a b, Ok (b * a)))
  else if decide (op = INC) then Some (Lam1 (λ a, Ok (a + 1)))
  else if decide (op = DEC) then Some (Lam1 (λ a, Ok (a - 1)))
  else if decide (op = AND) then Some (Lam2 (λ a b, Ok (Z.land b a)))
  else if decide (op = NOT) then Some (Lam1 (λ a, Ok (Z.lxor a 255)))
  else if decide (op = OR) then Some (Lam2 (λ a b, Ok (Z.lor a b)))
  else if decide (op = XOR) then Some (Lam2 (λ a b, Ok (Z.lxor b a)))
  else if decide (op = SHL) then Some (Lam2 (λ a b, py_lshift a b))
  else if decide (op = SHR) then Some (Lam2 (λ a b, py_rshift a b))
  else if decide (op = MOD) then Some (Lam2 (λ a b, py_mod a b))
  else None.

(** The ALU of the specification: every result truncated to 8 bits, [None]
    where the specification leaves the result undefined (MOD by zero) or
    names no such operation. *)
Definition alu8 (op a b : Z) : option Z :=
  if decide (op = ADD) then Some ((a + b) mod 256)
  else if decide (op = SUB) then Some ((a - b) mod 256)
  else if decide (op = MUL) then Some ((a * b) mod 256)
  else if decide (op = MOD) then (if decide (b = 0) then None else Some ((a mod b) mod 256))
  else if decide (op = INC) then Some ((a + 1) mod 256)
  else if decide (op = DEC) then Some ((a - 1) mod 256)
  else if decide (op = AND) then Some (Z.land a b mod 256)
  else if decide (op = OR) then Some (Z.lor a b mod 256)
  else if decide (op = XOR) then Some (Z.lxor a b mod 256)
  else if decide (op = NOT) then Some (Z.lnot a mod 256)
  else if decide (op = SHL) then Some (Z.shiftl a b mod 256)
  else if decide (op = SHR) then Some (Z.shiftr a b mod 256)
  else None.

(** The arguments the dispatcher passes for an opcode: one register value
    for the opcodes with one operand byte, two otherwise. *)
Definition alu_args (op a b : Z) : list Z :=
  if decide (operand_count op = 1) then [a] else [a; b].

(** The operations whose result on bytes is a byte. *)
Definition BYTE_CLOSED : list Z := [AND; NOT; OR; XOR; SHR; MOD].

(** Case analysis on membership in a list of constants: one goal per
    element, each with the variable replaced by the constant. *)
Ltac elem_cases H :=
  repeat (apply elem_of_cons in H as [->|H]); [..|by apply elem_of_nil in H].

Section AluFacts.
Implicit Types op a b v : Z.

Lemma ALU_DISPATCH_None op : op ∉ ALU_OP_LIST → ALU_DISPATCH !! op = None.
Proof. intros Hout. by apply (dict_lookup_None (zip ALU_OP_LIST ALU_OP_FUNC)). Qed.

Lemma alu_switch_None op : op ∉ ALU_OP_LIST → alu_switch op = None.
Proof.
  intros Hout. unfold alu_switch.
  repeat (case_decide as E; [exfalso; apply Hout; rewrite E; by compute_done|clear E]).
  done.
Qed.

(** The table built by [dict(zip(ALU_OP_LIST, ALU_OP_FUNC))] maps every
    opcode to the lambda a case analysis on the opcode would select, and
    every other integer to nothing. *)
Theorem ALU_DISPATCH_switch op : ALU_DISPATCH !! op = alu_switch op.
Proof.
  destruct (decide (op ∈ ALU_OP_LIST)) as [Hin|Hout].
  - unfold ALU_OP_LIST in Hin. elem_cases Hin; reflexivity.
  - by rewrite ALU_DISPATCH_None, alu_switch_None.
Qed.

End AluFacts.

(** [alu_simpl] replaces lookups in the table at a constant opcode by the
    lambda found there. *)
Ltac alu_simpl := rewrite ?ALU_DISPATCH_switch; unfold alu_switch; simpl.

Section AluLaws.
Implicit Types op a b v : Z.

Lemma ALU_DISPATCH_is_Some op : is_Some (ALU_DISPATCH !! op) ↔ op ∈ ALU_OP_LIST.
Proof.
  split.
  - apply (dict_lookup_is_Some (zip ALU_OP_LIST ALU_OP_FUNC)).
  - intros Hin. rewrite ALU_DISPATCH_switch.
    unfold ALU_OP_LIST in Hin. elem_cases Hin; by eexists.
Qed.

(** C7. What each entry of the table computes, on all integers: no result is
    truncated. *)
Theorem alu_table a b :
  call (ALU_DISPATCH !! ADD) [a; b] = Ok (a + b) ∧
  call (ALU_DISPATCH !! SUB) [a; b] = Ok (a - b) ∧
  call (ALU_DISPATCH !! MUL) [a; b] = Ok (a * b) ∧
  call (ALU_DISPATCH !! INC) [a] = Ok (a + 1) ∧
  call (ALU_DISPATCH !! DEC) [a] = Ok (a - 1) ∧
  call (ALU_DISPATCH !! AND) [a; b] = Ok (Z.land a b) ∧
  call (ALU_DISPATCH !! NOT) [a] = Ok (Z.lxor a 255) ∧
  call (ALU_DISPATCH !! OR) [a; b] = Ok (Z.lor a b) ∧
  call (ALU_DISPATCH !! XOR) [a; b] = Ok (Z.lxor a b) ∧
  call (ALU_DISPATCH !! SHL) [a; b] = py_lshift a b ∧
  call (ALU_DISPATCH !! SHR) [a; b] = py_rshift a b ∧
  call (ALU_DISPATCH !! MOD) [a; b] = py_mod a b.
Proof.
  alu_simpl.
  by rewrite (Z.add_comm b), (Z.mul_comm b), (Z.land_comm b), (Z.lxor_comm b).
Qed.

(** A lambda of one argument called with two, or the converse, raises. *)
Lemma alu_arity_mismatch a b :
  Forall (λ op, call (ALU_DISPATCH !! op) [a; b] = Raise TypeError) [INC; DEC; NOT] ∧
  Forall (λ op, call (ALU_DISPATCH !! op) [a] = Raise TypeError)
    [ADD; SUB; MUL; AND; OR; XOR; SHL; SHR; MOD].
Proof. split; repeat constructor. Qed.

(** The argument list the dispatcher builds has the arity of the lambda. *)
Lemma alu_args_arity op a b :
  op ∈ ALU_OP_LIST →
  match ALU_DISPATCH !! op with
  | Some (Lam1 _) => alu_args op a b = [a]
  | Some (Lam2 _) => alu_args op a b = [a; b]
  | None => False
  end.
Proof. intros Hin. unfold ALU_OP_LIST in Hin. elem_cases Hin; reflexivity. Qed.

(** On bytes, AND, NOT, OR, XOR, SHR and MOD return a byte. *)
Theorem alu_byte_closed op a b v :
  op ∈ BYTE_CLOSED → byte a → byte b →
  call (ALU_DISPATCH !! op) (alu_args op a b) = Ok v → byte v.
Proof.
  intros Hin Ha Hb. unfold BYTE_CLOSED in Hin. unfold byte in *.
  elem_cases Hin; alu_simpl;
    unfold py_rshift, py_mod; repeat case_decide; intros [= <-].
  - rewrite Z.land_comm. by apply (land_bounded _ _ 8).
  - by apply (lxor_bounded _ _ 8).
  - by apply (lor_bounded _ _ 8).
  - by apply (lxor_bounded _ _ 8).
  - apply (shiftr_bounded _ _ 8); [done|lia].
  - pose proof (Z.mod_pos_bound a b). lia.
Qed.

Lemma alu_byte_closed_witness : byte 8.
Proof.
  apply (alu_byte_closed AND 12 10 8); [by compute_done|by compute_done..|done].
Defined.

(** On bytes, the ALU never raises, except for MOD by zero. *)
Theorem alu_total_on_bytes op a b :
  op ∈ ALU_OP_LIST → byte a → byte b → ¬ (op = MOD ∧ b = 0) →
  is_Ok (call (ALU_DISPATCH !! op) (alu_args op a b)).
Proof.
  intros Hin Ha Hb Hmod. unfold ALU_OP_LIST in Hin. unfold byte in *.
  elem_cases Hin; alu_simpl; try done;
    unfold py_lshift, py_rshift, py_mod; repeat case_decide; try done; try lia.
Qed.

Lemma alu_total_on_bytes_witness :
  is_Ok (call (ALU_DISPATCH !! MOD) (alu_args MOD 17 5)).
Proof.
  apply alu_total_on_bytes; [by compute_done..|]. by intros [_ [=]].
Defined.

(** On bytes, the low 8 bits of what the code computes are the result
    the specification's ALU gives. *)
Theorem alu_refines_alu8 op a b v :
  byte a → byte b →
  call (ALU_DISPATCH !! op) (alu_args op a b) = Ok v →
  alu8 op a b = Some (v mod 256).
Proof.
  intros Ha Hb. destruct (decide (op ∈ ALU_OP_LIST)) as [Hin|Hout].
  2: { by rewrite ALU_DISPATCH_None. }
  unfold ALU_OP_LIST in Hin. unfold byte in *.
  elem_cases Hin; alu_simpl;
    unfold py_lshift, py_rshift, py_mod; repeat case_decide; intros [= <-];
    rewrite ?(Z.add_comm b), ?(Z.mul_comm b), ?(Z.land_comm b), ?(Z.lxor_comm b a);
    try done.
  - unfold alu8; simpl. rewrite lxor_255 by done. unfold Z.lnot, Z.pred. f_equal.
    rewrite <- (Z_mod_plus_full (- a + -1) 1 256). f_equal. lia.
  - unfold alu8; simpl. by rewrite decide_False.
Qed.

Lemma alu_refines_alu8_witness : alu8 NOT 5 0 = Some (250 mod 256).
Proof. apply alu_refines_alu8; [by compute_done..|done]. Defined.

(** Where the specification's ALU has a result on bytes, the code has one
    too, with the same low 8 bits. *)
Lemma alu8_Some op a b v :
  op ∈ ALU_OP_LIST → byte a → byte b → alu8 op a b = Some v →
  ∃ w, call (ALU_DISPATCH !! op) (alu_args op a b) = Ok w ∧ v = w mod 256.
Proof.
  intros Hin Ha Hb E. destruct (call _ _) as [w|e] eqn:C.
  - exists w. split; [done|]. apply alu_refines_alu8 in C; congruence.
  - pose proof (alu_total_on_bytes op a b Hin Ha Hb) as T. rewrite C in T.
    destruct T. by intros [-> ->].
Qed.

(** MOD by zero is the one place where the specification's ALU is undefined
    on bytes, and there the code raises [ZeroDivisionError]. *)
Lemma alu_mod_zero a :
  call (ALU_DISPATCH !! MOD) [a; 0] = Raise ZeroDivisionError ∧ alu8 MOD a 0 = None.
Proof. done. Qed.

(** The code does not wrap: 255 + 1 is 256 in the ALU, and 0 in the
    specification; 0 - 1 is -1, and 255 in the specification. *)
Theorem alu_does_not_truncate :
  call (ALU_DISPATCH !! ADD) [255; 1] = Ok 256 ∧ alu8 ADD 255 1 = Some 0 ∧
  call (ALU_DISPATCH !! DEC) [0] = Ok (-1) ∧ alu8 DEC 0 0 = Some 255 ∧
  call (ALU_DISPATCH !! MUL) [16; 16] = Ok 256 ∧ alu8 MUL 16 16 = Some 0 ∧
  call (ALU_DISPATCH !! SHL) [255; 1] = Ok 510 ∧ alu8 SHL 255 1 = Some 254.
Proof. done. Qed.

(** ADD, SUB, MUL, INC, DEC and SHL leave the bytes exactly when the
    mathematical result does. *)
Lemma alu_add_byte_iff a b v :
  byte a → byte b → call (ALU_DISPATCH !! ADD) [a; b] = Ok v → (byte v ↔ a + b < 256).
Proof.
  intros Ha Hb. alu_simpl. intros [= <-]. unfold byte in *. lia.
Qed.

Lemma alu_add_byte_iff_witness : byte 200 ↔ 120 + 80 < 256.
Proof. apply (alu_add_byte_iff 120 80 200); by compute_done. Defined.

Lemma alu_sub_byte_iff a b v :
  byte a → byte b → call (ALU_DISPATCH !! SUB) [a; b] = Ok v → (byte v ↔ b ≤ a).
Proof.
  intros Ha Hb. alu_simpl. intros [= <-]. unfold byte in *. lia.
Qed.

End AluLaws.
