(* ===== verification/Cpu.v ===== *)
(** * Cpu.v: the state of the CPU and the methods below the dispatcher

    [class CPU] of [src/cpu.py]: the attributes [reg], [pc], [fl] and [ram]
    set by [__init__], and the methods [ram_read], [ram_write], [load],
    [alu], [push_mdr], [pop_mdr], [push_from_reg], [pop_to_reg], [ldi_foo],
    [print_foo], [cmp_foo], [jmp_foo], [jeq_foo] and [jne_foo].  Each method
    is a computation in [M cpu]; [stdout] collects what [print] wrote.

    The theorems: the invariant [wf] (eight registers, 256 cells, flags within
    three bits) holds initially and is preserved by every method, on the
    error paths too; memory and registers obey the read-after-write laws with
    Python's negative subscripts; [load] copies the program to address 0 and
    fails past 256 bytes; push and pop round-trip below the stack's reset
    value [0xF4] and not above; [cmp_foo] leaves exactly one of the three
    flags; the conditional jumps are taken exactly on the Equal flag. *)

From S2P Require Import Prelude Python Opcodes Alu.

#[local] Open Scope Z_scope.
#[local] Open Scope ls8_scope.

(** ** State *)

Record cpu : Type := mkCPU {
  reg : list Z;      (* self.reg: 8 general-purpose registers *)
  pc : Z;            (* self.pc: the program counter *)
  fl : Z;            (* self.fl: the flags register, bits 00000LGE *)
  ram : list Z;      (* self.ram: 256 bytes of memory *)
  stdout : string    (* what print has written so far *)
}.

Definition set_reg (v : list Z) (s : cpu) : cpu :=
  {| reg := v; pc := pc s; fl := fl s; ram := ram s; stdout := stdout s |}.
Definition set_pc (v : Z) (s : cpu) : cpu :=
  {| reg := reg s; pc := v; fl := fl s; ram := ram s; stdout := stdout s |}.
Definition set_fl (v : Z) (s : cpu) : cpu :=
  {| reg := reg s; pc := pc s; fl := v; ram := ram s; stdout := stdout s |}.
Definition set_ram (v : list Z) (s : cpu) : cpu :=
  {| reg := reg s; pc := pc s; fl := fl s; ram := v; stdout := stdout s |}.
Definition set_stdout (v : string) (s : cpu) : cpu :=
  {| reg := reg s; pc := pc s; fl := fl s; ram := ram s; stdout := v |}.

(** [CPU()]: registers and memory cleared, [R7] set to [0xF4]. *)
Definition CPU_init : cpu :=
  {| reg := <[Z.to_nat SP := 0xF4]> (replicate 8 0);
     pc := 0;
     fl := 0;
     ram := replicate 256 0;
     stdout := "" |}.

(** ** Attribute access *)

(** [self.reg[i]] *)
Definition reg_get (i : Z) : M cpu Z :=
  l ← gets reg; lift (getitem l i).

(** [self.reg[i] = v] *)
Definition reg_set (i v : Z) : M cpu unit :=
  l ← gets reg; l' ← lift (setitem l i v); modify (set_reg l').

(** [print(line)] *)
Definition print (line : string) : M cpu unit :=
  modify (λ s, set_stdout (stdout s +:+ line +:+ nl) s).

(** ** Methods *)

Definition ram_read (mar : Z) : M cpu Z :=
  l ← gets ram; lift (getitem l mar).

Definition ram_write (mar mdr : Z) : M cpu unit :=
  l ← gets ram; l' ← lift (setitem l mar mdr); modify (set_ram l').

(** The [for] loop of [load]: [self.ram[address] = instruction], then
    [address += 1]. *)
Fixpoint load_loop (program : list Z) (address : Z) : M cpu unit :=
  match program with
  | [] => mret tt
  | instruction :: rest =>
      (l ← gets ram; l' ← lift (setitem l address instruction); modify (set_ram l'));;
      load_loop rest (address + 1)
  end.

(** [load(program)]; [None] is Python's [None]. *)
Definition load (program : option (list Z)) : M cpu unit :=
  match program with
  | None => print "no program specified"
  | Some program => load_loop program 0
  end.

(** [alu(op, reg_a, reg_b)]; [reg_b] is [None] for the operations of one
    register. *)
Definition alu (op reg_a : Z) (reg_b : option Z) : M cpu Z :=
  let foo := ALU_DISPATCH !! op in
  match foo with
  | None => raise (Exception "Unsupported ALU operation")
  | Some _ =>
      match reg_b with
      | Some reg_b => x ← reg_get reg_a; y ← reg_get reg_b; lift (call foo [x; y])
      | None => x ← reg_get reg_a; lift (call foo [x])
      end
  end.

Definition push_mdr (mdr : Z) : M cpu unit :=
  v ← reg_get SP; reg_set SP (v - 1);;
  mar ← reg_get SP;
  ram_write mar mdr.

Definition pop_mdr : M cpu Z :=
  mar ← reg_get SP;
  popped ← ram_read mar;
  (if decide (mar < 0xF4) then v ← reg_get SP; reg_set SP (v + 1) else mret tt);;
  mret popped.

Definition push_from_reg (from_register : Z) : M cpu unit :=
  mdr ← reg_get from_register;
  push_mdr mdr.

Definition pop_to_reg (to_register : Z) : M cpu unit :=
  v ← pop_mdr; reg_set to_register v.

Definition ldi_foo (a b : Z) : M cpu unit :=
  reg_set a b.

Definition print_foo (a : Z) : M cpu unit :=
  v ← reg_get a; print (str v).

(** One of the six assignments to [self.fl] in [cmp_foo]:
    [self.fl = foo(self.fl, mask)]. *)
Definition fl_update (foo : option lambda) (mask : Z) : M cpu unit :=
  f ← gets fl; v ← lift (call foo [f; mask]); modify (set_fl v).

Definition cmp_foo (addr1 addr2 : Z) : M cpu unit :=
  a ← reg_get addr1;
  b ← reg_get addr2;
  let or_foo := ALU_DISPATCH !! OR in
  let and_foo := ALU_DISPATCH !! AND in
  (if decide (a = b) then fl_update or_foo (bin "00000001")
   else fl_update and_foo (bin "11111110"));;
  (if decide (a > b) then fl_update or_foo (bin "00000010")
   else fl_update and_foo (bin "11111101"));;
  (if decide (a < b) then fl_update or_foo (bin "00000100")
   else fl_update and_foo (bin "11111011")).

Definition jmp_foo (addr : Z) : M cpu unit :=
  destination ← reg_get addr;
  modify (set_pc destination).

Definition jeq_foo (addr : Z) : M cpu unit :=
  f ← gets fl;
  if decide (Z.land f (bin "00000001") = 1) then jmp_foo addr else mret tt.

Definition jne_foo (addr : Z) : M cpu unit :=
  f ← gets fl;
  if decide (Z.land f (bin "00000001") = 0) then jmp_foo addr else mret tt.

(** ** The invariant *)

(** Eight registers, 256 memory cells, and a flags register within its three
    bits.  Nothing is said of the values of the cells: the code does not keep
    them within a byte. *)
Record wf (s : cpu) : Prop := mk_wf {
  wf_reg : length (reg s) = 8%nat;
  wf_ram : length (ram s) = 256%nat;
  wf_fl : 0 ≤ fl s ≤ 7
}.

#[export] Instance wf_dec s : Decision (wf s).
Proof.
  refine (cast_if (decide (length (reg s) = 8%nat ∧ length (ram s) = 256%nat ∧
                           0 ≤ fl s ≤ 7)));
    [by destruct a as (?&?&?)|by intros [???]; destruct n].
Defined.

(** What the flags register holds after a comparison of [a] with [b]. *)
Definition flags_of (a b : Z) : Z :=
  if decide (a = b) then 1 else if decide (a > b) then 2 else 4.

(** A valid register number, as an operand byte gives it. *)
Definition is_reg (r : Z) : Prop := 0 ≤ r < 8.

#[export] Instance is_reg_dec r : Decision (is_reg r).
Proof. unfold is_reg. apply _. Defined.

(** The value of register [r], [0] when there is no such register. *)
Definition R (s : cpu) (r : Z) : Z := default 0 (reg s !! Z.to_nat r).

(** The memory cell at address [a], [0] outside the memory. *)
Definition mem (s : cpu) (a : Z) : Z := default 0 (ram s !! Z.to_nat a).

(** [self.reg[r] = v] on a valid register number. *)
Definition write_reg (r v : Z) (s : cpu) : cpu :=
  set_reg (<[Z.to_nat r := v]> (reg s)) s.

(** [self.ram[a] = v] on an address in [0, 256). *)
Definition write_mem (a v : Z) (s : cpu) : cpu :=
  set_ram (<[Z.to_nat a := v]> (ram s)) s.

(** The memory after the loop of [load] has copied [p] from address [k] on:
    the bytes that fit below address 256 are written, in order. *)
Definition loaded (k : nat) (p : list Z) (old : list Z) : list Z :=
  take k old ++ take (256 - k) p ++ drop (k + length p) old.

(** The state [main] of [src/ls8.py] starts [run] in: [cpu = CPU()], then
    [cpu.load(program)]. *)
Definition booted (program : list Z) : cpu :=
  exec (load (Some program)) CPU_init.

(** ** Reading and writing cells *)

Arguments getitem : simpl never.
Arguments setitem : simpl never.
Arguments str : simpl never.

Section Cells.
Implicit Types (s : cpu) (r a v : Z) (l : list Z).

Lemma wf_CPU_init : wf CPU_init.
Proof. by split. Qed.

Lemma wf_write_reg s r v : wf s → wf (write_reg r v s).
Proof. intros [???]. split; simpl; [by rewrite length_insert|done..]. Qed.

Lemma wf_write_mem s a v : wf s → wf (write_mem a v s).
Proof. intros [???]. split; simpl; [done|by rewrite length_insert|done]. Qed.

Lemma wf_set_pc s v : wf s → wf (set_pc v s).
Proof. by intros [???]. Qed.

Lemma wf_set_stdout s (out : string) : wf s → wf (set_stdout out s).
Proof. by intros [???]. Qed.

Lemma wf_set_fl s v : wf s → 0 ≤ v ≤ 7 → wf (set_fl v s).
Proof. by intros [???]. Qed.

Lemma getitem_reg s r : wf s → is_reg r → getitem (reg s) r = Ok (R s r).
Proof.
  intros [Hl _ _] Hr. unfold is_reg in Hr. rewrite getitem_nonneg by lia. unfold R.
  by destruct (lookup_lt_is_Some_2 (reg s) (Z.to_nat r) ltac:(lia)) as [v ->].
Qed.

Lemma getitem_ram s a : wf s → byte a → getitem (ram s) a = Ok (mem s a).
Proof.
  intros [_ Hl _] Ha. unfold byte in Ha. rewrite getitem_nonneg by lia. unfold mem.
  by destruct (lookup_lt_is_Some_2 (ram s) (Z.to_nat a) ltac:(lia)) as [v ->].
Qed.

Lemma setitem_reg s r v :
  wf s → is_reg r → setitem (reg s) r v = Ok (<[Z.to_nat r := v]> (reg s)).
Proof.
  intros [Hl _ _] Hr. unfold is_reg in Hr. apply setitem_Ok.
  exists (Z.to_nat r). split; [|done]. apply py_index_nonneg. lia.
Qed.

Lemma setitem_ram s a v :
  wf s → byte a → setitem (ram s) a v = Ok (<[Z.to_nat a := v]> (ram s)).
Proof.
  intros [_ Hl _] Ha. unfold byte in Ha. apply setitem_Ok.
  exists (Z.to_nat a). split; [|done]. apply py_index_nonneg. lia.
Qed.

Lemma reg_get_ok s r : wf s → is_reg r → reg_get r s = (Ok (R s r), s).
Proof. intros. unfold reg_get. munfold. by rewrite getitem_reg. Qed.

Lemma reg_set_ok s r v : wf s → is_reg r → reg_set r v s = (Ok tt, write_reg r v s).
Proof. intros. unfold reg_set. munfold. by rewrite setitem_reg. Qed.

Lemma ram_read_ok s a : wf s → byte a → ram_read a s = (Ok (mem s a), s).
Proof. intros. unfold ram_read. munfold. by rewrite getitem_ram. Qed.

Lemma ram_write_ok s a v : wf s → byte a → ram_write a v s = (Ok tt, write_mem a v s).
Proof. intros. unfold ram_write. munfold. by rewrite setitem_ram. Qed.

(** A negative subscript reads the cell [256] above it: [-1] is the last
    cell. *)
Lemma ram_read_negative s a : wf s → -256 ≤ a < 0 → ram_read a s = ram_read (256 + a) s.
Proof.
  intros [_ Hl _] Ha. unfold ram_read, getitem. munfold.
  by rewrite Hl, (py_index_neg 256) by lia.
Qed.

Lemma ram_write_negative s a v :
  wf s → -256 ≤ a < 0 → ram_write a v s = ram_write (256 + a) v s.
Proof.
  intros [_ Hl _] Ha. unfold ram_write, setitem. munfold.
  by rewrite Hl, (py_index_neg 256) by lia.
Qed.

(** Outside [-256, 256) a memory access raises and leaves the state as it
    was. *)
Lemma ram_read_out_of_range s a :
  wf s → a < -256 ∨ 256 ≤ a → ram_read a s = (Raise IndexError, s).
Proof.
  intros [_ Hl _] Ha. unfold ram_read. munfold.
  by rewrite (proj2 (getitem_Raise (ram s) a IndexError)) by (rewrite Hl; split; [done|lia]).
Qed.

Lemma ram_write_out_of_range s a v :
  wf s → a < -256 ∨ 256 ≤ a → ram_write a v s = (Raise IndexError, s).
Proof.
  intros [_ Hl _] Ha. unfold ram_write. munfold.
  by rewrite (proj2 (setitem_Raise (ram s) a v IndexError)) by (rewrite Hl; split; [done|lia]).
Qed.

Lemma reg_get_out_of_range s r :
  wf s → r < -8 ∨ 8 ≤ r → reg_get r s = (Raise IndexError, s).
Proof.
  intros [Hl _ _] Hr. unfold reg_get. munfold.
  by rewrite (proj2 (getitem_Raise (reg s) r IndexError)) by (rewrite Hl; split; [done|lia]).
Qed.

Lemma reg_set_out_of_range s r v :
  wf s → r < -8 ∨ 8 ≤ r → reg_set r v s = (Raise IndexError, s).
Proof.
  intros [Hl _ _] Hr. unfold reg_set. munfold.
  by rewrite (proj2 (setitem_Raise (reg s) r v IndexError)) by (rewrite Hl; split; [done|lia]).
Qed.

(** Projections of an updated state. *)
Lemma R_write_reg s r r' v :
  wf s → is_reg r → is_reg r' →
  R (write_reg r v s) r' = if decide (r = r') then v else R s r'.
Proof.
  intros [Hl _ _] Hr Hr'. unfold R, write_reg, is_reg in *. simpl. case_decide.
  - subst. by rewrite list_lookup_insert_eq by lia.
  - by rewrite list_lookup_insert_ne by lia.
Qed.

Lemma mem_write_mem s a a' v :
  wf s → byte a → byte a' →
  mem (write_mem a v s) a' = if decide (a = a') then v else mem s a'.
Proof.
  intros [_ Hl _] Ha Ha'. unfold mem, write_mem, byte in *. simpl. case_decide.
  - subst. by rewrite list_lookup_insert_eq by lia.
  - by rewrite list_lookup_insert_ne by lia.
Qed.

Lemma R_write_mem s a v r : R (write_mem a v s) r = R s r.
Proof. done. Qed.

Lemma mem_write_reg s r v a : mem (write_reg r v s) a = mem s a.
Proof. done. Qed.

Lemma R_set_pc s v r : R (set_pc v s) r = R s r.
Proof. done. Qed.

Lemma mem_set_pc s v a : mem (set_pc v s) a = mem s a.
Proof. done. Qed.

Lemma R_CPU_init r : is_reg r → R CPU_init r = if decide (r = SP) then 0xF4 else 0.
Proof.
  intros Hr. unfold is_reg in Hr.
  assert (r ∈ [0; 1; 2; 3; 4; 5; 6; 7]) as Hin by (rewrite !elem_of_cons; lia).
  elem_cases Hin; reflexivity.
Qed.

Lemma mem_CPU_init a : mem CPU_init a = 0.
Proof.
  unfold mem, CPU_init. cbn [ram]. destruct (decide (Z.to_nat a < 256)%nat).
  - by rewrite lookup_replicate_2.
  - by rewrite lookup_ge_None_2 by (rewrite length_replicate; lia).
Qed.

End Cells.

#[export] Hint Resolve wf_CPU_init wf_write_reg wf_write_mem wf_set_pc
  wf_set_stdout wf_set_fl : ls8.
#[export] Hint Resolve reg_get_ok reg_set_ok ram_read_ok ram_write_ok : ls8.

(** ** The invariant is preserved *)

Section Invariant.
Implicit Types (s : cpu) (r a v : Z).

#[export] Instance reg_get_wf r : Preserves wf (reg_get r).
Proof. apply _. Qed.

#[export] Instance ram_read_wf a : Preserves wf (ram_read a).
Proof. apply _. Qed.

#[export] Instance reg_set_wf r v : Preserves wf (reg_set r v).
Proof.
  intros s [Hr ??]. unfold reg_set, exec. munfold.
  destruct (setitem (reg s) r v) as [l'|e] eqn:E; simpl; [|done].
  apply setitem_length in E. split; simpl; congruence.
Qed.

#[export] Instance ram_write_wf a v : Preserves wf (ram_write a v).
Proof.
  intros s [? Hr ?]. unfold ram_write, exec. munfold.
  destruct (setitem (ram s) a v) as [l'|e] eqn:E; simpl; [|done].
  apply setitem_length in E. split; simpl; congruence.
Qed.

#[export] Instance print_wf line : Preserves wf (print line).
Proof. intros s Hs. by apply wf_set_stdout. Qed.

#[export] Instance load_loop_wf program address : Preserves wf (load_loop program address).
Proof.
  revert address. induction program as [|i p IH]; intros address; simpl; [apply _|].
  apply bind_preserves; [|done]. apply (ram_write_wf address i).
Qed.

#[export] Instance load_wf program : Preserves wf (load program).
Proof. destruct program; apply _. Qed.

#[export] Instance alu_wf op reg_a reg_b : Preserves wf (alu op reg_a reg_b).
Proof. unfold alu. destruct (ALU_DISPATCH !! op), reg_b; apply _. Qed.

#[export] Instance push_mdr_wf mdr : Preserves wf (push_mdr mdr).
Proof. apply _. Qed.

#[export] Instance pop_mdr_wf : Preserves wf pop_mdr.
Proof. unfold pop_mdr. repeat (apply bind_preserves; [|intros]); try case_decide; apply _. Qed.

#[export] Instance push_from_reg_wf r : Preserves wf (push_from_reg r).
Proof. apply _. Qed.

#[export] Instance pop_to_reg_wf r : Preserves wf (pop_to_reg r).
Proof. apply _. Qed.

#[export] Instance ldi_foo_wf a b : Preserves wf (ldi_foo a b).
Proof. apply _. Qed.

#[export] Instance print_foo_wf a : Preserves wf (print_foo a).
Proof. apply _. Qed.

#[export] Instance jmp_foo_wf addr : Preserves wf (jmp_foo addr).
Proof.
  unfold jmp_foo. apply bind_preserves; [apply _|]. intros d.
  apply modify_preserves. auto with ls8.
Qed.

#[export] Instance jeq_foo_wf addr : Preserves wf (jeq_foo addr).
Proof. unfold jeq_foo. apply bind_preserves; [apply _|]. intros f. case_decide; apply _. Qed.

#[export] Instance jne_foo_wf addr : Preserves wf (jne_foo addr).
Proof. unfold jne_foo. apply bind_preserves; [apply _|]. intros f. case_decide; apply _. Qed.

End Invariant.

(** ** What each method does on a well-formed state *)

Lemma is_reg_SP : is_reg SP.
Proof. done. Qed.

#[export] Hint Resolve is_reg_SP : ls8.

Section Methods.
Implicit Types (s : cpu) (r a b v : Z).

Lemma print_ok line s : print line s = (Ok tt, set_stdout (stdout s +:+ line +:+ nl) s).
Proof. done. Qed.

Lemma ldi_foo_ok s a b : wf s → is_reg a → ldi_foo a b s = (Ok tt, write_reg a b s).
Proof. apply reg_set_ok. Qed.

Lemma print_foo_ok s a :
  wf s → is_reg a →
  print_foo a s = (Ok tt, set_stdout (stdout s +:+ str (R s a) +:+ nl) s).
Proof. intros. unfold print_foo. by mstep. Qed.

Lemma jmp_foo_ok s r : wf s → is_reg r → jmp_foo r s = (Ok tt, set_pc (R s r) s).
Proof. intros. unfold jmp_foo. by mstep. Qed.

Lemma jeq_foo_ok s r :
  wf s → is_reg r →
  jeq_foo r s = (Ok tt, if decide (Z.land (fl s) 1 = 1) then set_pc (R s r) s else s).
Proof.
  intros. unfold jeq_foo. mstep. change (bin "00000001") with 1.
  case_decide; [by apply jmp_foo_ok|done].
Qed.

Lemma jne_foo_ok s r :
  wf s → is_reg r →
  jne_foo r s = (Ok tt, if decide (Z.land (fl s) 1 = 0) then set_pc (R s r) s else s).
Proof.
  intros. unfold jne_foo. mstep. change (bin "00000001") with 1.
  case_decide; [by apply jmp_foo_ok|done].
Qed.

Lemma fl_update_or s m :
  fl_update (ALU_DISPATCH !! OR) m s = (Ok tt, set_fl (Z.lor (fl s) m) s).
Proof. done. Qed.

Lemma fl_update_and s m :
  fl_update (ALU_DISPATCH !! AND) m s = (Ok tt, set_fl (Z.land m (fl s)) s).
Proof. done. Qed.

(** The three assignments of [cmp_foo] to a flags register within three
    bits leave the flag of the comparison and nothing else. *)
Lemma flags_bits f a b :
  0 ≤ f ≤ 7 →
  let f1 := if decide (a = b) then Z.lor f 1 else Z.land 254 f in
  let f2 := if decide (a > b) then Z.lor f1 2 else Z.land 253 f1 in
  (if decide (a < b) then Z.lor f2 4 else Z.land 251 f2) = flags_of a b.
Proof.
  intros Hf. assert (f ∈ [0; 1; 2; 3; 4; 5; 6; 7]) as Hin by (rewrite !elem_of_cons; lia).
  unfold flags_of. elem_cases Hin; repeat case_decide; try lia; reflexivity.
Qed.

Lemma flags_of_range a b : 0 ≤ flags_of a b ≤ 7.
Proof. unfold flags_of. repeat case_decide; lia. Qed.

(** The three conditional assignments of [cmp_foo], for the values [x] and
    [y] read from the registers. *)
Lemma cmp_flags_ok s x y :
  wf s →
  ((if decide (x = y) then fl_update (ALU_DISPATCH !! OR) (bin "00000001")
    else fl_update (ALU_DISPATCH !! AND) (bin "11111110"));;
   (if decide (x > y) then fl_update (ALU_DISPATCH !! OR) (bin "00000010")
    else fl_update (ALU_DISPATCH !! AND) (bin "11111101"));;
   (if decide (x < y) then fl_update (ALU_DISPATCH !! OR) (bin "00000100")
    else fl_update (ALU_DISPATCH !! AND) (bin "11111011"))) s
  = (Ok tt, set_fl (flags_of x y) s).
Proof.
  intros Hs. rewrite <- (flags_bits (fl s) x y (wf_fl _ Hs)). cbv zeta.
  repeat case_decide; try lia;
    erewrite !bind_Ok by (apply fl_update_or || apply fl_update_and); done.
Qed.

Lemma cmp_foo_ok s a b :
  wf s → is_reg a → is_reg b →
  cmp_foo a b s = (Ok tt, set_fl (flags_of (R s a) (R s b)) s).
Proof. intros Hs Ha Hb. unfold cmp_foo. do 2 mstep. by apply cmp_flags_ok. Qed.

Lemma reg_get_inv s r x s' : reg_get r s = (x, s') → s' = s ∧ x = getitem (reg s) r.
Proof. unfold reg_get. munfold. by intros [= <- <-]. Qed.

Lemma ram_read_inv s a x s' : ram_read a s = (x, s') → s' = s ∧ x = getitem (ram s) a.
Proof. unfold ram_read. munfold. by intros [= <- <-]. Qed.

#[export] Instance cmp_foo_wf addr1 addr2 : Preserves wf (cmp_foo addr1 addr2).
Proof.
  intros s Hs. unfold exec, cmp_foo.
  destruct (reg_get addr1 s) as [[x|e] s1] eqn:E1;
    destruct (reg_get_inv _ _ _ _ E1) as [-> _]; [|by erewrite bind_Raise].
  erewrite bind_Ok by done.
  destruct (reg_get addr2 s) as [[y|e] s1] eqn:E2;
    destruct (reg_get_inv _ _ _ _ E2) as [-> _]; [|by erewrite bind_Raise].
  erewrite bind_Ok by done. rewrite cmp_flags_ok by done.
  apply wf_set_fl; [done|apply flags_of_range].
Qed.

Lemma alu_ok s op a b :
  wf s → is_reg a → is_reg b → op ∈ ALU_OP_LIST →
  alu op a (Some b) s = (call (ALU_DISPATCH !! op) [R s a; R s b], s).
Proof.
  intros Hs Ha Hb [foo Hfoo]%ALU_DISPATCH_is_Some. unfold alu. rewrite Hfoo.
  by do 2 mstep.
Qed.

Lemma alu_ok1 s op a :
  wf s → is_reg a → op ∈ ALU_OP_LIST →
  alu op a None s = (call (ALU_DISPATCH !! op) [R s a], s).
Proof.
  intros Hs Ha [foo Hfoo]%ALU_DISPATCH_is_Some. unfold alu. rewrite Hfoo.
  by mstep.
Qed.

Lemma alu_unsupported s op a (reg_b : option Z) :
  op ∉ ALU_OP_LIST →
  alu op a reg_b s = (Raise (Exception "Unsupported ALU operation"), s).
Proof. intros Hop. unfold alu. by rewrite ALU_DISPATCH_None. Qed.

(** Push: the stack pointer goes down by one, then the value is stored
    where it points. *)
Lemma push_mdr_ok s v :
  wf s → byte (R s SP - 1) →
  push_mdr v s = (Ok tt, write_mem (R s SP - 1) v (write_reg SP (R s SP - 1) s)).
Proof.
  intros Hs Hsp. unfold push_mdr. do 2 mstep.
  erewrite bind_Ok by (apply reg_get_ok; auto with ls8).
  rewrite R_write_reg, decide_True by done. by apply ram_write_ok; auto with ls8.
Qed.

(** Push with the stack pointer at 0: the subscript [-1] is the last cell. *)
Lemma push_mdr_wraps s v :
  wf s → R s SP = 0 →
  push_mdr v s = (Ok tt, write_mem 255 v (write_reg SP (-1) s)).
Proof.
  intros Hs Hsp. unfold push_mdr. do 2 mstep. rewrite Hsp.
  erewrite bind_Ok by (apply reg_get_ok; auto with ls8).
  rewrite R_write_reg, decide_True by auto with ls8.
  rewrite ram_write_negative by (auto with ls8 || lia).
  apply ram_write_ok; [auto with ls8|done].
Qed.

(** Pop: the value where the stack pointer points; the stack pointer goes up
    by one only below [0xF4]. *)
Lemma pop_mdr_ok s :
  wf s → byte (R s SP) →
  pop_mdr s =
  (Ok (mem s (R s SP)),
   if decide (R s SP < 0xF4) then write_reg SP (R s SP + 1) s else s).
Proof.
  intros Hs Hsp. unfold pop_mdr. do 2 mstep. case_decide; [do 3 mstep|]; done.
Qed.

Lemma push_from_reg_ok s r :
  wf s → is_reg r → byte (R s SP - 1) →
  push_from_reg r s =
  (Ok tt, write_mem (R s SP - 1) (R s r) (write_reg SP (R s SP - 1) s)).
Proof. intros. unfold push_from_reg. mstep. by apply push_mdr_ok. Qed.

Lemma push_from_reg_wraps s r :
  wf s → is_reg r → R s SP = 0 →
  push_from_reg r s = (Ok tt, write_mem 255 (R s r) (write_reg SP (-1) s)).
Proof. intros. unfold push_from_reg. mstep. by apply push_mdr_wraps. Qed.

Lemma pop_to_reg_ok s r :
  wf s → is_reg r → byte (R s SP) →
  pop_to_reg r s =
  (Ok tt, write_reg r (mem s (R s SP))
            (if decide (R s SP < 0xF4) then write_reg SP (R s SP + 1) s else s)).
Proof.
  intros Hs Hr Hsp. unfold pop_to_reg.
  erewrite bind_Ok by (by apply pop_mdr_ok).
  apply reg_set_ok; [|done]. case_decide; auto with ls8.
Qed.

End Methods.

#[export] Hint Resolve print_ok ldi_foo_ok print_foo_ok jmp_foo_ok
  jeq_foo_ok jne_foo_ok cmp_foo_ok push_mdr_ok pop_mdr_ok push_from_reg_ok
  pop_to_reg_ok alu_ok alu_ok1 : ls8.

(** ** Loading a program *)

Section Load.
Implicit Types (s : cpu) (p : list Z) (k : nat).

Lemma set_ram_id s : set_ram (ram s) s = s.
Proof. by destruct s. Qed.

Lemma loaded_nil k old : loaded k [] old = old.
Proof. unfold loaded. simpl. rewrite take_nil, Nat.add_0_r. apply take_drop. Qed.

Lemma loaded_cons k i p old :
  (k < length old)%nat → length old = 256%nat →
  loaded (S k) p (<[k:=i]> old) = loaded k (i :: p) old.
Proof.
  intros Hk Hlen. unfold loaded.
  rewrite (take_S_r _ k i) by (by apply list_lookup_insert_eq).
  rewrite take_insert_ge by lia. rewrite drop_insert_lt by lia.
  replace (256 - k)%nat with (S (256 - S k)) by lia.
  rewrite <- app_assoc. simpl. by rewrite Nat.add_succ_r.
Qed.

Lemma loaded_full i p old : length old = 256%nat → loaded 256 (i :: p) old = old.
Proof.
  intros Hlen. unfold loaded.
  rewrite take_ge, drop_ge by (simpl; lia). by rewrite app_nil_r.
Qed.

Lemma load_loop_spec p k s :
  wf s → (k ≤ 256)%nat →
  load_loop p (Z.of_nat k) s =
  (if decide (k + length p ≤ 256)%nat then Ok tt else Raise IndexError,
   set_ram (loaded k p (ram s)) s).
Proof.
  revert k s. induction p as [|i p IH]; intros k s Hs Hk.
  { simpl. rewrite loaded_nil, set_ram_id, decide_True by lia. done. }
  cbn [load_loop]. destruct (decide (k < 256)%nat) as [Hlt|Hge].
  - erewrite bind_Ok by (apply (ram_write_ok s (Z.of_nat k) i); [done|unfold byte; lia]).
    replace (Z.of_nat k + 1) with (Z.of_nat (S k)) by lia.
    rewrite IH by (auto with ls8 || lia). unfold write_mem. cbn [ram set_ram].
    rewrite Nat2Z.id, loaded_cons by (rewrite ?(wf_ram _ Hs); lia).
    f_equal. simpl. repeat case_decide; done || lia.
  - assert (k = 256%nat) as -> by lia.
    erewrite bind_Raise by (apply (ram_write_out_of_range s 256 i); [done|lia]).
    rewrite loaded_full, set_ram_id by apply (wf_ram _ Hs).
    rewrite decide_False by (simpl; lia). done.
Qed.

End Load.

(** ** Operands that name no register *)

Section Raises.
Implicit Types (s : cpu) (r ra rb v op : Z).

Lemma reg_get_raises s r : wf s → 8 ≤ r → raises IndexError (reg_get r) s.
Proof. intros. eapply raises_intro, reg_get_out_of_range; auto. Qed.

Lemma reg_set_raises s r v : wf s → 8 ≤ r → raises IndexError (reg_set r v) s.
Proof. intros. eapply raises_intro, reg_set_out_of_range; auto. Qed.

Lemma print_foo_raises s r : wf s → 8 ≤ r → raises IndexError (print_foo r) s.
Proof. intros. by apply raises_bind_l, reg_get_raises. Qed.

Lemma push_from_reg_raises s r : wf s → 8 ≤ r → raises IndexError (push_from_reg r) s.
Proof. intros. by apply raises_bind_l, reg_get_raises. Qed.

Lemma jmp_foo_raises s r : wf s → 8 ≤ r → raises IndexError (jmp_foo r) s.
Proof. intros. by apply raises_bind_l, reg_get_raises. Qed.

Lemma pop_to_reg_raises s r :
  wf s → byte (R s SP) → 8 ≤ r → raises IndexError (pop_to_reg r) s.
Proof.
  intros Hs Hsp Hr. eapply raises_bind_r; [by apply pop_mdr_ok|].
  apply reg_set_raises; [case_decide; auto with ls8|done].
Qed.

Lemma cmp_foo_raises s ra rb :
  wf s → 8 ≤ ra ∨ is_reg ra ∧ 8 ≤ rb → raises IndexError (cmp_foo ra rb) s.
Proof.
  intros Hs [Ha|[Ha Hb]]; [by apply raises_bind_l, reg_get_raises|].
  eapply raises_bind_r; [by apply reg_get_ok|]. by apply raises_bind_l, reg_get_raises.
Qed.

Lemma alu_raises s op ra (b : option Z) :
  wf s → op ∈ ALU_OP_LIST →
  8 ≤ ra ∨ is_reg ra ∧ (∃ rb, b = Some rb ∧ 8 ≤ rb) →
  raises IndexError (alu op ra b) s.
Proof.
  intros Hs [foo Hfoo]%ALU_DISPATCH_is_Some H. unfold alu. rewrite Hfoo.
  destruct H as [Ha|[Ha (rb & -> & Hb)]].
  - destruct b; by apply raises_bind_l, reg_get_raises.
  - eapply raises_bind_r; [by apply reg_get_ok|]. by apply raises_bind_l, reg_get_raises.
Qed.

(** [jeq_foo] and [jne_foo] subscript [self.reg] only when they jump: an
    operand that names no register goes unnoticed when the jump is not
    taken. *)
Lemma jeq_foo_bad_register s r :
  wf s → 8 ≤ r →
  jeq_foo r s = (if decide (Z.land (fl s) 1 = 1) then Raise IndexError else Ok tt, s) ∧
  jne_foo r s = (if decide (Z.land (fl s) 1 = 0) then Raise IndexError else Ok tt, s).
Proof.
  intros Hs Hr. unfold jeq_foo, jne_foo, jmp_foo.
  split; mstep; cbv beta; repeat case_decide; try done;
    by erewrite bind_Raise by (apply reg_get_out_of_range; auto).
Qed.

End Raises.

(** ** Claims on the methods *)

Section Claims.
Implicit Types (s : cpu) (p : list Z) (r a v : Z).

(** [load] copies the program to address 0 and up, in order; a program of
    more than 256 bytes fills the memory and then raises [IndexError]. *)
Theorem load_spec s p :
  wf s →
  load (Some p) s =
  (if decide (length p ≤ 256)%nat then Ok tt else Raise IndexError,
   set_ram (take 256 p ++ drop (length p) (ram s)) s).
Proof. intros Hs. apply (load_loop_spec p 0 s Hs). lia. Qed.

(** [load(None)] writes a message and leaves the memory alone. *)
Theorem load_None s :
  load None s = (Ok tt, set_stdout (stdout s +:+ "no program specified" +:+ nl) s).
Proof. done. Qed.

(** C8. After a load that succeeds the program is in memory from address 0, and
    the cells above it are as before. *)
Theorem load_mem s p a :
  wf s → (length p ≤ 256)%nat → 0 ≤ a →
  mem (exec (load (Some p)) s) a =
  if decide (a < Z.of_nat (length p)) then default 0 (p !! Z.to_nat a) else mem s a.
Proof.
  intros Hs Hp Ha. unfold exec. rewrite load_spec by done. unfold mem. cbn [snd ram set_ram].
  rewrite take_ge by lia. case_decide.
  - by rewrite lookup_app_l by lia.
  - rewrite lookup_app_r, lookup_drop by lia. do 2 f_equal. lia.
Qed.

Lemma load_mem_witness :
  mem (exec (load (Some [LDI; 0; 8])) CPU_init) 2 =
  if decide (2 < Z.of_nat (length [LDI; 0; 8]))
  then default 0 ([LDI; 0; 8] !! Z.to_nat 2) else mem CPU_init 2.
Proof. apply load_mem; by compute_done. Defined.

(** [alu] on registers that hold bytes: the state is not touched, and the
    low 8 bits of what is returned are the result of the specification's
    8-bit ALU. *)
Theorem alu_on_bytes s op ra rb v s' :
  wf s → is_reg ra → is_reg rb → byte (R s ra) → byte (R s rb) →
  alu op ra (if decide (operand_count op = 1) then None else Some rb) s = (Ok v, s') →
  s' = s ∧ alu8 op (R s ra) (R s rb) = Some (v mod 256).
Proof.
  intros Hs Ha Hb Hra Hrb. destruct (decide (op ∈ ALU_OP_LIST)) as [Hin|Hout].
  2: { by rewrite alu_unsupported. }
  pose proof (alu_refines_alu8 op (R s ra) (R s rb) v Hra Hrb) as Href.
  unfold alu_args in Href. case_decide.
  - rewrite alu_ok1 by done. intros [= E <-]. auto.
  - rewrite alu_ok by done. intros [= E <-]. auto.
Qed.

Lemma alu_on_bytes_witness :
  CPU_init = CPU_init ∧ alu8 SUB (R CPU_init 7) (R CPU_init 0) = Some (244 mod 256).
Proof. apply (alu_on_bytes CPU_init SUB 7 0 244); by compute_done. Defined.

(** An opcode that is not in the table: [alu] raises its own exception, and
    reads no register. *)
Theorem alu_unsupported_raises s op a (reg_b : option Z) :
  op ∉ ALU_OP_LIST →
  alu op a reg_b s = (Raise (Exception "Unsupported ALU operation"), s).
Proof. apply alu_unsupported. Qed.

Lemma alu_unsupported_raises_witness :
  alu LDI 0 (Some 1) CPU_init = (Raise (Exception "Unsupported ALU operation"), CPU_init).
Proof. apply alu_unsupported_raises. by compute_done. Defined.

(** A write followed by a read of the same address, negative subscripts
    included, returns the value written. *)
Theorem ram_write_read s a v :
  wf s → -256 ≤ a < 256 →
  (ram_write a v;; ram_read a) s = (Ok v, exec (ram_write a v) s).
Proof.
  intros Hs Ha. unfold ram_write, ram_read, exec. munfold.
  destruct (setitem (ram s) a v) as [l'|e] eqn:E; simpl.
  - by rewrite (getitem_setitem_eq _ _ _ _ E).
  - apply setitem_Raise in E as [_ E]. rewrite (wf_ram _ Hs) in E. lia.
Qed.

Lemma ram_write_read_witness :
  (ram_write (-1) 42;; ram_read (-1)) CPU_init = (Ok 42, exec (ram_write (-1) 42) CPU_init).
Proof. apply ram_write_read; by compute_done. Defined.

(** A write leaves every other cell as it was. *)
Theorem ram_write_frame s a a' v :
  wf s → byte a → byte a' → a ≠ a' →
  (ram_write a v;; ram_read a') s = (Ok (mem s a'), write_mem a v s).
Proof.
  intros Hs Ha Ha' Hne. mstep.
  rewrite ram_read_ok, mem_write_mem, decide_False by auto with ls8. done.
Qed.

Lemma ram_write_frame_witness :
  (ram_write 3 42;; ram_read 4) CPU_init = (Ok (mem CPU_init 4), write_mem 3 42 CPU_init).
Proof. apply ram_write_frame; by compute_done. Defined.

Lemma write_reg_twice s r v w :
  write_reg r w (write_reg r v s) = write_reg r w s.
Proof. unfold write_reg. cbn [reg set_reg]. by rewrite list_insert_insert_eq. Qed.

Lemma write_reg_same s r : wf s → is_reg r → write_reg r (R s r) s = s.
Proof.
  intros [Hl _ _] Hr. unfold write_reg, R.
  destruct (lookup_lt_is_Some_2 (reg s) (Z.to_nat r)) as [v Hv];
    [unfold is_reg in Hr; lia|].
  rewrite Hv. simpl. rewrite list_insert_id by done. by destruct s.
Qed.

Lemma write_reg_write_mem s r v a w :
  write_reg r v (write_mem a w s) = write_mem a w (write_reg r v s).
Proof. done. Qed.

Lemma push_pop_mdr s v :
  wf s → byte (R s SP - 1) →
  (push_mdr v;; pop_mdr) s =
  (Ok v, let s1 := write_mem (R s SP - 1) v (write_reg SP (R s SP - 1) s) in
         if decide (R s SP - 1 < 0xF4) then write_reg SP (R s SP) s1 else s1).
Proof.
  intros Hs Hsp. erewrite bind_Ok by by apply push_mdr_ok.
  assert (R (write_mem (R s SP - 1) v (write_reg SP (R s SP - 1) s)) SP = R s SP - 1)
    as E by (rewrite R_write_mem, R_write_reg, decide_True; auto with ls8).
  rewrite pop_mdr_ok, E by (rewrite ?E; auto with ls8).
  rewrite mem_write_mem, decide_True, Z.sub_add by auto with ls8. done.
Qed.

(** C6. Push then pop, with the stack pointer at or below its reset value
    [0xF4]: the value comes back and the stack pointer is where it was. *)
Theorem push_pop_roundtrip s v :
  wf s → 0 < R s SP ≤ 0xF4 →
  (push_mdr v;; pop_mdr) s = (Ok v, write_mem (R s SP - 1) v s).
Proof.
  intros Hs Hsp. rewrite push_pop_mdr by (done || unfold byte; lia).
  cbn zeta. rewrite decide_True by lia.
  rewrite write_reg_write_mem, write_reg_twice.
  by rewrite write_reg_same by auto with ls8.
Qed.

Lemma push_pop_roundtrip_witness :
  (push_mdr 42;; pop_mdr) CPU_init = (Ok 42, write_mem (R CPU_init SP - 1) 42 CPU_init).
Proof. apply push_pop_roundtrip; by compute_done. Defined.

(** Above [0xF4] the pop does not move the stack pointer back: it ends one
    below where it started. *)
Theorem push_pop_above s v :
  wf s → 0xF4 < R s SP ≤ 256 →
  (push_mdr v;; pop_mdr) s =
  (Ok v, write_mem (R s SP - 1) v (write_reg SP (R s SP - 1) s)).
Proof.
  intros Hs Hsp. rewrite push_pop_mdr by (done || unfold byte; lia).
  cbn zeta. by rewrite decide_False by lia.
Qed.

Lemma push_pop_above_witness :
  (push_mdr 42;; pop_mdr) (write_reg SP 250 CPU_init) =
  (Ok 42,
   write_mem (R (write_reg SP 250 CPU_init) SP - 1) 42
     (write_reg SP (R (write_reg SP 250 CPU_init) SP - 1) (write_reg SP 250 CPU_init))).
Proof. apply push_pop_above; by compute_done. Defined.

(** A pop never takes the stack pointer above [0xF4]. *)
Theorem pop_bounded s :
  wf s → byte (R s SP) → R s SP ≤ 0xF4 → R (exec pop_mdr s) SP ≤ 0xF4.
Proof.
  intros Hs Hb Hsp. unfold exec. rewrite pop_mdr_ok by done. cbn [snd].
  case_decide; [|done]. rewrite R_write_reg, decide_True by auto with ls8. lia.
Qed.

Lemma pop_bounded_witness : R (exec pop_mdr CPU_init) SP ≤ 0xF4.
Proof. apply pop_bounded; by compute_done. Defined.

(** C38. A push with the stack pointer at 0 goes to [-1], which as a subscript is
    the last cell of the memory. *)
Theorem push_wraps s v :
  wf s → R s SP = 0 →
  push_mdr v s = (Ok tt, write_mem 255 v (write_reg SP (-1) s)).
Proof. apply push_mdr_wraps. Qed.

Lemma push_wraps_witness :
  push_mdr 42 (write_reg SP 0 CPU_init) =
  (Ok tt, write_mem 255 42 (write_reg SP (-1) (write_reg SP 0 CPU_init))).
Proof. apply push_wraps; by compute_done. Defined.

(** A push whose address is outside the memory raises after the stack
    pointer was decremented. *)
Theorem push_out_of_range s v :
  wf s → R s SP - 1 < -256 ∨ 256 ≤ R s SP - 1 →
  push_mdr v s = (Raise IndexError, write_reg SP (R s SP - 1) s).
Proof.
  intros Hs Hsp. unfold push_mdr. do 2 mstep.
  erewrite bind_Ok by (apply reg_get_ok; auto with ls8).
  rewrite R_write_reg, decide_True by auto with ls8.
  apply ram_write_out_of_range; auto with ls8.
Qed.

Lemma push_out_of_range_witness :
  push_mdr 42 (write_reg SP 300 CPU_init) =
  (Raise IndexError,
   write_reg SP (R (write_reg SP 300 CPU_init) SP - 1) (write_reg SP 300 CPU_init)).
Proof. apply push_out_of_range; by compute_done. Defined.

(** Load-immediate then print writes the decimal digits of the value and a
    line feed, whatever the value. *)
Theorem ldi_then_print s r v :
  wf s → is_reg r →
  stdout (exec (ldi_foo r v;; print_foo r) s) = stdout s +:+ str v +:+ nl.
Proof.
  intros Hs Hr. unfold exec. mstep.
  rewrite print_foo_ok, R_write_reg, decide_True by auto with ls8. done.
Qed.

Lemma ldi_then_print_witness :
  stdout (exec (ldi_foo 0 8;; print_foo 0) CPU_init) = stdout CPU_init +:+ str 8 +:+ nl.
Proof. apply ldi_then_print; by compute_done. Defined.

(** C9. After a comparison exactly one of Equal, Greater, Less is set, and it is
    the one that holds of the two register values. *)
Theorem cmp_foo_flags s ra rb :
  wf s → is_reg ra → is_reg rb →
  let f := fl (exec (cmp_foo ra rb) s) in
  (Z.testbit f 0 ↔ R s ra = R s rb) ∧
  (Z.testbit f 1 ↔ R s ra > R s rb) ∧
  (Z.testbit f 2 ↔ R s ra < R s rb) ∧
  0 ≤ f ≤ 7.
Proof.
  intros Hs Ha Hb. unfold exec. rewrite cmp_foo_ok by done. cbn [snd fl set_fl].
  unfold flags_of. repeat case_decide; cbn; split_and!; try lia; naive_solver lia.
Qed.

Lemma cmp_foo_flags_witness :
  let f := fl (exec (cmp_foo 7 0) CPU_init) in
  (Z.testbit f 0 ↔ R CPU_init 7 = R CPU_init 0) ∧
  (Z.testbit f 1 ↔ R CPU_init 7 > R CPU_init 0) ∧
  (Z.testbit f 2 ↔ R CPU_init 7 < R CPU_init 0) ∧
  0 ≤ f ≤ 7.
Proof. apply cmp_foo_flags; by compute_done. Defined.

(** A jump-if-equal after a comparison is taken exactly when the two
    registers are equal, and a jump-if-not-equal exactly when they are not. *)
Theorem cmp_then_jump s ra rb r :
  wf s → is_reg ra → is_reg rb → is_reg r →
  pc (exec (cmp_foo ra rb;; jeq_foo r) s) =
    (if decide (R s ra = R s rb) then R s r else pc s) ∧
  pc (exec (cmp_foo ra rb;; jne_foo r) s) =
    (if decide (R s ra = R s rb) then pc s else R s r).
Proof.
  intros Hs Ha Hb Hr. unfold exec.
  assert (wf (set_fl (flags_of (R s ra) (R s rb)) s)) as Hs'
    by (apply wf_set_fl; [done|apply flags_of_range]).
  split; mstep; [rewrite jeq_foo_ok by done|rewrite jne_foo_ok by done];
    cbn [snd fl set_fl]; unfold flags_of; repeat case_decide; done || lia.
Qed.

Lemma cmp_then_jump_witness :
  pc (exec (cmp_foo 0 1;; jeq_foo 7) CPU_init) =
    (if decide (R CPU_init 0 = R CPU_init 1) then R CPU_init 7 else pc CPU_init) ∧
  pc (exec (cmp_foo 0 1;; jne_foo 7) CPU_init) =
    (if decide (R CPU_init 0 = R CPU_init 1) then pc CPU_init else R CPU_init 7).
Proof. apply cmp_then_jump; by compute_done. Defined.

End Claims.
