(* ===== verification/Frame.v ===== *)
(** * Frame.v: what a method may change

    The frame conditions of the methods of [class CPU] in [src/cpu.py].
    The state of the machine has five parts: the attributes [reg], [pc],
    [fl] and [ram], and the output.  [clobbers F s s'] says that [s'] is
    [s] except for the parts listed in [F], and that the output of [s'] is
    the output of [s] with more text after it.  It is a preorder, so it is
    an invariant in the sense of [Preserves]: a method that keeps
    [clobbers F s0] for every start [s0] changes nothing outside [F],
    whether it returns or raises, and the rules of [Prelude.v] compose it
    through [bind].  The side condition that a part is in [F] is the class
    [Writes], found by computation when [F] is a list of constants.

    The theorems: one instance per method with the parts it assigns
    ([reg_set] the registers, [ram_write] the memory, [print] the output,
    [cmp_foo] the flags, the jumps the program counter, push both
    registers and memory, pop the registers only); [alu] changes
    nothing; [load] touches the memory and, without a program, the
    output. *)

From S2P Require Import Prelude Python Opcodes Parser Alu Cpu.

#[local] Open Scope Z_scope.
#[local] Open Scope ls8_scope.

(** The parts of the state: the four attributes, and the output. *)
Inductive attr : Type := Areg | Apc | Afl | Aram | Aout.

#[export] Instance attr_eq_dec : EqDecision attr.
Proof. solve_decision. Defined.

(** Every part. *)
Definition EVERYTHING : list attr := [Areg; Apc; Afl; Aram; Aout].

(** [s'] is [s] except for the parts in [F]; the output only grows. *)
Record clobbers (F : list attr) (s s' : cpu) : Prop := mk_clobbers {
  keeps_reg : Areg ∉ F → reg s' = reg s;
  keeps_pc : Apc ∉ F → pc s' = pc s;
  keeps_fl : Afl ∉ F → fl s' = fl s;
  keeps_ram : Aram ∉ F → ram s' = ram s;
  keeps_out : Aout ∉ F → stdout s' = stdout s;
  grows_out : ∃ text, stdout s' = stdout s +:+ text
}.

(** The part [a] is one of [F]. *)
Class Writes (F : list attr) (a : attr) : Prop :=
  writes : a ∈ F.

#[export] Hint Extern 5 (Writes _ _) =>
  unfold Writes; compute_done : typeclass_instances.

(** ** The relation *)

Section Clobbers.
Implicit Types (F : list attr) (s : cpu) (a : attr).

#[export] Instance clobbers_refl F : Reflexive (clobbers F).
Proof. intros s. split; try done. exists EmptyString. by rewrite append_nil_r. Qed.

#[export] Instance clobbers_trans F : Transitive (clobbers F).
Proof.
  intros s1 s2 s3 [???? ? [t1 H1]] [???? ? [t2 H2]].
  split;
    try (intros Hn; etrans; match goal with H : _ → _ = _ |- _ => by apply H end).
  exists (t1 +:+ t2). by rewrite H2, H1, append_assoc.
Qed.

(** A larger frame allows more. *)
#[export] Instance clobbers_mono :
  Proper ((⊆) ==> (=) ==> (=) ==> impl) clobbers.
Proof. intros F F' HF s ? <- s' ? <- [?????]. split; auto. Qed.

Lemma clobbers_weaken F F' s s' : F ⊆ F' → clobbers F s s' → clobbers F' s s'.
Proof. intros HF. by rewrite HF. Qed.

Lemma clobbers_EVERYTHING F s s' : clobbers F s s' → clobbers EVERYTHING s s'.
Proof.
  apply clobbers_weaken. intros a _. unfold EVERYTHING. destruct a; by compute_done.
Qed.

(** Nothing in the frame: nothing changes. *)
Lemma clobbers_nil s s' : clobbers [] s s' ↔ s' = s.
Proof.
  split; [|by intros ->].
  intros [Hr Hp Hf Hm Ho _]. destruct s, s'; simpl in *.
  f_equal; [apply Hr|apply Hp|apply Hf|apply Hm|apply Ho]; apply not_elem_of_nil.
Qed.

(** The five assignments. *)
Lemma clobbers_set_reg F s0 s l `{!Writes F Areg} :
  clobbers F s0 s → clobbers F s0 (set_reg l s).
Proof. intros [?????]. by split. Qed.

Lemma clobbers_set_pc F s0 s v `{!Writes F Apc} :
  clobbers F s0 s → clobbers F s0 (set_pc v s).
Proof. intros [?????]. by split. Qed.

Lemma clobbers_set_fl F s0 s v `{!Writes F Afl} :
  clobbers F s0 s → clobbers F s0 (set_fl v s).
Proof. intros [?????]. by split. Qed.

Lemma clobbers_set_ram F s0 s l `{!Writes F Aram} :
  clobbers F s0 s → clobbers F s0 (set_ram l s).
Proof. intros [?????]. by split. Qed.

Lemma clobbers_append F s0 s text `{!Writes F Aout} :
  clobbers F s0 s → clobbers F s0 (set_stdout (stdout s +:+ text) s).
Proof.
  intros [???? ? [t Ht]]. split; try done.
  exists (t +:+ text). simpl. by rewrite Ht, append_assoc.
Qed.

(** What a computation that keeps the relation does to its start. *)
Lemma frame {A} F (m : M cpu A) s :
  (∀ s0, Preserves (clobbers F s0) m) → clobbers F s (exec m s).
Proof. intros Hm. by apply Hm. Qed.

(** A computation that keeps a frame keeps every larger one. *)
Lemma preserves_weaken {A} F F' (m : M cpu A) s0 :
  F ⊆ F' → (∀ s, Preserves (clobbers F s) m) → Preserves (clobbers F' s0) m.
Proof. intros HF Hm s Hs. etrans; [done|]. by apply (clobbers_weaken F), frame. Qed.

End Clobbers.

(** Unfolds a method down to binds and closes the goals by the rules. *)
Ltac frame_tac :=
  repeat first
    [ apply _
    | apply bind_preserves; [|intros ?]
    | case_decide ].

(** ** The methods *)

Section Methods.
Context (F : list attr) (s0 : cpu).
Implicit Types (r a v : Z).

#[export] Instance reg_set_clobbers `{!Writes F Areg} r v :
  Preserves (clobbers F s0) (reg_set r v).
Proof.
  unfold reg_set. frame_tac. apply modify_preserves. intros s. by apply clobbers_set_reg.
Qed.

#[export] Instance ram_write_clobbers `{!Writes F Aram} a v :
  Preserves (clobbers F s0) (ram_write a v).
Proof.
  unfold ram_write. frame_tac. apply modify_preserves. intros s. by apply clobbers_set_ram.
Qed.

#[export] Instance print_clobbers `{!Writes F Aout} line :
  Preserves (clobbers F s0) (print line).
Proof.
  apply modify_preserves. intros s. by apply clobbers_append.
Qed.

#[export] Instance set_pc_clobbers `{!Writes F Apc} v :
  Preserves (clobbers F s0) (modify (set_pc v)).
Proof. apply modify_preserves. intros s. by apply clobbers_set_pc. Qed.

#[export] Instance fl_update_clobbers `{!Writes F Afl} foo mask :
  Preserves (clobbers F s0) (fl_update foo mask).
Proof.
  unfold fl_update. frame_tac. apply modify_preserves. intros s. by apply clobbers_set_fl.
Qed.

#[export] Instance reg_get_clobbers r : Preserves (clobbers F s0) (reg_get r).
Proof. apply _. Qed.

#[export] Instance ram_read_clobbers a : Preserves (clobbers F s0) (ram_read a).
Proof. apply _. Qed.

#[export] Instance alu_clobbers op reg_a reg_b : Preserves (clobbers F s0) (alu op reg_a reg_b).
Proof. unfold alu. destruct (ALU_DISPATCH !! op), reg_b; apply _. Qed.

#[export] Instance load_loop_clobbers `{!Writes F Aram} program address :
  Preserves (clobbers F s0) (load_loop program address).
Proof.
  revert address. induction program as [|i p IH]; intros address; simpl; [apply _|].
  apply bind_preserves; [|done]. apply (ram_write_clobbers address i).
Qed.

#[export] Instance load_clobbers `{!Writes F Aram, !Writes F Aout} program :
  Preserves (clobbers F s0) (load program).
Proof. destruct program; apply _. Qed.

#[export] Instance push_mdr_clobbers `{!Writes F Areg, !Writes F Aram} mdr :
  Preserves (clobbers F s0) (push_mdr mdr).
Proof. apply _. Qed.

#[export] Instance pop_mdr_clobbers `{!Writes F Areg} : Preserves (clobbers F s0) pop_mdr.
Proof. unfold pop_mdr. frame_tac. Qed.

#[export] Instance push_from_reg_clobbers `{!Writes F Areg, !Writes F Aram} r :
  Preserves (clobbers F s0) (push_from_reg r).
Proof. apply _. Qed.

#[export] Instance pop_to_reg_clobbers `{!Writes F Areg} r :
  Preserves (clobbers F s0) (pop_to_reg r).
Proof. apply _. Qed.

#[export] Instance ldi_foo_clobbers `{!Writes F Areg} a v :
  Preserves (clobbers F s0) (ldi_foo a v).
Proof. apply _. Qed.

#[export] Instance print_foo_clobbers `{!Writes F Aout} a :
  Preserves (clobbers F s0) (print_foo a).
Proof. apply _. Qed.

#[export] Instance cmp_foo_clobbers `{!Writes F Afl} a v :
  Preserves (clobbers F s0) (cmp_foo a v).
Proof. unfold cmp_foo. frame_tac. Qed.

#[export] Instance jmp_foo_clobbers `{!Writes F Apc} a :
  Preserves (clobbers F s0) (jmp_foo a).
Proof. apply _. Qed.

#[export] Instance jeq_foo_clobbers `{!Writes F Apc} a :
  Preserves (clobbers F s0) (jeq_foo a).
Proof. unfold jeq_foo. frame_tac. Qed.

#[export] Instance jne_foo_clobbers `{!Writes F Apc} a :
  Preserves (clobbers F s0) (jne_foo a).
Proof. unfold jne_foo. frame_tac. Qed.

End Methods.
