(* ===== verification/Trace.v ===== *)
(** * Trace.v: the debugging aid [CPU.trace]

    [trace] of [src/cpu.py] prints one line: the program counter, the three
    memory cells from it, and the eight registers, each formatted with
    [%02X].  [run] never calls it.  This file models the formatting and the
    method, and proves that [trace] changes nothing but the output, what
    the line is, and that the method raises [IndexError], having printed
    nothing, when the program counter is within two cells of the end of the
    memory. *)

From Stdlib Require Import Ascii.
From S2P Require Import Prelude Python Opcodes Parser Alu Cpu Frame.

#[local] Open Scope Z_scope.
#[local] Open Scope ls8_scope.

(** ** [%02X] *)

(** The hexadecimal digit of a value below 16, in upper case. *)
Definition hex_digit (d : Z) : ascii :=
  default "0"%char (String.get (Z.to_nat d) "0123456789ABCDEF").

(** The digits of [z], most significant first, in front of [acc]. *)
Fixpoint hex_go (fuel : nat) (z : Z) (acc : string) : string :=
  match fuel with
  | O => acc
  | S n =>
      let acc := String (hex_digit (z mod 16)) acc in
      if decide (z < 16) then acc else hex_go n (z / 16) acc
  end.

(** The hexadecimal digits of a natural number.  The fuel is more than the
    number of its digits. *)
Definition hex (z : Z) : string := hex_go (S (Z.to_nat (Z.log2 z))) z EmptyString.

(** ["%02X" % v]: at least two characters, padded with a zero; the sign of a
    negative number counts as one of them. *)
Definition fmt_02X (v : Z) : string :=
  if decide (v < 0) then "-" +:+ hex (- v)
  else if decide (v < 16) then "0" +:+ hex v
  else hex v.

(** The value of a string of hexadecimal digits. *)
Definition unhex_digit (c : ascii) : Z :=
  let n := Z.of_nat (nat_of_ascii c) in
  if decide (65 ≤ n) then n - 55 else n - 48.

Fixpoint unhex_go (s : string) (acc : Z) : Z :=
  match s with
  | String c rest => unhex_go rest (16 * acc + unhex_digit c)
  | EmptyString => acc
  end.

Definition unhex (s : string) : Z := unhex_go s 0.

(** ** The method *)

(** [print(text, end='')] *)
Definition write (text : string) : M cpu unit :=
  modify (λ s, set_stdout (stdout s +:+ text) s).

(** [for i in range(8): print(" %02X" % self.reg[i], end='')] *)
Fixpoint trace_regs (range : list Z) : M cpu unit :=
  match range with
  | [] => mret tt
  | i :: rest => (v ← reg_get i; write (" " +:+ fmt_02X v));; trace_regs rest
  end.

Definition trace : M cpu unit :=
  p ← gets pc;
  p0 ← gets pc; a ← ram_read p0;
  p1 ← gets pc; b ← ram_read (p1 + 1);
  p2 ← gets pc; c ← ram_read (p2 + 2);
  write ("TRACE: " +:+ fmt_02X p +:+ " | " +:+ fmt_02X a +:+ " " +:+ fmt_02X b
         +:+ " " +:+ fmt_02X c +:+ " |");;
  trace_regs (seqZ 0 8);;
  print "".

(** The registers as [trace] prints them. *)
Definition regs_text (s : cpu) (range : list Z) : string :=
  foldr (λ i text, " " +:+ fmt_02X (R s i) +:+ text) EmptyString range.

(** The line [trace] prints. *)
Definition trace_line (s : cpu) : string :=
  "TRACE: " +:+ fmt_02X (pc s) +:+ " | " +:+ fmt_02X (mem s (pc s)) +:+ " "
  +:+ fmt_02X (mem s (pc s + 1)) +:+ " " +:+ fmt_02X (mem s (pc s + 2)) +:+ " |"
  +:+ regs_text s (seqZ 0 8) +:+ nl.

(** ** Formatting *)

Section Format.
Implicit Types (z d acc : Z) (s : string) (fuel : nat).

Lemma unhex_hex_digit d : 0 ≤ d < 16 → unhex_digit (hex_digit d) = d.
Proof.
  intros Hd. assert (d ∈ seqZ 0 16) as Hin by (apply elem_of_seqZ; lia).
  clear Hd. revert d Hin. apply Forall_forall. by compute_done.
Qed.

Lemma unhex_hex_go fuel z s :
  0 ≤ z < 16 ^ Z.of_nat fuel → unhex_go (hex_go fuel z s) 0 = unhex_go s z.
Proof.
  revert z s. induction fuel as [|n IH]; intros z s Hz.
  { simpl in *. by replace z with 0 by lia. }
  rewrite Nat2Z.inj_succ, Z.pow_succ_r in Hz by lia. simpl. case_decide.
  - simpl. by rewrite Z.mod_small, unhex_hex_digit by lia.
  - rewrite IH by (split; [apply Z.div_pos; lia|apply Z.div_lt_upper_bound; lia]).
    simpl. rewrite unhex_hex_digit by (apply Z.mod_pos_bound; lia). f_equal.
    pose proof (Z.div_mod z 16). lia.
Qed.

(** The digits [hex] writes are the digits of the number: the fuel of
    [hex] is enough for every natural number. *)
Lemma hex_roundtrip z : 0 ≤ z → unhex (hex z) = z.
Proof.
  intros Hz. unfold unhex, hex. rewrite unhex_hex_go; [done|]. split; [done|].
  rewrite Nat2Z.inj_succ, Z2Nat.id by apply Z.log2_nonneg.
  destruct (decide (z = 0)) as [->|]; [done|].
  eapply Z.lt_le_trans; [apply Z.log2_spec; lia|].
  apply Z.pow_le_mono_l. lia.
Qed.

(** On a byte [%02X] writes exactly two digits. *)
Lemma fmt_02X_byte z : byte z → String.length (fmt_02X z) = 2%nat ∧ unhex (fmt_02X z) = z.
Proof.
  intros Hz. assert (z ∈ seqZ 0 256) as Hin by (apply elem_of_seqZ; unfold byte in Hz; lia).
  clear Hz. revert z Hin. apply Forall_forall. by compute_done.
Qed.

End Format.

(** ** The method *)

Section Method.
Implicit Types (s : cpu) (range : list Z) (text : string).

Lemma write_ok text s : write text s = (Ok tt, set_stdout (stdout s +:+ text) s).
Proof. done. Qed.

#[export] Instance write_wf text : Preserves wf (write text).
Proof. apply modify_preserves. auto with ls8. Qed.

#[export] Instance trace_regs_wf range : Preserves wf (trace_regs range).
Proof. induction range; apply _. Qed.

#[export] Instance trace_wf : Preserves wf trace.
Proof. apply _. Qed.

Lemma trace_regs_ok range s :
  wf s → Forall is_reg range →
  trace_regs range s = (Ok tt, set_stdout (stdout s +:+ regs_text s range) s).
Proof.
  intros Hs Hr. revert s Hs. induction Hr as [|i range Hi _ IH]; intros s Hs; simpl.
  { rewrite Parser.append_nil_r. by destruct s. }
  rewrite bind_assoc. erewrite bind_Ok by by apply reg_get_ok.
  erewrite bind_Ok by apply write_ok. rewrite IH by auto with ls8.
  by rewrite <- !append_assoc.
Qed.

End Method.

(** ** Claims on [trace] *)

Section Claims.
Implicit Types (s : cpu) (text new old : string).

#[export] Instance write_clobbers F s0 `{!Writes F Aout} text :
  Preserves (clobbers F s0) (write text).
Proof. apply modify_preserves. intros s. by apply clobbers_append. Qed.

#[export] Instance trace_regs_clobbers F s0 `{!Writes F Aout} range :
  Preserves (clobbers F s0) (trace_regs range).
Proof. induction range; apply _. Qed.

#[export] Instance trace_clobbers F s0 `{!Writes F Aout} :
  Preserves (clobbers F s0) trace.
Proof. apply _. Qed.

(** [trace] changes nothing but the output, whether it returns or
    raises, and what was printed before stays in front. *)
Theorem trace_only_prints s : clobbers [Aout] s (exec trace s).
Proof. apply frame. apply _. Qed.

Lemma set_stdout_twice new old s :
  set_stdout new (set_stdout old s) = set_stdout new s.
Proof. done. Qed.

Lemma stdout_set_stdout text s : stdout (set_stdout text s) = text.
Proof. done. Qed.

Lemma regs_text_set_stdout text s range :
  regs_text (set_stdout text s) range = regs_text s range.
Proof. done. Qed.

(** C37. With the program counter and the two cells after it inside the memory,
    [trace] appends one line: the program counter, the three cells and the
    eight registers in upper-case hexadecimal. *)
Theorem trace_ok s :
  wf s → 0 ≤ pc s → pc s + 2 < 256 →
  trace s = (Ok tt, set_stdout (stdout s +:+ trace_line s) s).
Proof.
  intros Hs H0 H2. unfold trace. do 2 mstep.
  erewrite bind_Ok by (apply ram_read_ok; [done|unfold byte; lia]). mstep.
  erewrite bind_Ok by (apply ram_read_ok; [done|unfold byte; lia]). mstep.
  erewrite bind_Ok by (apply ram_read_ok; [done|unfold byte; lia]).
  erewrite bind_Ok by apply write_ok.
  erewrite bind_Ok by (apply trace_regs_ok; [auto with ls8|by compute_done]).
  rewrite print_ok, !set_stdout_twice, !stdout_set_stdout, regs_text_set_stdout.
  unfold trace_line. do 2 f_equal. rewrite !append_assoc.
  by change ("" +:+ nl) with nl.
Qed.

Lemma trace_ok_witness :
  trace CPU_init = (Ok tt, set_stdout (stdout CPU_init +:+ trace_line CPU_init) CPU_init).
Proof. apply trace_ok; by compute_done. Defined.

(** Within two cells of the end of the memory [trace] raises [IndexError]
    and has printed nothing. *)
Theorem trace_past_end s :
  wf s → 254 ≤ pc s → trace s = (Raise IndexError, s).
Proof.
  intros Hs Hpc. unfold trace. do 2 mstep.
  destruct (decide (256 ≤ pc s)).
  { by erewrite bind_Raise by (apply ram_read_out_of_range; auto). }
  erewrite bind_Ok by (apply ram_read_ok; [done|unfold byte; lia]). mstep.
  destruct (decide (256 ≤ pc s + 1)).
  { by erewrite bind_Raise by (apply ram_read_out_of_range; auto). }
  erewrite bind_Ok by (apply ram_read_ok; [done|unfold byte; lia]). mstep.
  by erewrite bind_Raise by (apply ram_read_out_of_range; auto with lia).
Qed.

Lemma trace_past_end_witness :
  trace (set_pc 254 CPU_init) = (Raise IndexError, set_pc 254 CPU_init).
Proof. apply trace_past_end; by compute_done. Defined.

(** The line for a new machine with a program loaded. *)
Theorem trace_example :
  stdout (exec trace (booted [LDI; 0; 8; PRN; 0; HLT])) =
  "TRACE: 00 | 82 00 08 | 00 00 00 00 00 00 00 F4" +:+ nl.
Proof. by vm_compute. Qed.

End Claims.
