(* ===== verification/Dispatch.v ===== *)
(** * Dispatch.v: the dispatcher

    [CPU.dispatch(i, a, b)] of [src/cpu.py] looks the opcode [i] up in a
    table of the memory handlers, then in a table of the jump handlers, then
    in [ALU_DISPATCH].  A handler found in the first two tables is called
    with [(a, b)], [(a)] or [()] according to which of [a] and [b] are
    [None]; an ALU opcode stores the result of [alu] in register [a]; any
    other opcode does nothing at all.

    The theorems: the two tables are a fixed case analysis on the opcode;
    what [dispatch] does for each opcode on a well-formed state; which calls
    raise [TypeError]; that an opcode in none of the tables is silently
    ignored, where the specification asks for an UnsupportedOperation error;
    that [dispatch] preserves the invariant [wf]. *)

From S2P Require Import Prelude Python Opcodes Alu Cpu.

#[local] Open Scope Z_scope.
#[local] Open Scope ls8_scope.

(** A bound method of [CPU] that takes one or two arguments after [self]. *)
Inductive method : Type :=
  | Meth1 (f : Z → M cpu unit)
  | Meth2 (f : Z → Z → M cpu unit).

(** [foo()]: every handler takes at least one argument. *)
Definition call0 (foo : method) : M cpu unit := raise TypeError.

(** [foo(a)] *)
Definition call1 (foo : method) (a : Z) : M cpu unit :=
  match foo with
  | Meth1 f => f a
  | Meth2 _ => raise TypeError
  end.

(** [foo(a, b)], where [a] may be [None]: the two handlers of two arguments,
    [ldi_foo] and [cmp_foo], subscript [self.reg] with [a] in their first
    statement, which raises [TypeError] on [None]. *)
Definition call2 (foo : method) (a : option Z) (b : Z) : M cpu unit :=
  match foo, a with
  | Meth2 f, Some a => f a b
  | Meth2 _, None => raise TypeError
  | Meth1 _, _ => raise TypeError
  end.

(** The table of the memory handlers, built at each call of [dispatch]. *)
Definition memory_functions : gmap Z method :=
  dict (zip [LDI; PRN; PUSH; POP; CMP]
            [Meth2 ldi_foo; Meth1 print_foo; Meth1 push_from_reg;
             Meth1 pop_to_reg; Meth2 cmp_foo]).

(** The table of the jump handlers. *)
Definition jump_functions : gmap Z method :=
  dict (zip [JMP; JEQ; JNE] [Meth1 jmp_foo; Meth1 jeq_foo; Meth1 jne_foo]).

(** [dispatch(i, a, b)]; [None] for [a] or [b] is Python's [None]. *)
Definition dispatch (i : Z) (a b : option Z) : M cpu unit :=
  let foo := memory_functions !! i in
  let foo := match foo with None => jump_functions !! i | Some _ => foo end in
  match foo with
  | None =>
      let arithmetic := ALU_DISPATCH !! i in
      match arithmetic with
      | Some _ =>
          match a with
          | Some reg_a => v ← alu i reg_a b; reg_set reg_a v
          | None => raise TypeError
          end
      | None => mret tt
      end
  | Some foo =>
      match b with
      | Some b => call2 foo a b
      | None =>
          match a with
          | Some a => call1 foo a
          | None => call0 foo
          end
      end
  end.

(** The handler tables as a case analysis on the opcode. *)
Definition handler_switch (i : Z) : option method :=
  if decide (i = LDI) then Some (Meth2 ldi_foo)
  else if decide (i = PRN) then Some (Meth1 print_foo)
  else if decide (i = PUSH) then Some (Meth1 push_from_reg)
  else if decide (i = POP) then Some (Meth1 pop_to_reg)
  else if decide (i = CMP) then Some (Meth2 cmp_foo)
  else if decide (i = JMP) then Some (Meth1 jmp_foo)
  else if decide (i = JEQ) then Some (Meth1 jeq_foo)
  else if decide (i = JNE) then Some (Meth1 jne_foo)
  else None.

(** The opcodes with a handler in one of the two tables. *)
Definition HANDLED : list Z := [LDI; PRN; PUSH; POP; CMP; JMP; JEQ; JNE].

(** The opcodes [dispatch] does something for. *)
Definition DISPATCHED : list Z := HANDLED ++ ALU_OP_LIST.

(** [alu_simpl] extended to the handler tables. *)
Ltac dispatch_simpl :=
  unfold dispatch; rewrite ?ALU_DISPATCH_switch;
  unfold alu_switch; simpl.

Section DispatchFacts.
Implicit Types (i r : Z) (a b : option Z) (s : cpu).

Lemma handler_lookup i :
  match memory_functions !! i with
  | None => jump_functions !! i
  | Some foo => Some foo
  end = handler_switch i.
Proof.
  destruct (decide (i ∈ HANDLED)) as [Hin|Hout].
  - unfold HANDLED in Hin. elem_cases Hin; reflexivity.
  - assert (i ∉ [LDI; PRN; PUSH; POP; CMP] ∧ i ∉ [JMP; JEQ; JNE]) as [H1 H2].
    { unfold HANDLED in Hout. rewrite !not_elem_of_cons in *. naive_solver. }
    unfold memory_functions, jump_functions.
    rewrite (dict_lookup_None (zip [LDI; PRN; PUSH; POP; CMP] _)) by done.
    rewrite (dict_lookup_None (zip [JMP; JEQ; JNE] _)) by done.
    unfold handler_switch, HANDLED in *.
    repeat (case_decide as E; [exfalso; apply Hout; rewrite E; by compute_done|clear E]).
    done.
Qed.

Lemma handler_switch_None i : i ∉ HANDLED → handler_switch i = None.
Proof.
  intros Hout. unfold handler_switch.
  repeat (case_decide as E; [exfalso; apply Hout; rewrite E; by compute_done|clear E]).
  done.
Qed.

(** [dispatch] in terms of the case analysis. *)
Lemma dispatch_unfold i a b :
  dispatch i a b =
  match handler_switch i with
  | None =>
      match alu_switch i with
      | Some _ =>
          match a with
          | Some reg_a => v ← alu i reg_a b; reg_set reg_a v
          | None => raise TypeError
          end
      | None => mret tt
      end
  | Some foo =>
      match b with
      | Some b => call2 foo a b
      | None => match a with Some a => call1 foo a | None => call0 foo end
      end
  end.
Proof.
  unfold dispatch. rewrite <- handler_lookup, <- ALU_DISPATCH_switch.
  by destruct (memory_functions !! i).
Qed.

End DispatchFacts.

(** ** What [dispatch] does, opcode by opcode *)

Section DispatchTable.
Implicit Types (i r ra rb v : Z) (a b : option Z) (s : cpu).

#[export] Instance dispatch_wf i a b : Preserves wf (dispatch i a b).
Proof.
  rewrite dispatch_unfold. unfold handler_switch.
  repeat case_decide; destruct a, b, (alu_switch i); simpl; apply _.
Qed.

Lemma dispatch_LDI s r v :
  wf s → is_reg r → dispatch LDI (Some r) (Some v) s = (Ok tt, write_reg r v s).
Proof. intros. rewrite dispatch_unfold. by apply ldi_foo_ok. Qed.

Lemma dispatch_PRN s r :
  wf s → is_reg r →
  dispatch PRN (Some r) None s =
  (Ok tt, set_stdout (stdout s +:+ str (R s r) +:+ nl) s).
Proof. intros. rewrite dispatch_unfold. by apply print_foo_ok. Qed.

Lemma dispatch_PUSH s r :
  wf s → is_reg r → byte (R s SP - 1) →
  dispatch PUSH (Some r) None s =
  (Ok tt, write_mem (R s SP - 1) (R s r) (write_reg SP (R s SP - 1) s)).
Proof. intros. rewrite dispatch_unfold. by apply push_from_reg_ok. Qed.

Lemma dispatch_PUSH_wraps s r :
  wf s → is_reg r → R s SP = 0 →
  dispatch PUSH (Some r) None s = (Ok tt, write_mem 255 (R s r) (write_reg SP (-1) s)).
Proof. intros. rewrite dispatch_unfold. by apply push_from_reg_wraps. Qed.

Lemma dispatch_POP s r :
  wf s → is_reg r → byte (R s SP) →
  dispatch POP (Some r) None s =
  (Ok tt, write_reg r (mem s (R s SP))
            (if decide (R s SP < 0xF4) then write_reg SP (R s SP + 1) s else s)).
Proof. intros. rewrite dispatch_unfold. by apply pop_to_reg_ok. Qed.

Lemma dispatch_CMP s ra rb :
  wf s → is_reg ra → is_reg rb →
  dispatch CMP (Some ra) (Some rb) s =
  (Ok tt, set_fl (flags_of (R s ra) (R s rb)) s).
Proof. intros. rewrite dispatch_unfold. by apply cmp_foo_ok. Qed.

Lemma dispatch_JMP s r :
  wf s → is_reg r → dispatch JMP (Some r) None s = (Ok tt, set_pc (R s r) s).
Proof. intros. rewrite dispatch_unfold. by apply jmp_foo_ok. Qed.

Lemma dispatch_JEQ s r :
  wf s → is_reg r →
  dispatch JEQ (Some r) None s =
  (Ok tt, if decide (Z.land (fl s) 1 = 1) then set_pc (R s r) s else s).
Proof. intros. rewrite dispatch_unfold. by apply jeq_foo_ok. Qed.

Lemma dispatch_JNE s r :
  wf s → is_reg r →
  dispatch JNE (Some r) None s =
  (Ok tt, if decide (Z.land (fl s) 1 = 0) then set_pc (R s r) s else s).
Proof. intros. rewrite dispatch_unfold. by apply jne_foo_ok. Qed.

Lemma ALU_not_HANDLED i : i ∈ ALU_OP_LIST → handler_switch i = None.
Proof. intros Hin. unfold ALU_OP_LIST in Hin. elem_cases Hin; reflexivity. Qed.

(** An ALU opcode: the lambda is applied to the values of the registers and
    its result stored in register [ra]; if it raises, nothing is stored. *)
Lemma dispatch_ALU2 s i ra rb :
  wf s → is_reg ra → is_reg rb → i ∈ ALU_OP_LIST →
  dispatch i (Some ra) (Some rb) s =
  match call (ALU_DISPATCH !! i) [R s ra; R s rb] with
  | Ok v => (Ok tt, write_reg ra v s)
  | Raise e => (Raise e, s)
  end.
Proof.
  intros Hs Ha Hb Hi. rewrite dispatch_unfold, ALU_not_HANDLED by done.
  destruct (proj2 (ALU_DISPATCH_is_Some i) Hi) as [foo Hfoo].
  rewrite <- ALU_DISPATCH_switch, Hfoo.
  destruct (call _ _) as [v|e] eqn:Hcall.
  - erewrite bind_Ok; [by apply reg_set_ok|]. by rewrite alu_ok, Hfoo, Hcall.
  - erewrite bind_Raise; [done|]. by rewrite alu_ok, Hfoo, Hcall.
Qed.

Lemma dispatch_ALU1 s i ra :
  wf s → is_reg ra → i ∈ ALU_OP_LIST →
  dispatch i (Some ra) None s =
  match call (ALU_DISPATCH !! i) [R s ra] with
  | Ok v => (Ok tt, write_reg ra v s)
  | Raise e => (Raise e, s)
  end.
Proof.
  intros Hs Ha Hi. rewrite dispatch_unfold, ALU_not_HANDLED by done.
  destruct (proj2 (ALU_DISPATCH_is_Some i) Hi) as [foo Hfoo].
  rewrite <- ALU_DISPATCH_switch, Hfoo.
  destruct (call _ _) as [v|e] eqn:Hcall.
  - erewrite bind_Ok; [by apply reg_set_ok|]. by rewrite alu_ok1, Hfoo, Hcall.
  - erewrite bind_Raise; [done|]. by rewrite alu_ok1, Hfoo, Hcall.
Qed.

(** An opcode in none of the three tables: [dispatch] returns without doing
    anything and without raising. *)
Lemma dispatch_unknown s i a b : i ∉ DISPATCHED → dispatch i a b s = (Ok tt, s).
Proof.
  unfold DISPATCHED. rewrite not_elem_of_app. intros [H1 H2].
  by rewrite dispatch_unfold, handler_switch_None, alu_switch_None.
Qed.

(** A handler called with the wrong number of operands raises [TypeError]
    before it touches the state. *)
Lemma dispatch_arity s i r v :
  (i ∈ [PRN; PUSH; POP; JMP; JEQ; JNE] →
     dispatch i (Some r) (Some v) s = (Raise TypeError, s)) ∧
  (i ∈ [LDI; CMP] → dispatch i (Some r) None s = (Raise TypeError, s)) ∧
  (i ∈ DISPATCHED → dispatch i None None s = (Raise TypeError, s)).
Proof.
  split_and!; intros Hin; unfold DISPATCHED, HANDLED, ALU_OP_LIST in Hin; simpl in Hin;
    elem_cases Hin; by rewrite dispatch_unfold.
Qed.

(** C10. [dispatch] calls the handler itself and returns nothing, although
    its docstring announces the function to be called.  On a well-formed
    state, with operands that name registers and the stack pointer a byte,
    this is the state it leaves for each opcode of the two handler tables:
    LDI writes the register, CMP the flags, PRN appends the decimal value
    and a line feed to the output, PUSH decrements R7 and writes the cell
    it then names (cell 255 from R7 = 0), POP reads the cell at R7 and
    increments R7 below 0xF4, JMP sets the program counter, JEQ and JNE
    set it according to bit 0 of the flags; an opcode in none of the
    three tables leaves the state as it is. *)
Theorem dispatch_routes s ra rb v :
  wf s → is_reg ra → is_reg rb → byte (R s SP) →
  dispatch LDI (Some ra) (Some v) s = (Ok tt, write_reg ra v s) ∧
  dispatch CMP (Some ra) (Some rb) s = (Ok tt, set_fl (flags_of (R s ra) (R s rb)) s) ∧
  dispatch PRN (Some ra) None s =
    (Ok tt, set_stdout (stdout s +:+ str (R s ra) +:+ nl) s) ∧
  dispatch PUSH (Some ra) None s =
    (Ok tt, write_mem (if decide (R s SP = 0) then 255 else R s SP - 1) (R s ra)
              (write_reg SP (R s SP - 1) s)) ∧
  dispatch POP (Some ra) None s =
    (Ok tt, write_reg ra (mem s (R s SP))
              (if decide (R s SP < 0xF4) then write_reg SP (R s SP + 1) s else s)) ∧
  dispatch JMP (Some ra) None s = (Ok tt, set_pc (R s ra) s) ∧
  dispatch JEQ (Some ra) None s =
    (Ok tt, if decide (Z.land (fl s) 1 = 1) then set_pc (R s ra) s else s) ∧
  dispatch JNE (Some ra) None s =
    (Ok tt, if decide (Z.land (fl s) 1 = 0) then set_pc (R s ra) s else s) ∧
  (∀ i a b, i ∉ DISPATCHED → dispatch i a b s = (Ok tt, s)).
Proof.
  intros Hs Ha Hb Hsp. split_and!;
    auto using dispatch_LDI, dispatch_CMP, dispatch_PRN, dispatch_POP, dispatch_JMP,
      dispatch_JEQ, dispatch_JNE, dispatch_unknown.
  case_decide as E; [rewrite E; by apply dispatch_PUSH_wraps|].
  apply dispatch_PUSH; auto. unfold byte in *. lia.
Qed.

Lemma dispatch_routes_witness :
  dispatch PUSH (Some 0) None (write_reg SP 0 CPU_init) =
  (Ok tt, write_mem 255 0 (write_reg SP (-1) (write_reg SP 0 CPU_init))).
Proof. apply (dispatch_routes (write_reg SP 0 CPU_init) 0 1 8); by compute_done. Defined.

(** An ALU opcode: the result of [alu] is stored in the first register; when
    the lambda raises, no register is written. *)
Theorem dispatch_alu s i ra rb :
  wf s → is_reg ra → is_reg rb → i ∈ ALU_OP_LIST →
  dispatch i (Some ra) (if decide (operand_count i = 1) then None else Some rb) s =
  match call (ALU_DISPATCH !! i) (alu_args i (R s ra) (R s rb)) with
  | Ok v => (Ok tt, write_reg ra v s)
  | Raise e => (Raise e, s)
  end.
Proof.
  intros Hs Ha Hb Hin. unfold alu_args. case_decide.
  - by apply dispatch_ALU1.
  - by apply dispatch_ALU2.
Qed.

Lemma dispatch_alu_witness :
  dispatch ADD (Some 0) (if decide (operand_count ADD = 1) then None else Some 7) CPU_init =
  match call (ALU_DISPATCH !! ADD) (alu_args ADD (R CPU_init 0) (R CPU_init 7)) with
  | Ok v => (Ok tt, write_reg 0 v CPU_init)
  | Raise e => (Raise e, CPU_init)
  end.
Proof. apply dispatch_alu; by compute_done. Defined.

End DispatchTable.

#[export] Hint Resolve dispatch_LDI dispatch_PRN dispatch_PUSH dispatch_POP
  dispatch_CMP dispatch_JMP dispatch_JEQ dispatch_JNE : ls8.

(** ** Operands that name no register *)

Section DispatchRaises.
Implicit Types (s : cpu) (i r ra rb v : Z).

(** An operand byte of 8 or more where a register is expected: the handler
    raises [IndexError] from the subscript of [self.reg]. *)
Lemma dispatch_raises_1 s i r :
  wf s → byte (R s SP) → 8 ≤ r → i ∈ [PRN; PUSH; POP; JMP] →
  raises IndexError (dispatch i (Some r) None) s.
Proof.
  intros Hs Hsp Hr Hi. elem_cases Hi; rewrite dispatch_unfold;
    [by apply print_foo_raises|by apply push_from_reg_raises
    |by apply pop_to_reg_raises|by apply jmp_foo_raises].
Qed.

Lemma dispatch_raises_LDI s r v :
  wf s → 8 ≤ r → raises IndexError (dispatch LDI (Some r) (Some v)) s.
Proof. intros. rewrite dispatch_unfold. by apply reg_set_raises. Qed.

Lemma dispatch_raises_CMP s ra rb :
  wf s → 8 ≤ ra ∨ is_reg ra ∧ 8 ≤ rb →
  raises IndexError (dispatch CMP (Some ra) (Some rb)) s.
Proof. intros. rewrite dispatch_unfold. by apply cmp_foo_raises. Qed.

Lemma dispatch_raises_ALU s i ra (b : option Z) :
  wf s → i ∈ ALU_OP_LIST →
  8 ≤ ra ∨ is_reg ra ∧ (∃ rb, b = Some rb ∧ 8 ≤ rb) →
  raises IndexError (dispatch i (Some ra) b) s.
Proof.
  intros Hs Hi H. rewrite dispatch_unfold, ALU_not_HANDLED by done.
  destruct (proj2 (ALU_DISPATCH_is_Some i) Hi) as [foo Hfoo].
  rewrite <- ALU_DISPATCH_switch, Hfoo. by apply raises_bind_l, alu_raises.
Qed.

End DispatchRaises.
