(* ===== verification/Run.v ===== *)
(** * Run.v: the fetch-decode-execute loop

    [CPU.run] of [src/cpu.py]: a [while True] whose body fetches the opcode
    at [pc], reads as many operand bytes as the two top bits of the opcode
    say into the locals [a] and [b], advances [pc], and then halts, calls,
    returns or dispatches.  [a] and [b] are locals of [run], not of the loop
    body: an iteration that reads no operand leaves them as the previous
    iteration set them, and before the first instruction with operands they
    are unbound.  [locals] carries them from one iteration to the next.

    The theorems: one lemma per instruction that says what an iteration does
    on a well-formed state; the invariant [wf] over whole runs; fuel
    monotonicity and determinism of [run]; the behaviours the specification
    does not expect (an opcode without a handler is skipped, or raises
    [UnboundLocalError] when no operand was read yet; an opcode whose top
    bits are [11] advances [pc] by one). *)

From S2P Require Import Prelude Python Loop Opcodes Alu Cpu Dispatch.

#[local] Open Scope Z_scope.
#[local] Open Scope ls8_scope.

(** The locals [a] and [b] of [run].  [None] is an unbound local;
    [loc_b = Some None] is [b] bound to Python's [None]. *)
Record locals : Type := mkLocals {
  loc_a : option Z;
  loc_b : option (option Z)
}.

(** Before the first iteration. *)
Definition unbound : locals := {| loc_a := None; loc_b := None |}.

(** Reading a local. *)
Definition local {A} (x : option A) : M cpu A :=
  match x with
  | Some v => mret v
  | None => raise UnboundLocalError
  end.

(** [self.pc += n] *)
Definition pc_add (n : Z) : M cpu unit :=
  p ← gets pc; modify (set_pc (p + n)).

(** The decoder: the [if ops == 2 ... elif ops == 1 ... else] of [run]. *)
Definition fetch_operands (IR : Z) (l : locals) : M cpu locals :=
  let ops := operand_count IR in
  if decide (ops = 2) then
    p ← gets pc; a ← ram_read (p + 1);
    p ← gets pc; b ← ram_read (p + 2);
    pc_add 3;;
    mret {| loc_a := Some a; loc_b := Some (Some b) |}
  else if decide (ops = 1) then
    p ← gets pc; a ← ram_read (p + 1);
    pc_add 2;;
    mret {| loc_a := Some a; loc_b := Some None |}
  else
    pc_add 1;;
    mret l.

(** The evaluation part of an iteration. *)
Definition evaluate (IR : Z) (l : locals) : M cpu (control locals) :=
  if decide (HLT = IR) then mret Break
  else if decide (IR = CALL) then
    p ← gets pc; push_mdr p;;
    a ← local (loc_a l); v ← reg_get a; modify (set_pc v);;
    mret (Continue l)
  else if decide (IR = RET) then
    v ← pop_mdr; modify (set_pc v);;
    mret (Continue l)
  else
    a ← local (loc_a l); b ← local (loc_b l);
    dispatch IR (Some a) b;;
    mret (Continue l).

(** One iteration of the loop of [run]. *)
Definition run_body (l : locals) : M cpu (control locals) :=
  p ← gets pc; IR ← ram_read p;
  l ← fetch_operands IR l;
  evaluate IR l.

(** [run()], with fuel: at most [fuel] instructions. *)
Definition run (fuel : nat) (s : cpu) : option (result unit * cpu) :=
  while_true run_body fuel unbound s.

(** [run] started with the locals [l]: the rest of a run. *)
Definition run_from (fuel : nat) (l : locals) (s : cpu) : option (result unit * cpu) :=
  while_true run_body fuel l s.

(** The opcode at [pc] and the two cells after it. *)
Definition at_pc (s : cpu) (IR : Z) : Prop := byte (pc s) ∧ mem s (pc s) = IR.

(** The locals after the operands of an instruction at [pc] were read. *)
Definition operands1 (s : cpu) : locals :=
  {| loc_a := Some (mem s (pc s + 1)); loc_b := Some None |}.

Definition operands2 (s : cpu) : locals :=
  {| loc_a := Some (mem s (pc s + 1)); loc_b := Some (Some (mem s (pc s + 2))) |}.

(** A machine state with the locals of [run]: a configuration of the loop. *)
Definition config : Type := locals * cpu.

(** One instruction that does not end the run. *)
Definition step : config → config → Prop := loop_step run_body.

(** The run ends at this configuration, by HLT or by an exception. *)
Definition final : config → result unit * cpu → Prop := loop_final run_body.

(** The cells an instruction with opcode [IR] takes: the opcode and its
    operand bytes, where top bits [11] count as no operand. *)
Definition instr_size (IR : Z) : Z :=
  if decide (operand_count IR = 3) then 1 else 1 + operand_count IR.

(** Neither [run] nor [dispatch] knows the opcode. *)
Definition unhandled (IR : Z) : Prop := IR ∉ [HLT; CALL; RET] ++ DISPATCHED.

#[export] Instance unhandled_dec IR : Decision (unhandled IR).
Proof. unfold unhandled. apply _. Defined.

#[export] Instance at_pc_dec s IR : Decision (at_pc s IR).
Proof. unfold at_pc. apply _. Defined.

(** ** Fetch and decode *)

Section Fetch.
Implicit Types (s : cpu) (l : locals) (IR n : Z).

Lemma pc_add_ok n s : pc_add n s = (Ok tt, set_pc (pc s + n) s).
Proof. done. Qed.

Lemma local_ok {A} (x : A) s : local (Some x) s = (Ok x, s).
Proof. done. Qed.

Lemma local_unbound {A} s : local (None : option A) s = (Raise UnboundLocalError, s).
Proof. done. Qed.

#[export] Instance local_wf {A} (x : option A) : Preserves wf (local x).
Proof. destruct x; apply _. Qed.

#[export] Instance pc_add_wf n : Preserves wf (pc_add n).
Proof. intros s Hs. by apply wf_set_pc. Qed.

#[export] Instance set_pc_wf v : Preserves wf (modify (set_pc v)).
Proof. apply modify_preserves. auto with ls8. Qed.

#[export] Instance fetch_operands_wf IR l : Preserves wf (fetch_operands IR l).
Proof. unfold fetch_operands. repeat case_decide; apply _. Qed.

#[export] Instance evaluate_wf IR l : Preserves wf (evaluate IR l).
Proof. unfold evaluate. repeat case_decide; apply _. Qed.

#[export] Instance run_body_wf l : Preserves wf (run_body l).
Proof. apply _. Qed.

(** Reading a local keeps every invariant, and so does the decoder when
    assignments to [pc] do. *)
#[export] Instance local_preserves {A} (I : cpu → Prop) (x : option A) :
  Preserves I (local x).
Proof. destruct x; apply _. Qed.

Lemma fetch_operands_preserves (I : cpu → Prop) IR l :
  (∀ v, Preserves I (modify (set_pc v))) → Preserves I (fetch_operands IR l).
Proof. intros Hpc. unfold fetch_operands, pc_add, ram_read. repeat case_decide; apply _. Qed.

(** An instruction with two operand bytes that lies within the memory. *)
Lemma fetch_operands_2 s l IR :
  wf s → 0 ≤ pc s → pc s + 2 < 256 → operand_count IR = 2 →
  fetch_operands IR l s = (Ok (operands2 s), set_pc (pc s + 3) s).
Proof.
  intros Hs H0 H2 Hops. unfold fetch_operands. rewrite decide_True by done.
  mstep. erewrite bind_Ok by (apply ram_read_ok; [done|unfold byte; lia]).
  mstep. erewrite bind_Ok by (apply ram_read_ok; [done|unfold byte; lia]).
  by erewrite bind_Ok by apply pc_add_ok.
Qed.

Lemma fetch_operands_1 s l IR :
  wf s → 0 ≤ pc s → pc s + 1 < 256 → operand_count IR = 1 →
  fetch_operands IR l s = (Ok (operands1 s), set_pc (pc s + 2) s).
Proof.
  intros Hs H0 H1 Hops. unfold fetch_operands.
  rewrite decide_False, decide_True by lia.
  mstep. erewrite bind_Ok by (apply ram_read_ok; [done|unfold byte; lia]).
  by erewrite bind_Ok by apply pc_add_ok.
Qed.

(** No operand is read when the top bits are [00], and also when they are
    [11]: the locals stay as they are and [pc] advances by one. *)
Lemma fetch_operands_0 s l IR :
  operand_count IR = 0 ∨ operand_count IR = 3 →
  fetch_operands IR l s = (Ok l, set_pc (pc s + 1) s).
Proof.
  intros Hops. unfold fetch_operands. rewrite !decide_False by lia.
  by erewrite bind_Ok by apply pc_add_ok.
Qed.

(** The operand bytes run past the end of the memory: [IndexError], with
    [pc] not advanced. *)
Lemma fetch_operands_past_end s l IR :
  wf s → operand_count IR = 1 ∨ operand_count IR = 2 → pc s = 255 →
  fetch_operands IR l s = (Raise IndexError, s).
Proof.
  intros Hs Hops Hpc. unfold fetch_operands.
  assert (ram_read (pc s + 1) s = (Raise IndexError, s)) as Hread
    by (apply ram_read_out_of_range; [done|lia]).
  destruct Hops as [Hops|Hops].
  - rewrite decide_False, decide_True by lia. mstep. by erewrite bind_Raise.
  - rewrite decide_True by lia. mstep. by erewrite bind_Raise.
Qed.

Lemma run_body_fetch s l IR :
  wf s → at_pc s IR →
  run_body l s = (fetch_operands IR l ≫= evaluate IR) s.
Proof.
  intros Hs [Hpc <-]. unfold run_body. mstep. by erewrite bind_Ok by by apply ram_read_ok.
Qed.

(** The fetch itself fails when [pc] is outside [-256, 256). *)
Lemma run_body_pc_out_of_range s l :
  wf s → pc s < -256 ∨ 256 ≤ pc s → run_body l s = (Raise IndexError, s).
Proof.
  intros Hs Hpc. unfold run_body. mstep.
  by erewrite bind_Raise by by apply ram_read_out_of_range.
Qed.

Lemma evaluate_dispatch s l IR :
  IR ∉ [HLT; CALL; RET] →
  evaluate IR l s =
  (a ← local (loc_a l); b ← local (loc_b l);
   dispatch IR (Some a) b;; mret (Continue l)) s.
Proof.
  rewrite !not_elem_of_cons. intros (? & ? & ? & _). unfold evaluate.
  by rewrite !decide_False by done.
Qed.

End Fetch.

#[export] Hint Resolve pc_add_ok local_ok : ls8.

(** ** One iteration, instruction by instruction *)

Section Instructions.
Implicit Types (s : cpu) (l : locals).

(** The operand bytes of the instruction at [pc]. *)
Notation opA s := (mem s (pc s + 1)).
Notation opB s := (mem s (pc s + 2)).

(** An iteration on a handler opcode with two operand bytes: fetch, decode,
    and the handler run on the state with [pc] advanced. *)
Lemma run_body_2 s l IR :
  wf s → at_pc s IR → pc s + 2 < 256 → operand_count IR = 2 → IR ∉ [HLT; CALL; RET] →
  run_body l s =
  (dispatch IR (Some (opA s)) (Some (opB s));; mret (Continue (operands2 s)))
    (set_pc (pc s + 3) s).
Proof.
  intros Hs Hat H2 Hops Hir. pose proof Hat as [[??] _].
  rewrite (run_body_fetch s l IR) by done.
  erewrite bind_Ok by by apply fetch_operands_2.
  rewrite evaluate_dispatch by done. by do 2 mstep.
Qed.

Lemma run_body_1 s l IR :
  wf s → at_pc s IR → pc s + 1 < 256 → operand_count IR = 1 → IR ∉ [HLT; CALL; RET] →
  run_body l s =
  (dispatch IR (Some (opA s)) None;; mret (Continue (operands1 s)))
    (set_pc (pc s + 2) s).
Proof.
  intros Hs Hat H1 Hops Hir. pose proof Hat as [[??] _].
  rewrite (run_body_fetch s l IR) by done.
  erewrite bind_Ok by by apply fetch_operands_1.
  rewrite evaluate_dispatch by done. by do 2 mstep.
Qed.

(** HLT leaves the loop, with [pc] after the instruction. *)
Lemma run_body_HLT s l :
  wf s → at_pc s HLT → run_body l s = (Ok Break, set_pc (pc s + 1) s).
Proof.
  intros Hs Hat. rewrite (run_body_fetch s l HLT) by done.
  by erewrite bind_Ok by by apply fetch_operands_0; left.
Qed.

Lemma run_body_LDI s l :
  wf s → at_pc s LDI → pc s + 2 < 256 → is_reg (opA s) →
  run_body l s =
  (Ok (Continue (operands2 s)), write_reg (opA s) (opB s) (set_pc (pc s + 3) s)).
Proof.
  intros. rewrite (run_body_2 s l LDI) by (done || by compute_done).
  by erewrite bind_Ok by (apply dispatch_LDI; auto with ls8).
Qed.

Lemma run_body_PRN s l :
  wf s → at_pc s PRN → pc s + 1 < 256 → is_reg (opA s) →
  run_body l s =
  (Ok (Continue (operands1 s)),
   set_stdout (stdout s +:+ str (R s (opA s)) +:+ nl) (set_pc (pc s + 2) s)).
Proof.
  intros. rewrite (run_body_1 s l PRN) by (done || by compute_done).
  by erewrite bind_Ok by (apply dispatch_PRN; auto with ls8).
Qed.

Lemma run_body_CMP s l :
  wf s → at_pc s CMP → pc s + 2 < 256 → is_reg (opA s) → is_reg (opB s) →
  run_body l s =
  (Ok (Continue (operands2 s)),
   set_fl (flags_of (R s (opA s)) (R s (opB s))) (set_pc (pc s + 3) s)).
Proof.
  intros. rewrite (run_body_2 s l CMP) by (done || by compute_done).
  by erewrite bind_Ok by (apply dispatch_CMP; auto with ls8).
Qed.

Lemma run_body_JMP s l :
  wf s → at_pc s JMP → pc s + 1 < 256 → is_reg (opA s) →
  run_body l s = (Ok (Continue (operands1 s)), set_pc (R s (opA s)) s).
Proof.
  intros. rewrite (run_body_1 s l JMP) by (done || by compute_done).
  by erewrite bind_Ok by (apply dispatch_JMP; auto with ls8).
Qed.

(** JEQ jumps when the Equal flag is set and falls through otherwise. *)
Lemma run_body_JEQ s l :
  wf s → at_pc s JEQ → pc s + 1 < 256 → is_reg (opA s) →
  run_body l s =
  (Ok (Continue (operands1 s)),
   set_pc (if decide (Z.land (fl s) 1 = 1) then R s (opA s) else pc s + 2) s).
Proof.
  intros. rewrite (run_body_1 s l JEQ) by (done || by compute_done).
  erewrite bind_Ok by (apply dispatch_JEQ; auto with ls8).
  cbn [fl set_pc]. by case_decide.
Qed.

Lemma run_body_JNE s l :
  wf s → at_pc s JNE → pc s + 1 < 256 → is_reg (opA s) →
  run_body l s =
  (Ok (Continue (operands1 s)),
   set_pc (if decide (Z.land (fl s) 1 = 0) then R s (opA s) else pc s + 2) s).
Proof.
  intros. rewrite (run_body_1 s l JNE) by (done || by compute_done).
  erewrite bind_Ok by (apply dispatch_JNE; auto with ls8).
  cbn [fl set_pc]. by case_decide.
Qed.

Lemma run_body_PUSH s l :
  wf s → at_pc s PUSH → pc s + 1 < 256 → is_reg (opA s) → byte (R s SP - 1) →
  run_body l s =
  (Ok (Continue (operands1 s)),
   write_mem (R s SP - 1) (R s (opA s))
     (write_reg SP (R s SP - 1) (set_pc (pc s + 2) s))).
Proof.
  intros. rewrite (run_body_1 s l PUSH) by (done || by compute_done).
  by erewrite bind_Ok by (apply dispatch_PUSH; auto with ls8).
Qed.

Lemma run_body_POP s l :
  wf s → at_pc s POP → pc s + 1 < 256 → is_reg (opA s) → byte (R s SP) →
  run_body l s =
  (Ok (Continue (operands1 s)),
   write_reg (opA s) (mem s (R s SP))
     (if decide (R s SP < 0xF4)
      then write_reg SP (R s SP + 1) (set_pc (pc s + 2) s)
      else set_pc (pc s + 2) s)).
Proof.
  intros. rewrite (run_body_1 s l POP) by (done || by compute_done).
  erewrite bind_Ok by (apply dispatch_POP; auto with ls8).
  unfold R. cbn [reg set_pc]. by case_decide.
Qed.

(** CALL pushes the address of the next instruction and jumps to the
    address held by the register. *)
Lemma run_body_CALL s l :
  wf s → at_pc s CALL → pc s + 1 < 256 → is_reg (opA s) → byte (R s SP - 1) →
  run_body l s =
  (Ok (Continue (operands1 s)),
   set_pc (R (write_reg SP (R s SP - 1) s) (opA s))
     (write_mem (R s SP - 1) (pc s + 2) (write_reg SP (R s SP - 1) s))).
Proof.
  intros Hs Hat H1 Hr Hsp. pose proof Hat as [[??] _].
  rewrite (run_body_fetch s l CALL) by done.
  erewrite bind_Ok by by apply fetch_operands_1.
  unfold evaluate. rewrite decide_False, decide_True by done.
  mstep. erewrite bind_Ok by (apply push_mdr_ok; auto with ls8).
  mstep. erewrite bind_Ok by (apply reg_get_ok; auto with ls8).
  by mstep.
Qed.

(** PUSH and CALL with the stack pointer at 0: the value goes to the last
    cell of the memory and the stack pointer to [-1]. *)
Lemma run_body_PUSH_wraps s l :
  wf s → at_pc s PUSH → pc s + 1 < 256 → is_reg (opA s) → R s SP = 0 →
  run_body l s =
  (Ok (Continue (operands1 s)),
   write_mem 255 (R s (opA s)) (write_reg SP (-1) (set_pc (pc s + 2) s))).
Proof.
  intros. rewrite (run_body_1 s l PUSH) by (done || by compute_done).
  by erewrite bind_Ok by (apply dispatch_PUSH_wraps; auto with ls8).
Qed.

Lemma run_body_CALL_wraps s l :
  wf s → at_pc s CALL → pc s + 1 < 256 → is_reg (opA s) → R s SP = 0 →
  run_body l s =
  (Ok (Continue (operands1 s)),
   set_pc (R (write_reg SP (-1) s) (opA s))
     (write_mem 255 (pc s + 2) (write_reg SP (-1) s))).
Proof.
  intros Hs Hat H1 Hr Hsp. pose proof Hat as [[??] _].
  rewrite (run_body_fetch s l CALL) by done.
  erewrite bind_Ok by by apply fetch_operands_1.
  unfold evaluate. rewrite decide_False, decide_True by done.
  mstep. erewrite bind_Ok by (apply push_mdr_wraps; auto with ls8).
  mstep. erewrite bind_Ok by (apply reg_get_ok; auto with ls8).
  by mstep.
Qed.

(** RET pops the return address into [pc]. *)
Lemma run_body_RET s l :
  wf s → at_pc s RET → byte (R s SP) →
  run_body l s =
  (Ok (Continue l),
   set_pc (mem s (R s SP))
     (if decide (R s SP < 0xF4) then write_reg SP (R s SP + 1) s else s)).
Proof.
  intros Hs Hat Hsp. rewrite (run_body_fetch s l RET) by done.
  erewrite bind_Ok by by apply fetch_operands_0; left.
  unfold evaluate. rewrite !decide_False by done. rewrite decide_True by done.
  erewrite bind_Ok by (apply pop_mdr_ok; auto with ls8).
  mstep. unfold R. cbn [reg set_pc]. by case_decide.
Qed.

(** An ALU instruction of two registers: the result is stored in the first
    register; if the lambda raises, the run ends with [pc] advanced and the
    registers as they were. *)
Lemma run_body_ALU2 s l IR :
  wf s → at_pc s IR → pc s + 2 < 256 → IR ∈ ALU_OP_LIST → operand_count IR = 2 →
  is_reg (opA s) → is_reg (opB s) →
  run_body l s =
  match call (ALU_DISPATCH !! IR) [R s (opA s); R s (opB s)] with
  | Ok v => (Ok (Continue (operands2 s)), write_reg (opA s) v (set_pc (pc s + 3) s))
  | Raise e => (Raise e, set_pc (pc s + 3) s)
  end.
Proof.
  intros Hs Hat H2 Hin Hops Ha Hb.
  rewrite (run_body_2 s l IR) by
    (try done; unfold ALU_OP_LIST in Hin; elem_cases Hin; by compute_done).
  pose proof (dispatch_ALU2 (set_pc (pc s + 3) s) IR (opA s) (opB s)) as Hd.
  cbn [R reg set_pc] in Hd. destruct (call _ _) as [v|e].
  - erewrite bind_Ok; [done|]. apply Hd; auto with ls8.
  - erewrite bind_Raise; [done|]. apply Hd; auto with ls8.
Qed.

Lemma run_body_ALU1 s l IR :
  wf s → at_pc s IR → pc s + 1 < 256 → IR ∈ ALU_OP_LIST → operand_count IR = 1 →
  is_reg (opA s) →
  run_body l s =
  match call (ALU_DISPATCH !! IR) [R s (opA s)] with
  | Ok v => (Ok (Continue (operands1 s)), write_reg (opA s) v (set_pc (pc s + 2) s))
  | Raise e => (Raise e, set_pc (pc s + 2) s)
  end.
Proof.
  intros Hs Hat H1 Hin Hops Ha.
  rewrite (run_body_1 s l IR) by
    (try done; unfold ALU_OP_LIST in Hin; elem_cases Hin; by compute_done).
  pose proof (dispatch_ALU1 (set_pc (pc s + 2) s) IR (opA s)) as Hd.
  cbn [R reg set_pc] in Hd. destruct (call _ _) as [v|e].
  - erewrite bind_Ok; [done|]. apply Hd; auto with ls8.
  - erewrite bind_Raise; [done|]. apply Hd; auto with ls8.
Qed.

End Instructions.

(** ** Opcodes without a handler *)

Section Unhandled.
Implicit Types (s : cpu) (l : locals) (IR : Z).

Lemma unhandled_inv IR : unhandled IR → IR ∉ [HLT; CALL; RET] ∧ IR ∉ DISPATCHED.
Proof. unfold unhandled. by rewrite not_elem_of_app. Qed.

Lemma evaluate_unhandled s l IR a b :
  unhandled IR → loc_a l = Some a → loc_b l = Some b →
  evaluate IR l s = (Ok (Continue l), s).
Proof.
  intros [H1 H2]%unhandled_inv Ha Hb. rewrite evaluate_dispatch, Ha, Hb by done.
  do 2 mstep. by erewrite bind_Ok by by apply dispatch_unknown.
Qed.

(** C40. An opcode without a handler and without operand bytes, met before any
    operand was read: the call [self.dispatch(IR, a, b)] reads the unbound
    local [a]. *)
Lemma run_body_unbound s IR :
  wf s → at_pc s IR → unhandled IR →
  operand_count IR = 0 ∨ operand_count IR = 3 →
  run_body unbound s = (Raise UnboundLocalError, set_pc (pc s + 1) s).
Proof.
  intros Hs Hat [H1 H2]%unhandled_inv Hops.
  rewrite (run_body_fetch s _ IR) by done.
  erewrite bind_Ok by by apply fetch_operands_0.
  by rewrite evaluate_dispatch by done.
Qed.

Lemma run_body_unbound_witness :
  run_body unbound (booted [NOP]) =
  (Raise UnboundLocalError, set_pc (pc (booted [NOP]) + 1) (booted [NOP])).
Proof. apply (run_body_unbound _ NOP); by compute_done. Defined.

(** An opcode without a handler and without operand bytes, met after an
    instruction with operands: it is skipped, and [pc] advances by one, also
    when the top bits of the opcode are [11]. *)
Lemma run_body_skip_0 s l IR a b :
  wf s → at_pc s IR → unhandled IR →
  operand_count IR = 0 ∨ operand_count IR = 3 →
  loc_a l = Some a → loc_b l = Some b →
  run_body l s = (Ok (Continue l), set_pc (pc s + 1) s).
Proof.
  intros Hs Hat Hun Hops Ha Hb. rewrite (run_body_fetch s _ IR) by done.
  erewrite bind_Ok by by apply fetch_operands_0.
  by eapply evaluate_unhandled.
Qed.

Lemma run_body_skip_0_witness :
  run_body (operands1 CPU_init) (booted [192]) =
  (Ok (Continue (operands1 CPU_init)), set_pc (pc (booted [192]) + 1) (booted [192])).
Proof. apply (run_body_skip_0 _ _ 192 0 None); by compute_done. Defined.

(** An opcode without a handler that has operand bytes is skipped with its
    operands, whatever the locals were. *)
Lemma run_body_skip_1 s l IR :
  wf s → at_pc s IR → unhandled IR → operand_count IR = 1 → pc s + 1 < 256 →
  run_body l s = (Ok (Continue (operands1 s)), set_pc (pc s + 2) s).
Proof.
  intros Hs Hat Hun Hops H1. pose proof Hat as [[??] _].
  rewrite (run_body_fetch s _ IR) by done.
  erewrite bind_Ok by by apply fetch_operands_1.
  by eapply evaluate_unhandled.
Qed.

Lemma run_body_skip_1_witness :
  run_body unbound (booted [JGT; 0]) =
  (Ok (Continue (operands1 (booted [JGT; 0]))),
   set_pc (pc (booted [JGT; 0]) + 2) (booted [JGT; 0])).
Proof. apply (run_body_skip_1 _ _ JGT); by compute_done. Defined.

Lemma run_body_skip_2 s l IR :
  wf s → at_pc s IR → unhandled IR → operand_count IR = 2 → pc s + 2 < 256 →
  run_body l s = (Ok (Continue (operands2 s)), set_pc (pc s + 3) s).
Proof.
  intros Hs Hat Hun Hops H1. pose proof Hat as [[??] _].
  rewrite (run_body_fetch s _ IR) by done.
  erewrite bind_Ok by by apply fetch_operands_2.
  by eapply evaluate_unhandled.
Qed.

(** An opcode without a handler, whatever the locals: the iteration moves
    the program counter past the instruction and changes nothing else; it
    continues, or raises [UnboundLocalError] when it read no operand and a
    local is unbound. *)
Lemma run_body_skip s l IR :
  wf s → at_pc s IR → unhandled IR → pc s + operand_count IR < 256 →
  ∃ r, run_body l s = (r, set_pc (pc s + instr_size IR) s) ∧
       (is_Ok r ∨ r = Raise UnboundLocalError).
Proof.
  intros Hs Hat Hun Hb. pose proof (operand_count_range IR). unfold instr_size.
  destruct (decide (operand_count IR = 1)) as [E1|?];
    [|destruct (decide (operand_count IR = 2)) as [E2|?]].
  - rewrite decide_False, E1 in * by lia. eexists.
    split; [by apply (run_body_skip_1 s l IR); try lia|by left].
  - rewrite decide_False, E2 in * by lia. eexists.
    split; [by apply (run_body_skip_2 s l IR); try lia|by left].
  - assert (operand_count IR = 0 ∨ operand_count IR = 3) as Hops by lia.
    replace (if decide (operand_count IR = 3) then 1 else 1 + operand_count IR) with 1
      by (case_decide; lia).
    destruct l as [[a|] [b|]].
    1: eexists; split; [by eapply run_body_skip_0|by left].
    all: eexists; split; [|by right].
    all: rewrite (run_body_fetch s _ IR) by done.
    all: erewrite bind_Ok by by apply fetch_operands_0.
    all: by rewrite evaluate_dispatch by by apply unhandled_inv.
Qed.
(** The opcodes the source declares and gives no handler are all
    unhandled; so is every byte that is no declared opcode. *)
Lemma UNIMPLEMENTED_unhandled : Forall unhandled UNIMPLEMENTED.
Proof. by compute_done. Qed.

End Unhandled.

(** ** Whole runs *)

Section Runs.
Implicit Types (s : cpu) (l : locals) (fuel n m : nat) (o : result unit * cpu).

Lemma run_from_S n l s :
  run_from (S n) l s =
  match run_body l s with
  | (Ok Break, s') => Some (Ok tt, s')
  | (Ok (Continue l'), s') => run_from n l' s'
  | (Raise e, s') => Some (Raise e, s')
  end.
Proof. reflexivity. Qed.

Lemma run_from_step n l s l' s' :
  run_body l s = (Ok (Continue l'), s') → run_from (S n) l s = run_from n l' s'.
Proof. intros H. by rewrite run_from_S, H. Qed.

Lemma run_from_break n l s s' :
  run_body l s = (Ok Break, s') → run_from (S n) l s = Some (Ok tt, s').
Proof. intros H. by rewrite run_from_S, H. Qed.

Lemma run_from_raise n l s e s' :
  run_body l s = (Raise e, s') → run_from (S n) l s = Some (Raise e, s').
Proof. intros H. by rewrite run_from_S, H. Qed.

(** More fuel does not change the outcome of a run. *)
Lemma run_from_mono n m l s o :
  run_from n l s = Some o → (n ≤ m)%nat → run_from m l s = Some o.
Proof. apply while_true_mono. Qed.

(** A run has at most one outcome, whatever the fuel. *)
Lemma run_from_agree n m l s o1 o2 :
  run_from n l s = Some o1 → run_from m l s = Some o2 → o1 = o2.
Proof. apply while_true_agree. Qed.

(** The state a run ends in, by HLT or by an exception, is well formed. *)
Lemma run_from_wf n l s r s' : wf s → run_from n l s = Some (r, s') → wf s'.
Proof. apply while_true_invariant. apply _. Qed.

Lemma step_wf l s l' s' : wf s → rtc step (l, s) (l', s') → wf s'.
Proof. apply loop_step_invariant. apply _. Qed.

(** The transition relation is a function. *)
Lemma step_det c c1 c2 : step c c1 → step c c2 → c1 = c2.
Proof. apply loop_step_det. Qed.

(** A run that ends is a sequence of steps followed by a final one, and
    conversely. *)
Lemma run_from_steps n l s o :
  run_from n l s = Some o ↔
  ∃ k c, (k < n)%nat ∧ nsteps step k (l, s) c ∧ final c o.
Proof.
  split; [apply while_true_sound|].
  intros (k & c & Hk & Hsteps & Hfin).
  apply (while_true_mono _ (S k)); [|lia]. by eapply while_true_complete.
Qed.

End Runs.

(** ** Iterations that raise *)

Section RunRaises.
Implicit Types (s : cpu) (l : locals) (IR : Z) (e : exn).

Lemma run_body_1_raises s l IR e :
  wf s → at_pc s IR → pc s + 1 < 256 → operand_count IR = 1 → IR ∉ [HLT; CALL; RET] →
  raises e (dispatch IR (Some (mem s (pc s + 1))) None) (set_pc (pc s + 2) s) →
  raises e (run_body l) s.
Proof.
  intros Hs Hat H1 Hops Hir [c Hc]. exists c.
  rewrite (run_body_1 s l IR) by done. by apply bind_Raise.
Qed.

Lemma run_body_2_raises s l IR e :
  wf s → at_pc s IR → pc s + 2 < 256 → operand_count IR = 2 → IR ∉ [HLT; CALL; RET] →
  raises e (dispatch IR (Some (mem s (pc s + 1))) (Some (mem s (pc s + 2))))
    (set_pc (pc s + 3) s) →
  raises e (run_body l) s.
Proof.
  intros Hs Hat H1 Hops Hir [c Hc]. exists c.
  rewrite (run_body_2 s l IR) by done. by apply bind_Raise.
Qed.

Lemma run_body_CALL_raises s l :
  wf s → at_pc s CALL → pc s + 1 < 256 → byte (R s SP) → 8 ≤ mem s (pc s + 1) →
  raises IndexError (run_body l) s.
Proof.
  intros Hs Hat H1 Hsp Hr. pose proof Hat as [[??] _].
  unfold raises. rewrite (run_body_fetch s l CALL) by done.
  erewrite bind_Ok by by apply fetch_operands_1.
  unfold evaluate. rewrite decide_False, decide_True by done. mstep.
  destruct (decide (R s SP = 0)) as [E0|E0].
  - erewrite bind_Ok by (apply push_mdr_wraps; auto with ls8).
    mstep. apply raises_bind_l, reg_get_raises; auto with ls8.
  - erewrite bind_Ok
      by (apply push_mdr_ok; auto with ls8; unfold byte in *; rewrite R_set_pc; lia).
    mstep. apply raises_bind_l, reg_get_raises; auto with ls8.
Qed.

Lemma ALU_not_control IR : IR ∈ ALU_OP_LIST → IR ∉ [HLT; CALL; RET].
Proof. intros Hi. unfold ALU_OP_LIST in Hi. elem_cases Hi; by compute_done. Qed.

Lemma ALU_operand_count IR :
  IR ∈ ALU_OP_LIST → operand_count IR = 1 ∨ operand_count IR = 2.
Proof. intros Hi. unfold ALU_OP_LIST in Hi. elem_cases Hi; by compute_done. Qed.

(** The first operand byte is 8 or more on an instruction whose handler
    subscripts [self.reg] with it. *)
Lemma run_body_bad_reg_a s l IR :
  wf s → at_pc s IR → pc s + operand_count IR < 256 →
  byte (R s SP) → 8 ≤ mem s (pc s + 1) →
  IR ∈ [PRN; PUSH; POP; JMP; CALL; LDI; CMP] ∨ IR ∈ ALU_OP_LIST →
  raises IndexError (run_body l) s.
Proof.
  intros Hs Hat Hb HSP Hr [Hi|Hi].
  - elem_cases Hi; change (operand_count _) with 1 in Hb || change (operand_count _) with 2 in Hb.
    1-4: eapply run_body_1_raises; [done..|by compute_done|];
         apply dispatch_raises_1; auto with ls8; by compute_done.
    + by apply run_body_CALL_raises.
    + eapply run_body_2_raises; [done..|by compute_done|].
      apply dispatch_raises_LDI; auto with ls8.
    + eapply run_body_2_raises; [done..|by compute_done|].
      apply dispatch_raises_CMP; auto with ls8.
  - destruct (ALU_operand_count IR Hi) as [Hops|Hops]; rewrite Hops in Hb.
    + eapply run_body_1_raises; [done..|by apply ALU_not_control|].
      apply dispatch_raises_ALU; auto with ls8.
    + eapply run_body_2_raises; [done..|by apply ALU_not_control|].
      apply dispatch_raises_ALU; auto with ls8.
Qed.

(** The second operand byte is 8 or more on an instruction of two
    registers. *)
Lemma run_body_bad_reg_b s l IR :
  wf s → at_pc s IR → pc s + operand_count IR < 256 →
  is_reg (mem s (pc s + 1)) → 8 ≤ mem s (pc s + 2) →
  IR = CMP ∨ IR ∈ ALU_OP_LIST ∧ operand_count IR = 2 →
  raises IndexError (run_body l) s.
Proof.
  intros Hs Hat Hb Ha Hr [->|[Hi Hops]].
  - eapply run_body_2_raises; [done..|by compute_done|].
    apply dispatch_raises_CMP; auto with ls8.
  - rewrite Hops in Hb. eapply run_body_2_raises; [done..|by apply ALU_not_control|].
    apply dispatch_raises_ALU; eauto 6 with ls8.
Qed.

End RunRaises.

(** ** Claims on the loop *)

Section Claims.
Implicit Types (s : cpu) (l : locals) (n m fuel : nat) (IR : Z).

(** C11. The decoder reads as many operand bytes as the two top bits of the
    opcode say and advances the program counter past them; when the top
    bits are [11] it reads none and advances by one. *)
Theorem fetch_operands_pc s l IR :
  wf s → 0 ≤ pc s → pc s + 2 < 256 →
  fetch_operands IR l s =
  (Ok (if decide (operand_count IR = 2) then operands2 s
       else if decide (operand_count IR = 1) then operands1 s else l),
   set_pc (pc s + (if decide (operand_count IR = 3) then 1 else 1 + operand_count IR)) s).
Proof.
  intros Hs H0 H2. pose proof (operand_count_range IR).
  repeat case_decide; try lia.
  - rewrite fetch_operands_2 by done. do 3 f_equal. lia.
  - rewrite fetch_operands_1 by (done || lia). do 3 f_equal. lia.
  - by rewrite fetch_operands_0 by auto.
  - rewrite fetch_operands_0 by lia. do 3 f_equal. lia.
Qed.

Lemma fetch_operands_pc_witness :
  fetch_operands 192 unbound CPU_init =
  (Ok (if decide (operand_count 192 = 2) then operands2 CPU_init
       else if decide (operand_count 192 = 1) then operands1 CPU_init else unbound),
   set_pc (pc CPU_init +
           (if decide (operand_count 192 = 3) then 1 else 1 + operand_count 192)) CPU_init).
Proof. apply fetch_operands_pc; by compute_done. Defined.

(** A run that ended with some fuel ends the same way with more. *)
Theorem run_fuel_monotone n m s o :
  run n s = Some o → (n ≤ m)%nat → run m s = Some o.
Proof. apply run_from_mono. Qed.

Lemma run_fuel_monotone_witness :
  run 9 (booted [HLT]) = Some (Ok tt, set_pc 1 (booted [HLT])).
Proof. apply (run_fuel_monotone 1 9); by compute_done. Defined.

(** The answer of [run] does not depend on the fuel it was given, once it
    has one. *)
Theorem run_deterministic n m s o1 o2 :
  run n s = Some o1 → run m s = Some o2 → o1 = o2.
Proof. apply run_from_agree. Qed.

Lemma run_deterministic_witness :
  (Ok tt, set_pc 1 (booted [HLT])) = (Ok tt, set_pc (pc (booted [HLT]) + 1) (booted [HLT])).
Proof. apply (run_deterministic 1 2 (booted [HLT])); by compute_done. Defined.

(** C2. However a run ends, by HLT or by an exception, it ends with eight
    registers, 256 cells of memory and a flags register within three bits. *)
Theorem run_wf fuel s r s' : wf s → run fuel s = Some (r, s') → wf s'.
Proof. apply run_from_wf. Qed.

Lemma run_wf_witness : wf (set_pc 3 (booted [LDI; 9; 8])).
Proof.
  apply (run_wf 1 (booted [LDI; 9; 8]) (Raise IndexError)); by compute_done.
Defined.

(** Out of fuel means that many instructions were executed and the machine
    is still running. *)
Theorem run_out_of_fuel fuel s :
  run fuel s = None ↔ ∃ c, nsteps step fuel (unbound, s) c.
Proof. apply while_true_None. Qed.

(** HLT ends the run at once, and changes nothing but the program counter. *)
Theorem run_HLT fuel s :
  wf s → at_pc s HLT → run (S fuel) s = Some (Ok tt, set_pc (pc s + 1) s).
Proof. intros. apply run_from_break. by apply run_body_HLT. Qed.

Lemma run_HLT_witness :
  run 1 (booted [HLT]) = Some (Ok tt, set_pc (pc (booted [HLT]) + 1) (booted [HLT])).
Proof. apply run_HLT; by compute_done. Defined.

(** C30. A fetch outside the memory ends the run with [IndexError]: running off
    the end of the memory is not silent. *)
Theorem run_off_the_end fuel s :
  wf s → 256 ≤ pc s → run (S fuel) s = Some (Raise IndexError, s).
Proof.
  intros Hs Hpc. apply run_from_raise. apply run_body_pc_out_of_range; [done|lia].
Qed.

Lemma run_off_the_end_witness :
  run 1 (set_pc 256 CPU_init) = Some (Raise IndexError, set_pc 256 CPU_init).
Proof. apply run_off_the_end; by compute_done. Defined.

(** C5. CALL followed by RET at the target: two iterations later the program
    counter is at the instruction after the CALL, every register is as it
    was, and the return address is left in the cell below the stack. *)
Theorem call_ret_roundtrip s l :
  let r := mem s (pc s + 1) in
  wf s → at_pc s CALL → pc s + 1 < 256 → is_reg r → r ≠ SP →
  0 < R s SP ≤ 0xF4 →
  byte (R s r) → mem s (R s r) = RET → R s r ≠ R s SP - 1 →
  nsteps step 2 (l, s)
    (operands1 s, set_pc (pc s + 2) (write_mem (R s SP - 1) (pc s + 2) s)).
Proof.
  intros r Hs Hat Hpc Hr Hne Hsp Ht Hret Hcell.
  assert (byte (R s SP - 1)) as Hpush by (unfold byte; lia).
  eapply nsteps_l; [constructor; by apply run_body_CALL|].
  rewrite R_write_reg, decide_False by auto with ls8.
  set (s1 := set_pc _ _).
  assert (wf s1) as Hs1 by (subst s1; auto with ls8).
  assert (R s1 SP = R s SP - 1) as HSP
    by (subst s1; rewrite R_set_pc, R_write_mem, R_write_reg, decide_True; auto with ls8).
  assert (∀ a, byte a → mem s1 a = if decide (R s SP - 1 = a) then pc s + 2 else mem s a)
    as Hmem by (intros; subst s1; rewrite mem_set_pc, mem_write_mem; auto with ls8).
  eapply nsteps_l; [|apply nsteps_O]. constructor.
  rewrite run_body_RET; rewrite ?HSP; try done.
  - rewrite Hmem, !decide_True, Z.sub_add by (done || lia). f_equal. subst s1.
    change (write_reg SP (R s SP) (set_pc ?p (write_mem ?a ?v (write_reg SP ?w s))))
      with (set_pc p (write_mem a v (write_reg SP (R s SP) (write_reg SP w s)))).
    by rewrite write_reg_twice, write_reg_same by auto with ls8.
  - split; [done|]. fold r. rewrite Hmem, decide_False by done. done.
Qed.

Lemma call_ret_roundtrip_witness :
  let s := write_reg 1 4 (booted [CALL; 1; HLT; 0; RET]) in
  nsteps step 2 (unbound, s)
    (operands1 s, set_pc (pc s + 2) (write_mem (R s SP - 1) (pc s + 2) s)).
Proof.
  apply (call_ret_roundtrip (write_reg 1 4 (booted [CALL; 1; HLT; 0; RET])) unbound);
    by compute_done.
Defined.

End Claims.
