(* ===== verification/Footprint.v ===== *)
(** * Footprint.v: what each instruction may change, and what a run keeps

    The frame conditions of [Frame.v] carried through [CPU.dispatch] and
    [CPU.run] of [src/cpu.py].  [footprint IR] lists the parts of the
    state that an iteration of the loop may change when the opcode at
    [pc] is [IR]: the program counter always; registers and memory for
    PUSH and CALL; the registers for LDI, POP, RET and the ALU
    operations; the output for PRN; the flags for CMP.

    The theorems: an iteration changes nothing outside the footprint of
    its opcode, whether it continues, halts or raises
    ([run_body_footprint]); the footprint is exact, since each part it
    lists is changed by the instruction from some state
    ([footprint_tight]); a run changes at most the parts that the bytes
    of the memory, read as opcodes, have in their footprints, as long as
    the memory is not among them ([run_from_clobbers]); so the memory
    from which no PUSH and no CALL can be fetched is never written
    ([run_keeps_memory]); a run from a memory without jumps and pushes
    terminates within [257 - pc] instructions
    ([straight_line_terminates]).

    The output is the one part of which the footprint says too little:
    [printed s] is the text the iteration at [s] appends, the decimal
    value of a register and a line feed for a PRN whose operand names a
    register, and nothing in every other case; the output of a run is the
    output before it followed by what its iterations printed, in order
    ([run_output]). *)

From S2P Require Import Prelude Python Loop Opcodes Parser Alu Cpu Frame Dispatch Run.

#[local] Open Scope Z_scope.
#[local] Open Scope ls8_scope.

(** The opcodes that assign the program counter. *)
Definition JUMPS : list Z := [JMP; JEQ; JNE; CALL; RET].

(** The parts of the state the evaluation of the opcode [IR] may change,
    after the operands are read. *)
Definition effect (IR : Z) : list attr :=
  (if decide (IR ∈ JUMPS) then [Apc] else []) ++
  (if decide (IR ∈ [PUSH; CALL]) then [Areg; Aram]
   else if decide (IR ∈ [LDI; POP; RET] ++ ALU_OP_LIST) then [Areg]
   else if decide (IR = PRN) then [Aout]
   else if decide (IR = CMP) then [Afl]
   else []).

(** The parts of the state an iteration may change on the opcode [IR]:
    the decoder advances the program counter, then the opcode has its
    effect. *)
Definition footprint (IR : Z) : list attr := Apc :: effect IR.

(** The opcodes [run] does something for. *)
Definition OPCODES : list Z := [HLT; CALL; RET] ++ DISPATCHED.

(** The part [a] of [s'] is not that of [s]. *)
Definition changed (a : attr) (s s' : cpu) : bool :=
  match a with
  | Areg => bool_decide (reg s' ≠ reg s)
  | Apc => bool_decide (pc s' ≠ pc s)
  | Afl => bool_decide (fl s' ≠ fl s)
  | Aram => bool_decide (ram s' ≠ ram s)
  | Aout => bool_decide (stdout s' ≠ stdout s)
  end.

(** A state on which every instruction changes all of its footprint: the
    instruction [IR 1 2] at address 0, [R1 = 6], [R2 = 3], the stack
    pointer at [0xF0] and a 9 on top of the stack. *)
Definition probe (IR : Z) : cpu :=
  {| reg := [0; 6; 3; 0; 0; 0; 0; 0xF0]; pc := 0; fl := 0;
     ram := [IR; 1; 2] ++ replicate 237 0 ++ [9] ++ replicate 15 0;
     stdout := "" |}.

(** What the iteration at [s] prints: for PRN with an operand inside the
    memory that names a register, the decimal value of that register and
    a line feed; nothing otherwise. *)
Definition printed (s : cpu) : string :=
  match getitem (ram s) (pc s), getitem (ram s) (pc s + 1) with
  | Ok IR, Ok a =>
      if decide (IR = PRN) then
        match getitem (reg s) a with
        | Ok v => str v +:+ nl
        | Raise _ => EmptyString
        end
      else EmptyString
  | _, _ => EmptyString
  end.

(** What the iterations of a run from [s] print, one after the other. *)
Fixpoint transcript (fuel : nat) (l : locals) (s : cpu) : string :=
  match fuel with
  | O => EmptyString
  | S n =>
      printed s +:+
      match run_body l s with
      | (Ok (Continue l'), s') => transcript n l' s'
      | _ => EmptyString
      end
  end.

(** ** One iteration *)

Section Iteration.
Context (s0 : cpu).
Implicit Types (IR i : Z) (a b : option Z) (l : locals) (s : cpu).

#[export] Instance footprint_pc IR : Writes (footprint IR) Apc.
Proof. unfold Writes, footprint. apply elem_of_cons. by left. Qed.

Lemma effect_alu IR : is_Some (alu_switch IR) → Writes (effect IR) Areg.
Proof.
  rewrite <- ALU_DISPATCH_switch, ALU_DISPATCH_is_Some. intros Hin.
  unfold Writes, effect. repeat case_decide; set_solver.
Qed.

Lemma effect_footprint IR : effect IR ⊆ footprint IR.
Proof. unfold footprint. set_solver. Qed.

#[export] Instance pc_add_clobbers F `{!Writes F Apc} n :
  Preserves (clobbers F s0) (pc_add n).
Proof. unfold pc_add. apply _. Qed.

#[export] Instance local_clobbers F {A} (x : option A) :
  Preserves (clobbers F s0) (local x).
Proof. destruct x; apply _. Qed.

#[export] Instance fetch_operands_clobbers F `{!Writes F Apc} IR l :
  Preserves (clobbers F s0) (fetch_operands IR l).
Proof. unfold fetch_operands. frame_tac. Qed.

#[export] Instance dispatch_effect i a b :
  Preserves (clobbers (effect i) s0) (dispatch i a b).
Proof.
  rewrite dispatch_unfold. unfold handler_switch.
  repeat case_decide; subst; [destruct a, b; simpl; apply _..|].
  destruct (alu_switch i) eqn:E; [|apply _]. destruct a; [|apply _].
  pose proof (effect_alu i (mk_is_Some _ _ E)). apply _.
Qed.

#[export] Instance evaluate_effect IR l :
  Preserves (clobbers (effect IR) s0) (evaluate IR l).
Proof. unfold evaluate. repeat case_decide; subst; apply _. Qed.

End Iteration.

#[export] Instance evaluate_footprint s0 IR l :
  Preserves (clobbers (footprint IR) s0) (evaluate IR l).
Proof. apply (preserves_weaken (effect IR)); [apply effect_footprint|apply _]. Qed.

(** The iteration, by the opcode read at [pc]. *)
Lemma run_body_opcode l s :
  run_body l s =
  match getitem (ram s) (pc s) with
  | Ok IR => (fetch_operands IR l ≫= evaluate IR) s
  | Raise e => (Raise e, s)
  end.
Proof. unfold run_body, ram_read. munfold. by destruct (getitem (ram s) (pc s)). Qed.

Lemma run_body_frame l s IR :
  getitem (ram s) (pc s) = Ok IR → clobbers (footprint IR) s (exec (run_body l) s).
Proof.
  intros E. unfold exec. rewrite run_body_opcode, E.
  apply (frame _ (fetch_operands IR l ≫= evaluate IR)). apply _.
Qed.

(** An iteration keeps a frame that holds the footprint of every opcode
    it can meet. *)
Lemma run_body_clobbers F s0 l :
  (∀ s IR, clobbers F s0 s → getitem (ram s) (pc s) = Ok IR → footprint IR ⊆ F) →
  Preserves (clobbers F s0) (run_body l).
Proof.
  intros HF s Hs. destruct (getitem (ram s) (pc s)) as [IR|e] eqn:E.
  - etrans; [done|]. eapply clobbers_weaken; [by eapply HF|]. by apply run_body_frame.
  - unfold exec. by rewrite run_body_opcode, E.
Qed.

(** ** Whole runs *)

Section Runs.
Implicit Types (IR : Z) (l : locals) (s : cpu) (F : list attr) (fuel : nat).

(** A run keeps a frame without the memory that holds the footprint of
    every byte of the memory. *)
Lemma run_from_clobbers F fuel l s r s' :
  Aram ∉ F → Forall (λ IR, footprint IR ⊆ F) (ram s) →
  run_from fuel l s = Some (r, s') → clobbers F s s'.
Proof.
  intros Hram Hall. apply (while_true_invariant run_body (clobbers F s)); [|done].
  intros l1. apply run_body_clobbers. intros s1 IR Hs1 (k & _ & Hk)%getitem_Ok.
  rewrite (keeps_ram _ _ _ Hs1 Hram) in Hk.
  by eapply (Forall_lookup_1 _ _ _ _ Hall).
Qed.

Lemma footprint_no_write IR : IR ∉ [PUSH; CALL] → footprint IR ⊆ [Areg; Apc; Afl; Aout].
Proof.
  intros H. unfold footprint, effect. rewrite (decide_False (P := IR ∈ [PUSH; CALL])) by done.
  repeat case_decide; set_solver.
Qed.

Lemma run_from_keeps_memory fuel l s r s' :
  PUSH ∉ ram s → CALL ∉ ram s → run_from fuel l s = Some (r, s') → ram s' = ram s.
Proof.
  intros HP HC Hrun. apply (keeps_ram [Areg; Apc; Afl; Aout]); [|by compute_done].
  apply (run_from_clobbers _ fuel l s r); [by compute_done| |done].
  apply Forall_forall. intros IR HIR. apply footprint_no_write. set_solver.
Qed.

Lemma probe_changes :
  Forall (λ IR, Forall (λ a, changed a (probe IR) (exec (run_body unbound) (probe IR)) = true)
                       (footprint IR)) OPCODES.
Proof. by compute_done. Qed.

End Runs.

(** ** Straight-line code *)

Section Straight.
Implicit Types (IR : Z) (l : locals) (s : cpu) (fuel m : nat).

(** The decoder moves the program counter forward, by at most 3. *)
Lemma fetch_operands_advances IR l s l' s1 :
  fetch_operands IR l s = (Ok l', s1) → pc s < pc s1 ≤ pc s + 3.
Proof.
  unfold fetch_operands, ram_read, pc_add. munfold.
  repeat case_decide; repeat destruct (getitem _ _); intros; simplify_eq; simpl; lia.
Qed.

(** An opcode that is no jump leaves the program counter where the
    decoder put it. *)
Lemma evaluate_keeps_pc IR l s : IR ∉ JUMPS → pc (exec (evaluate IR l) s) = pc s.
Proof.
  intros HIR. apply (keeps_pc (effect IR)); [apply frame; apply _|].
  unfold effect. rewrite (decide_False (P := IR ∈ JUMPS)) by done.
  repeat case_decide; set_solver.
Qed.

Lemma run_body_advances IR l s l' s' :
  getitem (ram s) (pc s) = Ok IR → IR ∉ JUMPS →
  run_body l s = (Ok (Continue l'), s') → pc s < pc s' ≤ pc s + 3.
Proof.
  intros E HIR. rewrite run_body_opcode, E.
  intros (l1 & s1 & Hfetch%fetch_operands_advances & Heval)%bind_Ok_inv.
  pose proof (evaluate_keeps_pc IR l1 s1 HIR) as Hpc. unfold exec in Hpc.
  rewrite Heval in Hpc. simpl in Hpc. lia.
Qed.

(** With no jump and no push in memory, a run ends before the program
    counter has passed the memory. *)
Lemma run_from_straight m l s :
  wf s → Forall (λ IR, IR ∉ PUSH :: JUMPS) (ram s) → 0 ≤ pc s → 256 - pc s ≤ Z.of_nat m →
  is_Some (run_from (S m) l s).
Proof.
  revert l s. induction m as [|m IH]; intros l s Hs Hram H0 Hm; rewrite run_from_S;
    destruct (run_body l s) as [[[|l']|e] s'] eqn:Hb; try done.
  all: destruct (getitem (ram s) (pc s)) as [IR|e] eqn:E;
    [|by rewrite run_body_opcode, E in Hb].
  all: pose proof (proj1 (getitem_Ok _ _ _) E) as (k & Hk%py_index_lt & Hin%list_elem_of_lookup_2).
  all: pose proof (proj1 (Forall_forall _ _) Hram IR Hin) as HIR.
  all: pose proof (run_body_advances IR l s l' s' E ltac:(set_solver) Hb).
  { apply getitem_Ok in E as (k' & Hk' & _). apply py_index_Some in Hk'.
    rewrite (wf_ram _ Hs) in Hk'. lia. }
  pose proof (run_body_wf l s Hs) as Hs'. pose proof (run_body_frame l s IR E) as Hf.
  unfold exec in Hs', Hf. rewrite Hb in Hs', Hf. simpl in Hs', Hf.
  apply IH; [done| |lia..].
  rewrite (keeps_ram [Areg; Apc; Afl; Aout] s s'); [done| |by compute_done].
  eapply clobbers_weaken; [apply footprint_no_write|done]. set_solver.
Qed.

End Straight.

(** ** What a run prints *)

Section Output.
Implicit Types (s : cpu) (l : locals) (IR : Z) (fuel : nat).

Lemma printed_other s IR :
  getitem (ram s) (pc s) = Ok IR → IR ≠ PRN → printed s = EmptyString.
Proof.
  intros E Hne. unfold printed. rewrite E.
  destruct (getitem _ (pc s + 1)); [|done]. by rewrite decide_False.
Qed.

Lemma run_body_PRN_prints l s :
  getitem (ram s) (pc s) = Ok PRN →
  stdout (exec (run_body l) s) = stdout s +:+ printed s.
Proof.
  intros E. unfold exec, printed. rewrite run_body_opcode, E.
  unfold fetch_operands. change (operand_count PRN) with 1.
  rewrite (decide_False (P := 1 = 2)), !decide_True by done.
  unfold ram_read, pc_add. munfold. simpl.
  destruct (getitem (ram s) (pc s + 1)) as [a|e] eqn:Ea; simpl; [|by rewrite append_nil_r].
  unfold evaluate. rewrite !decide_False by done. munfold. simpl.
  rewrite dispatch_unfold. simpl. unfold print_foo, reg_get, print. munfold. simpl.
  destruct (getitem (reg s) a); simpl; [done|by rewrite append_nil_r].
Qed.

Lemma run_body_prints l s : stdout (exec (run_body l) s) = stdout s +:+ printed s.
Proof.
  destruct (getitem (ram s) (pc s)) as [IR|e] eqn:E.
  - destruct (decide (IR = PRN)) as [->|Hne]; [by apply run_body_PRN_prints|].
    rewrite (printed_other s IR), append_nil_r by done.
    apply (keeps_out (footprint IR)); [by apply run_body_frame|].
    unfold footprint, effect. repeat case_decide; set_unfold; naive_solver.
  - unfold exec, printed. by rewrite run_body_opcode, E, append_nil_r.
Qed.

Lemma run_from_prints fuel l s r s' :
  run_from fuel l s = Some (r, s') → stdout s' = stdout s +:+ transcript fuel l s.
Proof.
  revert l s. induction fuel as [|n IH]; intros l s; [done|]. rewrite run_from_S.
  pose proof (run_body_prints l s) as Hp. unfold exec in Hp. simpl.
  destruct (run_body l s) as [[[|l']|e] s1]; simpl in Hp.
  - intros [= <- <-]. by rewrite append_nil_r.
  - intros ->%IH. by rewrite Hp, append_assoc.
  - intros [= <- <-]. by rewrite append_nil_r.
Qed.

End Output.

(** ** Claims *)

Section Claims.
Implicit Types (IR : Z) (a : attr) (l : locals) (s : cpu) (fuel : nat) (r : result unit).

(** C23. An iteration of the loop changes nothing outside the footprint of the
    opcode at [pc], whether it continues, halts or raises: only PUSH and
    CALL write memory, only PRN prints, only CMP changes the flags, and
    JMP, JEQ, JNE, HLT and the opcodes without behaviour change the
    program counter only. *)
Theorem run_body_footprint l s IR :
  getitem (ram s) (pc s) = Ok IR → clobbers (footprint IR) s (exec (run_body l) s).
Proof. apply run_body_frame. Qed.

Lemma run_body_footprint_witness :
  clobbers (footprint PRN) (probe PRN) (exec (run_body unbound) (probe PRN)).
Proof. by apply run_body_footprint. Defined.

(** C28. The footprint is exact: every part in the footprint of an opcode
    that [run] does something for is changed by the instruction from
    some state. *)
Theorem footprint_tight IR a :
  IR ∈ OPCODES → a ∈ footprint IR →
  ∃ s, getitem (ram s) (pc s) = Ok IR ∧ changed a s (exec (run_body unbound) s) = true.
Proof.
  intros HIR Ha. exists (probe IR). split; [done|].
  pose proof probe_changes as H. rewrite Forall_forall in H.
  specialize (H IR HIR). rewrite Forall_forall in H. by apply H.
Qed.

Lemma footprint_tight_witness :
  ∃ s, getitem (ram s) (pc s) = Ok PUSH ∧ changed Aram s (exec (run_body unbound) s) = true.
Proof. apply footprint_tight; by compute_done. Defined.

(** Straight-line code terminates: when the memory holds no byte of a
    jump (JMP, JEQ, JNE, CALL, RET) and no byte of PUSH, a run from a
    program counter at or above 0 ends within [257 - pc] instructions, by
    HLT or by an exception; every instruction moves the program counter
    forward and past the last cell the fetch raises. *)
Theorem straight_line_terminates s :
  wf s → 0 ≤ pc s → Forall (λ IR, IR ∉ PUSH :: JUMPS) (ram s) →
  is_Some (run (S (Z.to_nat (256 - pc s))) s).
Proof. intros Hs H0 Hram. apply run_from_straight; [done..|lia]. Qed.

Lemma straight_line_terminates_witness :
  is_Some (run (S (Z.to_nat (256 - pc (booted [LDI; 0; 8; PRN; 0])))) (booted [LDI; 0; 8; PRN; 0])).
Proof. apply straight_line_terminates; by compute_done. Defined.

(** Memory safety of the program text: when the memory holds neither the
    byte of PUSH nor the byte of CALL, no run writes a cell of it, however
    the run ends. *)
Theorem run_keeps_memory fuel s r s' :
  PUSH ∉ ram s → CALL ∉ ram s → run fuel s = Some (r, s') → ram s' = ram s.
Proof. apply run_from_keeps_memory. Qed.

Lemma run_keeps_memory_witness :
  ram (mkCPU [8; 0; 0; 0; 0; 0; 0; 0xF4] 6 0 (ram (booted [LDI; 0; 8; PRN; 0; HLT])) ("8" +:+ nl))
  = ram (booted [LDI; 0; 8; PRN; 0; HLT]).
Proof.
  apply (run_keeps_memory 3 (booted [LDI; 0; 8; PRN; 0; HLT]) (Ok tt)); by compute_done.
Defined.

(** C29. What a run prints: however the run ends, the output after it is
    the output before it followed by the text of its iterations in
    order, where an iteration at PRN whose operand lies inside the memory
    and names a register prints the decimal value of that register and a
    line feed, once, and every other iteration prints nothing. *)
Theorem run_output fuel s r s' :
  run fuel s = Some (r, s') → stdout s' = stdout s +:+ transcript fuel unbound s.
Proof. apply run_from_prints. Qed.

Lemma run_output_witness :
  stdout (mkCPU [8; 9; 0; 0; 0; 0; 0; 0xF4] 11 0
            (ram (booted [LDI; 0; 8; LDI; 1; 9; PRN; 1; PRN; 0; HLT]))
            ("9" +:+ nl +:+ "8" +:+ nl))
  = stdout (booted [LDI; 0; 8; LDI; 1; 9; PRN; 1; PRN; 0; HLT]) +:+
    transcript 5 unbound (booted [LDI; 0; 8; LDI; 1; 9; PRN; 1; PRN; 0; HLT]).
Proof.
  apply (run_output 5 (booted [LDI; 0; 8; LDI; 1; 9; PRN; 1; PRN; 0; HLT]) (Ok tt)).
  by vm_compute.
Defined.

End Claims.
