(* ===== verification/Stack.v ===== *)
(** * Stack.v: the stack as a list

    The stack of [src/cpu.py] is the part of the memory from the address in
    [R7] up to, and not including, [0xF4], where [R7] starts: [push_mdr]
    decrements [R7] and writes, [pop_mdr] reads and increments [R7] while
    it is below [0xF4].  [stack_of] reads that part of the memory as a
    list, top first.  This file shows that the two methods implement a
    stack on that list: a push puts its value in front, a pop takes the
    first value off, and a pop on the empty stack returns the cell at
    [0xF4] and leaves the stack empty.  The stack holds at most 244
    values: with [R7 = 0] the next push goes to cell 255 ([push_wraps] of
    [Cpu.v]).

    The theorems: the depth of the stack; the refinement of push and pop;
    last in, first out for any number of pushes followed by as many pops;
    what CALL and RET do to the stack. *)

From S2P Require Import Prelude Python Loop Opcodes Alu Cpu Dispatch Run.

#[local] Open Scope Z_scope.
#[local] Open Scope ls8_scope.

(** The cells from the stack pointer up to [0xF4], top first. *)
Definition stack_of (s : cpu) : list Z :=
  take (Z.to_nat (0xF4 - R s SP)) (drop (Z.to_nat (R s SP)) (ram s)).

(** The stack pointer is where a stack of some depth leaves it. *)
Definition stack_ok (s : cpu) : Prop := wf s ∧ 0 ≤ R s SP ≤ 0xF4.

#[export] Instance stack_ok_dec s : Decision (stack_ok s).
Proof. unfold stack_ok. apply _. Defined.

(** Pop on a list; [bottom] is what the empty stack gives. *)
Definition pop_spec (bottom : Z) (st : list Z) : Z * list Z :=
  match st with
  | [] => (bottom, [])
  | v :: st => (v, st)
  end.

(** The state after a push of [v]. *)
Definition pushed (v : Z) (s : cpu) : cpu :=
  write_mem (R s SP - 1) v (write_reg SP (R s SP - 1) s).

(** The state after a pop. *)
Definition popped (s : cpu) : cpu :=
  if decide (R s SP < 0xF4) then write_reg SP (R s SP + 1) s else s.

(** [push_mdr] for each value of a list, in order. *)
Fixpoint push_all (vs : list Z) : M cpu unit :=
  match vs with
  | [] => mret tt
  | v :: vs => push_mdr v;; push_all vs
  end.

(** [pop_mdr] [n] times; the values in the order they came off. *)
Fixpoint pop_n (n : nat) : M cpu (list Z) :=
  match n with
  | O => mret []
  | S n => v ← pop_mdr; vs ← pop_n n; mret (v :: vs)
  end.

(** ** The list behind the stack pointer *)

Section View.
Implicit Types (s : cpu) (v : Z) (st vs : list Z).

Lemma stack_of_length s :
  stack_ok s → length (stack_of s) = Z.to_nat (0xF4 - R s SP).
Proof.
  intros [[_ Hram _] Hsp]. unfold stack_of.
  rewrite length_take, length_drop, Hram. lia.
Qed.

Lemma stack_of_empty s : R s SP = 0xF4 → stack_of s = [].
Proof. intros Hsp. unfold stack_of. by rewrite Hsp. Qed.

Lemma stack_of_set_pc s v : stack_of (set_pc v s) = stack_of s.
Proof. done. Qed.

(** Below [0xF4] the top of the stack is the cell at the stack pointer. *)
Lemma stack_of_cons s :
  stack_ok s → R s SP < 0xF4 →
  stack_of s = mem s (R s SP) :: stack_of (write_reg SP (R s SP + 1) s).
Proof.
  intros [Hs Hsp] Hlt. unfold stack_of at 1.
  destruct (lookup_lt_is_Some_2 (ram s) (Z.to_nat (R s SP))) as [x Hx];
    [rewrite (wf_ram _ Hs); lia|].
  rewrite (drop_S _ _ _ Hx).
  replace (Z.to_nat (0xF4 - R s SP)) with (S (Z.to_nat (0xF4 - (R s SP + 1)))) by lia.
  unfold stack_of, mem. rewrite Hx, R_write_reg, decide_True by auto with ls8.
  cbn [firstn]. do 3 f_equal. lia.
Qed.

Lemma stack_ok_pushed s v : stack_ok s → 0 < R s SP → stack_ok (pushed v s).
Proof.
  intros [Hs Hsp] Hpos. split; [unfold pushed; auto with ls8|].
  unfold pushed. rewrite R_write_mem, R_write_reg, decide_True by auto with ls8. lia.
Qed.

Lemma stack_ok_popped s : stack_ok s → stack_ok (popped s).
Proof.
  intros [Hs Hsp]. unfold popped. case_decide; [|done].
  split; [auto with ls8|]. rewrite R_write_reg, decide_True by auto with ls8. lia.
Qed.

(** A push puts its value in front. *)
Lemma stack_of_pushed s v :
  stack_ok s → 0 < R s SP → stack_of (pushed v s) = v :: stack_of s.
Proof.
  intros [Hs Hsp] Hpos. pose proof (stack_ok_pushed s v (conj Hs Hsp) Hpos) as Hok.
  assert (R (pushed v s) SP = R s SP - 1) as E
    by (unfold pushed; rewrite R_write_mem, R_write_reg, decide_True; auto with ls8).
  rewrite (stack_of_cons (pushed v s)), E by (done || lia). f_equal.
  - unfold pushed. rewrite mem_write_mem, decide_True; auto with ls8; unfold byte; lia.
  - rewrite Z.sub_add. unfold pushed.
    rewrite write_reg_write_mem, write_reg_twice, write_reg_same by auto with ls8.
    unfold stack_of. rewrite R_write_mem. unfold write_mem. cbn [ram set_ram].
    by rewrite drop_insert_lt by lia.
Qed.

(** A pop takes the first value off; on the empty stack it takes the cell
    at [0xF4] and leaves the stack empty. *)
Lemma stack_of_popped s :
  stack_ok s →
  (mem s (R s SP), stack_of (popped s)) = pop_spec (mem s 0xF4) (stack_of s).
Proof.
  intros Hok. pose proof Hok as [Hs Hsp]. unfold popped. case_decide.
  - by rewrite (stack_of_cons s) by done.
  - assert (R s SP = 0xF4) as E by lia. by rewrite (stack_of_empty s), E.
Qed.

End View.

(** ** The methods on the list *)

Section Methods.
Implicit Types (s : cpu) (v : Z) (st vs : list Z) (l : locals).

Lemma R_pushed s v : stack_ok s → R (pushed v s) SP = R s SP - 1.
Proof.
  intros [Hs _]. unfold pushed. rewrite R_write_mem, R_write_reg, decide_True; auto with ls8.
Qed.

Lemma ram_popped s : ram (popped s) = ram s.
Proof. unfold popped. by case_decide. Qed.

Lemma push_mdr_pushed s v :
  stack_ok s → 0 < R s SP → push_mdr v s = (Ok tt, pushed v s).
Proof. intros [Hs Hsp] Hpos. apply push_mdr_ok; [done|unfold byte; lia]. Qed.

Lemma pop_mdr_popped s : stack_ok s → pop_mdr s = (Ok (mem s (R s SP)), popped s).
Proof. intros [Hs Hsp]. apply pop_mdr_ok; [done|unfold byte; lia]. Qed.

(** Pushes pile up in reverse. *)
Lemma push_all_stack vs s :
  stack_ok s → Z.of_nat (length vs) ≤ R s SP →
  ∃ s', push_all vs s = (Ok tt, s') ∧ stack_ok s' ∧ stack_of s' = rev vs ++ stack_of s.
Proof.
  revert s. induction vs as [|v vs IH]; intros s Hok Hlen; [by exists s|].
  simpl in Hlen. destruct (IH (pushed v s)) as (s' & Hrun & Hok' & Hst).
  { apply stack_ok_pushed; [done|lia]. }
  { rewrite R_pushed by done. lia. }
  exists s'. split_and!; [|done|].
  - simpl. by erewrite bind_Ok by (apply push_mdr_pushed; [done|lia]).
  - rewrite Hst, stack_of_pushed by (done || lia). simpl. by rewrite <- app_assoc.
Qed.

(** Pops take a prefix of the stack off, in order, and write nothing. *)
Lemma pop_n_stack vs st s :
  stack_ok s → stack_of s = vs ++ st →
  ∃ s', pop_n (length vs) s = (Ok vs, s') ∧ stack_ok s' ∧ stack_of s' = st ∧
        ram s' = ram s.
Proof.
  revert s. induction vs as [|v vs IH]; intros s Hok Hst; [by exists s|].
  pose proof (stack_of_popped s Hok) as Hpop. rewrite Hst in Hpop.
  injection Hpop as Hv Hrest.
  destruct (IH (popped s)) as (s' & Hrun & Hok' & Hst' & Hram);
    [by apply stack_ok_popped|done|].
  exists s'. split_and!; [|done|done|by rewrite Hram, ram_popped].
  simpl. erewrite bind_Ok by by apply pop_mdr_popped.
  erewrite bind_Ok by done. by rewrite Hv.
Qed.

End Methods.

(** ** Claims *)

Section Claims.
Implicit Types (s : cpu) (v : Z) (st vs : list Z) (l : locals).

(** The depth of the stack is the distance of the stack pointer from
    [0xF4].  A new machine has an empty stack, and the stack holds at most
    244 values. *)
Theorem stack_depth s :
  stack_ok s →
  Z.of_nat (length (stack_of s)) = 0xF4 - R s SP ∧ (length (stack_of s) ≤ 244)%nat.
Proof. intros Hok. pose proof Hok as [_ ?]. rewrite stack_of_length by done. lia. Qed.

Lemma stack_depth_witness :
  Z.of_nat (length (stack_of CPU_init)) = 0xF4 - R CPU_init SP ∧
  (length (stack_of CPU_init) ≤ 244)%nat.
Proof. apply stack_depth. by compute_done. Defined.

(** C18. [push_mdr] implements push on the list: with room left, it returns
    without an exception and the stack is the old one with the value in
    front. *)
Theorem push_mdr_refines s v :
  stack_ok s → 0 < R s SP →
  ∃ s', push_mdr v s = (Ok tt, s') ∧ stack_ok s' ∧ stack_of s' = v :: stack_of s.
Proof.
  intros Hok Hpos. exists (pushed v s).
  by rewrite push_mdr_pushed, stack_of_pushed; [split_and!; [|apply stack_ok_pushed|]|..].
Qed.

Lemma push_mdr_refines_witness :
  ∃ s', push_mdr 42 CPU_init = (Ok tt, s') ∧ stack_ok s' ∧
        stack_of s' = 42 :: stack_of CPU_init.
Proof. apply push_mdr_refines; by compute_done. Defined.

(** C19. [pop_mdr] implements pop on the list: it returns the first value and
    leaves the rest; on the empty stack it returns the cell at [0xF4] and
    the stack stays empty.  It never raises and writes no memory. *)
Theorem pop_mdr_refines s :
  stack_ok s →
  ∃ s', pop_mdr s = (Ok (pop_spec (mem s 0xF4) (stack_of s)).1, s') ∧ stack_ok s' ∧
        stack_of s' = (pop_spec (mem s 0xF4) (stack_of s)).2 ∧ ram s' = ram s.
Proof.
  intros Hok. exists (popped s). rewrite <- (stack_of_popped s Hok).
  split_and!; [by apply pop_mdr_popped|by apply stack_ok_popped|done|apply ram_popped].
Qed.

Lemma pop_mdr_refines_witness :
  ∃ s', pop_mdr (pushed 42 CPU_init)
        = (Ok (pop_spec (mem (pushed 42 CPU_init) 0xF4) (stack_of (pushed 42 CPU_init))).1, s') ∧
        stack_ok s' ∧
        stack_of s' = (pop_spec (mem (pushed 42 CPU_init) 0xF4) (stack_of (pushed 42 CPU_init))).2 ∧
        ram s' = ram (pushed 42 CPU_init).
Proof. apply pop_mdr_refines. by compute_done. Defined.

(** C17. Last in, first out: any number of pushes that fit, followed by as many
    pops, returns the values in reverse order and leaves the stack and the
    stack pointer as they were. *)
Theorem stack_lifo vs s :
  stack_ok s → Z.of_nat (length vs) ≤ R s SP →
  ∃ s', (push_all vs;; pop_n (length vs)) s = (Ok (rev vs), s') ∧
        stack_of s' = stack_of s ∧ R s' SP = R s SP.
Proof.
  intros Hok Hlen. destruct (push_all_stack vs s Hok Hlen) as (s1 & Hpush & Hok1 & Hst1).
  destruct (pop_n_stack (rev vs) (stack_of s) s1 Hok1 Hst1) as (s' & Hpop & Hok' & Hst' & _).
  exists s'. rewrite length_rev in Hpop. split_and!; [by erewrite bind_Ok by done|done|].
  pose proof (stack_of_length s Hok) as H1. pose proof (stack_of_length s' Hok') as H2.
  rewrite Hst' in H2. destruct Hok as [_ ?], Hok' as [_ ?]. lia.
Qed.

Lemma stack_lifo_witness :
  ∃ s', (push_all [1; 2; 3];; pop_n (length [1; 2; 3])) CPU_init = (Ok (rev [1; 2; 3]), s') ∧
        stack_of s' = stack_of CPU_init ∧ R s' SP = R CPU_init SP.
Proof. apply stack_lifo; by compute_done. Defined.

(** CALL puts the address of the next instruction on top of the stack. *)
Theorem call_pushes_return s l :
  stack_ok s → at_pc s CALL → pc s + 1 < 256 → is_reg (mem s (pc s + 1)) → 0 < R s SP →
  stack_of (exec (run_body l) s) = (pc s + 2) :: stack_of s.
Proof.
  intros Hok Hat H1 Hr Hpos. pose proof Hok as [Hs Hsp]. unfold exec.
  rewrite run_body_CALL by (done || unfold byte; lia).
  by apply (stack_of_pushed s (pc s + 2)).
Qed.

Lemma call_pushes_return_witness :
  stack_of (exec (run_body unbound) (booted [CALL; 0]))
  = (pc (booted [CALL; 0]) + 2) :: stack_of (booted [CALL; 0]).
Proof. apply call_pushes_return; by compute_done. Defined.

(** RET takes the top of the stack as the program counter: it returns to
    the instruction after the CALL that has not returned yet.  With an
    empty stack it jumps to whatever the cell at [0xF4] holds. *)
Theorem ret_pops_return s l :
  stack_ok s → at_pc s RET →
  (pc (exec (run_body l) s), stack_of (exec (run_body l) s))
  = pop_spec (mem s 0xF4) (stack_of s).
Proof.
  intros Hok Hat. pose proof Hok as [Hs Hsp]. unfold exec.
  rewrite run_body_RET by (done || unfold byte; lia).
  by apply (stack_of_popped s).
Qed.

Lemma ret_pops_return_witness :
  (pc (exec (run_body unbound) (pushed 5 (booted [RET]))),
   stack_of (exec (run_body unbound) (pushed 5 (booted [RET]))))
  = pop_spec (mem (pushed 5 (booted [RET])) 0xF4) (stack_of (pushed 5 (booted [RET]))).
Proof. apply ret_pops_return; by compute_done. Defined.

End Claims.
