(* ===== verification/Exceptions.v ===== *)
(** * Exceptions.v: the exceptions a run can end with

    Every method of [src/cpu.py] is given its type of failures in the sense
    of [Throws]: the subscripts of [self.reg] and [self.ram] raise
    [IndexError] and nothing else, the lambdas of the ALU add
    [ZeroDivisionError] and [ValueError], reading a local of [run] before
    an instruction bound it adds [UnboundLocalError].  The types compose
    through [bind], the dispatcher and the loop, and give the theorem of
    this file: [run] never ends with [TypeError], nor with the
    [Exception] that [alu] raises for an opcode outside its table, because
    the decoder always reads as many operands as the handler of the opcode
    takes.  The type is exact: each of the four exceptions is raised by
    some program. *)

From S2P Require Import Prelude Python Loop Opcodes Alu Cpu Trace Dispatch Run.

#[local] Open Scope Z_scope.
#[local] Open Scope ls8_scope.

(** The exceptions of the arithmetic: [a % 0], and a shift by a negative
    count. *)
Definition ARITHMETIC_ERRORS : list exn := [ZeroDivisionError; ValueError].

(** The exceptions [run] can end with. *)
Definition RUN_ERRORS : list exn :=
  [IndexError; ZeroDivisionError; ValueError; UnboundLocalError].

Definition run_error (e : exn) : Prop := e ∈ RUN_ERRORS.

#[export] Instance run_error_dec e : Decision (run_error e).
Proof. unfold run_error. apply _. Defined.

(** The operands the decoder hands to an instruction agree with its opcode:
    two integers for the top bits [10], an integer and [None] for [01]. *)
Definition fetched (IR : Z) (l : locals) : Prop :=
  (operand_count IR = 2 → ∃ a b, l = {| loc_a := Some a; loc_b := Some (Some b) |}) ∧
  (operand_count IR = 1 → ∃ a, l = {| loc_a := Some a; loc_b := Some None |}).

(** [b] is [None] exactly when the opcode [i] takes one operand. *)
Definition arity_ok (i : Z) (b : option Z) : Prop :=
  (operand_count i = 2 → is_Some b) ∧ (operand_count i = 1 → b = None).

(** ** Subscripts raise [IndexError] *)

Section Subscripts.
Context (E : exn → Prop) `{!Allows E IndexError}.
Implicit Types (l : list Z) (i r v a b mar mdr : Z).

#[export] Instance getitem_throws l i : Throws E (lift (getitem l i) : M cpu Z).
Proof.
  apply lift_throws. intros e. unfold getitem, result_of_option.
  destruct (_ ≫= _); by intros [= <-].
Qed.

#[export] Instance setitem_throws l i v :
  Throws E (lift (setitem l i v) : M cpu (list Z)).
Proof.
  apply lift_throws. intros e. unfold setitem.
  destruct (py_index _ _); by intros [= <-].
Qed.

#[export] Instance reg_get_throws r : Throws E (reg_get r).
Proof. unfold reg_get. apply _. Qed.

#[export] Instance reg_set_throws r v : Throws E (reg_set r v).
Proof. unfold reg_set. apply _. Qed.

#[export] Instance ram_read_throws mar : Throws E (ram_read mar).
Proof. unfold ram_read. apply _. Qed.

#[export] Instance ram_write_throws mar mdr : Throws E (ram_write mar mdr).
Proof. unfold ram_write. apply _. Qed.

#[export] Instance print_throws line : Throws E (print line).
Proof. unfold print. apply _. Qed.

#[export] Instance load_loop_throws program a : Throws E (load_loop program a).
Proof. revert a. induction program; intros a'; simpl; apply _. Qed.

#[export] Instance load_throws program : Throws E (load program).
Proof. destruct program; simpl; apply _. Qed.

#[export] Instance push_mdr_throws mdr : Throws E (push_mdr mdr).
Proof. unfold push_mdr. apply _. Qed.

#[export] Instance pop_mdr_throws : Throws E pop_mdr.
Proof. unfold pop_mdr. apply _. Qed.

#[export] Instance push_from_reg_throws r : Throws E (push_from_reg r).
Proof. unfold push_from_reg. apply _. Qed.

#[export] Instance pop_to_reg_throws r : Throws E (pop_to_reg r).
Proof. unfold pop_to_reg. apply _. Qed.

#[export] Instance ldi_foo_throws a b : Throws E (ldi_foo a b).
Proof. unfold ldi_foo. apply _. Qed.

#[export] Instance print_foo_throws a : Throws E (print_foo a).
Proof. unfold print_foo. apply _. Qed.

#[export] Instance jmp_foo_throws a : Throws E (jmp_foo a).
Proof. unfold jmp_foo. apply _. Qed.

#[export] Instance jeq_foo_throws a : Throws E (jeq_foo a).
Proof. unfold jeq_foo. apply _. Qed.

#[export] Instance jne_foo_throws a : Throws E (jne_foo a).
Proof. unfold jne_foo. apply _. Qed.

(** The flag updates of [cmp_foo] call the lambdas of OR and AND with two
    arguments each: the calls cannot fail. *)
#[export] Instance cmp_foo_throws a b : Throws E (cmp_foo a b).
Proof.
  unfold cmp_foo, fl_update. rewrite !ALU_DISPATCH_switch. unfold alu_switch. simpl.
  apply _.
Qed.

#[export] Instance write_throws text : Throws E (write text).
Proof. unfold write. apply _. Qed.

#[export] Instance trace_regs_throws range : Throws E (trace_regs range).
Proof. induction range; simpl; apply _. Qed.

#[export] Instance trace_throws : Throws E trace.
Proof. unfold trace. apply _. Qed.

End Subscripts.

(** ** The ALU adds the exceptions of the arithmetic *)

Section Arithmetic.
Context (E : exn → Prop).
Context `{!Allows E IndexError, !Allows E ZeroDivisionError, !Allows E ValueError}.
Implicit Types (op i r x y : Z) (a b : option Z) (foo : lambda).

(** A lambda of the table called with as many arguments as the operand
    count of its opcode. *)
Lemma call_arity_2 op foo x y e :
  alu_switch op = Some foo → operand_count op = 2 →
  call (Some foo) [x; y] = Raise e → e ∈ ARITHMETIC_ERRORS.
Proof.
  destruct (decide (op ∈ ALU_OP_LIST)) as [Hin|Hout]; [|by rewrite alu_switch_None].
  unfold ALU_OP_LIST in Hin.
  elem_cases Hin; intros [= <-] Hops; try (by vm_compute in Hops); simpl;
    unfold py_lshift, py_rshift, py_mod; try case_decide; intros [= <-]; compute_done.
Qed.

Lemma call_arity_1 op foo x e :
  alu_switch op = Some foo → operand_count op = 1 → call (Some foo) [x] ≠ Raise e.
Proof.
  destruct (decide (op ∈ ALU_OP_LIST)) as [Hin|Hout]; [|by rewrite alu_switch_None].
  unfold ALU_OP_LIST in Hin.
  elem_cases Hin; intros [= <-] Hops; try (by vm_compute in Hops); done.
Qed.

Lemma alu_switch_arity op :
  is_Some (alu_switch op) → operand_count op = 2 ∨ operand_count op = 1.
Proof.
  destruct (decide (op ∈ ALU_OP_LIST)) as [Hin|Hout];
    [|rewrite alu_switch_None by done; by intros []].
  unfold ALU_OP_LIST in Hin. elem_cases Hin; intros _; by compute_done.
Qed.

Lemma arithmetic_allowed e : e ∈ ARITHMETIC_ERRORS → E e.
Proof. unfold ARITHMETIC_ERRORS. intros H. elem_cases H; apply allows. Qed.

(** [alu] on an opcode of its table, as [dispatch] calls it. *)
Lemma alu_throws op r b :
  is_Some (alu_switch op) → arity_ok op b → Throws E (alu op r b).
Proof.
  intros [foo Hfoo] [H2 H1]. unfold alu. rewrite ALU_DISPATCH_switch, Hfoo.
  destruct (alu_switch_arity op) as [Hops|Hops]; [by rewrite Hfoo| |].
  - destruct (H2 Hops) as [rb ->]. do 2 (apply bind_throws; [apply _|intros ?]).
    apply lift_throws. intros e He. eapply arithmetic_allowed, call_arity_2; eauto.
  - rewrite (H1 Hops). apply bind_throws; [apply _|intros ?].
    apply lift_throws. intros e He. by eapply call_arity_1 in He.
Qed.

End Arithmetic.

(** ** The dispatcher and the loop *)

Section Loop.
Context (E : exn → Prop).
Context `{!Allows E IndexError, !Allows E ZeroDivisionError, !Allows E ValueError,
          !Allows E UnboundLocalError}.
Implicit Types (IR i r : Z) (b : option Z) (l : locals) (s : cpu).

(** A handler of the two tables takes as many arguments as the decoder
    reads operands for its opcode. *)
Lemma handler_arity i foo :
  handler_switch i = Some foo →
  (operand_count i = 2 ∧ ∃ f, foo = Meth2 f ∧ ∀ x y, Throws E (f x y)) ∨
  (operand_count i = 1 ∧ ∃ f, foo = Meth1 f ∧ ∀ x, Throws E (f x)).
Proof.
  unfold handler_switch.
  repeat case_decide; intros [= <-]; subst;
    first [ left; split; [done|eexists; split; [done|intros; apply _]]
          | right; split; [done|eexists; split; [done|intros; apply _]] ].
Qed.

Lemma dispatch_throws i r b : arity_ok i b → Throws E (dispatch i (Some r) b).
Proof.
  intros Hb. rewrite dispatch_unfold.
  destruct (handler_switch i) as [foo|] eqn:Hfoo.
  - destruct Hb as [H2 H1].
    destruct (handler_arity i foo Hfoo) as [[Hops (f & -> & Hf)]|[Hops (f & -> & Hf)]].
    + destruct (H2 Hops) as [v ->]. apply Hf.
    + rewrite (H1 Hops). apply Hf.
  - destruct (alu_switch i) eqn:Halu; [|apply _].
    apply bind_throws; [|intros; apply _]. apply alu_throws; [apply _..|by rewrite Halu|done].
Qed.

#[export] Instance local_throws {A} (x : option A) : Throws E (local x).
Proof. destruct x; simpl; apply _. Qed.

#[export] Instance pc_add_throws n : Throws E (pc_add n).
Proof. unfold pc_add. apply _. Qed.

#[export] Instance fetch_operands_throws IR l : Throws E (fetch_operands IR l).
Proof. unfold fetch_operands. apply _. Qed.

(** What the decoder returns agrees with the opcode. *)
Lemma fetch_operands_fetched IR l s l' s' :
  fetch_operands IR l s = (Ok l', s') → fetched IR l'.
Proof.
  unfold fetch_operands, fetched. intros H.
  repeat case_decide; repeat (apply bind_Ok_inv in H as (? & ? & _ & H));
    injection H as <- _; split; intros; first [lia|eauto].
Qed.

(** A local read after the decoder bound it has the shape the opcode asks
    for. *)
Lemma local_b_arity IR l s b s' :
  fetched IR l → local (loc_b l) s = (Ok b, s') → arity_ok IR b.
Proof.
  intros [H2 H1]. destruct l as [la [lb|]]; [|done]. intros [= <- _].
  split; intros Hops.
  - by destruct (H2 Hops) as (? & ? & [= _ ->]).
  - by destruct (H1 Hops) as (? & [= _ ->]).
Qed.

Lemma evaluate_throws IR l : fetched IR l → Throws E (evaluate IR l).
Proof.
  intros Hl. unfold evaluate. repeat case_decide; try apply _.
  apply bind_throws; [apply _|intros a].
  apply (bind_throws_post E (arity_ok IR)); [|apply _|].
  - intros s b s'. by apply local_b_arity.
  - intros b Hb. apply bind_throws; [by apply dispatch_throws|apply _].
Qed.

#[export] Instance run_body_throws l : Throws E (run_body l).
Proof.
  unfold run_body. apply bind_throws; [apply _|intros p].
  apply bind_throws; [apply _|intros IR].
  apply (bind_throws_post E (fetched IR)); [|apply _|apply evaluate_throws].
  intros s. apply fetch_operands_fetched.
Qed.

Lemma run_from_throws fuel l s e s' :
  run_from fuel l s = Some (Raise e, s') → E e.
Proof. apply while_true_throws. apply _. Qed.

End Loop.

(** ** The theorems *)

Section Claims.
Implicit Types (s : cpu) (e : exn) (fuel : nat) (r a b v : Z).

(** C13. Whatever the program and the state it is started in, [run] ends with
    no exception other than [IndexError], [ZeroDivisionError],
    [ValueError] and [UnboundLocalError]: in particular no handler is ever
    called with the wrong number of arguments ([TypeError]), and the
    [Exception] of [alu] for an unsupported operation is never raised. *)
Theorem run_raises_only fuel s e s' :
  run fuel s = Some (Raise e, s') → run_error e.
Proof. apply (run_from_throws run_error). Qed.

Lemma run_raises_only_witness : run_error UnboundLocalError.
Proof.
  apply (run_raises_only 1 (booted [NOP]) UnboundLocalError (set_pc 1 (booted [NOP]))).
  vm_compute. reflexivity.
Defined.

(** Each of the four exceptions is raised by some program: a register
    number out of range, a modulo by a register that holds zero, a shift
    by a register that holds a negative number, and an instruction without
    operands that reaches the dispatcher before any operand was read. *)
Theorem run_errors_exact :
  Forall (λ e, ∃ program fuel s', run fuel (booted program) = Some (Raise e, s'))
    RUN_ERRORS.
Proof.
  repeat apply Forall_cons_2; [..|apply Forall_nil_2].
  - by exists [PRN; 8], 1%nat, (set_pc 2 (booted [PRN; 8])).
  - by exists [MOD; 0; 1], 1%nat, (set_pc 3 (booted [MOD; 0; 1])).
  - exists [DEC; 1; SHL; 0; 1], 2%nat. eexists. vm_compute. reflexivity.
  - by exists [NOP], 1%nat, (set_pc 1 (booted [NOP])).
Qed.

(** Every method below the dispatcher other than [alu], and [load] and
    [trace] with them, can fail in one way only: a subscript out of range. *)
Theorem methods_raise_IndexError_only r a b v program :
  let E := λ e, e = IndexError in
  Throws E (ram_read a) ∧ Throws E (ram_write a v) ∧ Throws E (load program) ∧
  Throws E (push_mdr v) ∧ Throws E pop_mdr ∧
  Throws E (push_from_reg r) ∧ Throws E (pop_to_reg r) ∧
  Throws E (ldi_foo r v) ∧ Throws E (print_foo r) ∧ Throws E (cmp_foo a b) ∧
  Throws E (jmp_foo r) ∧ Throws E (jeq_foo r) ∧ Throws E (jne_foo r) ∧
  Throws E trace.
Proof. intros E. assert (Allows E IndexError) by done. split_and!; apply _. Qed.

(** [alu] as the dispatcher calls it, on an opcode of the table with the
    operands the decoder read for it: the exceptions of the subscripts and
    of the arithmetic. *)
Theorem alu_raises_only op r (b : option Z) s e s' :
  op ∈ ALU_OP_LIST → arity_ok op b → alu op r b s = (Raise e, s') →
  e ∈ IndexError :: ARITHMETIC_ERRORS.
Proof.
  intros Hop Hb. apply (alu_throws (.∈ IndexError :: ARITHMETIC_ERRORS)); [apply _..| |done].
  unfold ALU_OP_LIST in Hop. elem_cases Hop; by compute_done.
Qed.

Lemma alu_raises_only_witness : ZeroDivisionError ∈ IndexError :: ARITHMETIC_ERRORS.
Proof.
  apply (alu_raises_only MOD 0 (Some 1) CPU_init ZeroDivisionError CPU_init);
    by compute_done.
Defined.

End Claims.
