(* ===== verification/Exec.v ===== *)
(** * Exec.v: running programs on symbolic data

    The lemmas of [Run.v] give the state after one instruction.  This file
    turns them into a tactic, [run_step], that executes the instruction at
    [pc] in a goal about [run_from]: it picks the lemma of the opcode,
    proves its side conditions by computation, and writes the next state
    as an explicit record again.  The registers, the memory and the
    output may hold variables and expressions over them; they are moved
    around and never looked into.  Where the control flow depends on
    such a value (JEQ and JNE after a CMP of unknown values, a modulo by
    an unknown value) the tactic leaves the condition in the goal, to be
    decided from the hypotheses.

    The states of a symbolic run are records [mkCPU regs pc fl ram out]
    whose lists have an explicit spine.  [Programs.v] uses the tactic for
    theorems about programs for every input. *)

From S2P Require Import Prelude Python Loop Opcodes Alu Cpu Dispatch Run.

#[local] Open Scope Z_scope.
#[local] Open Scope ls8_scope.

(** ** One instruction, with the result of the lambda known *)

Section Steps.
Implicit Types (s : cpu) (l : locals) (IR v : Z).

Notation opA s := (mem s (pc s + 1)).
Notation opB s := (mem s (pc s + 2)).

Lemma run_body_ALU2_Ok s l IR v :
  wf s → at_pc s IR → pc s + 2 < 256 → IR ∈ ALU_OP_LIST → operand_count IR = 2 →
  is_reg (opA s) → is_reg (opB s) →
  call (alu_switch IR) [R s (opA s); R s (opB s)] = Ok v →
  run_body l s =
  (Ok (Continue (operands2 s)), write_reg (opA s) v (set_pc (pc s + 3) s)).
Proof.
  intros Hs Hat Hpc Hin Hops Ha Hb Hcall. rewrite (run_body_ALU2 s l IR) by done.
  by rewrite ALU_DISPATCH_switch, Hcall.
Qed.

Lemma run_body_ALU1_Ok s l IR v :
  wf s → at_pc s IR → pc s + 1 < 256 → IR ∈ ALU_OP_LIST → operand_count IR = 1 →
  is_reg (opA s) →
  call (alu_switch IR) [R s (opA s)] = Ok v →
  run_body l s =
  (Ok (Continue (operands1 s)), write_reg (opA s) v (set_pc (pc s + 2) s)).
Proof.
  intros Hs Hat Hpc Hin Hops Ha Hcall. rewrite (run_body_ALU1 s l IR) by done.
  by rewrite ALU_DISPATCH_switch, Hcall.
Qed.

(** The Equal flag after a comparison. *)
Lemma flags_of_E a b : Z.land (flags_of a b) 1 = if decide (a = b) then 1 else 0.
Proof. unfold flags_of. by repeat case_decide. Qed.

(** Where JEQ and JNE go after a comparison. *)
Lemma jeq_target a b (t e : Z) :
  (if decide (Z.land (flags_of a b) 1 = 1) then t else e)
  = if decide (a = b) then t else e.
Proof. rewrite flags_of_E. by repeat case_decide. Qed.

Lemma jne_target a b (t e : Z) :
  (if decide (Z.land (flags_of a b) 1 = 0) then t else e)
  = if decide (a = b) then e else t.
Proof. rewrite flags_of_E. by repeat case_decide. Qed.

Lemma run_unfold fuel s : run fuel s = run_from fuel unbound s.
Proof. done. Qed.

End Steps.

(** ** Reading and writing explicit states *)

(** Numerals. *)
Ltac is_pos p :=
  lazymatch p with
  | xH => idtac
  | xO ?q => is_pos q
  | xI ?q => is_pos q
  end.

Ltac is_znum z :=
  lazymatch z with
  | Z0 => idtac
  | Zpos ?p => is_pos p
  | Zneg ?p => is_pos p
  end.

(** The value of [v] when it computes to a numeral, [v] otherwise. *)
Ltac try_num v :=
  let v' := eval vm_compute in v in
  match v' with
  | _ => let _ := match v' with _ => is_znum v' end in v'
  | _ => v
  end.

(** Element [i] of a list with an explicit spine, and the list with this
    element replaced. *)
Ltac list_get l i :=
  lazymatch i with
  | O => lazymatch l with ?x :: _ => x end
  | S ?j => lazymatch l with _ :: ?t => list_get t j end
  end.

Ltac list_set l i v :=
  lazymatch i with
  | O => lazymatch l with _ :: ?t => constr:(v :: t) end
  | S ?j => lazymatch l with ?x :: ?t => let t' := list_set t j v in constr:(x :: t') end
  end.

(** A natural number as the index a subscript [z] denotes. *)
Ltac index_of z := eval vm_compute in (Z.to_nat z).

(** [norm_state E]: the state [E], built from updates of an explicit
    state, as an explicit state.  [norm_val v]: the integer [v], built
    from projections of such states, with the projections carried out and
    closed arithmetic evaluated. *)
Ltac norm_state E :=
  lazymatch E with
  | mkCPU _ _ _ _ _ => E
  | write_reg ?r ?v ?s =>
      let s' := norm_state s in
      let r' := norm_val r in
      let v' := norm_val v in
      let i := index_of r' in
      lazymatch s' with
      | mkCPU ?regs ?p ?f ?m ?out =>
          let regs' := list_set regs i v' in constr:(mkCPU regs' p f m out)
      end
  | write_mem ?a ?v ?s =>
      let s' := norm_state s in
      let a' := norm_val a in
      let v' := norm_val v in
      let i := index_of a' in
      lazymatch s' with
      | mkCPU ?regs ?p ?f ?m ?out =>
          let m' := list_set m i v' in constr:(mkCPU regs p f m' out)
      end
  | set_pc ?v ?s =>
      let s' := norm_state s in
      let v' := norm_val v in
      lazymatch s' with
      | mkCPU ?regs ?p ?f ?m ?out => constr:(mkCPU regs v' f m out)
      end
  | set_fl ?v ?s =>
      let s' := norm_state s in
      let v' := norm_val v in
      lazymatch s' with
      | mkCPU ?regs ?p ?f ?m ?out => constr:(mkCPU regs p v' m out)
      end
  | set_stdout ?v ?s =>
      let s' := norm_state s in
      let v' := norm_str v in
      lazymatch s' with
      | mkCPU ?regs ?p ?f ?m ?out => constr:(mkCPU regs p f m v')
      end
  | (if decide ?P then ?s1 else ?s2) =>
      let b := eval vm_compute in (bool_decide P) in
      lazymatch b with
      | true => norm_state s1
      | false => norm_state s2
      end
  end
with norm_val v :=
  lazymatch v with
  | R ?s ?r =>
      let s' := norm_state s in
      let r' := norm_val r in
      let i := index_of r' in
      lazymatch s' with mkCPU ?regs _ _ _ _ => list_get regs i end
  | mem ?s ?a =>
      let s' := norm_state s in
      let a' := norm_val a in
      let i := index_of a' in
      lazymatch s' with mkCPU _ _ _ ?m _ => list_get m i end
  | pc ?s => let s' := norm_state s in lazymatch s' with mkCPU _ ?p _ _ _ => p end
  | fl ?s => let s' := norm_state s in lazymatch s' with mkCPU _ _ ?f _ _ => f end
  | flags_of ?x ?y =>
      let x' := norm_val x in
      let y' := norm_val y in
      try_num (flags_of x' y')
  | Z.add ?x ?y =>
      let x' := norm_val x in let y' := norm_val y in try_num (Z.add x' y')
  | Z.sub ?x ?y =>
      let x' := norm_val x in let y' := norm_val y in try_num (Z.sub x' y')
  | Z.mul ?x ?y =>
      let x' := norm_val x in let y' := norm_val y in try_num (Z.mul x' y')
  | Z.land ?x ?y =>
      let x' := norm_val x in let y' := norm_val y in try_num (Z.land x' y')
  | Z.lor ?x ?y =>
      let x' := norm_val x in let y' := norm_val y in try_num (Z.lor x' y')
  | Z.lxor ?x ?y =>
      let x' := norm_val x in let y' := norm_val y in try_num (Z.lxor x' y')
  | (if decide (?x = ?y) then ?t else ?e) =>
      let x' := norm_val x in
      let y' := norm_val y in
      let t' := norm_val t in
      let e' := norm_val e in
      let b := eval vm_compute in (bool_decide (x' = y')) in
      lazymatch b with
      | true => t'
      | false => e'
      | _ => constr:(if decide (x' = y') then t' else e')
      end
  | _ => v
  end
with norm_str v :=
  lazymatch v with
  | stdout ?s => let s' := norm_state s in lazymatch s' with mkCPU _ _ _ _ ?out => out end
  | String.append ?x ?y =>
      let x' := norm_str x in
      let y' := norm_str y in
      lazymatch x' with
      | EmptyString => y'
      | _ => constr:(String.append x' y')
      end
  | str ?z => let z' := norm_val z in constr:(str z')
  | _ => v
  end.

(** The locals after a fetch. *)
Ltac norm_locals l :=
  lazymatch l with
  | operands1 ?s =>
      let a := norm_val (mem s (pc s + 1)) in
      constr:({| loc_a := Some a; loc_b := Some None |})
  | operands2 ?s =>
      let a := norm_val (mem s (pc s + 1)) in
      let b := norm_val (mem s (pc s + 2)) in
      constr:({| loc_a := Some a; loc_b := Some (Some b) |})
  | _ => l
  end.

(** ** The tactic *)

(** The side conditions of the lemmas of [Run.v] on an explicit state:
    the invariant (the flags may be a variable with its bounds among the
    hypotheses, or the flags of a comparison), and closed facts about
    [pc], the opcode and the operands. *)
Ltac exec_wf :=
  split; [reflexivity|reflexivity|
    cbn [fl]; first [by compute_done|apply flags_of_range|lia]].

Ltac exec_side :=
  lazymatch goal with
  | |- wf _ => exec_wf
  | |- at_pc _ _ => split; [by compute_done|vm_compute; reflexivity]
  | |- _ = Ok _ => reflexivity
  | |- _ => by compute_done
  end.

(** The lemma for the instruction at [pc]. *)
Ltac exec_lemma :=
  first
    [ apply run_body_LDI; exec_side | apply run_body_PRN; exec_side
    | apply run_body_CMP; exec_side | apply run_body_JMP; exec_side
    | apply run_body_JEQ; exec_side | apply run_body_JNE; exec_side
    | apply run_body_PUSH; exec_side | apply run_body_POP; exec_side
    | apply run_body_CALL; exec_side | apply run_body_RET; exec_side
    | eapply run_body_ALU2_Ok; exec_side | eapply run_body_ALU1_Ok; exec_side ].

(** One instruction of a run from an explicit state. *)
Ltac run_step :=
  rewrite ?run_unfold;
  lazymatch goal with
  | |- context [run_from (S ?n) ?l ?s] =>
      first
        [ erewrite (run_from_break n l s) by (apply run_body_HLT; exec_side);
          lazymatch goal with
          | |- context [Some (Ok tt, ?E)] =>
              let s' := norm_state E in change E with s'
          end
        | erewrite (run_from_step n l s) by exec_lemma;
          lazymatch goal with
          | |- context [run_from n ?l' ?E] =>
              let l'' := norm_locals l' in
              let s' := norm_state E in
              change (run_from n l' E) with (run_from n l'' s')
          end ]
  end.

(** The memory after [load], as an explicit list. *)
Ltac boot_ram :=
  lazymatch goal with
  | |- context [ram (booted ?p)] =>
      let m := eval vm_compute in (ram (booted p)) in change (ram (booted p)) with m
  end.

(** The state [main] starts [run] in, as an explicit record. *)
Ltac boot :=
  lazymatch goal with
  | |- context [booted ?p] =>
      let s := eval vm_compute in (booted p) in change (booted p) with s
  end.
