(* ===== verification/Isa.v ===== *)
(** * Isa.v: the machine of the specification, and the code as its implementation

    The specification describes an 8-bit machine: registers, memory cells and
    the program counter are bytes, every write wraps to 8 bits, an operand
    that names no register and an opcode without behaviour are fatal.  This
    file writes that machine down as an executable step function
    ([spec_step]) over the state of [Cpu.v], and relates it to one iteration
    of the loop of [src/cpu.py] ([run_body] of [Run.v]), which keeps Python's
    unbounded integers and wraps nothing.

    The theorems: the machine of the specification keeps its data model
    ([wf8]); from a state of bytes, where the specification's machine makes
    a step or halts the code does the same and the low 8 bits of the code's
    state are the specification's state ([wrap_state]); where the code's
    state is still within bytes the two states are equal, along whole runs
    too and in both directions; where the specification's machine faults,
    the code raises the
    matching Python exception, except for the opcodes without behaviour,
    which it skips.  The definitions of this file follow the
    specification's text, not the source. *)

From S2P Require Import Prelude Python Loop Opcodes Alu Cpu Dispatch Run.

#[local] Open Scope Z_scope.
#[local] Open Scope ls8_scope.

(** Truncation to 8 bits. *)
Definition wrap8 (z : Z) : Z := z mod 256.

(** A decoded instruction; the operands that name registers are valid. *)
Inductive instr : Type :=
  | Hlt
  | Ldi (r v : Z)
  | Prn (r : Z)
  | Push (r : Z)
  | Pop (r : Z)
  | Cmp (ra rb : Z)
  | Jmp (r : Z)
  | Jeq (r : Z)
  | Jne (r : Z)
  | Call (r : Z)
  | Ret
  | Alu2 (op ra rb : Z)
  | Alu1 (op r : Z).

(** The fatal errors of the specification's taxonomy that belong to the
    core. *)
Inductive fault : Type :=
  | UnsupportedOperation (IR : Z)
  | DivisionByZero
  | InvalidRegisterIndex (r : Z).

Inductive outcome : Type :=
  | Running (s : cpu)
  | Halted (s : cpu)
  | Faulted (f : fault).

Definition check_reg (r : Z) (k : fault + instr) : fault + instr :=
  if decide (is_reg r) then k else inl (InvalidRegisterIndex r).

(** The instruction an opcode byte and the two bytes after it encode. *)
Definition decode (IR a b : Z) : fault + instr :=
  if decide (IR = HLT) then inr Hlt
  else if decide (IR = RET) then inr Ret
  else if decide (IR = LDI) then check_reg a (inr (Ldi a b))
  else if decide (IR = CMP) then check_reg a (check_reg b (inr (Cmp a b)))
  else if decide (IR = PRN) then check_reg a (inr (Prn a))
  else if decide (IR = PUSH) then check_reg a (inr (Push a))
  else if decide (IR = POP) then check_reg a (inr (Pop a))
  else if decide (IR = JMP) then check_reg a (inr (Jmp a))
  else if decide (IR = JEQ) then check_reg a (inr (Jeq a))
  else if decide (IR = JNE) then check_reg a (inr (Jne a))
  else if decide (IR = CALL) then check_reg a (inr (Call a))
  else if decide (IR ∈ ALU_OP_LIST) then
    if decide (operand_count IR = 1) then check_reg a (inr (Alu1 IR a))
    else check_reg a (check_reg b (inr (Alu2 IR a b)))
  else inl (UnsupportedOperation IR).

(** Push: decrement the stack pointer, then write at the new address. *)
Definition spec_push (v : Z) (s : cpu) : cpu :=
  let sp := wrap8 (R s SP - 1) in
  write_mem sp v (write_reg SP sp s).

(** Pop: read at the stack pointer; increment it only below [0xF4]. *)
Definition spec_pop (s : cpu) : Z * cpu :=
  (mem s (R s SP),
   if decide (R s SP < 0xF4) then write_reg SP (wrap8 (R s SP + 1)) s else s).

Definition spec_alu (op a b : Z) (k : Z → outcome) : outcome :=
  match alu8 op a b with
  | Some v => k v
  | None => Faulted (if decide (op = MOD) then DivisionByZero else UnsupportedOperation op)
  end.

(** The behaviour of an instruction, on the state with the program counter
    already past it. *)
Definition execute (i : instr) (s : cpu) : outcome :=
  match i with
  | Hlt => Halted s
  | Ldi r v => Running (write_reg r (wrap8 v) s)
  | Prn r => Running (set_stdout (stdout s +:+ str (R s r) +:+ nl) s)
  | Push r => Running (spec_push (R s r) s)
  | Pop r => let '(v, s1) := spec_pop s in Running (write_reg r v s1)
  | Cmp ra rb => Running (set_fl (flags_of (R s ra) (R s rb)) s)
  | Jmp r => Running (set_pc (R s r) s)
  | Jeq r => Running (if decide (Z.testbit (fl s) 0) then set_pc (R s r) s else s)
  | Jne r => Running (if decide (Z.testbit (fl s) 0) then s else set_pc (R s r) s)
  | Call r => let s1 := spec_push (pc s) s in Running (set_pc (R s1 r) s1)
  | Ret => let '(v, s1) := spec_pop s in Running (set_pc v s1)
  | Alu2 op ra rb => spec_alu op (R s ra) (R s rb) (λ v, Running (write_reg ra v s))
  | Alu1 op r => spec_alu op (R s r) 0 (λ v, Running (write_reg r v s))
  end.

(** Fetch, decode, advance the program counter by one plus the operand
    count, execute. *)
Definition spec_step (s : cpu) : outcome :=
  let IR := mem s (pc s) in
  match decode IR (mem s (pc s + 1)) (mem s (pc s + 2)) with
  | inl f => Faulted f
  | inr i => execute i (set_pc (wrap8 (pc s + (1 + operand_count IR))) s)
  end.

(** The execution loop: [None] when still running after [fuel] steps. *)
Fixpoint spec_run (fuel : nat) (s : cpu) : option outcome :=
  match fuel with
  | O => None
  | S n =>
      match spec_step s with
      | Running s' => spec_run n s'
      | o => Some o
      end
  end.

(** The data model of the specification: every register, every memory cell
    and the program counter is a byte. *)
Record wf8 (s : cpu) : Prop := mk_wf8 {
  wf8_wf : wf s;
  wf8_reg : Forall byte (reg s);
  wf8_ram : Forall byte (ram s);
  wf8_pc : byte (pc s)
}.

#[export] Instance wf8_dec s : Decision (wf8 s).
Proof.
  refine (cast_if (decide (wf s ∧ Forall byte (reg s) ∧ Forall byte (ram s) ∧
                           byte (pc s))));
    [by destruct a as (?&?&?&?)|by intros [????]; destruct n].
Defined.

(** The low 8 bits of every register, every cell and the program counter. *)
Definition wrap_state (c : cpu) : cpu :=
  {| reg := wrap8 <$> reg c; pc := wrap8 (pc c); fl := fl c;
     ram := wrap8 <$> ram c; stdout := stdout c |}.

(** The instruction at [pc] and its operands lie within the memory.
    The specification leaves an instruction that runs over the last cell
    undefined. *)
Definition in_bounds (s : cpu) : Prop :=
  pc s + operand_count (mem s (pc s)) < 256.

#[export] Instance in_bounds_dec s : Decision (in_bounds s).
Proof. unfold in_bounds. apply _. Defined.

(** What the specification's step asks of one iteration of [run]: where the
    machine of the specification goes on or halts, the iteration does the
    same, whatever the locals, and the low 8 bits of its state are the
    specification's state. *)
Definition refined (s : cpu) (o : outcome) : Prop :=
  match o with
  | Running s' =>
      ∃ c, (∀ l, ∃ l', run_body l s = (Ok (Continue l'), c)) ∧ wrap_state c = s'
  | Halted s' => ∃ c, (∀ l, run_body l s = (Ok Break, c)) ∧ wrap_state c = s'
  | Faulted _ => True
  end.

(** The states the specification's machine steps from, at most [fuel] of
    them. *)
Fixpoint spec_states (fuel : nat) (s : cpu) : list cpu :=
  match fuel with
  | O => []
  | S n =>
      match spec_step s with
      | Running s' => s :: spec_states n s'
      | _ => []
      end
  end.

(** The state at which the specification's machine stops, or is after
    [fuel] steps. *)
Fixpoint spec_last (fuel : nat) (s : cpu) : cpu :=
  match fuel with
  | O => s
  | S n =>
      match spec_step s with
      | Running s' => spec_last n s'
      | _ => s
      end
  end.

(** A state from which the code's iteration needs no truncation: the
    instruction lies within the memory, and the iteration leaves bytes
    everywhere. *)
Definition safe (s : cpu) : Prop :=
  in_bounds s ∧ wf8 (exec (run_body unbound) s).

#[export] Instance safe_dec s : Decision (safe s).
Proof. unfold safe. apply _. Defined.

(** ** Bytes and truncation *)

Section Wrap.
Implicit Types (s c : cpu) (r a v z : Z) (l : list Z).

Lemma wrap8_byte z : byte (wrap8 z).
Proof. unfold byte, wrap8. apply Z.mod_pos_bound. lia. Qed.

Lemma wrap8_id z : byte z → wrap8 z = z.
Proof. intros. by apply Z.mod_small. Qed.

Lemma wrap8_list_id l : Forall byte l → wrap8 <$> l = l.
Proof. induction 1 as [|z l Hz _ IH]; [done|]. by rewrite fmap_cons, IH, wrap8_id. Qed.

Lemma wrap_state_id s : wf8 s → wrap_state s = s.
Proof.
  intros [_ Hr Hm Hp]. unfold wrap_state.
  rewrite !wrap8_list_id, wrap8_id by done. by destruct s.
Qed.

Lemma wrap_state_write_reg c r v :
  wrap_state (write_reg r v c) = write_reg r (wrap8 v) (wrap_state c).
Proof. unfold wrap_state, write_reg. simpl. by rewrite list_fmap_insert. Qed.

Lemma wrap_state_write_mem c a v :
  wrap_state (write_mem a v c) = write_mem a (wrap8 v) (wrap_state c).
Proof. unfold wrap_state, write_mem. simpl. by rewrite list_fmap_insert. Qed.

Lemma wrap_state_set_pc c v : wrap_state (set_pc v c) = set_pc (wrap8 v) (wrap_state c).
Proof. done. Qed.

Lemma wrap_state_set_fl c v : wrap_state (set_fl v c) = set_fl v (wrap_state c).
Proof. done. Qed.

Lemma wrap_state_set_stdout c (v : string) :
  wrap_state (set_stdout v c) = set_stdout v (wrap_state c).
Proof. done. Qed.

Lemma R_byte s r : wf8 s → byte (R s r).
Proof.
  intros [_ Hr _ _]. unfold R. destruct (reg s !! Z.to_nat r) as [v|] eqn:E; [|done].
  by eapply Forall_lookup_1.
Qed.

Lemma mem_byte s a : wf8 s → byte (mem s a).
Proof.
  intros [_ _ Hm _]. unfold mem. destruct (ram s !! Z.to_nat a) as [v|] eqn:E; [|done].
  by eapply Forall_lookup_1.
Qed.

Lemma land_1_odd z : Z.land z 1 = if Z.odd z then 1 else 0.
Proof.
  change 1 with (Z.ones 1) at 1. rewrite Z.land_ones by lia. by rewrite Zmod_odd.
Qed.

Lemma alu8_byte op a b v : alu8 op a b = Some v → byte v.
Proof. unfold alu8. repeat case_decide; intros [= <-]; apply wrap8_byte. Qed.

Lemma wf8_write_reg s r v : wf8 s → byte v → wf8 (write_reg r v s).
Proof.
  intros [Hs Hr Hm Hp] Hv. split; [by apply wf_write_reg| |done..].
  by apply Forall_insert.
Qed.

Lemma wf8_write_mem s a v : wf8 s → byte v → wf8 (write_mem a v s).
Proof.
  intros [Hs Hr Hm Hp] Hv. split; [by apply wf_write_mem|done| |done].
  by apply Forall_insert.
Qed.

Lemma wf8_set_pc s v : wf8 s → byte v → wf8 (set_pc v s).
Proof. intros [Hs Hr Hm Hp] Hv. split; [by apply wf_set_pc|done..]. Qed.

Lemma wf8_set_fl s v : wf8 s → 0 ≤ v ≤ 7 → wf8 (set_fl v s).
Proof. intros [Hs Hr Hm Hp] Hv. split; [by apply wf_set_fl|done..]. Qed.

Lemma wf8_set_stdout s (v : string) : wf8 s → wf8 (set_stdout v s).
Proof. intros [Hs Hr Hm Hp]. split; [by apply wf_set_stdout|done..]. Qed.

Lemma wf8_CPU_init : wf8 CPU_init.
Proof. split; [apply wf_CPU_init|by compute_done..]. Qed.

End Wrap.

#[export] Hint Resolve wrap8_byte R_byte mem_byte wf8_write_reg wf8_write_mem
  wf8_set_pc wf8_set_fl wf8_set_stdout wf8_wf wf8_pc flags_of_range : ls8.
#[export] Hint Rewrite wrap_state_write_reg wrap_state_write_mem wrap_state_set_pc
  wrap_state_set_fl wrap_state_set_stdout : wrap.

(** ** Decoding *)

Lemma decode_inr IR a b i :
  decode IR a b = inr i →
  match i with
  | Hlt => IR = HLT
  | Ret => IR = RET
  | Ldi r v => IR = LDI ∧ r = a ∧ v = b ∧ is_reg a
  | Cmp ra rb => IR = CMP ∧ ra = a ∧ rb = b ∧ is_reg a ∧ is_reg b
  | Prn r => IR = PRN ∧ r = a ∧ is_reg a
  | Push r => IR = PUSH ∧ r = a ∧ is_reg a
  | Pop r => IR = POP ∧ r = a ∧ is_reg a
  | Jmp r => IR = JMP ∧ r = a ∧ is_reg a
  | Jeq r => IR = JEQ ∧ r = a ∧ is_reg a
  | Jne r => IR = JNE ∧ r = a ∧ is_reg a
  | Call r => IR = CALL ∧ r = a ∧ is_reg a
  | Alu2 op ra rb =>
      op = IR ∧ IR ∈ ALU_OP_LIST ∧ operand_count IR = 2 ∧ ra = a ∧ rb = b ∧
      is_reg a ∧ is_reg b
  | Alu1 op r => op = IR ∧ IR ∈ ALU_OP_LIST ∧ operand_count IR = 1 ∧ r = a ∧ is_reg a
  end.
Proof.
  unfold decode, check_reg. repeat case_decide; intros [= <-]; try done.
  split_and!; try done.
  match goal with H : _ ∈ ALU_OP_LIST |- _ => unfold ALU_OP_LIST in H; elem_cases H; done end.
Qed.

(** ** One step *)

Section Refinement.
Implicit Types (s c : cpu) (i : instr).

Lemma spec_push_wf8 s v : wf8 s → byte v → wf8 (spec_push v s).
Proof. intros. unfold spec_push. auto with ls8. Qed.

Lemma spec_pop_wf8 s : wf8 s → byte (spec_pop s).1 ∧ wf8 (spec_pop s).2.
Proof. intros. unfold spec_pop. simpl. case_decide; auto with ls8. Qed.

Lemma execute_wf8 i s s' :
  wf8 s → execute i s = Running s' ∨ execute i s = Halted s' → wf8 s'.
Proof.
  intros Hs. pose proof (spec_pop_wf8 s Hs) as [??]. pose proof (wf8_pc _ Hs).
  destruct i; simpl; unfold spec_alu; try destruct (spec_pop s);
    try (destruct (alu8 _ _ _) as [v|] eqn:E; [apply alu8_byte in E|]);
    intros [[= <-]|[= <-]]; try case_decide; auto 6 using spec_push_wf8 with ls8.
Qed.

Lemma execute_wf8_step s s' :
  wf8 s → spec_step s = Running s' ∨ spec_step s = Halted s' → wf8 s'.
Proof.
  intros Hs. unfold spec_step. destruct (decode _ _ _) as [f|i]; [by intros [|]|].
  apply execute_wf8. auto with ls8.
Qed.

(** The state the code is in after fetch and decode, seen through
    [wrap_state], is the state the specification executes on. *)
Lemma wrap_fetched s n :
  wf8 s → wrap_state (set_pc (pc s + n) s) = set_pc (wrap8 (pc s + n)) s.
Proof. intros. by rewrite wrap_state_set_pc, wrap_state_id. Qed.

Lemma at_pc_intro s IR : wf8 s → mem s (pc s) = IR → at_pc s IR.
Proof. intros [_ _ _ ?] ?. by split. Qed.


(** Removes the truncation from the values that are bytes. *)
Ltac unwrap :=
  repeat match goal with
         | |- context [wrap8 ?z] => rewrite (wrap8_id z) by (auto with ls8 || (unfold byte in *; lia))
         end.

Ltac spec_simpl :=
  unfold spec_push, spec_pop; rewrite ?R_set_pc, ?mem_set_pc;
  autorewrite with wrap; rewrite ?wrap_state_id by auto with ls8; unwrap.

Ltac refined_by lem :=
  simpl; eexists; split;
  [ intros l; eexists; apply lem; auto using at_pc_intro with ls8 | spec_simpl ].

Lemma refined_Alu2 s IR :
  wf8 s → at_pc s IR → pc s + 2 < 256 → IR ∈ ALU_OP_LIST → operand_count IR = 2 →
  is_reg (mem s (pc s + 1)) → is_reg (mem s (pc s + 2)) →
  refined s (execute (Alu2 IR (mem s (pc s + 1)) (mem s (pc s + 2)))
                 (set_pc (wrap8 (pc s + 3)) s)).
Proof.
  intros Hs Hat Hb Hin Hops Hra Hrb. simpl. unfold spec_alu. rewrite !R_set_pc.
  destruct (alu8 _ _ _) as [v|] eqn:E; [|done].
  apply alu8_Some in E as (w & E & ->); auto with ls8.
  unfold alu_args in E. rewrite decide_False in E by lia.
  eexists. split.
  - intros l. eexists. rewrite (run_body_ALU2 s l IR), E by auto with ls8. done.
  - by spec_simpl.
Qed.

Lemma refined_Alu1 s IR :
  wf8 s → at_pc s IR → pc s + 1 < 256 → IR ∈ ALU_OP_LIST → operand_count IR = 1 →
  is_reg (mem s (pc s + 1)) →
  refined s (execute (Alu1 IR (mem s (pc s + 1))) (set_pc (wrap8 (pc s + 2)) s)).
Proof.
  intros Hs Hat Hb Hin Hops Hra. simpl. unfold spec_alu. rewrite !R_set_pc.
  destruct (alu8 _ _ _) as [v|] eqn:E; [|done].
  apply alu8_Some in E as (w & E & ->); auto with ls8; [|done].
  unfold alu_args in E. rewrite decide_True in E by lia.
  eexists. split.
  - intros l. eexists. rewrite (run_body_ALU1 s l IR), E by auto with ls8. done.
  - by spec_simpl.
Qed.

(** A push with the stack pointer at 0 needs a case of its own: the code
    leaves [-1] in the register and writes the last cell, the
    specification's machine wraps the register to 255 and writes there. *)
Lemma refined_Push s :
  wf8 s → at_pc s PUSH → pc s + 1 < 256 → is_reg (mem s (pc s + 1)) →
  refined s (execute (Push (mem s (pc s + 1))) (set_pc (wrap8 (pc s + 2)) s)).
Proof.
  intros Hs Hat Hb Hr. pose proof (R_byte s SP Hs) as HSP.
  destruct (decide (R s SP = 0)) as [E0|E0].
  - simpl. eexists. split; [intros l; eexists; apply run_body_PUSH_wraps; auto with ls8|].
    unfold spec_push. rewrite !R_set_pc, E0. by spec_simpl.
  - assert (byte (R s SP - 1)) by (unfold byte in *; lia). by refined_by run_body_PUSH.
Qed.

Lemma refined_Call s :
  wf8 s → at_pc s CALL → pc s + 1 < 256 → is_reg (mem s (pc s + 1)) →
  refined s (execute (Call (mem s (pc s + 1))) (set_pc (wrap8 (pc s + 2)) s)).
Proof.
  intros Hs Hat Hb Hr. pose proof (R_byte s SP Hs) as HSP.
  destruct (decide (R s SP = 0)) as [E0|E0].
  - simpl. eexists. split; [intros l; eexists; apply run_body_CALL_wraps; auto with ls8|].
    unfold spec_push. rewrite !R_set_pc, E0. spec_simpl.
    change (wrap8 (0 - 1)) with 255. change (wrap8 (-1)) with 255.
    rewrite R_write_mem, !R_write_reg by auto with ls8.
    case_decide; [done|]. by unwrap.
  - assert (byte (R s SP - 1)) by (unfold byte in *; lia). by refined_by run_body_CALL.
Qed.

Lemma refined_step s :
  wf8 s → in_bounds s → refined s (spec_step s).
Proof.
  intros Hs Hb. unfold spec_step, in_bounds in *.
  destruct (decode _ _ _) as [f|i] eqn:D; [done|].
  apply decode_inr in D. pose proof (wf8_wf _ Hs) as Hwf.
  pose proof (at_pc_intro s _ Hs eq_refl) as Hat.
  pose proof (R_byte s SP Hs) as HSP.
  destruct i; destruct_and?; subst;
    repeat match goal with H : mem s (pc s) = _ |- _ => rewrite H in *; clear H end.
  all: try change (operand_count _) with 0 in *.
  all: try change (operand_count _) with 1 in *.
  all: try change (operand_count _) with 2 in *.
  all: change (1 + 0) with 1 in *; change (1 + 1) with 2 in *; change (1 + 2) with 3 in *.
  - simpl. eexists. split; [intros l; by apply run_body_HLT|]. by rewrite wrap_fetched.
  - by refined_by run_body_LDI.
  - by refined_by run_body_PRN.
  - by apply refined_Push.
  - refined_by run_body_POP. by case_decide; spec_simpl.
  - by refined_by run_body_CMP.
  - by refined_by run_body_JMP.
  - refined_by run_body_JEQ. rewrite land_1_odd. by destruct (Z.odd (fl s)); simpl; unwrap.
  - refined_by run_body_JNE. rewrite land_1_odd. by destruct (Z.odd (fl s)); simpl; unwrap.
  - by apply refined_Call.
  - refined_by run_body_RET. by case_decide; spec_simpl.
  - match goal with H : operand_count _ = _ |- _ => rewrite H in * end.
    by apply refined_Alu2.
  - match goal with H : operand_count _ = _ |- _ => rewrite H in * end.
    by apply refined_Alu1.
Qed.

(** Halting needs no side condition: HLT has no operand and touches no
    register. *)
Lemma refined_halt s s' :
  wf8 s → spec_step s = Halted s' →
  ∃ c, (∀ l, run_body l s = (Ok Break, c)) ∧ wrap_state c = s'.
Proof.
  intros Hs E. unfold spec_step in E.
  destruct (decode _ _ _) as [f|i] eqn:D; [done|]. apply decode_inr in D.
  destruct i; simpl in E; unfold spec_alu in E;
    try destruct (spec_pop _); try destruct (alu8 _ _ _); simplify_eq.
  rewrite D. exists (set_pc (pc s + 1) s). split; [|by rewrite wrap_fetched].
  intros l. apply run_body_HLT; auto using at_pc_intro with ls8.
Qed.

End Refinement.

(** ** Whole runs *)

Section Runs.
Implicit Types (s c : cpu) (l : locals) (fuel : nat).

Lemma safe_step s s' l :
  wf8 s → safe s → spec_step s = Running s' →
  ∃ l', run_body l s = (Ok (Continue l'), s').
Proof.
  intros Hs (Hb & Hex) E. pose proof (refined_step s Hs Hb) as Hr.
  rewrite E in Hr. destruct Hr as (c & Hc & <-).
  destruct (Hc unbound) as [l0 H0]. unfold exec in Hex. rewrite H0 in Hex.
  rewrite wrap_state_id by done. apply Hc.
Qed.

Lemma spec_run_safe fuel s s' l :
  wf8 s → Forall safe (spec_states fuel s) → spec_run fuel s = Some (Halted s') →
  ∃ c, run_from fuel l s = Some (Ok tt, c) ∧ wrap_state c = s'.
Proof.
  revert s l. induction fuel as [|n IH]; intros s l Hs Hsafe Hrun; [done|].
  simpl in Hsafe, Hrun. destruct (spec_step s) as [s1|s1|f] eqn:E; [| |done].
  - apply Forall_cons in Hsafe as [Hsafe Hrest].
    destruct (safe_step s s1 l Hs Hsafe E) as [l' Hl].
    rewrite (run_from_step n l s l' s1 Hl). apply IH; [|done..].
    eapply execute_wf8_step; eauto.
  - injection Hrun as ->. destruct (refined_halt s s' Hs E) as (c & Hc & Hw).
    exists c. split; [|done]. by apply run_from_break.
Qed.

(** While the specification's machine is running, so is the code. *)
Lemma spec_run_safe_None fuel s l :
  wf8 s → Forall safe (spec_states fuel s) → spec_run fuel s = None →
  run_from fuel l s = None.
Proof.
  revert s l. induction fuel as [|n IH]; intros s l Hs Hsafe Hrun; [done|].
  simpl in Hsafe, Hrun. destruct (spec_step s) as [s1|s1|f] eqn:E; [|done..].
  apply Forall_cons in Hsafe as [Hsafe Hrest].
  destruct (safe_step s s1 l Hs Hsafe E) as [l' Hl].
  rewrite (run_from_step n l s l' s1 Hl). apply IH; [|done..].
  eapply execute_wf8_step; eauto.
Qed.

Lemma spec_run_not_Running fuel s s' : spec_run fuel s ≠ Some (Running s').
Proof.
  revert s. induction fuel as [|n IH]; intros s; [done|].
  simpl. by destruct (spec_step s).
Qed.

End Runs.

(** ** Faults *)

Section Faults.
Implicit Types (s : cpu) (l : locals) (IR a b r : Z) (f : fault).

(** Why [decode] refuses an opcode. *)
Lemma decode_inl IR a b f :
  decode IR a b = inl f →
  match f with
  | UnsupportedOperation op => op = IR ∧ unhandled IR
  | InvalidRegisterIndex r =>
      IR ∈ [JEQ; JNE] ∨
      (r = a ∧ ¬ is_reg a ∧ (IR ∈ [PRN; PUSH; POP; JMP; CALL; LDI; CMP] ∨ IR ∈ ALU_OP_LIST)) ∨
      (r = b ∧ is_reg a ∧ ¬ is_reg b ∧
       (IR = CMP ∨ IR ∈ ALU_OP_LIST ∧ operand_count IR = 2))
  | DivisionByZero => False
  end.
Proof.
  unfold decode, check_reg. repeat case_decide; intros [= <-]; subst;
    try (right; left; split_and!; [done..|]; by (left; compute_done) || by right);
    try (left; by compute_done).
  - right. right. split_and!; auto.
  - right. right. split_and!; [done..|]. right. split; [done|].
    match goal with H : _ ∈ ALU_OP_LIST |- _ => unfold ALU_OP_LIST in H; elem_cases H; done end.
  - split; [done|]. unfold unhandled, DISPATCHED, HANDLED.
    rewrite !not_elem_of_app, !not_elem_of_cons.
    split_and!; done || apply not_elem_of_nil.
Qed.

Lemma alu8_None op a b : op ∈ ALU_OP_LIST → alu8 op a b = None → op = MOD ∧ b = 0.
Proof.
  intros Hi. unfold ALU_OP_LIST in Hi. elem_cases Hi; unfold alu8; simpl; try done.
  by case_decide.
Qed.

Lemma not_reg_byte r : byte r → ¬ is_reg r → 8 ≤ r.
Proof. unfold byte, is_reg. lia. Qed.

Lemma spec_fault_raises s f l :
  wf8 s → in_bounds s → spec_step s = Faulted f →
  match f with
  | UnsupportedOperation IR =>
      IR = mem s (pc s) ∧ unhandled IR ∧
      ∃ o, run_body l s = (o, set_pc (pc s + instr_size IR) s) ∧
           (is_Ok o ∨ o = Raise UnboundLocalError)
  | InvalidRegisterIndex r =>
      mem s (pc s) ∈ [JEQ; JNE] ∨ raises IndexError (run_body l) s
  | DivisionByZero => raises ZeroDivisionError (run_body l) s
  end.
Proof.
  intros Hs Hb E. unfold spec_step, in_bounds in *.
  pose proof (wf8_wf _ Hs) as Hwf.
  pose proof (at_pc_intro s _ Hs eq_refl) as Hat.
  pose proof (R_byte s SP Hs) as HSP.
  destruct (decode _ _ _) as [f'|i] eqn:D.
  - injection E as ->. apply decode_inl in D. destruct f as [op| |r]; simpl in D; [|done|].
    { destruct D as [-> Hun]. split_and!; [done..|]. by apply run_body_skip. }
    destruct D as [?|[(-> & Hr & Hi)|(-> & Ha & Hr & Hi)]]; [by left|right..];
      apply not_reg_byte in Hr; auto with ls8.
    + by apply (run_body_bad_reg_a s l (mem s (pc s))).
    + by apply (run_body_bad_reg_b s l (mem s (pc s))).
  - apply decode_inr in D.
    destruct i; simpl in E; unfold spec_alu in E;
      try destruct (spec_pop _); try done;
      destruct (alu8 _ _ _) eqn:A; try done; destruct D as (-> & Hi & Hops & D).
    + pose proof (alu8_None _ _ _ Hi A) as [HM HB]. rewrite HM in *.
      rewrite decide_True in E by done. injection E as <-.
      destruct D as (-> & -> & Ha & Hrb). rewrite R_set_pc in HB.
      eapply raises_intro. rewrite (run_body_ALU2 s l MOD) by done.
      rewrite HB. by alu_simpl.
    + pose proof (alu8_None _ _ _ Hi A) as [HM HB]. by rewrite HM in Hops.
Qed.

(** C31. Where the specification's machine faults: a division by zero is a
    [ZeroDivisionError] of the code, an operand that names no register an
    [IndexError] (except on the conditional jumps, which only read the
    register when they jump), and an unsupported opcode is one the code has
    no handler for, which it skips: the iteration moves the program
    counter past the instruction and changes nothing else, and it
    continues unless it reads an unbound local. *)
Theorem code_refines_spec_fault s f l :
  wf8 s → in_bounds s → spec_step s = Faulted f →
  match f with
  | UnsupportedOperation IR =>
      IR = mem s (pc s) ∧ unhandled IR ∧
      ∃ o, run_body l s = (o, set_pc (pc s + instr_size IR) s) ∧
           (is_Ok o ∨ o = Raise UnboundLocalError)
  | InvalidRegisterIndex r =>
      mem s (pc s) ∈ [JEQ; JNE] ∨ raises IndexError (run_body l) s
  | DivisionByZero => raises ZeroDivisionError (run_body l) s
  end.
Proof. apply spec_fault_raises. Qed.

Lemma code_refines_spec_fault_witness :
  raises ZeroDivisionError (run_body unbound) (booted [MOD; 0; 1]).
Proof.
  apply (code_refines_spec_fault (booted [MOD; 0; 1]) DivisionByZero unbound);
    by compute_done.
Defined.

(** A fault after steps that need no truncation: the run of the code
    arrives at the same state and raises there. *)
Lemma spec_run_fault fuel s f l :
  wf8 s → Forall safe (spec_states fuel s) → in_bounds (spec_last fuel s) →
  spec_run fuel s = Some (Faulted f) →
  match f with
  | UnsupportedOperation IR => unhandled IR
  | InvalidRegisterIndex r =>
      mem (spec_last fuel s) (pc (spec_last fuel s)) ∈ [JEQ; JNE] ∨
      ∃ c, run_from fuel l s = Some (Raise IndexError, c)
  | DivisionByZero => ∃ c, run_from fuel l s = Some (Raise ZeroDivisionError, c)
  end.
Proof.
  revert s l. induction fuel as [|n IH]; intros s l Hs Hsafe Hb Hrun; [done|].
  simpl in Hsafe, Hb, Hrun. destruct (spec_step s) as [s1|s1|f1] eqn:E; [|done|].
  - apply Forall_cons in Hsafe as [Hsafe Hrest].
    destruct (safe_step s s1 l Hs Hsafe E) as [l' Hl].
    assert (wf8 s1) as Hs1 by (eapply execute_wf8_step; eauto).
    specialize (IH s1 l' Hs1 Hrest Hb Hrun).
    destruct f; [done|..]; cbn [spec_last]; by rewrite ?E, (run_from_step n l s l' s1 Hl).
  - injection Hrun as ->. pose proof (spec_fault_raises s f l Hs Hb E) as Hf.
    destruct f as [IR| |r]; [by destruct Hf as (_ & ? & _)| |destruct Hf as [?|Hf]].
    + destruct Hf as [c Hc]. exists c. by apply run_from_raise.
    + left. cbn [spec_last]. by rewrite E.
    + right. destruct Hf as [c Hc]. exists c. by apply run_from_raise.
Qed.

End Faults.

(** ** Claims on the refinement *)

Section Claims.
Implicit Types (s c : cpu) (l : locals) (fuel : nat).

(** The machine of the specification keeps its data model: from bytes
    everywhere it steps to bytes everywhere. *)
Theorem spec_step_wf8 s s' : wf8 s → spec_step s = Running s' → wf8 s'.
Proof. intros Hs E. eapply execute_wf8_step; eauto. Qed.

Lemma spec_step_wf8_witness : wf8 (write_reg 0 8 (set_pc 3 (booted [LDI; 0; 8; HLT]))).
Proof. apply (spec_step_wf8 (booted [LDI; 0; 8; HLT])); by compute_done. Defined.

(** C3. One instruction: where the specification's machine goes on, an
    iteration of the loop of [run] continues, and the low 8 bits of the
    registers, memory and program counter it leaves are the specification's
    state. *)
Theorem code_refines_spec_step s s' l :
  wf8 s → in_bounds s → spec_step s = Running s' →
  ∃ l' c, run_body l s = (Ok (Continue l'), c) ∧ wrap_state c = s'.
Proof.
  intros Hs Hb E. pose proof (refined_step s Hs Hb) as Hr.
  rewrite E in Hr. destruct Hr as (c & Hc & Hw). destruct (Hc l) as [l' Hl]. eauto.
Qed.

Lemma code_refines_spec_step_witness :
  ∃ l' c, run_body unbound (booted [INC; 7; HLT]) = (Ok (Continue l'), c) ∧
          wrap_state c = write_reg 7 245 (set_pc 2 (booted [INC; 7; HLT])).
Proof. apply code_refines_spec_step; by compute_done. Defined.

(** Where the specification's machine halts, the iteration leaves the loop
    with the same state. *)
Theorem code_refines_spec_halt s s' l :
  wf8 s → spec_step s = Halted s' →
  ∃ c, run_body l s = (Ok Break, c) ∧ wrap_state c = s'.
Proof. intros Hs E. destruct (refined_halt s s' Hs E) as (c & Hc & Hw). eauto. Qed.

Lemma code_refines_spec_halt_witness :
  ∃ c, run_body unbound (booted [HLT]) = (Ok Break, c) ∧
       wrap_state c = set_pc 1 (booted [HLT]).
Proof. apply code_refines_spec_halt; by compute_done. Defined.

(** Where no truncation is needed the two machines make the same step. *)
Theorem code_equals_spec_step s s' l :
  wf8 s → safe s → spec_step s = Running s' →
  ∃ l', run_body l s = (Ok (Continue l'), s').
Proof. apply safe_step. Qed.

Lemma code_equals_spec_step_witness :
  ∃ l', run_body unbound (booted [LDI; 0; 8; HLT]) =
        (Ok (Continue l'), write_reg 0 8 (set_pc 3 (booted [LDI; 0; 8; HLT]))).
Proof. apply code_equals_spec_step; by compute_done. Defined.

(** C16. Whole runs: if the specification's machine halts within the fuel and
    every state on the way is one where the code needs no truncation, then
    [run] halts within the same fuel, without an exception, in the state the
    specification ends in (up to the final program counter, which the code
    does not wrap). *)
Theorem run_refines_spec fuel s s' :
  wf8 s → Forall safe (spec_states fuel s) → spec_run fuel s = Some (Halted s') →
  ∃ c, run fuel s = Some (Ok tt, c) ∧ wrap_state c = s'.
Proof. apply spec_run_safe. Qed.

Lemma run_refines_spec_witness :
  ∃ c, run 5 (booted [LDI; 0; 8; LDI; 1; 9; ADD; 0; 1; PRN; 0; HLT]) = Some (Ok tt, c) ∧
       wrap_state c =
       set_stdout ("17" +:+ nl)
         (write_reg 0 17 (write_reg 1 9
            (set_pc 12 (booted [LDI; 0; 8; LDI; 1; 9; ADD; 0; 1; PRN; 0; HLT])))).
Proof. apply run_refines_spec; by compute_done. Defined.

(** C15. The other direction: a run of the code that halts, on which the
    specification's machine needs no truncation and does not stop with a
    fault, is a run of the specification's machine, which halts within the
    same fuel in the same state. *)
Theorem spec_refines_run fuel s c :
  wf8 s → Forall safe (spec_states fuel s) →
  (∀ f, spec_run fuel s ≠ Some (Faulted f)) →
  run fuel s = Some (Ok tt, c) → spec_run fuel s = Some (Halted (wrap_state c)).
Proof.
  intros Hs Hsafe Hfault Hrun. destruct (spec_run fuel s) as [[s1|s1|f]|] eqn:E.
  - by apply spec_run_not_Running in E.
  - destruct (spec_run_safe fuel s s1 unbound Hs Hsafe E) as (c' & Hc' & <-).
    unfold run, run_from in *. congruence.
  - by destruct (Hfault f).
  - apply (spec_run_safe_None fuel s unbound) in E; [|done..].
    unfold run, run_from in *. congruence.
Qed.

Lemma spec_refines_run_witness :
  spec_run 3 (booted [LDI; 0; 8; PRN; 0; HLT])
  = Some (Halted (wrap_state (mkCPU [8; 0; 0; 0; 0; 0; 0; 0xF4] 6 0
                                (ram (booted [LDI; 0; 8; PRN; 0; HLT])) ("8" +:+ nl)))).
Proof. apply spec_refines_run; [by compute_done..|by intros f; vm_compute|by compute_done]. Defined.

(** Whole runs that end in a fault: after steps that need no truncation,
    a division by zero of the specification's machine is a
    [ZeroDivisionError] of [run], raised within the same fuel; an operand
    that names no register is an [IndexError], except on JEQ and JNE; an
    unsupported opcode is one the code has no handler for. *)
Theorem run_refines_spec_fault fuel s f :
  wf8 s → Forall safe (spec_states fuel s) → in_bounds (spec_last fuel s) →
  spec_run fuel s = Some (Faulted f) →
  match f with
  | UnsupportedOperation IR => unhandled IR
  | InvalidRegisterIndex r =>
      mem (spec_last fuel s) (pc (spec_last fuel s)) ∈ [JEQ; JNE] ∨
      ∃ c, run fuel s = Some (Raise IndexError, c)
  | DivisionByZero => ∃ c, run fuel s = Some (Raise ZeroDivisionError, c)
  end.
Proof. apply spec_run_fault. Qed.

Lemma run_refines_spec_fault_witness :
  ∃ c, run 3 (booted [LDI; 0; 8; LDI; 1; 0; MOD; 0; 1; HLT])
       = Some (Raise ZeroDivisionError, c).
Proof.
  apply (run_refines_spec_fault 3 (booted [LDI; 0; 8; LDI; 1; 0; MOD; 0; 1; HLT])
           DivisionByZero); by compute_done.
Defined.

(** As long as the specification's machine is running through states that
    need no truncation, [run] is running too. *)
Theorem run_diverges_with_spec fuel s :
  wf8 s → Forall safe (spec_states fuel s) → spec_run fuel s = None → run fuel s = None.
Proof. apply spec_run_safe_None. Qed.

Lemma run_diverges_with_spec_witness : run 2 (booted [LDI; 0; 8; PRN; 0; HLT]) = None.
Proof. apply run_diverges_with_spec; by compute_done. Defined.

End Claims.
