(* ===== verification/Fragment.v ===== *)
(** * Fragment.v: where the code is the machine of the specification

    The code keeps Python's integers and the specification truncates to 8
    bits, so the two part where a value leaves the bytes.  This file names
    the instructions at which that can happen and shows that there are no
    others.  A state is [quiet] when the instruction at [pc] and the
    program counter after it lie within the memory, the opcode is none of
    ADD, SUB, MUL, INC, DEC and SHL, and a PUSH or CALL finds the stack
    pointer above 0.  From a quiet state of bytes the iteration of
    [CPU.run] leaves bytes everywhere, so it needs no truncation
    ([quiet_safe]); along a run of the specification's machine through
    quiet states the code does what the specification says
    ([quiet_run_refines_spec]).  The condition is on the states of the
    specification's machine only, and it is decidable.

    The six opcodes are characterised by the registers R0 to R6
    ([general]): an opcode is one of the six exactly when some iteration
    from a state of bytes leaves a value outside 0..255 in one of them
    ([overflowing_exact]).  One direction runs each of the six on
    [wide_probe].  The other follows every other opcode through the
    iteration, however it ends: LDI, POP and the ALU operations AND, NOT,
    OR, XOR, SHR and MOD store a byte ([bytes8], an invariant with the
    rule [bind_preserves_post] for the values read); PUSH, CALL and RET
    assign no register but R7 ([same_general]); the remaining opcodes
    assign no register at all, by their footprint. *)

From S2P Require Import Prelude Python Loop Opcodes Alu Cpu Frame Dispatch Run Footprint Isa.

#[local] Open Scope Z_scope.
#[local] Open Scope ls8_scope.

(** The ALU operations whose result on bytes can leave the bytes. *)
Definition OVERFLOWING : list Z := [ADD; SUB; MUL; INC; DEC; SHL].

(** A state at which the code needs no truncation, told from the
    instruction at [pc]. *)
Definition quiet (s : cpu) : Prop :=
  pc s + 1 + operand_count (mem s (pc s)) < 256 ∧
  mem s (pc s) ∉ OVERFLOWING ∧
  (mem s (pc s) ∈ [PUSH; CALL] → 0 < R s SP).

#[export] Instance quiet_dec s : Decision (quiet s).
Proof. unfold quiet. apply _. Defined.

(** A state of bytes on which the instruction [IR] leaves the bytes:
    [R0 = 255], [R1 = 200], [R2 = 0], and the operands chosen so that SUB
    goes below 0 and DEC starts from 0. *)
Definition wide_probe (IR : Z) : cpu :=
  {| reg := [255; 200; 0; 0; 0; 0; 0; 0xF4]; pc := 0; fl := 0;
     ram := [IR; (if decide (IR = SUB) then 1 else if decide (IR = DEC) then 2 else 0);
             (if decide (IR = SUB) then 0 else 1)] ++ replicate 253 0;
     stdout := "" |}.

(** The registers R0 to R6: all of them but the stack pointer. *)
Definition general (c : cpu) : list Z := take 7 (reg c).

(** Registers and memory hold bytes; the program counter is free. *)
Definition bytes8 (c : cpu) : Prop := wf c ∧ Forall byte (reg c) ∧ Forall byte (ram c).

(** The operand [b] of the decoder, when it is a number, is a byte. *)
Definition byte_operand (b : option Z) : Prop := ∀ v, b = Some v → byte v.

(** The local [b] of [run], when it is bound to a number, is a byte. *)
Definition byte_locals (l : locals) : Prop := ∀ b, loc_b l = Some b → byte_operand b.

(** The opcodes outside the six whose handler stores a value in the
    register named by the operand. *)
Definition LOADING : list Z := [LDI; POP] ++ BYTE_CLOSED.

(** The instructions that move the stack pointer and assign no other
    register. *)
Definition STACKING : list Z := [PUSH; CALL; RET].

(** R0 to R6 of [c] are as in [s0]. *)
Definition same_general (s0 c : cpu) : Prop := general c = general s0.

(** ** Registers and memory stay bytes *)

Section Bytes.
Implicit Types (s c : cpu) (l : locals) (IR op r a v : Z) (b : option Z).

Lemma wf8_bytes8 s : wf8 s → bytes8 s.
Proof. by intros [????]. Qed.

Lemma R_bytes8 s r : bytes8 s → byte (R s r).
Proof.
  intros (_ & Hreg & _). unfold R.
  destruct (reg s !! _) eqn:E; simpl; [by eapply (Forall_lookup_1 byte (reg s))|done].
Qed.

Lemma mem_bytes8 s a : bytes8 s → byte (mem s a).
Proof.
  intros (_ & _ & Hram). unfold mem.
  destruct (ram s !! _) eqn:E; simpl; [by eapply (Forall_lookup_1 byte (ram s))|done].
Qed.

Lemma bytes8_write_reg s r v : bytes8 s → byte v → bytes8 (write_reg r v s).
Proof.
  intros (Hs & Hreg & Hram) Hv. split_and!; [by apply wf_write_reg| |done].
  by apply Forall_insert.
Qed.

(** What is read from a register or a cell is a byte. *)
Lemma reg_get_byte r s x s' : bytes8 s → reg_get r s = (Ok x, s') → byte x.
Proof. intros (_ & Hreg & _) [_ E]%reg_get_inv. by eapply getitem_Forall. Qed.

Lemma ram_read_byte a s x s' : bytes8 s → ram_read a s = (Ok x, s') → byte x.
Proof. intros (_ & _ & Hram) [_ E]%ram_read_inv. by eapply getitem_Forall. Qed.

(** A byte may be stored in any register. *)
Lemma reg_set_bytes8 r v : byte v → Preserves bytes8 (reg_set r v).
Proof.
  intros Hv s (Hs & Hreg & Hram). split; [by apply (reg_set_wf r v s)|].
  unfold reg_set, exec. munfold.
  destruct (setitem (reg s) r v) as [l'|e] eqn:E; simpl; [|done].
  split; [by apply (setitem_Forall byte (reg s) r v l')|done].
Qed.

#[local] Instance set_pc_bytes8 v : Preserves bytes8 (modify (set_pc v)).
Proof. apply modify_preserves. by intros s (Hs & ? & ?); split; [apply wf_set_pc|]. Qed.

#[local] Instance fetch_operands_bytes8 IR l : Preserves bytes8 (fetch_operands IR l).
Proof. apply fetch_operands_preserves, _. Qed.

(** [pop_mdr] returns a byte and leaves bytes. *)
Lemma pop_mdr_bytes8 s x s' :
  bytes8 s → pop_mdr s = (x, s') → bytes8 s' ∧ ∀ v, x = Ok v → byte v.
Proof.
  intros Hs. pose proof (R_bytes8 s SP Hs) as Hsp. pose proof Hs as (Hwf & _).
  rewrite pop_mdr_ok by done. intros [= <- <-]. split.
  - case_decide; [|done]. apply bytes8_write_reg; [done|]. unfold byte in *. lia.
  - intros v [= <-]. by apply mem_bytes8.
Qed.

#[local] Instance pop_to_reg_bytes8 r : Preserves bytes8 (pop_to_reg r).
Proof.
  apply (bind_preserves_post bytes8 byte).
  - intros s x s' Hs E. by eapply pop_mdr_bytes8.
  - intros s Hs. unfold exec. destruct (pop_mdr s) eqn:E. by eapply pop_mdr_bytes8.
  - apply reg_set_bytes8.
Qed.

(** A lambda of [BYTE_CLOSED] called on bytes returns a byte, with
    whatever number of arguments it is called: with the wrong number it
    raises. *)
Lemma call_closed op args v :
  op ∈ BYTE_CLOSED → Forall byte args → call (ALU_DISPATCH !! op) args = Ok v → byte v.
Proof.
  intros Hin Hargs. destruct args as [|x [|y [|z args]]].
  1,4: unfold BYTE_CLOSED in Hin; elem_cases Hin; by alu_simpl.
  all: destruct (decide (operand_count op = 1)) as [E|E].
  2,3: unfold BYTE_CLOSED in Hin; elem_cases Hin; by alu_simpl.
  - apply Forall_cons in Hargs as [Hx _]. intros Hc.
    apply (alu_byte_closed op x 0); [done..|]. unfold alu_args. by rewrite decide_True.
  - apply Forall_cons in Hargs as [Hx [Hy _]%Forall_cons]. intros Hc.
    apply (alu_byte_closed op x y); [done..|]. unfold alu_args. by rewrite decide_False.
Qed.

Lemma alu_closed op a b s x s' :
  op ∈ BYTE_CLOSED → bytes8 s → alu op a b s = (Ok x, s') → byte x.
Proof.
  intros Hin Hs. unfold alu. destruct (ALU_DISPATCH !! op) as [foo|] eqn:Hfoo; [|done].
  rewrite <- Hfoo. destruct b as [rb|].
  - intros (x1 & s1 & E1 & (y1 & s2 & E2 & H)%bind_Ok_inv)%bind_Ok_inv.
    pose proof (reg_get_byte _ _ _ _ Hs E1). apply reg_get_inv in E1 as [-> _].
    pose proof (reg_get_byte _ _ _ _ Hs E2).
    apply (call_closed op [x1; y1]); [done|by rewrite !Forall_cons|]. by injection H.
  - intros (x1 & s1 & E1 & H)%bind_Ok_inv.
    pose proof (reg_get_byte _ _ _ _ Hs E1).
    apply (call_closed op [x1]); [done|by rewrite !Forall_cons|]. by injection H.
Qed.

#[local] Instance alu_bytes8 op a b : Preserves bytes8 (alu op a b).
Proof. unfold alu. destruct (ALU_DISPATCH !! op), b; apply _. Qed.

(** The opcodes of [LOADING] have one or two operand bytes, go through
    [dispatch], and are LDI, POP or in the ALU table. *)
Lemma LOADING_facts IR :
  IR ∈ LOADING →
  0 < operand_count IR < 3 ∧ IR ∉ [HLT; CALL; RET] ∧
  (IR ∈ [LDI; POP] ∨ IR ∈ BYTE_CLOSED ∧ IR ∈ ALU_OP_LIST).
Proof.
  intros Hin. unfold LOADING, BYTE_CLOSED in Hin. simpl in Hin.
  elem_cases Hin; by compute_done.
Qed.

Lemma dispatch_bytes8 IR a b :
  IR ∈ LOADING → byte_operand b → Preserves bytes8 (dispatch IR (Some a) b).
Proof.
  intros Hin Hb. rewrite dispatch_unfold.
  destruct (LOADING_facts IR Hin) as (_ & _ & [H|[Hclosed Halu]]).
  - elem_cases H; destruct b as [v|]; simpl; try apply _. by apply reg_set_bytes8, Hb.
  - rewrite ALU_not_HANDLED by done. destruct (alu_switch IR); [|apply _].
    apply (bind_preserves_post bytes8 byte); [|apply _|apply reg_set_bytes8].
    intros s x s' Hs. by apply alu_closed.
Qed.

Lemma evaluate_bytes8 IR l :
  IR ∈ LOADING → byte_locals l → Preserves bytes8 (evaluate IR l).
Proof.
  intros Hin Hl. pose proof (LOADING_facts IR Hin) as (_ & Hc & _).
  unfold evaluate. rewrite !decide_False by set_solver.
  destruct l as [[a|] [b|]]; simpl in *; try apply _.
  intros s Hs. unfold exec. rewrite !bind_ret_l.
  apply (bind_preserves bytes8 (dispatch IR (Some a) b)); [|apply _|done].
  apply dispatch_bytes8; auto.
Qed.

(** The decoder of an opcode with operands leaves bytes in [a] and [b]. *)
Lemma fetch_operands_bytes IR l s l' s' :
  0 < operand_count IR < 3 → bytes8 s → fetch_operands IR l s = (Ok l', s') →
  byte_locals l'.
Proof.
  intros Hops Hs. unfold fetch_operands, pc_add. repeat case_decide; [| |lia].
  - intros (p & s1 & [= <- <-] & (a & s2 & [-> _]%ram_read_inv & (p' & s3 & [= <- <-] &
      (b & s4 & Eb & Hk)%bind_Ok_inv)%bind_Ok_inv)%bind_Ok_inv)%bind_Ok_inv.
    pose proof (ram_read_byte _ _ _ _ Hs Eb) as Hb. revert Hk. munfold.
    by intros [= <- _] b' [= <-] v [= <-].
  - intros (p & s1 & [= <- <-] & (a & s2 & Ea & Hk)%bind_Ok_inv)%bind_Ok_inv.
    revert Hk. munfold. by intros [= <- _] b' [= <-] v.
Qed.

Lemma run_body_bytes8 l s IR :
  getitem (ram s) (pc s) = Ok IR → IR ∈ LOADING → bytes8 s → bytes8 (exec (run_body l) s).
Proof.
  intros E Hin Hs. pose proof (LOADING_facts IR Hin) as (Hops & _).
  unfold exec. rewrite run_body_opcode, E.
  apply (bind_preserves_post bytes8 byte_locals); [|apply _| |done].
  - intros s1 l' s' Hs1. by apply fetch_operands_bytes.
  - intros l'. by apply evaluate_bytes8.
Qed.

End Bytes.

(** ** Quiet states *)

Section Quiet.
Implicit Types (s c : cpu) (l : locals) (fuel : nat) (IR : Z).

Lemma ALU_OP_LIST_split IR : IR ∈ ALU_OP_LIST → IR ∉ OVERFLOWING → IR ∈ BYTE_CLOSED.
Proof.
  intros Hin Hout. unfold ALU_OP_LIST in Hin.
  elem_cases Hin; by compute_done || by destruct Hout; compute_done.
Qed.

(** [wf8_auto] closes a goal [wf8 c] for a state [c] built from the
    assignments; [quiet_by lem] does so for the state after the instruction
    named by the lemma [lem]. *)
Ltac wf8_auto :=
  repeat case_decide;
  repeat (first [apply wf8_set_pc | apply wf8_write_reg | apply wf8_write_mem
                | apply wf8_set_fl | apply wf8_set_stdout]);
  auto with ls8; unfold byte in *; lia.

Ltac quiet_by lem :=
  unfold exec;
  rewrite lem by (solve [auto using at_pc_intro with ls8] || (unfold byte in *; lia));
  cbn [snd]; wf8_auto.

Lemma quiet_call IR args v :
  IR ∈ ALU_OP_LIST → IR ∉ OVERFLOWING → Forall byte args →
  call (ALU_DISPATCH !! IR) args = Ok v → byte v.
Proof. intros Hin Hout. by apply call_closed, ALU_OP_LIST_split. Qed.

(** From a quiet state of bytes, where the specification's machine goes
    on, the iteration of the code leaves bytes everywhere. *)
Lemma quiet_wf8 s s' :
  wf8 s → quiet s → spec_step s = Running s' → wf8 (exec (run_body unbound) s).
Proof.
  intros Hs (Hb & Hov & Hsp) E. unfold spec_step in E.
  destruct (decode _ _ _) as [f|i] eqn:D; [done|].
  apply decode_inr in D. pose proof (wf8_wf _ Hs) as Hwf.
  pose proof (at_pc_intro s _ Hs eq_refl) as Hat.
  pose proof (R_byte s SP Hs) as HSP. pose proof (wf8_pc _ Hs) as Hpc.
  destruct i; destruct_and?; subst;
    repeat match goal with H : mem s (pc s) = _ |- _ => rewrite H in *; clear H end.
  all: try change (operand_count _) with 0 in *.
  all: try change (operand_count _) with 1 in *.
  all: try change (operand_count _) with 2 in *.
  all: try (assert (byte (R s SP - 1))
              by (specialize (Hsp ltac:(by compute_done)); unfold byte in *; lia)).
  1: done.
  1-10: first [ quiet_by run_body_LDI | quiet_by run_body_PRN | quiet_by run_body_PUSH
              | quiet_by run_body_POP | quiet_by run_body_CMP | quiet_by run_body_JMP
              | quiet_by run_body_JEQ | quiet_by run_body_JNE | quiet_by run_body_CALL
              | quiet_by run_body_RET ].
  - match goal with H : operand_count _ = _ |- _ => rewrite H in * end.
    unfold exec. rewrite (run_body_ALU2 s unbound (mem s (pc s))) by (done || lia).
    destruct (call _ _) as [v|e] eqn:C; cbn [snd]; [|wf8_auto].
    apply quiet_call in C; [wf8_auto|done..|]. rewrite !Forall_cons. auto with ls8.
  - match goal with H : operand_count _ = _ |- _ => rewrite H in * end.
    unfold exec. rewrite (run_body_ALU1 s unbound (mem s (pc s))) by (done || lia).
    destruct (call _ _) as [v|e] eqn:C; cbn [snd]; [|wf8_auto].
    apply quiet_call in C; [wf8_auto|done..|]. rewrite !Forall_cons. auto with ls8.
Qed.

Lemma quiet_safe s s' : wf8 s → quiet s → spec_step s = Running s' → safe s.
Proof.
  intros Hs Hq E. split; [|by eapply quiet_wf8].
  destruct Hq as [Hb _]. pose proof (operand_count_range (mem s (pc s))).
  unfold in_bounds. lia.
Qed.

Lemma quiet_states_safe fuel s :
  wf8 s → Forall quiet (spec_states fuel s) → Forall safe (spec_states fuel s).
Proof.
  revert s. induction fuel as [|n IH]; intros s Hs Hq; [done|].
  simpl in *. destruct (spec_step s) as [s1|s1|f] eqn:E; [|done..].
  apply Forall_cons in Hq as [Hq Hrest]. constructor; [by eapply quiet_safe|].
  apply IH; [|done]. eapply execute_wf8_step; eauto.
Qed.

End Quiet.

(** ** The stack instructions keep R0 to R6 *)

Section General.
Context (s0 : cpu).
Implicit Types (s c : cpu) (l : locals) (IR r v : Z).

#[local] Instance reg_set_SP_general v : Preserves (same_general s0) (reg_set SP v).
Proof.
  intros s Hs. unfold reg_set, exec, same_general, general in *. munfold.
  destruct (setitem (reg s) SP v) as [l'|e] eqn:E; simpl; [|done].
  apply setitem_Ok in E as (k & Hk%py_index_Some & ->). rewrite take_insert_ge; [done|].
  unfold SP in Hk. lia.
Qed.

#[local] Instance ram_write_general a v : Preserves (same_general s0) (ram_write a v).
Proof. unfold ram_write. frame_tac. by apply modify_preserves. Qed.

#[local] Instance set_pc_general v : Preserves (same_general s0) (modify (set_pc v)).
Proof. by apply modify_preserves. Qed.

#[local] Instance push_mdr_general v : Preserves (same_general s0) (push_mdr v).
Proof. apply _. Qed.

#[local] Instance pop_mdr_general : Preserves (same_general s0) pop_mdr.
Proof. unfold pop_mdr. frame_tac. Qed.

#[local] Instance dispatch_PUSH_general a b : Preserves (same_general s0) (dispatch PUSH a b).
Proof. rewrite dispatch_unfold. destruct a, b; simpl; apply _. Qed.

#[local] Instance evaluate_general IR l :
  IR ∈ STACKING → Preserves (same_general s0) (evaluate IR l).
Proof.
  intros Hin. unfold evaluate. repeat case_decide; subst; try apply _.
  unfold STACKING in Hin. elem_cases Hin; try done. apply _.
Qed.

Lemma run_body_general l IR :
  getitem (ram s0) (pc s0) = Ok IR → IR ∈ STACKING →
  general (exec (run_body l) s0) = general s0.
Proof.
  intros E Hin. unfold exec. rewrite run_body_opcode, E.
  apply (bind_preserves (same_general s0) (fetch_operands IR l));
    [apply fetch_operands_preserves, _|intros l'; by apply evaluate_general|done].
Qed.

End General.

(** ** The six opcodes, and no others *)

Lemma run_body_keeps_reg l s IR :
  getitem (ram s) (pc s) = Ok IR → IR ∉ LOADING ++ STACKING ++ OVERFLOWING →
  reg (exec (run_body l) s) = reg s.
Proof.
  intros E Hout. apply (keeps_reg (footprint IR)); [by apply run_body_frame|].
  unfold footprint, effect. intros Hin. apply Hout. clear Hout.
  repeat case_decide; set_unfold; naive_solver.
Qed.

(** From a state of bytes an iteration at an opcode that is none of the
    six leaves bytes in R0 to R6, however it ends. *)
Lemma general_bytes l s IR :
  IR ∉ OVERFLOWING → wf8 s → at_pc s IR → Forall byte (general (exec (run_body l) s)).
Proof.
  intros Hout Hs [Hpc <-]. pose proof (getitem_ram s (pc s) (wf8_wf _ Hs) Hpc) as E.
  destruct (decide (mem s (pc s) ∈ LOADING)) as [H1|H1];
    [|destruct (decide (mem s (pc s) ∈ STACKING)) as [H2|H2]].
  - apply Forall_take. by eapply run_body_bytes8, wf8_bytes8.
  - rewrite (run_body_general s l _ E H2). apply Forall_take, Hs.
  - unfold general. rewrite (run_body_keeps_reg l s _ E) by set_solver.
    apply Forall_take, Hs.
Qed.

Lemma wide_probe_overflows :
  Forall (λ IR, wf8 (wide_probe IR) ∧ at_pc (wide_probe IR) IR ∧
                ¬ Forall byte (general (exec (run_body unbound) (wide_probe IR))))
    OVERFLOWING.
Proof. by compute_done. Qed.

(** ** Claims *)

Section Claims.
Implicit Types (s c : cpu) (l : locals) (fuel : nat) (IR : Z).

(** One instruction on the fragment: from a quiet state of bytes, where the
    specification's machine makes a step, the iteration of [run] ends in
    the very state the specification describes, with nothing to
    truncate. *)
Theorem quiet_step_equal s s' l :
  wf8 s → quiet s → spec_step s = Running s' →
  ∃ l', run_body l s = (Ok (Continue l'), s').
Proof. intros Hs Hq E. apply safe_step; [done| |done]. by eapply quiet_safe. Qed.

Lemma quiet_step_equal_witness :
  ∃ l', run_body unbound (booted [LDI; 0; 8; HLT]) =
        (Ok (Continue l'), write_reg 0 8 (set_pc 3 (booted [LDI; 0; 8; HLT]))).
Proof. apply quiet_step_equal; by compute_done. Defined.

(** C1. Whole runs on the fragment: if the specification's machine halts
    within the fuel and the states on its way are quiet, [run] halts within
    the same fuel without an exception, in the specification's final
    state.  So the code implements the specification except at ADD, SUB,
    MUL, INC, DEC and SHL, at a push with the stack pointer at 0, and at
    the end of the memory. *)
Theorem quiet_run_refines_spec fuel s s' :
  wf8 s → Forall quiet (spec_states fuel s) → spec_run fuel s = Some (Halted s') →
  ∃ c, run fuel s = Some (Ok tt, c) ∧ wrap_state c = s'.
Proof. intros Hs Hq. apply spec_run_safe; [done|]. by apply quiet_states_safe. Qed.

Lemma quiet_run_refines_spec_witness :
  ∃ c, run 4 (booted [LDI; 0; 12; LDI; 1; 10; AND; 0; 1; HLT]) = Some (Ok tt, c) ∧
       wrap_state c =
       write_reg 0 8 (write_reg 1 10
         (set_pc 10 (booted [LDI; 0; 12; LDI; 1; 10; AND; 0; 1; HLT]))).
Proof. apply quiet_run_refines_spec; by compute_done. Defined.

(** C39. The six opcodes are exactly the ones that take a register out of
    the bytes: an opcode is one of ADD, SUB, MUL, INC, DEC and SHL if and
    only if there is a state of bytes with that opcode at [pc] from which
    the iteration of [run], however it ends, leaves a value outside
    0..255 in one of the registers R0 to R6.  R7 is left out because it is
    the stack pointer, which PUSH and CALL take from 0 to -1
    ([push_mdr_wraps]). *)
Theorem overflowing_exact IR :
  IR ∈ OVERFLOWING ↔
  ∃ s l, wf8 s ∧ at_pc s IR ∧ ¬ Forall byte (general (exec (run_body l) s)).
Proof.
  split.
  - intros Hin. exists (wide_probe IR), unbound.
    by apply (proj1 (Forall_forall _ _) wide_probe_overflows).
  - intros (s & l & Hs & Hat & Hno). destruct (decide (IR ∈ OVERFLOWING)); [done|].
    destruct Hno. by apply (general_bytes l s IR).
Qed.

Lemma overflowing_exact_witness :
  ∃ s l, wf8 s ∧ at_pc s INC ∧ ¬ Forall byte (general (exec (run_body l) s)).
Proof. apply (overflowing_exact INC). by compute_done. Defined.

End Claims.
