(* ===== verification/Programs.v ===== *)
(** * Programs.v: [main], and whole programs

    [main] of [src/ls8.py] after the file was read: a new machine, the
    program loaded at address 0, [run].  The theorems of this file are about
    whole programs: the scenarios the specification lists as testable
    properties, run through the model by computation; the programs on which
    the code does something the specification does not expect; a program
    that never halts, for every amount of fuel; and programs with
    parameters, run by the tactic of [Exec.v] for every value of the
    parameters: a sum, a comparison with a branch, a subroutine call, and
    a loop that counts down, which halts after a number of instructions
    that grows with its parameter when that is positive and never halts
    otherwise. *)

From S2P Require Import Prelude Python Loop Opcodes Parser Alu Cpu Frame Dispatch Run Footprint Exec Isa.

#[local] Open Scope Z_scope.
#[local] Open Scope ls8_scope.

(** [cpu = CPU(); cpu.load(program); cpu.run()].  An exception in [load]
    ends [main] before [run]. *)
Definition main (program : list Z) (fuel : nat) : option (result unit * cpu) :=
  match load (Some program) CPU_init with
  | (Ok _, s) => run fuel s
  | (Raise e, s) => Some (Raise e, s)
  end.

(** [main] from the lines of the program file on: the parse, then the
    machine.  An exception of the parse ends [main] before there is a
    machine. *)
Definition main_lines (lines : list string) (fuel : nat)
    : result (option (result unit * cpu)) :=
  match parse_program lines with
  | Ok program => Ok (main program fuel)
  | Raise e => Raise e
  end.

(** What a finished [main] has printed. *)
Definition output (o : option (result unit * cpu)) : option string :=
  stdout ∘ snd <$> o.

(** How a finished [main] ended. *)
Definition status (o : option (result unit * cpu)) : option (result unit) :=
  fst <$> o.

(** The programs of the specification's end-to-end scenarios. *)
Definition print17 : list Z := [LDI; 0; 8; LDI; 1; 9; ADD; 0; 1; PRN; 0; HLT].

Definition halt_only : list Z := [HLT].

(** The same program as the lines of a program file. *)
Definition print17_file : list string :=
  [ "# print 8 + 9" +:+ nl;
    "10000010 # LDI R0,8" +:+ nl;
    "00000000" +:+ nl;
    "00001000" +:+ nl;
    "10000010 # LDI R1,9" +:+ nl;
    "00000001" +:+ nl;
    "00001001" +:+ nl;
    nl;
    "10100000 # ADD R0,R1" +:+ nl;
    "00000000" +:+ nl;
    "00000001" +:+ nl;
    "01000111 # PRN R0" +:+ nl;
    "00000000" +:+ nl;
    "00000001 # HLT" ].

(** A subroutine at address 11 that doubles [R0], called once. *)
Definition call_double : list Z :=
  [LDI; 1; 11; LDI; 0; 7; CALL; 1; PRN; 0; HLT; ADD; 0; 0; RET].

(** Compare and branch: prints 1 if [R0 = R1], 2 otherwise. *)
Definition branch (a b : Z) : list Z :=
  [LDI; 0; a; LDI; 1; b; LDI; 2; 20; CMP; 0; 1; JEQ; 2;
   LDI; 3; 2; PRN; 3; HLT; LDI; 3; 1; PRN; 3; HLT].

(** [R0 = 255; R0 += 1; print R0]. *)
Definition overflow : list Z := [LDI; 0; 255; INC; 0; PRN; 0; HLT].

(** An opcode the dispatcher has no handler for (JGT), between two
    instructions. *)
Definition with_JGT : list Z := [LDI; 0; 8; JGT; 0; PRN; 0; HLT].

(** NOP as the first instruction. *)
Definition nop_first : list Z := [NOP; HLT].

(** A jump to itself. *)
Definition spin : list Z := [LDI; 0; 3; JMP; 0].

(** A program without HLT. *)
Definition no_halt : list Z := [LDI; 0; 8].

(** [R0 = a; R1 = b; R0 += R1; print R0]. *)
Definition sum (a b : Z) : list Z :=
  [LDI; 0; a; LDI; 1; b; ADD; 0; 1; PRN; 0; HLT].

(** The subroutine of [call_double], called with [R0 = v]. *)
Definition double (v : Z) : list Z :=
  [LDI; 1; 11; LDI; 0; v; CALL; 1; PRN; 0; HLT; ADD; 0; 0; RET].

(** A loop at address 9: print [R0], decrement it, and go round again
    unless it is 0. *)
Definition count_down (n : Z) : list Z :=
  [LDI; 0; n; LDI; 1; 0; LDI; 2; 9; PRN; 0; DEC; 0; CMP; 0; 1; JNE; 2; HLT].

(** [R0] and [R1] exchanged through the stack. *)
Definition swap (a b : Z) : list Z :=
  [LDI; 0; a; LDI; 1; b; PUSH; 0; PUSH; 1; POP; 0; POP; 1; PRN; 0; PRN; 1; HLT].

(** A loop at address 12 that adds [R0] to [R1] and decrements [R0] until
    it is 0, then prints [R1]. *)
Definition triangle (n : Z) : list Z :=
  [LDI; 0; n; LDI; 1; 0; LDI; 2; 0; LDI; 3; 12;
   ADD; 1; 0; DEC; 0; CMP; 0; 2; JNE; 3; PRN; 1; HLT].

(** [k + (k - 1) + ... + 1] *)
Fixpoint triangle_number (k : nat) : Z :=
  match k with
  | O => 0
  | S j => Z.of_nat k + triangle_number j
  end.

(** The machine at the head of the loop of [triangle n], with [v] in [R0]
    and the sum so far in [R1]. *)
Definition at_add (n v acc f : Z) (out : string) : cpu :=
  {| reg := [v; acc; 0; 12; 0; 0; 0; 0xF4]; pc := 12; fl := f;
     ram := ram (booted (triangle n)); stdout := out |}.

(** What the loop prints from [k] down to 1. *)
Fixpoint count_text (k : nat) : string :=
  match k with
  | O => EmptyString
  | S j => str (Z.of_nat k) +:+ nl +:+ count_text j
  end.

(** The machine at the head of the loop of [count_down n], with [v] in
    [R0], the flags [f], and [out] printed so far. *)
Definition at_loop (n v f : Z) (out : string) : cpu :=
  {| reg := [v; 0; 9; 0; 0; 0; 0; 0xF4]; pc := 9; fl := f;
     ram := ram (booted (count_down n)); stdout := out |}.

Section Main.
Implicit Types (program : list Z) (fuel : nat) (s : cpu).

Lemma booted_wf program : wf (booted program).
Proof. apply load_wf, wf_CPU_init. Qed.

Lemma main_booted program fuel :
  (length program ≤ 256)%nat → main program fuel = run fuel (booted program).
Proof.
  intros Hp. unfold main, booted, exec.
  rewrite load_spec by apply wf_CPU_init. by rewrite decide_True by done.
Qed.

(** The memory after [load]: the first 256 bytes of the program, then
    zeros. *)
Lemma loaded_ram program :
  ram (load (Some program) CPU_init).2
  = take 256 program ++ replicate (256 - length program) 0.
Proof.
  rewrite load_spec by apply wf_CPU_init. cbn [snd ram set_ram].
  change (ram CPU_init) with (replicate 256 0). by rewrite drop_replicate.
Qed.

Lemma booted_wf8 program :
  (length program ≤ 256)%nat → Forall byte program → wf8 (booted program).
Proof.
  intros Hp Hb. split; [apply booted_wf|unfold booted, exec..].
  - rewrite load_spec by apply wf_CPU_init. by compute_done.
  - rewrite load_spec by apply wf_CPU_init. cbn [snd ram set_ram].
    apply Forall_app. split; [by apply Forall_take|].
    apply Forall_drop. by apply Forall_replicate.
  - rewrite load_spec by apply wf_CPU_init. by compute_done.
Qed.

End Main.

(** ** The scenarios of the specification *)

Section Scenarios.

(** [LDI R0,8; LDI R1,9; ADD R0,R1; PRN R0; HLT] prints 17 and halts
    without an exception, in five instructions. *)
Theorem main_print17 :
  output (main print17 5) = Some ("17" +:+ nl) ∧
  status (main print17 5) = Some (Ok tt) ∧
  reg ∘ snd <$> main print17 5 = Some [17; 9; 0; 0; 0; 0; 0; 0xF4] ∧
  main print17 4 = None.
Proof. by vm_compute. Qed.

(** A program that is only HLT: no output, every register at its initial
    value, the program counter after the HLT. *)
Theorem main_halt_only :
  main halt_only 1 = Some (Ok tt, set_pc 1 (booted halt_only)) ∧
  output (main halt_only 1) = Some "" ∧
  reg ∘ snd <$> main halt_only 1 = Some [0; 0; 0; 0; 0; 0; 0; 0xF4].
Proof. by vm_compute. Qed.

(** A call of a subroutine that doubles [R0]: the subroutine runs once, the
    instruction after the CALL prints the result, and the stack pointer is
    back at [0xF4]. *)
Theorem main_call_double :
  output (main call_double 7) = Some ("14" +:+ nl) ∧
  status (main call_double 7) = Some (Ok tt) ∧
  reg ∘ snd <$> main call_double 7 = Some [14; 11; 0; 0; 0; 0; 0; 0xF4].
Proof. by vm_compute. Qed.

(** Compare and branch, both ways: equal registers take the JEQ, different
    ones fall through it. *)
Theorem main_branch :
  output (main (branch 5 5) 8) = Some ("1" +:+ nl) ∧
  output (main (branch 5 3) 8) = Some ("2" +:+ nl) ∧
  output (main (branch 3 5) 8) = Some ("2" +:+ nl) ∧
  fl ∘ snd <$> main (branch 5 5) 8 = Some 1 ∧
  fl ∘ snd <$> main (branch 5 3) 8 = Some 2 ∧
  fl ∘ snd <$> main (branch 3 5) 8 = Some 4.
Proof. by vm_compute. Qed.

(** From the text of the program file to the output: the file of the first
    scenario, with comments and an empty line, prints 17. *)
Theorem main_lines_print17 :
  parse_program print17_file = Ok print17 ∧
  ∃ o, main_lines print17_file 5 = Ok o ∧
       output o = Some ("17" +:+ nl) ∧ status o = Some (Ok tt).
Proof. split; [by vm_compute|]. eexists. split_and!; by vm_compute. Qed.

(** A line that is no binary number: [main] ends with [ValueError] before
    the machine is made. *)
Theorem main_lines_malformed fuel :
  main_lines ["00000001" +:+ nl; "HLT" +:+ nl] fuel = Raise ValueError.
Proof. by vm_compute. Qed.

End Scenarios.

(** ** Where the code and the specification part *)

Section Divergences.
Implicit Types (program : list Z) (fuel : nat).

(** 255 + 1: the code prints 256, the specification's machine wraps to 0. *)
Theorem main_overflow :
  output (main overflow 4) = Some ("256" +:+ nl) ∧
  (∃ s', spec_run 4 (booted overflow) = Some (Halted s') ∧ stdout s' = "0" +:+ nl).
Proof. split; [by vm_compute|]. eexists. split; by vm_compute. Qed.

(** An opcode without a handler, after an instruction with operands: the
    code skips it, reads its operand byte, and goes on to print and halt;
    the specification's machine stops with UnsupportedOperation. *)
Theorem main_with_JGT :
  output (main with_JGT 4) = Some ("8" +:+ nl) ∧
  status (main with_JGT 4) = Some (Ok tt) ∧
  spec_run 4 (booted with_JGT) = Some (Faulted (UnsupportedOperation JGT)).
Proof. by vm_compute. Qed.

(** NOP as the first instruction: the locals that hold the operands were
    never assigned, and the run ends with UnboundLocalError. *)
Theorem main_nop_first :
  main nop_first 1 = Some (Raise UnboundLocalError, set_pc 1 (booted nop_first)).
Proof. by vm_compute. Qed.

(** A program without HLT runs on through the zeroed memory, one cell per
    iteration, and ends with IndexError when the program counter leaves
    the memory. *)
Theorem main_no_halt :
  status (main no_halt 255) = Some (Raise IndexError) ∧
  pc ∘ snd <$> main no_halt 255 = Some 256 ∧
  main no_halt 254 = None.
Proof. by vm_compute. Qed.

(** C36. A program of more than 256 bytes: [load] raises IndexError once the
    memory is full, and [run] is never entered. *)
Theorem main_too_long program fuel :
  (256 < length program)%nat →
  main program fuel =
  Some (Raise IndexError, set_ram (take 256 program) CPU_init).
Proof.
  intros Hp. unfold main. rewrite load_spec by apply wf_CPU_init.
  rewrite decide_False by lia. do 2 f_equal.
  cbn [ram CPU_init]. by rewrite drop_ge, app_nil_r by (rewrite length_replicate; lia).
Qed.

Lemma main_too_long_witness :
  main (replicate 257 HLT) 0 =
  Some (Raise IndexError, set_ram (take 256 (replicate 257 HLT)) CPU_init).
Proof. apply main_too_long. by compute_done. Defined.

(** A jump to itself never leaves the loop: for every amount of fuel [main]
    is still running when the fuel is spent. *)
Theorem main_spin_diverges fuel : main spin fuel = None.
Proof.
  rewrite main_booted by by compute_done.
  set (s1 := write_reg 0 3 (set_pc 3 (booted spin))).
  assert (run_body unbound (booted spin) = (Ok (Continue (operands2 (booted spin))), s1))
    as H1 by by vm_compute.
  assert (∀ l, run_body l s1 = (Ok (Continue (operands1 s1)), s1))
    as H2 by (intros [??]; by vm_compute).
  destruct fuel as [|[|fuel]]; [done|by unfold run; rewrite while_true_S, H1|].
  unfold run. rewrite while_true_S, H1. cbv beta iota.
  rewrite while_true_S, H2. cbv beta iota.
  apply while_true_cycle. constructor. apply H2.
Qed.

(** [main] refines the specification: a program of at most 256 bytes on
    which the specification's machine halts within the fuel, through states
    that need no truncation, makes [main] halt without an exception in the
    specification's final state. *)
Theorem main_refines_spec program fuel s' :
  (length program ≤ 256)%nat → Forall byte program →
  Forall safe (spec_states fuel (booted program)) →
  spec_run fuel (booted program) = Some (Halted s') →
  ∃ c, main program fuel = Some (Ok tt, c) ∧ wrap_state c = s'.
Proof.
  intros Hp Hb Hsafe Hrun. rewrite main_booted by done.
  apply spec_run_safe; auto using booted_wf8.
Qed.

Lemma main_refines_spec_witness :
  ∃ c, main call_double 7 = Some (Ok tt, c) ∧
       wrap_state c =
       set_stdout ("14" +:+ nl)
         (write_reg 0 14 (write_reg 1 11 (set_pc 11 (write_mem 243 8 (booted call_double))))).
Proof. apply main_refines_spec; by compute_done. Defined.

End Divergences.

(** ** Programs with parameters *)

Section EveryInput.
Implicit Types (a b v n f : Z) (k fuel : nat) (l : locals) (out : string).

(** The loop of [count_down] from [R0 = k + 1]: [4 (k + 1)] instructions
    later, and not earlier, the machine is at the HLT, whatever fuel [m]
    is left. *)
Lemma count_down_rounds n k m l f out :
  0 ≤ f ≤ 7 →
  run_from (4 * S k + m) l (at_loop n (Z.of_nat (S k)) f out)
  = run_from m {| loc_a := Some 2; loc_b := Some None |}
      (set_pc 18 (at_loop n 0 1 (out +:+ count_text (S k)))).
Proof.
  unfold at_loop, set_pc. cbn [reg pc fl ram stdout]. boot_ram.
  revert l f out. induction k as [|k IH]; intros l f out Hf.
  - change (4 * 1 + m)%nat with (S (S (S (S m)))). do 4 run_step.
    cbn [count_text]. by rewrite append_nil_r.
  - replace (4 * S (S k) + m)%nat with (S (S (S (S (4 * S k + m)))))%nat by lia.
    do 4 run_step. rewrite jne_target, decide_False by lia.
    replace (Z.of_nat (S (S k)) - 1) with (Z.of_nat (S k)) by lia.
    rewrite IH by apply flags_of_range.
    change (count_text (S (S k)))
      with (str (Z.of_nat (S (S k))) +:+ nl +:+ count_text (S k)).
    by rewrite !append_assoc.
Qed.

(** The loop from [R0 <= 0] never reaches 0. *)
Lemma count_down_spin n fuel l v f out :
  v ≤ 0 → 0 ≤ f ≤ 7 → run_from fuel l (at_loop n v f out) = None.
Proof.
  unfold at_loop. boot_ram. revert l v f out.
  induction fuel as [fuel IH] using lt_wf_ind. intros l v f out Hv Hf.
  destruct fuel as [|[|[|[|fuel]]]];
    [done|run_step; done|do 2 run_step; done|do 3 run_step; done|].
  do 4 run_step. rewrite jne_target, decide_False by lia.
  apply IH; [lia|lia|apply flags_of_range].
Qed.

Lemma triangle_number_closed k :
  2 * triangle_number k = Z.of_nat k * (Z.of_nat k + 1).
Proof. induction k as [|k IH]; [done|]. cbn [triangle_number]. lia. Qed.

(** The loop of [triangle] from [R0 = k + 1] adds [k + 1], ..., 1 to the
    sum in [4 (k + 1)] instructions and is then at the PRN, whatever fuel
    [m] is left. *)
Lemma triangle_rounds n k m l acc f out :
  0 ≤ f ≤ 7 →
  run_from (4 * S k + m) l (at_add n (Z.of_nat (S k)) acc f out)
  = run_from m {| loc_a := Some 3; loc_b := Some None |}
      (set_pc 22 (at_add n 0 (acc + triangle_number (S k)) 1 out)).
Proof.
  unfold at_add, set_pc. cbn [reg pc fl ram stdout]. boot_ram.
  revert l acc f out. induction k as [|k IH]; intros l acc f out Hf.
  - change (4 * 1 + m)%nat with (S (S (S (S m)))). do 4 run_step.
    cbn [triangle_number]. by rewrite (Z.add_comm _ acc), Z.add_0_r.
  - replace (4 * S (S k) + m)%nat with (S (S (S (S (4 * S k + m)))))%nat by lia.
    do 4 run_step. rewrite jne_target, decide_False by lia.
    replace (Z.of_nat (S (S k)) - 1) with (Z.of_nat (S k)) by lia.
    rewrite IH by apply flags_of_range.
    change (triangle_number (S (S k))) with (Z.of_nat (S (S k)) + triangle_number (S k)).
    by rewrite (Z.add_comm (Z.of_nat (S (S k))) acc), <- !Z.add_assoc.
Qed.

(** The run of [sum a b], state and all. *)
Lemma main_sum_run a b :
  main (sum a b) 5
  = Some (Ok tt, {| reg := [a + b; b; 0; 0; 0; 0; 0; 0xF4]; pc := 12; fl := 0;
                    ram := ram (booted (sum a b)); stdout := str (a + b) +:+ nl |}).
Proof.
  rewrite main_booted by by compute_done. boot. do 5 run_step.
  by rewrite (Z.add_comm b a).
Qed.

(** The fifth instruction is needed: four do not end the run. *)
Lemma main_sum_short a b : main (sum a b) 4 = None.
Proof. rewrite main_booted by by compute_done. boot. by do 4 run_step. Qed.

(** C4. The sum of any two integers is printed as it is: [sum 255 1] prints
    256, [sum (-1) 0] prints -1.  Nothing is truncated to 8 bits.  The
    run takes exactly five instructions. *)
Theorem main_sum a b :
  output (main (sum a b) 5) = Some (str (a + b) +:+ nl) ∧
  status (main (sum a b) 5) = Some (Ok tt) ∧
  reg ∘ snd <$> main (sum a b) 5 = Some [a + b; b; 0; 0; 0; 0; 0; 0xF4] ∧
  main (sum a b) 4 = None.
Proof. by rewrite main_sum_run, main_sum_short. Qed.

(** C33. Compare and branch, for all integers: the program prints 1 when the
    two values are equal and 2 otherwise, and halts after exactly eight
    instructions either way. *)
Theorem main_branch_all a b :
  output (main (branch a b) 8) = Some ((if decide (a = b) then "1" else "2") +:+ nl) ∧
  status (main (branch a b) 8) = Some (Ok tt) ∧
  main (branch a b) 7 = None.
Proof.
  rewrite !main_booted by by compute_done. boot. split_and!; do 5 run_step;
    rewrite jeq_target; case_decide; first [do 3 run_step|do 2 run_step]; done.
Qed.

(** A call of the doubling subroutine with any integer in [R0]: the
    subroutine returns to the instruction after the CALL, which prints
    twice the value. *)
Theorem main_double v :
  output (main (double v) 7) = Some (str (v + v) +:+ nl) ∧
  status (main (double v) 7) = Some (Ok tt).
Proof. rewrite main_booted by by compute_done. boot. do 7 run_step. done. Qed.

(** C20. The loop terminates for every positive start value, also above 255:
    [count_down (k + 1)] halts after exactly [4 (k + 1) + 4] instructions
    (one fewer leaves it running), having printed the numbers from
    [k + 1] down to 1, with [R0 = 0]. *)
Theorem main_count_down k :
  main (count_down (Z.of_nat (S k))) (4 * S k + 4)
  = Some (Ok tt, set_pc 19 (at_loop (Z.of_nat (S k)) 0 1 (count_text (S k)))) ∧
  main (count_down (Z.of_nat (S k))) (4 * S k + 3) = None.
Proof.
  rewrite !main_booted by by compute_done.
  replace (4 * S k + 4)%nat with (S (S (S (4 * S k + 1))))%nat by lia.
  replace (4 * S k + 3)%nat with (S (S (S (4 * S k + 0))))%nat by lia.
  boot. split; do 3 run_step; rewrite (count_down_rounds (Z.of_nat (S k)) k _ _ 0 EmptyString) by lia.
  - unfold at_loop, set_pc. cbn [reg pc fl ram stdout]. boot_ram. by run_step.
  - done.
Qed.

(** C32. Started at 0 or below the loop never ends: [R0] moves away from 0,
    since nothing wraps a register around at 8 bits, and [main] is still
    running whatever the fuel. *)
Theorem main_count_down_diverges n fuel : n ≤ 0 → main (count_down n) fuel = None.
Proof.
  intros Hn. rewrite main_booted by by compute_done.
  destruct fuel as [|[|[|fuel]]];
    [done|boot; run_step; done|boot; do 2 run_step; done|].
  boot. do 3 run_step. by apply (count_down_spin n).
Qed.

(** Two values pushed and popped in the other order come back exchanged,
    whatever they are, and the stack pointer is back at [0xF4]. *)
Theorem main_swap a b :
  output (main (swap a b) 9) = Some (str b +:+ nl +:+ str a +:+ nl) ∧
  status (main (swap a b) 9) = Some (Ok tt) ∧
  reg ∘ snd <$> main (swap a b) 9 = Some [b; a; 0; 0; 0; 0; 0; 0xF4].
Proof.
  rewrite main_booted by by compute_done. boot. do 9 run_step. by rewrite append_assoc.
Qed.

(** C21. The loop with an accumulator: for every [n >= 1], also where the sum
    is far above 255, [triangle n] halts after exactly [4 n + 6]
    instructions and has printed [n (n + 1) / 2]. *)
Theorem main_triangle k :
  main (triangle (Z.of_nat (S k))) (4 * S k + 6)
  = Some (Ok tt, set_pc 25 (at_add (Z.of_nat (S k)) 0 (triangle_number (S k)) 1
                              (str (triangle_number (S k)) +:+ nl))) ∧
  main (triangle (Z.of_nat (S k))) (4 * S k + 5) = None ∧
  2 * triangle_number (S k) = Z.of_nat (S k) * (Z.of_nat (S k) + 1).
Proof.
  split_and!; [| |apply triangle_number_closed]; rewrite main_booted by by compute_done.
  - replace (4 * S k + 6)%nat with (S (S (S (S (4 * S k + 2)))))%nat by lia.
    boot. do 4 run_step.
    rewrite (triangle_rounds (Z.of_nat (S k)) k _ _ 0 0 EmptyString), Z.add_0_l by lia.
    unfold at_add, set_pc. cbn [reg pc fl ram stdout]. boot_ram. by do 2 run_step.
  - replace (4 * S k + 5)%nat with (S (S (S (S (4 * S k + 1)))))%nat by lia.
    boot. do 4 run_step.
    rewrite (triangle_rounds (Z.of_nat (S k)) k _ _ 0 0 EmptyString), Z.add_0_l by lia.
    unfold at_add, set_pc. cbn [reg pc fl ram stdout]. boot_ram. by run_step.
Qed.

(** The same loop on the specification's machine from 23: the sum 276
    does not fit a byte, and the machine prints 20. *)
Theorem spec_triangle_wraps :
  ∃ s', spec_run 98 (booted (triangle 23)) = Some (Halted s') ∧ stdout s' = "20" +:+ nl.
Proof. eexists. split; by vm_compute. Qed.

Lemma main_count_down_diverges_witness : main (count_down 0) 1000 = None.
Proof. by apply main_count_down_diverges. Defined.

(** The specification's machine on the same loop from 0: the decrement
    wraps to 255, the loop comes back to 0 after 256 rounds, and the
    machine halts after 1028 instructions. *)
Theorem spec_count_down_wraps :
  spec_run 1027 (booted (count_down 0)) = None ∧
  ∃ s', spec_run 1028 (booted (count_down 0)) = Some (Halted s') ∧
        reg s' = [0; 0; 9; 0; 0; 0; 0; 0xF4].
Proof. split; [by vm_compute|]. eexists. split; by vm_compute. Qed.

End EveryInput.

(** ** The program text *)

Section Text.
Implicit Types (program : list Z) (fuel : nat) (r : result unit) (s : cpu).

(** C24. A program without the bytes of PUSH and CALL is still in memory, byte
    for byte, when [main] ends, however it ends: by HLT, by an exception
    of the machine, or by the [IndexError] of [load] on a program of more
    than 256 bytes, which leaves the first 256 in memory. *)
Theorem main_keeps_program program fuel r s :
  PUSH ∉ program → CALL ∉ program → main program fuel = Some (r, s) →
  ram s = take 256 program ++ replicate (256 - length program) 0.
Proof.
  intros HP HC. unfold main. pose proof (loaded_ram program) as Hram.
  destruct (load (Some program) CPU_init) as [[[]|e] s1]; simpl in Hram.
  - intros Hrun. rewrite <- Hram. apply (run_from_keeps_memory fuel unbound s1 r); [..|done];
      rewrite Hram, elem_of_app, elem_of_replicate;
      intros [(i & Hi%list_elem_of_lookup_2 & _)%elem_of_take|[? _]]; done.
  - by intros [= _ <-].
Qed.

Lemma main_keeps_program_witness :
  ram (mkCPU [17; 9; 0; 0; 0; 0; 0; 0xF4] 12 0 (ram (booted print17)) ("17" +:+ nl))
  = take 256 print17 ++ replicate (256 - length print17) 0.
Proof. apply (main_keeps_program print17 5 (Ok tt)); by compute_done. Defined.

(** C22. Straight-line programs terminate: a program of any length without the
    bytes of JMP, JEQ, JNE, CALL, RET and PUSH makes [main] end within 257
    instructions, by HLT or by an exception. *)
Theorem main_straight_line_terminates program :
  Forall (λ IR, IR ∉ PUSH :: JUMPS) program → is_Some (main program 257).
Proof.
  intros Hp. unfold main. pose proof (loaded_ram program) as Hram.
  pose proof (load_wf (Some program) CPU_init wf_CPU_init) as Hwf.
  pose proof (frame [Aram; Aout] (load (Some program)) CPU_init _) as Hf.
  unfold exec in Hwf, Hf.
  destruct (load (Some program) CPU_init) as [[[]|e] s1]; [|done]. simpl in *.
  apply (run_from_straight 256 unbound s1 Hwf).
  - rewrite Hram. apply Forall_app. split; [by apply Forall_take|].
    apply Forall_replicate. by compute_done.
  - by rewrite (keeps_pc _ _ _ Hf) by by compute_done.
  - rewrite (keeps_pc _ _ _ Hf) by by compute_done. done.
Qed.

Lemma main_straight_line_terminates_witness : is_Some (main [LDI; 0; 8; PRN; 0] 257).
Proof. apply main_straight_line_terminates. by compute_done. Defined.

End Text.
