(* ===== verification/Path.v ===== *)
(** * Path.v: [str.split], [str.join] and [os.path]

    [resolve_program] of [src/ls8.py] takes the program name apart with
    [str.split] and builds the path of the program file with
    [os.path.dirname], [os.path.join] and [os.path.abspath].  This file
    gives these functions the meaning they have on a POSIX system (the
    module [posixpath]): the separator is [/], [abspath] joins a relative
    path to the working directory and normalises the result with
    [normpath], which drops empty and [.] components and resolves [..]
    textually.  Strings are ASCII, as in [Parser.v].

    The theorems: [sep.join(s.split(sep))] is [s], and a list of
    components without separator is the split of its join; the first
    element of a split is [before] of [Parser.v]; a split is never empty,
    so the subscripts [[-1]] and [[0]] of [resolve_program] cannot raise;
    [normpath] returns its argument when that is a normal absolute path,
    and joining a plain file name to a normal absolute directory gives a
    normal absolute path. *)

From Stdlib Require Import Ascii.
From S2P Require Import Prelude Python Parser.

#[local] Open Scope Z_scope.

(** ** [str] methods *)

(** [s.split(sep)] for a separator of one character: the pieces between
    the separators, empty pieces included. *)
Fixpoint split (sep : ascii) (s : string) : list string :=
  match s with
  | String c rest =>
      if decide (c = sep) then EmptyString :: split sep rest
      else
        match split sep rest with
        | x :: xs => String c x :: xs
        | [] => [String c EmptyString]
        end
  | EmptyString => [EmptyString]
  end.

(** [sep.join(l)] *)
Fixpoint str_join (sep : string) (l : list string) : string :=
  match l with
  | [] => EmptyString
  | [x] => x
  | x :: rest => x +:+ sep +:+ str_join sep rest
  end.

(** [s.startswith(prefix)] *)
Definition startswith (prefix s : string) : bool := String.prefix prefix s.

(** [s.endswith(c)] for one character. *)
Fixpoint endswith (c : ascii) (s : string) : bool :=
  match s with
  | String d EmptyString => bool_decide (d = c)
  | String _ rest => endswith c rest
  | EmptyString => false
  end.

(** [s.rstrip(c)] for one character. *)
Fixpoint rstrip_char (c : ascii) (s : string) : string :=
  match s with
  | String d rest =>
      let r := rstrip_char c rest in
      if decide (r = EmptyString)
      then (if decide (d = c) then EmptyString else String d EmptyString)
      else String d r
  | EmptyString => EmptyString
  end.

(** [s[:s.rfind(c) + 1]]: [s] up to and including the last [c], empty when
    there is none. *)
Fixpoint upto_last (c : ascii) (s : string) : string :=
  match s with
  | String d rest =>
      let h := upto_last c rest in
      if decide (h = EmptyString)
      then (if decide (d = c) then String d EmptyString else EmptyString)
      else String d h
  | EmptyString => EmptyString
  end.

(** [c * n] *)
Fixpoint repeat_char (c : ascii) (n : nat) : string :=
  match n with
  | O => EmptyString
  | S n => String c (repeat_char c n)
  end.

(** ** [os.path] on POSIX *)

(** The separator. *)
Notation sep := "/"%char (only parsing).

(** [os.path.isabs(path)] *)
Definition path_isabs (path : string) : bool := startswith "/" path.

(** [os.path.join(a, b)]: an absolute [b] replaces [a]. *)
Definition path_join (a b : string) : string :=
  if startswith "/" b then b
  else if decide (a = EmptyString ∨ endswith sep a) then a +:+ b
  else a +:+ "/" +:+ b.

(** [os.path.dirname(p)]: up to the last separator, without the separators
    at the end unless there is nothing else. *)
Definition path_dirname (p : string) : string :=
  let head := upto_last sep p in
  if decide (head ≠ EmptyString ∧ ¬ all_chars (λ c, bool_decide (c = sep)) head)
  then rstrip_char sep head
  else head.

(** The number of slashes [normpath] keeps at the front: POSIX gives two
    slashes a meaning of their own, three or more are one. *)
Definition initial_slashes (path : string) : nat :=
  if startswith "/" path then
    if startswith "//" path && negb (startswith "///" path) then 2 else 1
  else 0.

(** One round of the loop of [normpath] over the components. *)
Definition norm_step (initial : nat) (new_comps : list string) (comp : string)
    : list string :=
  if decide (comp = EmptyString ∨ comp = ".") then new_comps
  else if decide (comp ≠ ".." ∨ (initial = O ∧ new_comps = []) ∨
                  last new_comps = Some "..")
  then new_comps ++ [comp]
  else if decide (new_comps ≠ []) then removelast new_comps
  else new_comps.

(** [os.path.normpath(path)] *)
Definition path_normpath (path : string) : string :=
  if decide (path = EmptyString) then "."
  else
    let initial := initial_slashes path in
    let comps := foldl (norm_step initial) [] (split sep path) in
    let path := repeat_char sep initial +:+ str_join "/" comps in
    if decide (path = EmptyString) then "." else path.

(** [os.path.abspath(path)], with [os.getcwd()] as [cwd]. *)
Definition path_abspath (cwd path : string) : string :=
  path_normpath (if path_isabs path then path else path_join cwd path).

(** A component of a normal path: not empty, without separator, and
    neither [.] nor [..]. *)
Definition plain (comp : string) : Prop :=
  comp ≠ EmptyString ∧ comp ≠ "." ∧ comp ≠ ".." ∧
  all_chars (λ c, bool_decide (c ≠ sep)) comp.

#[export] Instance plain_dec comp : Decision (plain comp).
Proof. unfold plain. apply _. Defined.

(** A normal absolute path: one or two slashes, then plain components
    separated by single slashes. *)
Definition normal (path : string) : Prop :=
  ∃ initial comps, (initial = 1 ∨ initial = 2)%nat ∧ Forall plain comps ∧
    path = repeat_char sep initial +:+ str_join "/" comps.

(** ** Splitting and joining *)

Section Split.
Implicit Types (s t x : string) (c d : ascii) (l : list string).

(** The strings without the character [c]. *)
Notation without c := (all_chars (λ ch : ascii, bool_decide (ch ≠ c))).

Lemma split_nonempty c s : split c s ≠ [].
Proof. destruct s as [|d s]; simpl; [done|]. case_decide; [done|by destruct (split c s)]. Qed.

Lemma split_cons c s : ∃ x xs, split c s = x :: xs.
Proof. pose proof (split_nonempty c s). destruct (split c s) as [|x xs]; by eauto. Qed.

Lemma split_sep c s : split c (String c s) = EmptyString :: split c s.
Proof. simpl. by rewrite decide_True. Qed.

Lemma split_char c d s x xs :
  d ≠ c → split c s = x :: xs → split c (String d s) = String d x :: xs.
Proof. intros Hd Hs. simpl. by rewrite decide_False, Hs. Qed.

Lemma str_join_cons sep x y l :
  str_join sep (x :: y :: l) = x +:+ sep +:+ str_join sep (y :: l).
Proof. done. Qed.

Lemma str_join_char sep d x l :
  str_join sep (String d x :: l) = String d (str_join sep (x :: l)).
Proof. by destruct l. Qed.

(** Joining the pieces of a split with the separator gives the string
    back. *)
Lemma split_join c s : str_join (String c EmptyString) (split c s) = s.
Proof.
  induction s as [|d s IH]; [done|]. destruct (split_cons c s) as (x & xs & Hs).
  rewrite Hs in IH. destruct (decide (d = c)) as [->|Hd].
  - rewrite split_sep, Hs, str_join_cons, IH. done.
  - by rewrite (split_char c d s x xs), str_join_char, IH.
Qed.

(** A separator in the middle: the pieces before it, then the pieces after
    it. *)
Lemma split_app c s t : split c (s +:+ String c t) = split c s ++ split c t.
Proof.
  induction s as [|d s IH]; [by apply split_sep|].
  change (String d s +:+ String c t) with (String d (s +:+ String c t)).
  destruct (split_cons c s) as (x & xs & Hs). rewrite Hs in IH.
  destruct (decide (d = c)) as [->|Hd].
  - by rewrite !split_sep, IH, Hs.
  - by rewrite (split_char c d s x xs), (split_char c d _ x (xs ++ split c t)).
Qed.

Lemma split_without c s : without c s → split c s = [s].
Proof.
  induction s as [|d s IH]; [done|]. simpl.
  intros [Hd Hs]%andb_True. apply bool_decide_spec in Hd.
  by rewrite decide_False, IH.
Qed.

Lemma split_app_without c s t :
  without c s → split c (s +:+ String c t) = s :: split c t.
Proof. intros Hs. by rewrite split_app, split_without. Qed.

(** A list of pieces without separator is the split of its join. *)
Lemma join_split c l :
  l ≠ [] → Forall (λ x, without c x) l → split c (str_join (String c EmptyString) l) = l.
Proof.
  intros Hl Hall. induction Hall as [|x l Hx Hall IH]; [done|].
  destruct l as [|y l]; [by apply split_without|].
  rewrite str_join_cons.
  change (x +:+ String c EmptyString +:+ ?t) with (x +:+ String c t).
  rewrite split_app_without by done. by rewrite IH.
Qed.

Lemma split_Forall c s : Forall (λ x, without c x) (split c s).
Proof.
  induction s as [|d s IH]; [by repeat constructor|]. simpl. case_decide.
  - by constructor.
  - destruct (split c s) as [|x xs]; [by repeat constructor; simpl; rewrite bool_decide_true|].
    inversion_clear IH. constructor; [|done]. simpl. by rewrite bool_decide_true.
Qed.

(** The first piece is what [Parser.v] calls [before]. *)
Lemma split_head c s : head (split c s) = Some (before c s).
Proof.
  induction s as [|d s IH]; [done|]. simpl. case_decide; [done|].
  destruct (split c s); by simplify_eq/=.
Qed.

(** [s.split(c)[0]] and [s.split(c)[-1]] never raise. *)
Lemma getitem_split_0 c s : getitem (split c s) 0 = Ok (before c s).
Proof.
  pose proof (split_head c s) as Hh. destruct (split c s) as [|x xs]; [done|].
  simplify_eq/=. unfold getitem, py_index. rewrite decide_True; [done|simpl; lia].
Qed.

Lemma getitem_last {A} (l : list A) (v : A) : last l = Some v → getitem l (-1) = Ok v.
Proof.
  intros Hl. unfold getitem, py_index.
  assert (0 < length l)%nat by (destruct l; [done|simpl; lia]).
  rewrite decide_False, decide_True by lia. simpl.
  rewrite last_lookup in Hl. replace (Z.to_nat _) with (pred (length l)) by lia.
  by rewrite Hl.
Qed.

Lemma getitem_split_last c s : ∃ x, last (split c s) = Some x ∧ getitem (split c s) (-1) = Ok x.
Proof.
  destruct (last (split c s)) as [x|] eqn:Hl.
  - exists x. split; [done|]. by apply getitem_last.
  - apply last_None in Hl. by apply split_nonempty in Hl.
Qed.

End Split.

(** ** Facts on prefixes and suffixes *)

Section Affixes.
Implicit Types (s t x p : string) (c d : ascii) (l : list string) (n : nat).

Notation without c := (all_chars (λ ch : ascii, bool_decide (ch ≠ c))).

Lemma append_cons c s t : String c s +:+ t = String c (s +:+ t).
Proof. done. Qed.

Lemma append_nil_l s : EmptyString +:+ s = s.
Proof. done. Qed.

Lemma startswith_cons c d p s :
  startswith (String c p) (String d s) = bool_decide (c = d) && startswith p s.
Proof. unfold startswith. simpl. destruct (ascii_dec c d); by case_bool_decide. Qed.

Lemma startswith_nil s : startswith EmptyString s = true.
Proof. by destruct s. Qed.

Lemma startswith_app c s t :
  startswith (String c EmptyString) s → startswith (String c EmptyString) (s +:+ t).
Proof.
  destruct s as [|d s]; [done|]. change (String d s +:+ t) with (String d (s +:+ t)).
  by rewrite !startswith_cons, !startswith_nil.
Qed.

Lemma without_cons c s : without c s → s ≠ EmptyString → ∃ d x, s = String d x ∧ d ≠ c.
Proof.
  destruct s as [|d x]; [done|]. intros [Hd _]%andb_True _.
  apply bool_decide_spec in Hd. eauto.
Qed.

Lemma endswith_app c s t : t ≠ EmptyString → endswith c (s +:+ t) = endswith c t.
Proof.
  intros Ht. induction s as [|d s IH]; [done|].
  change (String d s +:+ t) with (String d (s +:+ t)). simpl.
  destruct (s +:+ t) eqn:Hst; [by destruct s, t|]. by rewrite <- IH.
Qed.

Lemma endswith_without c s : without c s → endswith c s = false.
Proof.
  induction s as [|d s IH]; [done|]. intros [Hd Hs]%andb_True. simpl.
  destruct s; [|by apply IH]. apply bool_decide_spec in Hd. by rewrite bool_decide_false.
Qed.

Lemma rstrip_char_cons c d s :
  rstrip_char c (String d s) =
  if decide (rstrip_char c s = EmptyString)
  then (if decide (d = c) then EmptyString else String d EmptyString)
  else String d (rstrip_char c s).
Proof. done. Qed.

Lemma endswith_single c d : endswith c (String d EmptyString) = false → d ≠ c.
Proof. simpl. by intros ?%bool_decide_eq_false. Qed.

Lemma rstrip_char_single c : rstrip_char c (String c EmptyString) = EmptyString.
Proof.
  rewrite rstrip_char_cons. change (rstrip_char c EmptyString) with EmptyString.
  by rewrite !decide_True.
Qed.

Lemma rstrip_char_id c s : endswith c s = false → rstrip_char c s = s.
Proof.
  induction s as [|d s IH]; [done|]. rewrite rstrip_char_cons. destruct s as [|d' s].
  - intros Hd%endswith_single. by rewrite decide_True, decide_False.
  - intros Hs. rewrite IH by done. by rewrite decide_False.
Qed.

Lemma rstrip_char_snoc c s :
  s ≠ EmptyString → endswith c s = false →
  rstrip_char c (s +:+ String c EmptyString) = s.
Proof.
  induction s as [|d s IH]; [done|]. intros _ Hs.
  change (String d s +:+ ?t) with (String d (s +:+ t)). rewrite rstrip_char_cons.
  destruct s as [|d' s].
  - apply endswith_single in Hs. change (EmptyString +:+ ?t) with t.
    by rewrite rstrip_char_single, decide_True, decide_False.
  - rewrite IH by done. by rewrite decide_False.
Qed.

Lemma upto_last_without c s : without c s → upto_last c s = EmptyString.
Proof.
  induction s as [|d s IH]; [done|]. intros [Hd Hs]%andb_True. simpl.
  apply bool_decide_spec in Hd. by rewrite IH, decide_True, decide_False.
Qed.

Lemma upto_last_app c s t :
  without c t → upto_last c (s +:+ String c t) = s +:+ String c EmptyString.
Proof.
  intros Ht. induction s as [|d s IH].
  - simpl. by rewrite upto_last_without, !decide_True.
  - change (String d s +:+ ?t) with (String d (s +:+ t)). simpl. rewrite IH.
    rewrite decide_False; [done|]. by destruct s.
Qed.

Lemma repeat_char_all c n : all_chars (λ d, bool_decide (d = c)) (repeat_char c n).
Proof. induction n; simpl; [done|]. by rewrite bool_decide_true. Qed.

End Affixes.

(** ** Normal paths *)

Section Normal.
Implicit Types (path d name comp s : string) (comps acc l : list string).
Implicit Types (initial n : nat).

Notation without c := (all_chars (λ ch : ascii, bool_decide (ch ≠ c))).

Lemma plain_without comp : plain comp → without sep comp.
Proof. by intros (_ & _ & _ & ?). Qed.

Lemma plain_cons comp : plain comp → ∃ c x, comp = String c x ∧ c ≠ sep.
Proof. intros (Hne & _ & _ & Hw). by apply without_cons. Qed.

Lemma plain_not_abs comp : plain comp → startswith "/" comp = false.
Proof.
  intros (c & x & -> & Hc)%plain_cons. rewrite startswith_cons.
  by rewrite bool_decide_false.
Qed.

Lemma norm_step_skip initial acc : norm_step initial acc EmptyString = acc.
Proof. unfold norm_step. by rewrite decide_True by auto. Qed.

Lemma norm_step_plain initial acc comp :
  plain comp → norm_step initial acc comp = acc ++ [comp].
Proof.
  intros (? & ? & ? & _). unfold norm_step.
  rewrite decide_False by naive_solver. by rewrite decide_True by auto.
Qed.

Lemma foldl_norm_plain initial acc comps :
  Forall plain comps → foldl (norm_step initial) acc comps = acc ++ comps.
Proof.
  intros H. revert acc. induction H as [|x l Hx _ IH]; intros acc; simpl.
  - by rewrite app_nil_r.
  - by rewrite norm_step_plain, IH, <- app_assoc.
Qed.

Lemma foldl_norm_skip initial n acc l :
  foldl (norm_step initial) acc (replicate n EmptyString ++ l)
  = foldl (norm_step initial) acc l.
Proof. induction n; simpl; [done|]. by rewrite norm_step_skip. Qed.

Lemma split_repeat_char n s :
  split sep (repeat_char sep n +:+ s) = replicate n EmptyString ++ split sep s.
Proof.
  induction n as [|n IH]; [done|].
  change (repeat_char sep (S n) +:+ s) with (String sep (repeat_char sep n +:+ s)).
  by rewrite split_sep, IH.
Qed.

Lemma str_join_not_abs comps :
  Forall plain comps → startswith "/" (str_join "/" comps) = false.
Proof.
  destruct 1 as [|comp l (c & x & -> & Hc)%plain_cons _]; [done|].
  rewrite str_join_char, startswith_cons. by rewrite bool_decide_false.
Qed.

Lemma str_join_nonempty comp comps :
  plain comp → str_join "/" (comp :: comps) ≠ EmptyString.
Proof. intros (c & x & -> & _)%plain_cons. by rewrite str_join_char. Qed.

Lemma initial_slashes_normal initial comps :
  (initial = 1 ∨ initial = 2)%nat → Forall plain comps →
  initial_slashes (repeat_char sep initial +:+ str_join "/" comps) = initial.
Proof.
  intros Hi Hc%str_join_not_abs. unfold initial_slashes.
  destruct Hi as [-> | ->]; cbn [repeat_char];
    by rewrite !append_cons, append_nil_l, !startswith_cons, ?startswith_nil, Hc.
Qed.

Lemma split_normal initial n comps :
  Forall plain comps →
  foldl (norm_step initial) [] (split sep (repeat_char sep n +:+ str_join "/" comps))
  = comps.
Proof.
  intros Hc. rewrite split_repeat_char, foldl_norm_skip. destruct comps as [|x l].
  - simpl. by rewrite norm_step_skip.
  - rewrite join_split; [by rewrite foldl_norm_plain|done|].
    eapply Forall_impl; [done|]. apply plain_without.
Qed.

Lemma repeat_char_S c n s :
  repeat_char c (S n) +:+ s = String c (repeat_char c n +:+ s).
Proof. done. Qed.

Lemma normal_nonempty initial s :
  (initial = 1 ∨ initial = 2)%nat → repeat_char sep initial +:+ s ≠ EmptyString.
Proof. intros Hi. destruct initial; [lia|]. by rewrite repeat_char_S. Qed.

Lemma normal_abs path : normal path → path_isabs path.
Proof.
  intros (initial & comps & Hi & _ & ->). destruct initial; [lia|].
  unfold path_isabs. by rewrite repeat_char_S, startswith_cons, startswith_nil.
Qed.

(** [normpath] leaves a normal path as it is. *)
Lemma normpath_normal path : normal path → path_normpath path = path.
Proof.
  intros (initial & comps & Hi & Hc & ->). unfold path_normpath. cbv zeta.
  rewrite decide_False by by apply normal_nonempty.
  rewrite initial_slashes_normal, split_normal by done.
  by rewrite decide_False by by apply normal_nonempty.
Qed.

Lemma str_join_snoc sp comps x :
  comps ≠ [] → str_join sp (comps ++ [x]) = str_join sp comps +:+ sp +:+ x.
Proof.
  induction comps as [|y l IH]; [done|]. intros _. destruct l as [|z l]; [done|].
  change ((y :: z :: l) ++ [x]) with (y :: z :: (l ++ [x])).
  rewrite !str_join_cons. change (z :: l ++ [x]) with ((z :: l) ++ [x]).
  by rewrite IH, !append_assoc.
Qed.

Lemma str_join_endswith comps :
  comps ≠ [] → Forall plain comps → endswith sep (str_join "/" comps) = false.
Proof.
  induction comps as [|x l IH]; [done|]. intros _ Hall.
  inversion_clear Hall as [|?? Hx Hl]. destruct l as [|y l].
  - by apply endswith_without, plain_without.
  - inversion Hl; subst. rewrite str_join_cons.
    rewrite endswith_app by done.
    rewrite (endswith_app _ "/") by by apply str_join_nonempty.
    by apply IH.
Qed.

Lemma repeat_char_endswith initial :
  (initial = 1 ∨ initial = 2)%nat → endswith sep (repeat_char sep initial) = true.
Proof. by intros [-> | ->]. Qed.

(** The directory part and the last component of a normal path with one
    component more. *)
Lemma join_normal_eq initial comps name :
  (initial = 1 ∨ initial = 2)%nat → Forall plain comps → plain name →
  path_join (repeat_char sep initial +:+ str_join "/" comps) name
  = repeat_char sep initial +:+ str_join "/" (comps ++ [name]).
Proof.
  intros Hi Hc Hn. unfold path_join. rewrite plain_not_abs by done.
  destruct comps as [|x l].
  - simpl str_join. rewrite append_nil_r, decide_True; [done|].
    right. by rewrite repeat_char_endswith.
  - rewrite decide_False, str_join_snoc, !append_assoc; [done..|].
    inversion Hc; subst. intros [?%normal_nonempty|Hend]; [done..|].
    rewrite endswith_app, str_join_endswith in Hend; [done..|].
    by apply str_join_nonempty.
Qed.

Lemma join_normal d name : normal d → plain name → normal (path_join d name).
Proof.
  intros (initial & comps & Hi & Hc & ->) Hn. exists initial, (comps ++ [name]).
  split_and!; [done| |by apply join_normal_eq].
  apply Forall_app_2; [done|by apply Forall_singleton].
Qed.

Lemma removelast_Forall {A} (P : A → Prop) (xs : list A) :
  Forall P xs → Forall P (removelast xs).
Proof. rewrite removelast_firstn_len. apply Forall_take. Qed.

Lemma dotdot_not_last acc : Forall plain acc → last acc ≠ Some "..".
Proof.
  intros Hacc (acc' & ->)%last_Some. apply Forall_app in Hacc as [_ Hdd].
  by inversion Hdd as [|?? (_ & _ & ? & _)].
Qed.

(** With a slash at the front the loop of [normpath] keeps plain
    components only: [..] is never kept. *)
Lemma norm_step_Forall initial acc comp :
  (0 < initial)%nat → Forall plain acc → without sep comp →
  Forall plain (norm_step initial acc comp).
Proof.
  intros Hi Hacc Hcomp. unfold norm_step. repeat case_decide; try done.
  - apply Forall_app_2; [done|]. apply Forall_singleton.
    assert (comp ≠ "..") by (pose proof (dotdot_not_last acc Hacc); naive_solver lia).
    split_and!; naive_solver.
  - by apply removelast_Forall.
Qed.

Lemma foldl_norm_Forall initial acc l :
  (0 < initial)%nat → Forall plain acc → Forall (λ x, without sep x) l →
  Forall plain (foldl (norm_step initial) acc l).
Proof.
  intros Hi Hacc Hl. revert acc Hacc.
  induction Hl as [|comp l Hcomp _ IH]; intros acc Hacc; [done|].
  simpl. by apply IH, norm_step_Forall.
Qed.

Lemma initial_slashes_abs path :
  path_isabs path → (initial_slashes path = 1 ∨ initial_slashes path = 2)%nat.
Proof.
  unfold path_isabs, initial_slashes. intros ->%Is_true_eq_true.
  destruct (_ && _); auto.
Qed.

(** [normpath] of an absolute path is a normal path. *)
Lemma normpath_abs path : path_isabs path → normal (path_normpath path).
Proof.
  intros Habs. pose proof (initial_slashes_abs path Habs) as Hi.
  unfold path_normpath. cbv zeta.
  rewrite decide_False by (intros ->; done).
  rewrite decide_False by by apply normal_nonempty.
  eexists _, _. split_and!; [done| |done].
  apply foldl_norm_Forall; [lia|done|apply split_Forall].
Qed.

Lemma join_abs cwd path : path_isabs cwd → path_isabs (path_join cwd path).
Proof.
  unfold path_isabs, path_join. intros Hcwd.
  destruct (startswith "/" path) eqn:Hp; [by rewrite Hp|].
  case_decide; by apply startswith_app.
Qed.

(** [abspath] returns a normal path, whatever it is given, as long as the
    working directory is absolute; on a normal path it is the identity. *)
Lemma abspath_normal cwd path : path_isabs cwd → normal (path_abspath cwd path).
Proof.
  intros Hcwd. apply normpath_abs. destruct (path_isabs path) eqn:Hp.
  - by rewrite Hp.
  - by apply join_abs.
Qed.

Lemma abspath_id cwd path : normal path → path_abspath cwd path = path.
Proof.
  intros Hn. unfold path_abspath.
  rewrite (Is_true_eq_true _ (normal_abs path Hn)). by apply normpath_normal.
Qed.

Lemma not_all_slashes s t x l :
  plain x →
  ¬ all_chars (λ c, bool_decide (c = sep)) ((s +:+ str_join "/" (x :: l)) +:+ t).
Proof.
  intros (c & y & -> & Hc)%plain_cons. rewrite str_join_char.
  intros [[_ [Hd _]%andb_True]%all_chars_app _]%all_chars_app.
  by apply bool_decide_spec in Hd.
Qed.

Lemma repeat_char_snoc c n s :
  repeat_char c (S n) +:+ s = repeat_char c n +:+ String c s.
Proof. induction n as [|n IH]; [done|]. by rewrite repeat_char_S, IH. Qed.

(** [dirname] undoes the [join] of a plain name to a normal directory. *)
Lemma dirname_join d name : normal d → plain name → path_dirname (path_join d name) = d.
Proof.
  intros (initial & comps & Hi & Hc & ->) Hn. rewrite join_normal_eq by done.
  unfold path_dirname. cbv zeta. destruct comps as [|x l].
  - destruct initial as [|n]; [lia|]. change ([] ++ [name]) with [name].
    simpl str_join. rewrite append_nil_r, repeat_char_snoc.
    rewrite upto_last_app by by apply plain_without.
    rewrite <- repeat_char_snoc, append_nil_r, decide_False; [done|].
    intros [_ []]. apply repeat_char_all.
  - inversion Hc; subst. rewrite str_join_snoc by done.
    rewrite append_cons, append_nil_l, <- append_assoc.
    rewrite upto_last_app by by apply plain_without.
    rewrite decide_True.
    + apply rstrip_char_snoc; [by apply normal_nonempty|].
      rewrite endswith_app by by apply str_join_nonempty.
      by apply str_join_endswith.
    + split; [|by apply not_all_slashes].
      rewrite append_assoc. by apply normal_nonempty.
Qed.

End Normal.

(** ** The theorems *)

Section Claims.
Implicit Types (cwd path d name : string).

(** [abspath] is idempotent and its result is a normal path: one or two
    slashes followed by components that are neither empty nor [.] nor
    [..], separated by single slashes. *)
Theorem abspath_idempotent cwd path :
  path_isabs cwd →
  normal (path_abspath cwd path) ∧
  path_abspath cwd (path_abspath cwd path) = path_abspath cwd path.
Proof. intros Hcwd. split; [|apply abspath_id]; by apply abspath_normal. Qed.

Lemma abspath_idempotent_witness :
  normal (path_abspath "/home/user" "../ls8/./examples//") ∧
  path_abspath "/home/user" (path_abspath "/home/user" "../ls8/./examples//")
  = path_abspath "/home/user" "../ls8/./examples//".
Proof. by apply abspath_idempotent. Defined.

(** [dirname] and [join] are inverse on normal paths: the directory part
    of [d/name] is [d], also when [d] is the root. *)
Theorem dirname_join_roundtrip d name :
  normal d → plain name →
  path_dirname (path_join d name) = d ∧ normal (path_join d name).
Proof. intros Hd Hn. split; [by apply dirname_join|by apply join_normal]. Qed.

Lemma dirname_join_roundtrip_witness :
  path_dirname (path_join "/" "ls8.py") = "/" ∧ normal (path_join "/" "ls8.py").
Proof.
  apply dirname_join_roundtrip; [|by compute_done].
  exists 1%nat, []. split_and!; [by left|done..].
Defined.

End Claims.
