(* ===== verification/Cli.v ===== *)
(** * Cli.v: the command line front end

    [src/ls8.py] as a whole: [resolve_program] turns the first command
    line argument into the path of a program file, the [__main__] block
    asserts that the file exists and calls [main], which reads the file,
    parses it ([Parser.v]) and runs the machine ([Programs.v]); two
    [except] clauses turn a failed assertion and an [IndexError] into
    messages.

    What the process can observe of its surroundings is a value of type
    [world]: the argument vector, the path of the script ([__file__]), the
    working directory, and the file system as a finite map from normal
    absolute paths to directories and text files.  [os.path] is
    [posixpath] as modelled in [Path.v].  A text file is read with
    universal newlines, as [open] does by default.  What the process
    prints is a string; an exception that no clause catches ends the
    process and is the [Raise] of the result.

    The theorems: [readlines] gives back the lines a text was written
    from; [resolve_program] fails only on a missing argument, depends on
    its argument only through the stem of its last component, and returns
    a normal absolute path; what the script prints and how it ends in each
    of its cases, among them that an [IndexError] of the running machine
    is reported as a missing argument; the exceptions the script can end
    with; and the composition of all the parts, from the argument vector
    and the file system to the output ([script_end_to_end]), used for a
    program with parameters ([script_sum]). *)

From Stdlib Require Import Ascii.
From S2P Require Import Prelude Python Loop Opcodes Parser Alu Cpu Run Exceptions.
From S2P Require Import Programs Path.

#[local] Open Scope Z_scope.
#[local] Open Scope ls8_scope.

(** ** The surroundings of the process *)

(** What a path of the file system names. *)
Inductive node : Set :=
  | Dir
  | File (text : string).

(** [sys.argv], [__file__], [os.getcwd()] and the file system. *)
Record world : Type := mkWorld {
  argv : list string;
  __file__ : string;
  cwd : string;
  fs : gmap string node
}.

(** [os.path.exists(p)] *)
Definition path_exists (w : world) (p : string) : bool :=
  bool_decide (is_Some (fs w !! p)).

(** [open(p)] for reading, as far as [f.readlines()] is concerned: the
    text of the file. *)
Definition open (w : world) (p : string) : result string :=
  match fs w !! p with
  | Some (File text) => Ok text
  | Some Dir => Raise IsADirectoryError
  | None => Raise FileNotFoundError
  end.

(** ** Reading lines *)

Definition CR : ascii := ascii_of_nat 13.
Definition LF : ascii := ascii_of_nat 10.

(** Universal newlines: a carriage return, with the line feed after it if
    there is one, is read as a line feed. *)
Fixpoint universal_newlines (text : string) : string :=
  match text with
  | String c rest =>
      if decide (c = CR) then
        match rest with
        | String d rest' =>
            if decide (d = LF) then String LF (universal_newlines rest')
            else String LF (universal_newlines rest)
        | EmptyString => String LF EmptyString
        end
      else String c (universal_newlines rest)
  | EmptyString => EmptyString
  end.

(** The lines of a text, each with its line feed; the last one has none
    when the text does not end with one. *)
Fixpoint keepends (text : string) : list string :=
  match text with
  | String c rest =>
      if decide (c = LF) then String c EmptyString :: keepends rest
      else
        match keepends rest with
        | line :: lines => String c line :: lines
        | [] => [String c EmptyString]
        end
  | EmptyString => []
  end.

(** [f.readlines()] on a file with the text [text]. *)
Definition readlines (text : string) : list string :=
  keepends (universal_newlines text).

(** A text as lines: every line is ended by a line feed. *)
Definition unlines (lines : list string) : string :=
  foldr (λ line text, line +:+ nl +:+ text) EmptyString lines.

(** A string without line feed and carriage return. *)
Definition one_line (line : string) : Prop :=
  all_chars (λ c, bool_decide (c ≠ CR ∧ c ≠ LF)) line.

#[export] Instance one_line_dec line : Decision (one_line line).
Proof. unfold one_line. apply _. Defined.

(** ** [main] *)

(** [print(line)] of the front end: the state is what the process has
    printed. *)
Definition echo (line : string) : M string unit :=
  modify (λ out, out +:+ line +:+ nl).

(** [main(program_file)]: how it ended and what it printed; [None] when the
    machine is still running after [fuel] instructions.  Before [run]
    nothing is printed. *)
Definition main_file (w : world) (program_file : string) (fuel : nat)
    : option (result unit * string) :=
  match open w program_file with
  | Ok text =>
      match main_lines (readlines text) fuel with
      | Ok o => (λ '(r, s), (r, stdout s)) <$> o
      | Raise e => Some (Raise e, EmptyString)
      end
  | Raise e => Some (Raise e, EmptyString)
  end.

(** ** [resolve_program] *)

(** [program.split('/')[-1].split('.')[0]]: the last component of the
    argument, up to its first dot. *)
Definition stem (program : string) : string :=
  before "." (default EmptyString (last (split "/" program))).

Definition resolve_program (w : world) : result string :=
  program ← getitem (argv w) 1;
  let this_dir := path_abspath (cwd w) (path_dirname (__file__ w)) in
  let examples_dir :=
    path_abspath (cwd w) (path_join (path_dirname (__file__ w)) "examples") in
  name ← getitem (split "/" program) (-1);
  stem ← getitem (split "." name) 0;
  let fname := stem +:+ ".ls8" in
  mret (if path_exists w examples_dir then path_join examples_dir fname
        else path_join this_dir fname).

(** ** The [__main__] block *)

(** The lines the second [except] clause prints. *)
Definition USAGE : list string :=
  [ nl +:+ "    ---------------------- ";
    "      REQUIRES A PROGRAM ";
    "    ---------------------- " +:+ nl;
    "***   USAGE: python3 ls8.py PROGRAM   ***";
    nl +:+ "*** EXAMPLE: python3 ls8.py sctest ***" +:+ nl ].

(** The body of the [try] statement. *)
Definition try_block (w : world) (fuel : nat) : option (result unit * string) :=
  match resolve_program w with
  | Ok program_file =>
      if path_exists w program_file then main_file w program_file fuel
      else Some (Raise AssertionError, EmptyString)
  | Raise e => Some (Raise e, EmptyString)
  end.

(** The two [except] clauses. *)
Definition except_clauses (w : world) (e : exn) : option (M string unit) :=
  match e with
  | AssertionError =>
      Some (program ← lift (getitem (argv w) 1);
            echo ("cannot find program: " +:+ program))
  | IndexError => Some (foldr (λ line rest, echo line;; rest) (mret tt) USAGE)
  | _ => None
  end.

(** The script: how the process ends and what it has printed by then. *)
Definition script (w : world) (fuel : nat) : option (result unit * string) :=
  o ← try_block w fuel;
  Some (try_except (λ _, o) (except_clauses w) EmptyString).

(** The exit status of the process. *)
Definition exit_status (r : result unit) : Z :=
  match r with Ok _ => 0 | Raise _ => 1 end.

(** The script is installed in the directory [d]: [__file__] is
    [d/ls8.py], and [d] is a normal absolute path. *)
Definition installed (d : string) (w : world) : Prop :=
  normal d ∧ __file__ w = path_join d "ls8.py".

(** The program file of the bytes [bytes] in the format of the
    specification, without comments: one line of eight digits per byte. *)
Definition program_text (bytes : list Z) : string := unlines (bin8 <$> bytes).

(** An installation in [/opt/ls8] whose examples hold the program [sum a b],
    started as [python3 ls8.py sum]. *)
Definition sum_world (a b : Z) : world :=
  {| argv := ["ls8.py"; "sum"];
     __file__ := "/opt/ls8/ls8.py";
     cwd := "/home/user";
     fs := <["/opt/ls8/examples" := Dir]>
             {["/opt/ls8/examples/sum.ls8" := File (program_text (sum a b))]} |}.

(** The exceptions the process can end with. *)
Definition SCRIPT_ERRORS : list exn :=
  [ZeroDivisionError; ValueError; UnboundLocalError; IsADirectoryError].

(** An installation in [/opt/ls8] with these programs among its examples:
    the first scenario of the specification, a program without HLT, a
    program with a line that is no binary number, a modulo by zero, a NOP
    as the first instruction, and a directory where a program file is
    expected. *)
Definition example_fs : gmap string node :=
  list_to_map
    [ ("/opt/ls8", Dir);
      ("/opt/ls8/ls8.py", File EmptyString);
      ("/opt/ls8/examples", Dir);
      ("/opt/ls8/examples/print17.ls8", File (str_join EmptyString print17_file));
      ("/opt/ls8/examples/no_halt.ls8",
       File (unlines ["10000010 # LDI R0,8"; "00000000"; "00001000";
                      "01000111 # PRN R0"; "00000000"]));
      ("/opt/ls8/examples/typo.ls8", File (unlines ["00000001"; "0000000l"]));
      ("/opt/ls8/examples/mod0.ls8",
       File (unlines ["10100100 # MOD R0,R1"; "00000000"; "00000001"]));
      ("/opt/ls8/examples/nop.ls8", File (unlines ["00000000 # NOP"; "00000001"]));
      ("/opt/ls8/examples/dir.ls8", Dir) ].

(** The process started as [python3 ls8.py args] in [/home/user]. *)
Definition example_world (args : list string) : world :=
  {| argv := "/opt/ls8/ls8.py" :: args;
     __file__ := "/opt/ls8/ls8.py";
     cwd := "/home/user";
     fs := example_fs |}.

(** ** Lines *)

Section Lines.
Implicit Types (text line t : string) (lines : list string) (c : ascii).

Lemma keepends_cons c text :
  keepends (String c text) =
  if decide (c = LF) then String c EmptyString :: keepends text
  else match keepends text with
       | line :: lines => String c line :: lines
       | [] => [String c EmptyString]
       end.
Proof. done. Qed.

(** The lines of a text, put together again, are the text. *)
Lemma keepends_join text : str_join EmptyString (keepends text) = text.
Proof.
  induction text as [|c text IH]; [done|]. rewrite keepends_cons. case_decide.
  - destruct (keepends text) as [|line lines]; simpl in *; by rewrite ?IH.
  - destruct (keepends text) as [|line lines]; [by simpl in *; subst|].
    by rewrite str_join_char, IH.
Qed.

Lemma keepends_line line text :
  one_line line → keepends (line +:+ nl +:+ text) = (line +:+ nl) :: keepends text.
Proof.
  induction line as [|c line IH]; [done|]. intros [Hc Hl]%andb_True.
  apply bool_decide_spec in Hc as [_ Hc]. rewrite !append_cons, keepends_cons.
  by rewrite decide_False, IH.
Qed.

Lemma keepends_unlines lines :
  Forall one_line lines → keepends (unlines lines) = (λ line, line +:+ nl) <$> lines.
Proof.
  induction 1 as [|line lines Hl _ IH]; [done|]. simpl.
  by rewrite keepends_line, IH.
Qed.

(** A text without carriage return is read as it is. *)
Lemma universal_newlines_id text :
  all_chars (λ c, bool_decide (c ≠ CR)) text → universal_newlines text = text.
Proof.
  induction text as [|c text IH]; [done|]. intros [Hc Ht]%andb_True. simpl.
  apply bool_decide_spec in Hc. by rewrite decide_False, IH.
Qed.

Lemma unlines_no_CR lines :
  Forall one_line lines → all_chars (λ c, bool_decide (c ≠ CR)) (unlines lines).
Proof.
  induction 1 as [|line lines Hl _ IH]; [done|]. simpl.
  rewrite !all_chars_app. split_and!; [|done..].
  eapply all_chars_impl; [|done]. intros c [??]%bool_decide_spec. by apply bool_decide_spec.
Qed.

Lemma readlines_unlines_eq lines :
  Forall one_line lines → readlines (unlines lines) = (λ line, line +:+ nl) <$> lines.
Proof.
  intros Hl. unfold readlines.
  rewrite universal_newlines_id by by apply unlines_no_CR.
  by apply keepends_unlines.
Qed.

(** A line of the specification's format is still one with its line feed. *)
Lemma line_of_bin8 z : line_of z (bin8 z).
Proof. exists EmptyString, EmptyString. split_and!; [done|by left|by rewrite append_nil_r]. Qed.

Lemma one_line_bin8 z : one_line (bin8 z).
Proof.
  unfold one_line, bin8. generalize 8%nat. intros n. revert z.
  induction n as [|n IH]; intros z; [done|]. simpl.
  apply all_chars_app. split; [apply IH|]. by destruct (Z.odd z).
Qed.

Lemma line_of_nl z line : line_of z line → line_of z (line +:+ nl).
Proof.
  intros (w & rest & Hw & [->|[c ->]] & ->).
  - exists (w +:+ nl), EmptyString. split_and!; [|by left|by rewrite !append_nil_r, append_assoc].
    apply all_chars_app. by split.
  - exists w, (String "#" (c +:+ nl)). split_and!; [done|right; by eexists|].
    by rewrite !append_assoc.
Qed.

End Lines.

(** ** Resolving the program *)

Section Resolve.
Implicit Types (w : world) (program d p name : string) (e : exn).

Lemma getitem_1 {A} (l : list A) (x : A) : l !! 1%nat = Some x → getitem l 1 = Ok x.
Proof.
  intros Hl. rewrite getitem_nonneg by done. change (Z.to_nat 1) with 1%nat.
  by rewrite Hl.
Qed.

Lemma getitem_1_Raise {A} (l : list A) :
  (length l < 2)%nat → getitem l 1 = Raise IndexError.
Proof.
  intros Hl. rewrite getitem_nonneg by done. change (Z.to_nat 1) with 1%nat.
  by rewrite lookup_ge_None_2 by lia.
Qed.

(** The two subscripts on the pieces of the argument give its stem. *)
Lemma getitem_stem program :
  (name ← getitem (split "/" program) (-1); getitem (split "." name) 0) = Ok (stem program).
Proof.
  destruct (getitem_split_last "/" program) as (name & Hlast & ->). unfold stem.
  rewrite Hlast. apply getitem_split_0.
Qed.

Lemma resolve_program_Ok w program :
  argv w !! 1%nat = Some program →
  resolve_program w =
  let this_dir := path_abspath (cwd w) (path_dirname (__file__ w)) in
  let examples_dir :=
    path_abspath (cwd w) (path_join (path_dirname (__file__ w)) "examples") in
  Ok (path_join (if path_exists w examples_dir then examples_dir else this_dir)
        (stem program +:+ ".ls8")).
Proof.
  intros Hargv. unfold resolve_program. rewrite (getitem_1 _ _ Hargv). cbv zeta.
  pose proof (getitem_stem program) as Hstem. simpl in *.
  destruct (getitem (split "/" program) (-1)) as [name|]; [|done]. simpl in *.
  rewrite Hstem. simpl. by case_match.
Qed.

Lemma resolve_program_is_Ok w program :
  argv w !! 1%nat = Some program → ∃ p, resolve_program w = Ok p.
Proof. intros Hargv. rewrite (resolve_program_Ok w program Hargv). by eexists. Qed.

Lemma resolve_program_Raise w :
  (length (argv w) < 2)%nat → resolve_program w = Raise IndexError.
Proof. intros Hargv. unfold resolve_program. by rewrite getitem_1_Raise. Qed.

Lemma resolve_program_cases w :
  (∃ program, argv w !! 1%nat = Some program) ∨ (length (argv w) < 2)%nat.
Proof.
  destruct (argv w !! 1%nat) as [program|] eqn:Hargv; [by eauto|].
  right. apply lookup_ge_None in Hargv. lia.
Qed.

Lemma without_before c ch x :
  all_chars (λ a, bool_decide (a ≠ c)) x →
  all_chars (λ a, bool_decide (a ≠ c)) (before ch x).
Proof.
  induction x as [|a x IH]; [done|]. intros [Ha Hx]%andb_True. simpl.
  destruct (decide (a = ch)); [done|]. apply andb_True. auto.
Qed.

Lemma last_split_without c program :
  all_chars (λ a, bool_decide (a ≠ c)) (default EmptyString (last (split c program))).
Proof.
  destruct (last (split c program)) as [name|] eqn:Hlast; [|done]. simpl.
  apply last_Some in Hlast as [l Hl]. pose proof (split_Forall c program) as Hall.
  rewrite Hl in Hall. apply Forall_app in Hall as [_ Hall]. by inversion Hall.
Qed.

(** The name of the program file is a plain path component. *)
Lemma fname_plain program : plain (stem program +:+ ".ls8").
Proof.
  assert (all_chars (λ a, bool_decide (a ≠ "/"%char)) (stem program)) as Hstem
    by apply without_before, last_split_without.
  split_and!; [by destruct (stem program) as [|? [|? [|? ?]]]..|].
  apply all_chars_app. by split.
Qed.

End Resolve.

(** ** The try block and the except clauses *)

Section Script.
Implicit Types (w : world) (fuel : nat) (program p out : string) (e : exn).
Implicit Types (r : result unit) (lines : list string).

Lemma echo_ok line out : echo line out = (Ok tt, out +:+ line +:+ nl).
Proof. done. Qed.

(** A sequence of [print] statements appends the lines. *)
Lemma echo_lines lines out :
  foldr (λ line rest, echo line;; rest) (mret tt) lines out
  = (Ok tt, out +:+ unlines lines).
Proof.
  revert out. induction lines as [|line lines IH]; intros out; simpl.
  - by rewrite append_nil_r.
  - erewrite bind_Ok by apply echo_ok. by rewrite IH, !append_assoc.
Qed.

Lemma script_try w fuel o :
  try_block w fuel = Some o →
  script w fuel = Some (try_except (λ _, o) (except_clauses w) EmptyString).
Proof. unfold script. by intros ->. Qed.

(** The try block when the argument resolves to an existing path. *)
Lemma try_block_main w fuel p :
  resolve_program w = Ok p → path_exists w p →
  try_block w fuel = main_file w p fuel.
Proof.
  unfold try_block. intros -> Hp. by rewrite (Is_true_eq_true _ Hp).
Qed.

Lemma path_exists_None w p : fs w !! p = None → path_exists w p = false.
Proof. unfold path_exists. intros ->. apply bool_decide_eq_false. by intros []. Qed.

(** [load] and [run] raise what [run] alone can raise. *)
Lemma main_raises (bytes : list Z) fuel e s :
  main bytes fuel = Some (Raise e, s) → run_error e.
Proof.
  unfold main. destruct (load _ _) as [[[]|e'] s'] eqn:Hload.
  - apply (run_from_throws run_error).
  - intros [= <- _]. by eapply (load_throws run_error) in Hload.
Qed.

(** What [main] can raise on a path that exists. *)
Lemma main_file_raises w p fuel e out :
  main_file w p fuel = Some (Raise e, out) → path_exists w p →
  e = IsADirectoryError ∨ e = ValueError ∨ run_error e.
Proof.
  unfold path_exists, main_file, open, main_lines.
  intros Hmain [node Hp]%bool_decide_spec. revert Hmain. rewrite Hp. destruct node as [|text]; [naive_solver|].
  destruct (parse_program _) as [bytes|e'] eqn:Hparse.
  - destruct (main bytes fuel) as [[[] s]|] eqn:Hmain; [done| |done].
    intros [= <- _]. right; right. by eapply main_raises.
  - intros [= <- _]. right; left. by eapply parse_program_Raise.
Qed.

(** What the try block can raise: [IndexError] (no argument, or from the
    machine), [AssertionError] only when there is an argument, or one of
    the exceptions no clause catches. *)
Lemma try_block_raises w fuel e out :
  try_block w fuel = Some (Raise e, out) →
  e = IndexError ∨ (e = AssertionError ∧ is_Some (argv w !! 1%nat)) ∨ e ∈ SCRIPT_ERRORS.
Proof.
  unfold try_block. destruct (resolve_program_cases w) as [[program Hargv]|Hargv].
  - destruct (resolve_program_is_Ok w program Hargv) as [p ->].
    destruct (path_exists w p) eqn:Hp; [|intros [= <- _]; by eauto].
    intros He%main_file_raises; [|by rewrite Hp]. destruct He as [->|[->|He]].
    + right; right. by compute_done.
    + right; right. by compute_done.
    + unfold run_error, RUN_ERRORS in He.
      elem_cases He; [by left|right; right; by compute_done..].
  - rewrite resolve_program_Raise by done. intros [= <- _]. by left.
Qed.

End Script.

(** ** The theorems *)

Section Claims.
Implicit Types (w : world) (fuel : nat) (program p out d text : string) (e : exn).
Implicit Types (r : result unit) (lines : list string) (bytes : list Z).

(** The lines [readlines] returns, put together again, are the text of the
    file as read with universal newlines: no character is lost and none
    is added. *)
Theorem readlines_join text :
  str_join EmptyString (readlines text) = universal_newlines text.
Proof. apply keepends_join. Qed.

Lemma main_file_lines w p lines bytes fuel :
  fs w !! p = Some (File (unlines lines)) → Forall one_line lines →
  Forall byte bytes → Forall2 line_of bytes lines →
  main_file w p fuel = (λ '(r, s), (r, stdout s)) <$> main bytes fuel.
Proof.
  intros Hp Hlines Hbytes Hformat. unfold main_file, open, main_lines.
  rewrite Hp, readlines_unlines_eq by done.
  rewrite (parse_program_roundtrip bytes); [done..|].
  apply Forall2_fmap_r. eapply Forall2_impl; [done|]. apply line_of_nl.
Qed.

(** C12. From bytes to a program file and back: a file that holds one line per
    byte in the format of the specification (eight binary digits, optional
    white space, optional comment), each ended by a line feed, makes [main]
    load and run exactly these bytes. *)
Theorem main_file_format w p lines bytes fuel :
  fs w !! p = Some (File (unlines lines)) → Forall one_line lines →
  Forall byte bytes → Forall2 line_of bytes lines →
  main_file w p fuel = (λ '(r, s), (r, stdout s)) <$> main bytes fuel.
Proof. apply main_file_lines. Qed.

Lemma main_file_format_witness :
  main_file (mkWorld [] "" "/" {["/p" := File (unlines ["00000001 # HLT"])]}) "/p" 1
  = (λ '(r, s), (r, stdout s)) <$> main [HLT] 1.
Proof.
  apply (main_file_format _ "/p" ["00000001 # HLT"] [HLT] 1); [done|by compute_done..|].
  repeat constructor. exists " ", "# HLT".
  split_and!; [by vm_compute|right; by eexists|by vm_compute].
Defined.

Lemma resolve_program_at d w program :
  installed d w → argv w !! 1%nat = Some program →
  resolve_program w =
  Ok (path_join (if path_exists w (path_join d "examples")
                 then path_join d "examples" else d)
        (stem program +:+ ".ls8")).
Proof.
  intros [Hd Hfile] Hargv. rewrite (resolve_program_Ok w program Hargv), Hfile.
  cbv zeta. rewrite dirname_join by (done || by compute_done).
  rewrite !abspath_id; [done..|]. apply join_normal; [done|by compute_done].
Qed.

(** C27. Where the program file is looked for: with the script installed in
    [d], it is [d/examples/stem.ls8] when [d/examples] exists and
    [d/stem.ls8] otherwise, where [stem] is the last component of the
    argument up to its first dot.  Directories and extensions given on the
    command line are dropped. *)
Theorem resolve_program_installed d w program :
  installed d w → argv w !! 1%nat = Some program →
  resolve_program w =
  Ok (path_join (if path_exists w (path_join d "examples")
                 then path_join d "examples" else d)
        (stem program +:+ ".ls8")).
Proof. apply resolve_program_at. Qed.

Lemma resolve_program_installed_witness :
  resolve_program (example_world ["some/where/print17.txt"])
  = Ok "/opt/ls8/examples/print17.ls8".
Proof.
  apply (resolve_program_installed "/opt/ls8" (example_world ["some/where/print17.txt"])
           "some/where/print17.txt"); [|done].
  split; [|by vm_compute]. exists 1%nat, ["opt"; "ls8"].
  split_and!; [by left|by compute_done|by vm_compute].
Defined.

(** [resolve_program] returns a normal absolute path: what [open] and
    [os.path.exists] are given never depends on the working directory
    beyond the directory of the script. *)
Theorem resolve_program_normal w p :
  path_isabs (cwd w) → resolve_program w = Ok p → normal p.
Proof.
  intros Hcwd Hres. destruct (resolve_program_cases w) as [[program Hargv]|Hargv].
  - rewrite (resolve_program_Ok w program Hargv) in Hres. injection Hres as <-.
    apply join_normal; [|apply fname_plain]. case_match; by apply abspath_normal.
  - by rewrite resolve_program_Raise in Hres.
Qed.

Lemma resolve_program_normal_witness : normal "/opt/ls8/examples/print17.ls8".
Proof.
  apply (resolve_program_normal (example_world ["print17"])); [done|by vm_compute].
Defined.

(** It fails in one way only: [IndexError], when no argument was given. *)
Theorem resolve_program_IndexError w e :
  resolve_program w = Raise e ↔ e = IndexError ∧ (length (argv w) < 2)%nat.
Proof.
  destruct (resolve_program_cases w) as [[program Hargv]|Hargv].
  - destruct (resolve_program_is_Ok w program Hargv) as [p ->].
    apply lookup_lt_Some in Hargv. split; [done|lia].
  - rewrite resolve_program_Raise by done. naive_solver.
Qed.

(** Without an argument the script prints the usage text and ends
    normally. *)
Theorem script_usage w fuel :
  (length (argv w) < 2)%nat → script w fuel = Some (Ok tt, unlines USAGE).
Proof.
  intros Hargv. erewrite script_try by (unfold try_block; by rewrite resolve_program_Raise).
  erewrite try_except_caught by done. apply f_equal, echo_lines.
Qed.

Lemma script_usage_witness : script (example_world []) 0 = Some (Ok tt, unlines USAGE).
Proof. apply script_usage. by compute_done. Defined.

(** When the path the argument resolves to does not exist, the script
    names the argument as it was given and ends normally, without having
    made a machine. *)
Theorem script_cannot_find w fuel program p :
  argv w !! 1%nat = Some program → resolve_program w = Ok p → fs w !! p = None →
  script w fuel = Some (Ok tt, "cannot find program: " +:+ program +:+ nl).
Proof.
  intros Hargv Hres Hp.
  erewrite script_try by (unfold try_block; by rewrite Hres, path_exists_None).
  erewrite try_except_caught by done.
  by erewrite bind_Ok by (by rewrite lift_ok, (getitem_1 _ _ Hargv)).
Qed.

Lemma script_cannot_find_witness :
  script (example_world ["sctest"]) 0
  = Some (Ok tt, "cannot find program: " +:+ "sctest" +:+ nl).
Proof.
  apply (script_cannot_find _ _ _ "/opt/ls8/examples/sctest.ls8"); by vm_compute.
Defined.

Lemma script_main w fuel p r out :
  resolve_program w = Ok p → path_exists w p →
  main_file w p fuel = Some (r, out) → r ≠ Raise IndexError →
  script w fuel = Some (r, out).
Proof.
  intros Hres Hp Hmain Hr.
  erewrite script_try by (by rewrite (try_block_main w fuel p)).
  destruct r as [[]|e]; [done|].
  apply f_equal, try_except_uncaught; [done|].
  apply main_file_raises in Hmain as [->|[->|He]]; [done..| |done].
  unfold run_error, RUN_ERRORS in He. by elem_cases He.
Qed.

(** A program that is found is run: the script ends the way [main] ends
    and has printed what [main] printed, unless [main] ended with
    [IndexError]. *)
Theorem script_runs w fuel p r out :
  resolve_program w = Ok p → path_exists w p →
  main_file w p fuel = Some (r, out) → r ≠ Raise IndexError →
  script w fuel = Some (r, out).
Proof. apply script_main. Qed.

Lemma script_runs_witness :
  script (example_world ["print17"]) 5 = Some (Ok tt, "17" +:+ nl).
Proof.
  apply (script_runs _ _ "/opt/ls8/examples/print17.ls8"); by vm_compute.
Defined.

(** C14. An [IndexError] of the machine (a program without HLT that runs off
    the end of the memory, a program longer than the memory, a register
    number above 7) is caught by the clause meant for a missing argument:
    after whatever the program printed, the script prints the usage text
    and ends normally. *)
Theorem script_IndexError w fuel p out :
  resolve_program w = Ok p → path_exists w p →
  main_file w p fuel = Some (Raise IndexError, out) →
  script w fuel = Some (Ok tt, out +:+ unlines USAGE).
Proof.
  intros Hres Hp Hmain.
  erewrite script_try by (by rewrite (try_block_main w fuel p)).
  erewrite try_except_caught by done. apply f_equal, echo_lines.
Qed.

Lemma script_IndexError_witness :
  script (example_world ["no_halt"]) 300 = Some (Ok tt, ("8" +:+ nl) +:+ unlines USAGE).
Proof.
  apply (script_IndexError _ _ "/opt/ls8/examples/no_halt.ls8"); by vm_compute.
Defined.

(** C34. The exceptions the process can end with: those of the arithmetic, a
    local of [run] read before it was bound, a malformed line of the
    program file, and a directory in the place of the program file.
    [IndexError] and [AssertionError] never leave the script. *)
Theorem script_raises_only w fuel e out :
  script w fuel = Some (Raise e, out) → e ∈ SCRIPT_ERRORS.
Proof.
  unfold script. destruct (try_block w fuel) as [[[[]|e'] out']|] eqn:Htry; [done| |done].
  simpl. intros [= Hexcept].
  apply try_block_raises in Htry as [->|[[-> [program Hargv]]|He']].
  - erewrite try_except_caught in Hexcept by done. by rewrite echo_lines in Hexcept.
  - erewrite try_except_caught in Hexcept by done.
    by erewrite bind_Ok in Hexcept by (by rewrite lift_ok, (getitem_1 _ _ Hargv)).
  - unfold SCRIPT_ERRORS in He'.
    elem_cases He';
      match type of Hexcept with
      | context [Raise ?e'] =>
          rewrite (try_except_uncaught _ _ _ e' out') in Hexcept by done
      end; injection Hexcept as <- _; by compute_done.
Qed.

Lemma script_raises_only_witness : ValueError ∈ SCRIPT_ERRORS.
Proof.
  apply (script_raises_only (example_world ["typo"]) 0 ValueError EmptyString).
  by vm_compute.
Defined.

(** Each of them is the end of some run of the script. *)
Theorem script_errors_exact :
  Forall (λ e, ∃ args fuel out, script (example_world args) fuel = Some (Raise e, out))
    SCRIPT_ERRORS.
Proof.
  repeat apply Forall_cons_2; [..|apply Forall_nil_2].
  - by exists ["mod0"], 1%nat, EmptyString.
  - by exists ["typo"], 0%nat, EmptyString.
  - by exists ["nop"], 1%nat, EmptyString.
  - by exists ["dir"], 0%nat, EmptyString.
Qed.

Lemma script_installed d w name lines bytes fuel r s :
  installed d w → argv w !! 1%nat = Some name →
  path_exists w (path_join d "examples") →
  fs w !! path_join (path_join d "examples") (stem name +:+ ".ls8")
    = Some (File (unlines lines)) →
  Forall one_line lines → Forall byte bytes → Forall2 line_of bytes lines →
  main bytes fuel = Some (r, s) → r ≠ Raise IndexError →
  script w fuel = Some (r, stdout s).
Proof.
  intros Hinst Hargv Hex Hfile Hlines Hbytes Hfmt Hmain Hr.
  apply (script_main w fuel (path_join (path_join d "examples") (stem name +:+ ".ls8")));
    [|by unfold path_exists; rewrite Hfile| |done].
  - rewrite (resolve_program_at d w name) by done. by destruct (path_exists w _).
  - rewrite (main_file_lines w _ lines bytes) by done. by rewrite Hmain.
Qed.

(** C25. From the command line to the output: with the script installed in [d],
    a program file among its examples that holds the bytes [bytes] in the
    format of the specification, and the name of the program as the
    argument, the script ends the way [main] ends on these bytes and has
    printed what the machine printed, unless the machine ended with
    [IndexError]. *)
Theorem script_end_to_end d w name lines bytes fuel r s :
  installed d w → argv w !! 1%nat = Some name →
  path_exists w (path_join d "examples") →
  fs w !! path_join (path_join d "examples") (stem name +:+ ".ls8")
    = Some (File (unlines lines)) →
  Forall one_line lines → Forall byte bytes → Forall2 line_of bytes lines →
  main bytes fuel = Some (r, s) → r ≠ Raise IndexError →
  script w fuel = Some (r, stdout s).
Proof. apply script_installed. Qed.

Lemma script_end_to_end_witness :
  script (sum_world 8 9) 5
  = Some (Ok tt, stdout (mkCPU [17; 9; 0; 0; 0; 0; 0; 0xF4] 12 0 (ram (booted (sum 8 9)))
                           ("17" +:+ nl))).
Proof.
  apply (script_end_to_end "/opt/ls8" (sum_world 8 9) "sum" (bin8 <$> sum 8 9) (sum 8 9) 5);
    [|done|done|done|by compute_done|by compute_done| |by vm_compute|done].
  - split; [|by vm_compute]. exists 1%nat, ["opt"; "ls8"].
    split_and!; [by left|by compute_done|by vm_compute].
  - apply Forall2_fmap_r, Forall_Forall2_diag, Forall_true, line_of_bin8.
Defined.

(** C26. The whole system on a program with parameters: for all bytes [a] and
    [b], [python3 ls8.py sum] on the installation whose examples hold
    [sum a b] prints [a + b] and ends normally. *)
Theorem script_sum a b :
  byte a → byte b → script (sum_world a b) 5 = Some (Ok tt, str (a + b) +:+ nl).
Proof.
  intros Ha Hb.
  apply (script_installed "/opt/ls8" (sum_world a b) "sum" (bin8 <$> sum a b) (sum a b) 5
           (Ok tt) (mkCPU [a + b; b; 0; 0; 0; 0; 0; 0xF4] 12 0 (ram (booted (sum a b)))
                      (str (a + b) +:+ nl))); [..|apply main_sum_run|done].
  - split; [|by vm_compute]. exists 1%nat, ["opt"; "ls8"].
    split_and!; [by left|by compute_done|by vm_compute].
  - done.
  - done.
  - done.
  - apply Forall_fmap, Forall_true, one_line_bin8.
  - unfold sum. rewrite !Forall_cons, Forall_nil. split_and!; done || by compute_done.
  - apply Forall2_fmap_r, Forall_Forall2_diag, Forall_true, line_of_bin8.
Qed.

Lemma script_sum_witness : script (sum_world 8 9) 5 = Some (Ok tt, "17" +:+ nl).
Proof. apply (script_sum 8 9); by compute_done. Defined.

End Claims.
